(* ===== verification/_CoqProject ===== *)
-Q . S2P
Prelude.v
Status.v
Memory.v
Layout.v
Pool.v
PoolMem.v
PoolSep.v
Codec.v
Table.v
TableSpec.v
TableOps.v
Clone.v
MethodCodec.v
MethodTypes.v
MethodDecode.v
MethodEncode.v
MethodSpec.v
Properties.v
PropertiesSpec.v
Names.v
Time.v
Url.v
UrlSpec.v
Connection.v
ConnectionSpec.v
FrameSpec.v
Net.v
Select.v
Version.v
Posix.v
PosixSpec.v
OpenSsl.v
OpenSslLaws.v
SslThreads.v
ConnState.v
Tcp.v
TcpSpec.v
Ssl.v
SslSpec.v
SslNet.v
Socket.v
Rpc.v
Wrappers.v
QueueSpec.v
LifeSpec.v
SocketSpec.v
RecvSpec.v
HeartbeatSpec.v
RpcSpec.v
ReplySpec.v
Api.v
ApiSpec.v
Consumer.v
ConsumerSpec.v
Login.v
LoginSpec.v
MergeSpec.v
HandshakeSpec.v
Stdio.v
ToolOpts.v
Sockets.v
Tools.v
Programs.v
ToolsSpec.v
