(* ===== verification/Prelude.v ===== *)
(** * rabbitmq-c for KasperskyOS: a verification of the client library

    The library under [src/librabbitmq] speaks AMQP 0-9-1.  An application's calls
    become methods and content headers, these become frames, the frames go to a socket
    (TCP or TLS); what the socket delivers is cut back into frames and decoded, into
    memory that belongs to a pool per channel, and queued, matched with the call that
    waits for it or put together to a message.  This development models that path from the
    bytes up, in C's terms (LP64 sizes, wrapping [size_t], a heap that may refuse any
    request, reads and writes that are undefined outside their object), and proves what
    each part promises to the next.

    ** How the code is modelled

    A C function is a function of type [eff S A] (this file): from a state to a result
    and a state.  [Ret] is a return, [Err st] a return of the negative status [st],
    [Undef] is undefined behaviour in C (out-of-bounds access, signed overflow, a shift
    too far, a null dereference, a failed [assert] or [amqp_abort]), [NoFuel] marks the
    model's own bound on a loop.  Theorems exclude [Undef] and [NoFuel] explicitly.
    Integers are [Z] with their conversions written out ([wrap], [swrap], [size_add],
    [size_sub]); bytes are [Byte.byte]; an [amqp_bytes_t] is its contents.  Buffers are
    lists, read with [load] and written with [store], which fail out of range.  A pointer
    is [None] for [NULL] and otherwise the number of its block.

    What is not C of this repository is a parameter: a class of operations and a class of
    laws, which say what the manuals promise, with an instance that keeps them.
    These are the heap and the pools as the decoders see them ([MemOps], [MemLaws]), the
    socket as the frame engine sees it ([Net], [NetLaws]), the system calls ([Posix],
    [PosixLaws]) and OpenSSL ([OpenSSL], [OpenSSLLaws]).  The code of the repository
    implements the first two: [Pool] and [PoolSep] discharge [MemLaws], [TcpSpec] and [SslNet]
    discharge [NetLaws].

    ** The files, in order, and the code they model

    Foundations:
    - [Prelude]: results, effects, machine integers, buffers, [switch], loops, tactics.
    - [Status]: [amqp_status_enum] and the frame constants ([amqp.h], [framing.h]).
    - [Memory]: the interface [MemOps] the decoders use to allocate, and its laws
      [MemLaws]; [plenty p k m] says that the next [k] allocations from pool [p] succeed.
    - [Layout]: [sizeof] of C structures from their members.
    - [Pool], [PoolMem], [PoolSep]: [amqp_mem.c], the pool allocator over an explicit C
      heap with refusals, the channel pool table, the instance of [MemOps] that is this code,
      and pools of several channels in one heap.

    Codecs:
    - [Codec]: the scalar codecs of [amqp_private.h] for hosts of either byte order;
      [Emits] (what an encoder writes) and [Parses]/[DecSafe] (what a decoder reads, and
      its safety on any input), the three judgements the larger codecs are proved with.
    - [Table], [TableSpec], [TableOps]: field tables of [amqp_table.c], their wire format,
      cloning, comparison and lookup.
    - [MethodCodec]: the field-level building blocks of [amqp_framing.c].
    - [MethodTypes], [MethodDecode], [MethodEncode], [MethodSpec]: the 66 method
      structures and [amqp_decode_method], [amqp_encode_method].
    - [Properties], [PropertiesSpec]: [amqp_decode_properties], [amqp_encode_properties].
    - [Names]: the constant and method name switches of [amqp_framing.c].
    - [Time], [Url], [UrlSpec]: deadlines ([amqp_time.c]) and the URL parser ([amqp_url.c]).

    Connections:
    - [Connection], [ConnectionSpec], [FrameSpec]: [amqp_connection.c], the input state
      machine [amqp_handle_input] and [amqp_frame_to_bytes], its invariant, and input in pieces.
    - [ConnState], [LifeSpec]: the whole of [amqp_connection_state_t]; creation, tuning,
      buffer release and destruction.
    - [Net], [Select]: the interface of a socket, and [amqp_poll], for systems with [poll]
      and with [select].
    - [Posix], [PosixSpec]: [amqp_open_socket] of [amqp_socket.c] and the ownership of
      descriptors.
    - [Tcp], [TcpSpec]: [amqp_tcp_socket.c].
    - [OpenSsl], [OpenSslLaws], [SslThreads]: the BIO of [amqp_openssl_bio.c] and the
      variables of [amqp_openssl.c] that all threads share under a mutex.
    - [Ssl], [SslSpec], [SslNet]: the TLS socket of [amqp_openssl.c].
    - [Socket], [SocketSpec], [QueueSpec], [RecvSpec], [HeartbeatSpec]: sending and receiving
      frames, the queue of frames read ahead, and heartbeats ([amqp_socket.c],
      [amqp_send_frame]).
    - [Rpc], [Wrappers], [RpcSpec], [ReplySpec]: the RPC engine of [amqp_socket.c] and the
      20 generated wrappers of [amqp_framing.c].
    - [Login], [LoginSpec], [MergeSpec], [HandshakeSpec]: SASL, capabilities and the
      handshake of [amqp_login], up to a whole login.

    Applications:
    - [Version]: the version of the library ([amqp_mem.c], [amqp.h]).
    - [Api], [ApiSpec]: error strings, publishing and closing ([amqp_api.c]).
    - [Consumer], [ConsumerSpec]: messages put together from frames ([amqp_consumer.c]).
    - [Stdio], [ToolOpts], [Sockets], [Tools], [Programs], [ToolsSpec]: the command-line tools
      under [src/tools]: dying, reading and writing everything, the credentials file, the
      connection options, sockets of either class, and the five programs from their
      options to their exit status; here [Err n] is [exit(n)].

    ** What the theorems show

    - Round trips: tables of any nesting, all methods, all property sets, whole frames
      (however the bytes are cut up) and URLs come back as they were written.
    - Safety on hostile input: the table, method and property decoders, the URL parser and
      the input state machine terminate inside their buffers on any bytes; the exceptions
      that the code has are theorems of their own.
    - The input state machine: one call on a stream is the same as several calls on its
      pieces; its invariant holds after every call; every call makes progress.
    - Memory: regions handed out by pools are aligned, live and disjoint after any history,
      whatever the heap refuses; pools of different channels are apart; emptying a pool and
      destroying a connection free every block once; releasing buffers never takes a queued
      frame away; replies have the type they are read as.
    - Refinement: the linked frame queue is a list, the channel pool table a map, and the
      TCP and TLS sockets are sockets in the sense of [NetLaws].
    - Delivery: whatever pieces the socket delivers, the frames of the peer come out in
      order, a call gets the method that answers it and keeps the frames it passed, a
      published message is on the wire as its frames, a consumed one is that of its frames.
    - Descriptors and objects: opening a socket owns exactly what it returns; after any
      use, deleting a TCP or TLS socket gives back all descriptors and objects; a TLS
      connection is only handed out verified; the TLS library is safe for threads;
      the versions of TLS are those asked for, but for one case.
    - Login: a whole login with a server that follows the protocol completes and leaves
      the connection ready for use, with the limits negotiated and the merged capabilities.
    - Tools: a message's body comes out whole, standard input goes out as one message, the
      options make the connection they describe, the credentials file is read exactly.
    - Deadlines and heartbeats: a timeout is over when it has elapsed, in 64-bit nanoseconds;
      while nothing arrives a wait ends at its deadline or gives the peer up, and heartbeats
      go out at the agreed interval.

    ** Bounds and fuel

    Buffers are below 2^63 bytes for the scalar codecs and at most 2^30 for the decoders
    (the scratch arrays of [amqp_decode_table] are counted in an [int] that is doubled);
    the library's default [frame_max] is 131072.  Table decoding has the fuel
    [S (length encoded)], enough since every loop turn and every nesting level consumes a
    byte ([table_decode_safe] excludes [NoFuel]); the flag loops have a fixed fuel of 3
    and 2, as a third word is already undefined and 32 bits of flags have two words.
    Loops over what the environment answers take a fuel argument; waiting for a silent peer
    takes one turn per nanosecond that passes at most ([silent_peer_given_up]).  [frames_delivered],
    [rpc_answered] and [login_completes] show how much is enough, twice the number of answers and once the number
    of frames; publishing needs more than the length of the body.  Opening, sending and
    receiving have no end only when a system call is interrupted for ever or a peer keeps
    the handshake of TLS waiting, and theorems say so ([poll_interrupted],
    [errno_interrupted], [tls_endless]).

    ** What is not modelled

    The Windows variants; the text [amqp_abort] prints; OpenSSL, [popt] and the C library, which are parameters;
    the programs under [src/examples] and [src/tests]; and the C++ programs
    under [src/kos], which are clients of the library.  The theorems about delivery and
    login are about connections without heartbeats and without limits of time. *)

From stdpp Require Export base list gmap strings.
From Stdlib Require Export ZArith Lia.
From Stdlib Require Export Strings.Byte.
#[global] Open Scope Z_scope.
#[export] Set Warnings "-clear-no-such-hyp,-level-tolerance".

(** ** Outcomes and effects

    [res A] is what a C call can do: return a value, return a negative
    [amqp_status_enum], leave the defined part of C ([Undef]: an access outside
    the object, a signed overflow, a null dereference), or use up the fuel of the
    model ([NoFuel]; every loop is later shown never to do so). *)

Inductive res (A : Type) : Type :=
| Ret (a : A)
| Err (st : Z)
| Undef
| NoFuel.
Arguments Ret {A} a.
Arguments Err {A} st.
Arguments Undef {A}.
Arguments NoFuel {A}.

(** A C function over the state [S]: the state survives an error return. *)
Definition eff (S A : Type) : Type := S -> res A * S.

Definition ret {S A} (a : A) : eff S A := fun s => (Ret a, s).
Definition fail {S A} (st : Z) : eff S A := fun s => (Err st, s).
Definition undef {S A} : eff S A := fun s => (Undef, s).
Definition nofuel {S A} : eff S A := fun s => (NoFuel, s).
Definition get {S} : eff S S := fun s => (Ret s, s).
Definition modify {S} (f : S -> S) : eff S unit := fun s => (Ret tt, f s).
Definition lift_res {S A} (r : res A) : eff S A := fun s => (r, s).
Definition bind {S A B} (m : eff S A) (k : A -> eff S B) : eff S B :=
  fun s => match m s with
           | (Ret a, s') => k a s'
           | (Err st, s') => (Err st, s')
           | (Undef, s') => (Undef, s')
           | (NoFuel, s') => (NoFuel, s')
           end.

Declare Scope c_scope.
Delimit Scope c_scope with c.
Notation "'let!' x ':=' m 'in' k" := (bind m (fun x => k))
  (at level 10, x binder, m at level 100, k at level 200) : c_scope.
Notation "'do!' m 'in' k" := (bind m (fun _ => k))
  (at level 10, m at level 100, k at level 200) : c_scope.
#[global] Open Scope c_scope.

(** [for (i = 0; i < n; i++)] over the elements of an array. *)
Section ForEach.
Context {S A : Type} (f : A -> eff S unit).
Fixpoint for_each (l : list A) : eff S unit :=
  match l with
  | [] => ret tt
  | x :: l' => bind (f x) (fun _ => for_each l')
  end.
End ForEach.

(** [switch (n) { case c1: b1; ... default: d }], every case returning. *)
Fixpoint switch {A} (n : Z) (cases : list (Z * A)) (d : A) : A :=
  match cases with
  | [] => d
  | (c, b) :: cases' => if n =? c then b else switch n cases' d
  end.

Lemma switch_case {A} (P : A -> Prop) n cases d :
  Forall (fun c => n = c.1 -> P c.2) cases -> P d -> P (switch n cases d).
Proof.
  induction 1 as [|[c b] cases Hb _ IH]; simpl; intros Hd; [done|].
  destruct (Z.eqb_spec n c); auto.
Qed.

Lemma switch_ind {A} (P : A -> Prop) n cases d :
  Forall (fun c => P c.2) cases -> P d -> P (switch n cases d).
Proof. intros Hc. apply switch_case. eapply Forall_impl; [exact Hc|]. by intros [c b] ??. Qed.

(** ** Monad laws used for rewriting *)

Lemma bind_ret_l {S A B} (a : A) (k : A -> eff S B) s : bind (ret a) k s = k a s.
Proof. reflexivity. Qed.

Lemma bind_step {S A B} (m : eff S A) (k : A -> eff S B) s a s' :
  m s = (Ret a, s') -> bind m k s = k a s'.
Proof. unfold bind. by intros ->. Qed.

Lemma bind_err {S A B} (m : eff S A) (k : A -> eff S B) s st s' :
  m s = (Err st, s') -> bind m k s = (Err st, s').
Proof. unfold bind. by intros ->. Qed.

Lemma bind_assoc {S A B C} (m : eff S A) (k : A -> eff S B) (k' : B -> eff S C) s :
  bind (bind m k) k' s = bind m (fun a => bind (k a) k') s.
Proof. unfold bind. by destruct (m s) as [[a| | |] s']. Qed.

(** ** C integers, LP64 *)

Definition UINT8_MAX : Z := 2 ^ 8 - 1.
Definition UINT16_MAX : Z := 2 ^ 16 - 1.
Definition UINT32_MAX : Z := 2 ^ 32 - 1.
Definition UINT64_MAX : Z := 2 ^ 64 - 1.
Definition SIZE_MAX : Z := UINT64_MAX.
Definition INT32_MAX : Z := 2 ^ 31 - 1.
Definition INT_MAX : Z := INT32_MAX.

(** Conversion to an unsigned / a signed type of [bits] bits. *)
Definition wrap (bits v : Z) : Z := v mod 2 ^ bits.
Definition swrap (bits v : Z) : Z :=
  let m := wrap bits v in if m <? 2 ^ (bits - 1) then m else m - 2 ^ bits.

Definition in_u (bits v : Z) : Prop := 0 <= v < 2 ^ bits.
Definition in_s (bits v : Z) : Prop := - 2 ^ (bits - 1) <= v < 2 ^ (bits - 1).

(** [size_t] arithmetic. *)
Definition size_add (a b : Z) : Z := wrap 64 (a + b).
Definition size_sub (a b : Z) : Z := wrap 64 (a - b).

Lemma wrap_small bits v : in_u bits v -> wrap bits v = v.
Proof. apply Z.mod_small. Qed.

Lemma wrap_range bits v : 0 <= bits -> in_u bits (wrap bits v).
Proof. intros. apply Z.mod_pos_bound, Z.pow_pos_nonneg; lia. Qed.

Lemma size_add_small a b : 0 <= a + b < 2 ^ 64 -> size_add a b = a + b.
Proof. apply Z.mod_small. Qed.

Lemma pow2_half bits : 0 < bits -> 2 ^ bits = 2 * 2 ^ (bits - 1).
Proof. intros. rewrite <- Z.pow_succ_r by lia. f_equal; lia. Qed.

(** A signed value survives the conversion to the unsigned type of its width. *)
Lemma swrap_wrap bits v : 0 < bits -> in_s bits v -> swrap bits (wrap bits v) = v.
Proof.
  intros Hb [Hl Hu]. pose proof (pow2_half bits Hb).
  unfold swrap, wrap. rewrite Zmod_mod.
  destruct (decide (0 <= v)).
  - rewrite Z.mod_small by lia. destruct (Z.ltb_spec v (2 ^ (bits - 1))); lia.
  - assert (v mod 2 ^ bits = v + 2 ^ bits) as ->.
    { rewrite <- (Z.mod_small (v + 2 ^ bits) (2 ^ bits)) by lia.
      rewrite <- (Z_mod_plus_full v 1 (2 ^ bits)). f_equal; lia. }
    destruct (Z.ltb_spec (v + 2 ^ bits) (2 ^ (bits - 1))); lia.
Qed.

Lemma swrap_range bits v : 0 < bits -> in_s bits (swrap bits v).
Proof.
  intros Hb. pose proof (pow2_half bits Hb).
  pose proof (wrap_range bits v ltac:(lia)) as [??].
  unfold in_s, swrap. destruct (Z.ltb_spec (wrap bits v) (2 ^ (bits - 1))); lia.
Qed.

Lemma swrap_small bits v : 0 < bits -> in_s bits v -> swrap bits v = v.
Proof.
  intros Hb Hv. rewrite <- (swrap_wrap bits v) at 2 by done. unfold swrap, wrap. by rewrite Zmod_mod.
Qed.

Lemma wrap_swrap bits v : 0 < bits -> in_u bits v -> wrap bits (swrap bits v) = v.
Proof.
  intros Hb Hv. unfold swrap. rewrite (wrap_small _ v Hv).
  destruct (_ <? _); [by apply wrap_small|]. unfold wrap, in_u in *.
  rewrite <- (Z.mod_small v (2 ^ bits)) at 2 by lia.
  rewrite <- (Z_mod_plus_full v (-1) (2 ^ bits)). f_equal; lia.
Qed.

(** ** Bytes *)

#[global] Instance byte_eq_dec : EqDecision byte := Byte.byte_eq_dec.
#[global] Instance byte_inhabited : Inhabited byte := populate x00.

Definition b2z (b : byte) : Z := Z.of_N (Byte.to_N b).
Definition z2b (z : Z) : byte :=
  match Byte.of_N (Z.to_N (z mod 256)) with Some b => b | None => x00 end.

Lemma b2z_range b : 0 <= b2z b < 256.
Proof. unfold b2z. pose proof (Byte.to_N_bounded b). lia. Qed.

Lemma b2z_z2b z : b2z (z2b z) = z mod 256.
Proof.
  unfold b2z, z2b. pose proof (Z.mod_pos_bound z 256 ltac:(lia)).
  destruct (Byte.of_N _) as [b|] eqn:E.
  - apply Byte.to_of_N in E. rewrite E. lia.
  - apply Byte.of_N_None_iff in E. lia.
Qed.

Lemma z2b_b2z b : z2b (b2z b) = b.
Proof.
  unfold z2b. rewrite Z.mod_small by apply b2z_range.
  unfold b2z. rewrite N2Z.id, Byte.of_to_N. done.
Qed.

Lemma b2z_inj b c : b2z b = b2z c -> b = c.
Proof. intros H. by rewrite <- (z2b_b2z b), H, z2b_b2z. Qed.

Lemma z2b_mod z : z2b (z mod 256) = z2b z.
Proof. unfold z2b. by rewrite Zmod_mod. Qed.

(** Big-endian byte strings: the network order of AMQP. *)
Fixpoint be_bytes (n : nat) (v : Z) : list byte :=
  match n with
  | O => []
  | S m => z2b (v / 256 ^ Z.of_nat m) :: be_bytes m v
  end.

Fixpoint be_val (bs : list byte) : Z :=
  match bs with
  | [] => 0
  | b :: r => b2z b * 256 ^ Z.of_nat (length r) + be_val r
  end.

Lemma length_be_bytes n v : length (be_bytes n v) = n.
Proof. induction n; simpl; congruence. Qed.

Lemma pow256_pos n : 0 < 256 ^ Z.of_nat n.
Proof. apply Z.pow_pos_nonneg; lia. Qed.

Lemma pow256_succ n : 256 ^ Z.of_nat (S n) = 256 * 256 ^ Z.of_nat n.
Proof. rewrite Nat2Z.inj_succ, Z.pow_succ_r by lia. done. Qed.

Lemma be_val_range bs : 0 <= be_val bs < 256 ^ Z.of_nat (length bs).
Proof.
  induction bs as [|b bs IH]; [done|].
  change (length (b :: bs)) with (S (length bs)). rewrite pow256_succ. simpl be_val.
  pose proof (b2z_range b). pose proof (pow256_pos (length bs)). nia.
Qed.

Lemma be_val_bytes n v : be_val (be_bytes n v) = v mod 256 ^ Z.of_nat n.
Proof.
  induction n as [|n IH]; [by rewrite Z.mod_1_r|].
  rewrite pow256_succ. simpl. rewrite length_be_bytes, IH, b2z_z2b.
  pose proof (pow256_pos n).
  rewrite (Z.mul_comm 256), Z.rem_mul_r by lia. lia.
Qed.

Lemma be_bytes_mod n v w :
  v mod 256 ^ Z.of_nat n = w mod 256 ^ Z.of_nat n -> be_bytes n v = be_bytes n w.
Proof.
  induction n as [|n IH]; [done|]. rewrite pow256_succ. simpl. intros H.
  pose proof (pow256_pos n).
  assert (forall x, (x mod (256 * 256 ^ Z.of_nat n)) / 256 ^ Z.of_nat n
                    = (x / 256 ^ Z.of_nat n) mod 256) as Hd.
  { intros x. rewrite (Z.mul_comm 256), Z.rem_mul_r by lia.
    rewrite (Z.mul_comm _ (_ mod 256)), Z.div_add by lia.
    rewrite (Z.div_small (_ mod _)) by (apply Z.mod_pos_bound; lia). lia. }
  assert (forall x, (x mod (256 * 256 ^ Z.of_nat n)) mod 256 ^ Z.of_nat n
                    = x mod 256 ^ Z.of_nat n) as Hm.
  { intros x. rewrite (Z.mul_comm 256), Z.rem_mul_r by lia.
    rewrite (Z.mul_comm (_ ^ _)), Z_mod_plus_full. apply Zmod_mod. }
  f_equal.
  - rewrite <- z2b_mod, <- (z2b_mod (w / _)), <- (Hd v), <- (Hd w). congruence.
  - apply IH. rewrite <- (Hm v), <- (Hm w). congruence.
Qed.

Lemma be_bytes_val bs : be_bytes (length bs) (be_val bs) = bs.
Proof.
  induction bs as [|b bs IH]; [done|]. simpl.
  pose proof (be_val_range bs). pose proof (pow256_pos (length bs)).
  f_equal.
  - rewrite Z.div_add_l by lia. rewrite Z.div_small by lia.
    rewrite Z.add_0_r. apply z2b_b2z.
  - etrans; [|exact IH]. apply be_bytes_mod.
    by rewrite Z.add_comm, Z_mod_plus_full.
Qed.

#[global] Arguments be_bytes : simpl never.
#[global] Arguments be_val : simpl never.

(** ** Buffers: lists of bytes indexed by [Z] *)

Definition zlen {A} (l : list A) : Z := Z.of_nat (length l).
Definition ztake {A} (n : Z) (l : list A) : list A := take (Z.to_nat n) l.
Definition zdrop {A} (n : Z) (l : list A) : list A := drop (Z.to_nat n) l.

(** The [n] bytes at [o]; [None] when they are not all inside the object. *)
Definition load (buf : list byte) (o n : Z) : option (list byte) :=
  if (0 <=? o) && (0 <=? n) && (o + n <=? zlen buf) then Some (ztake n (zdrop o buf)) else None.

(** [buf] with [bs] written at [o]. *)
Definition splice (buf : list byte) (o : Z) (bs : list byte) : list byte :=
  ztake o buf ++ bs ++ zdrop (o + zlen bs) buf.
Definition store (buf : list byte) (o : Z) (bs : list byte) : option (list byte) :=
  if (0 <=? o) && (o + zlen bs <=? zlen buf) then Some (splice buf o bs) else None.

Lemma zlen_nonneg {A} (l : list A) : 0 <= zlen l.
Proof. unfold zlen; lia. Qed.

Lemma zlen_nil {A} : zlen (@nil A) = 0.
Proof. done. Qed.

Lemma zlen_cons {A} (x : A) l : zlen (x :: l) = 1 + zlen l.
Proof. unfold zlen; simpl; lia. Qed.

Lemma zlen_app {A} (l k : list A) : zlen (l ++ k) = zlen l + zlen k.
Proof. unfold zlen. rewrite length_app; lia. Qed.

Lemma zlen_be_bytes n v : zlen (be_bytes n v) = Z.of_nat n.
Proof. unfold zlen. by rewrite length_be_bytes. Qed.

Lemma zlen_ztake {A} n (l : list A) : 0 <= n <= zlen l -> zlen (ztake n l) = n.
Proof. unfold zlen, ztake. intros. rewrite length_take. lia. Qed.

Lemma zlen_zdrop {A} n (l : list A) : 0 <= n <= zlen l -> zlen (zdrop n l) = zlen l - n.
Proof. unfold zlen, zdrop. intros. rewrite length_drop. lia. Qed.

Create Rewrite HintDb zlen.
#[export] Hint Rewrite @zlen_nil @zlen_cons @zlen_app zlen_be_bytes : zlen.

(** Normalise lengths, recall that they are not negative, and decide. *)
Ltac zlen_pos :=
  repeat match goal with
  | |- context [zlen ?l] =>
      lazymatch goal with H : 0 <= zlen l |- _ => fail | _ => pose proof (zlen_nonneg l) end
  | _ : context [zlen ?l] |- _ =>
      lazymatch goal with H : 0 <= zlen l |- _ => fail | _ => pose proof (zlen_nonneg l) end
  end.
Ltac zlia := autorewrite with zlen in *; zlen_pos; lia.

Lemma ztake_app {A} (l k : list A) n : n = zlen l -> ztake n (l ++ k) = l.
Proof. intros ->. unfold ztake, zlen. rewrite Nat2Z.id. apply take_app_length. Qed.

Lemma zdrop_app {A} (l k : list A) n : n = zlen l -> zdrop n (l ++ k) = k.
Proof. intros ->. unfold zdrop, zlen. rewrite Nat2Z.id. apply drop_app_length. Qed.

Lemma zdrop_zdrop {A} (l : list A) n m : 0 <= n -> 0 <= m -> zdrop m (zdrop n l) = zdrop (n + m) l.
Proof. intros. unfold zdrop. rewrite drop_drop. f_equal; lia. Qed.

Lemma ztake_zdrop {A} (l : list A) n : ztake n l ++ zdrop n l = l.
Proof. apply take_drop. Qed.

Lemma ztake_all {A} (l : list A) n : zlen l <= n -> ztake n l = l.
Proof. unfold zlen, ztake. intros. apply take_ge. lia. Qed.

Lemma zlen_splice buf o bs :
  0 <= o -> o + zlen bs <= zlen buf -> zlen (splice buf o bs) = zlen buf.
Proof.
  intros. pose proof (zlen_nonneg bs). unfold splice.
  rewrite !zlen_app, zlen_ztake, zlen_zdrop by lia. lia.
Qed.

Lemma store_fits buf o bs :
  0 <= o -> o + zlen bs <= zlen buf -> store buf o bs = Some (splice buf o bs).
Proof.
  intros. unfold store.
  destruct (Z.leb_spec 0 o), (Z.leb_spec (o + zlen bs) (zlen buf)); simpl; done || lia.
Qed.

Lemma load_fits buf o n :
  0 <= o -> 0 <= n -> o + n <= zlen buf -> load buf o n = Some (ztake n (zdrop o buf)).
Proof.
  intros. unfold load.
  destruct (Z.leb_spec 0 o), (Z.leb_spec 0 n), (Z.leb_spec (o + n) (zlen buf));
    simpl; done || lia.
Qed.

Lemma splice_nil buf o : splice buf o [] = buf.
Proof. unfold splice. simpl. rewrite zlen_nil, Z.add_0_r. apply ztake_zdrop. Qed.

(** Two adjacent writes are one write of the concatenation. *)
Lemma splice_app buf o bs cs :
  0 <= o -> o + zlen bs <= zlen buf ->
  splice (splice buf o bs) (o + zlen bs) cs = splice buf o (bs ++ cs).
Proof.
  intros Ho Hl. pose proof (zlen_nonneg bs). unfold splice at 1.
  assert (ztake (o + zlen bs) (splice buf o bs) = ztake o buf ++ bs) as ->.
  { unfold splice. rewrite app_assoc. apply ztake_app.
    rewrite zlen_app, zlen_ztake by lia. done. }
  assert (zdrop (o + zlen bs + zlen cs) (splice buf o bs)
          = zdrop (o + zlen (bs ++ cs)) buf) as ->.
  { pose proof (zlen_nonneg cs).
    rewrite <- zdrop_zdrop by lia. unfold splice. rewrite app_assoc.
    rewrite (zdrop_app (ztake o buf ++ bs)) by (rewrite zlen_app, zlen_ztake; lia).
    rewrite zdrop_zdrop by lia. rewrite zlen_app. f_equal; lia. }
  unfold splice. by rewrite <- !app_assoc.
Qed.

(** A write before an already written region: the back-patched table size. *)
Lemma splice_before buf o bs cs :
  0 <= o -> o + zlen bs + zlen cs <= zlen buf ->
  splice (splice buf (o + zlen bs) cs) o bs = splice buf o (bs ++ cs).
Proof.
  intros Ho Hl. pose proof (zlen_nonneg bs). pose proof (zlen_nonneg cs).
  unfold splice at 1.
  assert (Htake : ztake (o + zlen bs) buf = ztake o buf ++ ztake (zlen bs) (zdrop o buf)).
  { rewrite <- (ztake_zdrop buf o) at 1. unfold ztake, zdrop.
    replace (Z.to_nat (o + zlen bs)) with (Z.to_nat o + Z.to_nat (zlen bs))%nat by lia.
    rewrite take_drop. by rewrite take_take_drop. }
  assert (ztake o (splice buf (o + zlen bs) cs) = ztake o buf) as ->.
  { unfold splice. rewrite Htake, <- app_assoc. apply ztake_app.
    rewrite zlen_ztake; lia. }
  assert (zdrop (o + zlen bs) (splice buf (o + zlen bs) cs)
          = cs ++ zdrop (o + zlen bs + zlen cs) buf) as ->.
  { unfold splice. apply zdrop_app. rewrite zlen_ztake; lia. }
  unfold splice. rewrite <- app_assoc, zlen_app. do 3 f_equal. f_equal; lia.
Qed.

Lemma ztake_splice buf o bs :
  0 <= o <= zlen buf -> ztake o (splice buf o bs) = ztake o buf.
Proof. intros. unfold splice. apply ztake_app. rewrite zlen_ztake; lia. Qed.

Lemma ztake_splice_0 buf bs : ztake (zlen bs) (splice buf 0 bs) = bs.
Proof. unfold splice. change (ztake 0 buf) with (@nil byte). rewrite app_nil_l. by apply ztake_app. Qed.

(** What was written is read back. *)
Lemma load_splice buf o bs :
  0 <= o -> o + zlen bs <= zlen buf -> load (splice buf o bs) o (zlen bs) = Some bs.
Proof.
  intros. pose proof (zlen_nonneg bs).
  rewrite load_fits by (rewrite ?zlen_splice; lia).
  unfold splice. rewrite zdrop_app by (rewrite zlen_ztake; lia).
  f_equal. by apply ztake_app.
Qed.

(** [at_off enc o bs]: the bytes [bs] stand in [enc] at offset [o]. *)
Definition at_off (enc : list byte) (o : Z) (bs : list byte) : Prop :=
  0 <= o /\ exists pre post, enc = pre ++ bs ++ post /\ zlen pre = o.

Lemma at_off_bound enc o bs : at_off enc o bs -> 0 <= o /\ o + zlen bs <= zlen enc.
Proof. intros (? & pre & post & -> & <-). zlia. Qed.

Lemma at_off_app enc o bs cs :
  at_off enc o (bs ++ cs) -> at_off enc o bs /\ at_off enc (o + zlen bs) cs.
Proof.
  intros (Ho & pre & post & -> & <-). split.
  - split; [lia|]. exists pre, (cs ++ post). by rewrite <- !app_assoc.
  - split; [zlia|]. exists (pre ++ bs), post. rewrite <- !app_assoc. split; [done|zlia].
Qed.

Lemma at_off_load enc o bs n : at_off enc o bs -> n = zlen bs -> load enc o n = Some bs.
Proof.
  intros H ->. pose proof (at_off_bound _ _ _ H) as [? ?]. destruct H as (_ & pre & post & -> & <-).
  rewrite load_fits by (zlen_pos; lia).
  rewrite (zdrop_app pre) by done. f_equal. by apply ztake_app.
Qed.

Lemma at_off_splice buf o bs :
  0 <= o -> o + zlen bs <= zlen buf -> at_off (splice buf o bs) o bs.
Proof.
  intros. pose proof (zlen_nonneg bs). split; [done|].
  exists (ztake o buf), (zdrop (o + zlen bs) buf). split; [done|]. rewrite zlen_ztake; lia.
Qed.

Lemma at_off_whole bs : at_off bs 0 bs.
Proof. split; [done|]. exists [], []. by rewrite app_nil_r. Qed.
