(* ===== verification/Status.v ===== *)
(** * Status codes, frame constants and the names the library prints for them

    The constants of [include/rabbitmq-c/amqp.h], [include/rabbitmq-c/framing.h]
    and [librabbitmq/amqp_private.h] the models share. *)

From S2P Require Import Prelude.

(** ** [amqp_status_enum] *)

Definition AMQP_STATUS_OK : Z := 0x0.
Definition AMQP_STATUS_NO_MEMORY : Z := -0x0001.
Definition AMQP_STATUS_BAD_AMQP_DATA : Z := -0x0002.
Definition AMQP_STATUS_UNKNOWN_CLASS : Z := -0x0003.
Definition AMQP_STATUS_UNKNOWN_METHOD : Z := -0x0004.
Definition AMQP_STATUS_HOSTNAME_RESOLUTION_FAILED : Z := -0x0005.
Definition AMQP_STATUS_INCOMPATIBLE_AMQP_VERSION : Z := -0x0006.
Definition AMQP_STATUS_CONNECTION_CLOSED : Z := -0x0007.
Definition AMQP_STATUS_BAD_URL : Z := -0x0008.
Definition AMQP_STATUS_SOCKET_ERROR : Z := -0x0009.
Definition AMQP_STATUS_INVALID_PARAMETER : Z := -0x000A.
Definition AMQP_STATUS_TABLE_TOO_BIG : Z := -0x000B.
Definition AMQP_STATUS_WRONG_METHOD : Z := -0x000C.
Definition AMQP_STATUS_TIMEOUT : Z := -0x000D.
Definition AMQP_STATUS_TIMER_FAILURE : Z := -0x000E.
Definition AMQP_STATUS_HEARTBEAT_TIMEOUT : Z := -0x000F.
Definition AMQP_STATUS_UNEXPECTED_STATE : Z := -0x0010.
Definition AMQP_STATUS_SOCKET_CLOSED : Z := -0x0011.
Definition AMQP_STATUS_SOCKET_INUSE : Z := -0x0012.
Definition AMQP_STATUS_BROKER_UNSUPPORTED_SASL_METHOD : Z := -0x0013.
Definition AMQP_STATUS_UNSUPPORTED : Z := -0x0014.
Definition AMQP_STATUS_TCP_ERROR : Z := -0x0100.
Definition AMQP_STATUS_TCP_SOCKETLIB_INIT_ERROR : Z := -0x0101.
Definition AMQP_STATUS_SSL_ERROR : Z := -0x0200.
Definition AMQP_STATUS_SSL_HOSTNAME_VERIFY_FAILED : Z := -0x0201.
Definition AMQP_STATUS_SSL_PEER_VERIFY_FAILED : Z := -0x0202.
Definition AMQP_STATUS_SSL_CONNECTION_FAILED : Z := -0x0203.
Definition AMQP_STATUS_SSL_SET_ENGINE_FAILED : Z := -0x0204.

(** ** Frame constants *)

Definition AMQP_FRAME_METHOD : Z := 1.
Definition AMQP_FRAME_HEADER : Z := 2.
Definition AMQP_FRAME_BODY : Z := 3.
Definition AMQP_FRAME_HEARTBEAT : Z := 8.
Definition AMQP_FRAME_END : Z := 206.
Definition HEADER_SIZE : Z := 7.
Definition FOOTER_SIZE : Z := 1.
