(* ===== verification/Memory.v ===== *)
(** * The memory interface the decoders and cloners are written against

    [amqp_decode_table], [amqp_decode_method] and the cloners call
    [amqp_pool_alloc] on the caller's pool and [malloc], [realloc] and [free] for
    scratch space.  They only test the returned pointers against [NULL], so they
    are modelled over the two classes of this file; [Pool.v] provides the instance
    that is the code of [librabbitmq/amqp_mem.c] over a C heap. *)

From S2P Require Import Prelude Status.

(** An address: a heap block and an offset into it. *)
Definition addr : Type := (Z * Z)%type.

(** The allocation calls over a memory [Mem] in which pools are named by [Pool].
    [None] is [NULL]. *)
Class MemOps (Mem Pool : Type) := {
  pool_alloc : Pool -> Z -> Mem -> option addr * Mem;
  c_malloc : Z -> Mem -> option Z * Mem;
  c_realloc : Z -> Z -> Mem -> option Z * Mem;
  c_free : Z -> Mem -> Mem;
}.

(** What clients rely on.  [plenty p k m]: no [malloc] or [realloc] in [m] is
    refused, and the next [k] allocations through the pool [p] succeed. *)
Class MemLaws (Mem Pool : Type) `{MemOps Mem Pool} := {
  plenty : Pool -> Z -> Mem -> Prop;
  plenty_mono p m k k' : plenty p k m -> 0 <= k' <= k -> plenty p k' m;
  pool_alloc_zero p m : pool_alloc p 0 m = (None, m);
  plenty_pool_alloc p m k n : plenty p (k + 1) m -> 0 <= k -> 0 < n < 2 ^ 63 ->
    exists a m', pool_alloc p n m = (Some a, m') /\ plenty p k m';
  plenty_malloc p m k n : plenty p k m -> 0 < n < 2 ^ 63 ->
    exists b m', c_malloc n m = (Some b, m') /\ plenty p k m';
  plenty_realloc p m k b n : plenty p k m -> 0 < n < 2 ^ 63 ->
    exists b' m', c_realloc b n m = (Some b', m') /\ plenty p k m';
  plenty_free p m k b : plenty p k m -> plenty p k (c_free b m);
}.
