(* ===== verification/Layout.v ===== *)
(** * Sizes of C objects on the LP64 targets (aarch64 and x86_64 KasperskyOS)

    [amqp_pool_alloc(pool, sizeof(T))] makes the size of every structure part of
    the pool's behaviour; the sizes are computed from the fields of
    [include/rabbitmq-c/amqp.h] and [include/rabbitmq-c/framing.h]. *)

From S2P Require Import Prelude.

(** A type's size and alignment. *)
Record layout := mk_layout { sizeof : Z; alignof : Z }.

Definition round_up (n a : Z) : Z := (n + a - 1) / a * a.

(** Members are placed in order at their alignment; the whole is padded to the
    largest one. *)
Definition c_struct (fields : list layout) : layout :=
  let '(off, al) := fold_left
    (fun '(off, al) f => (round_up off (alignof f) + sizeof f, Z.max al (alignof f)))
    fields (0, 1) in
  mk_layout (round_up off al) al.

Definition c_union (members : list layout) : layout :=
  let al := fold_left (fun a f => Z.max a (alignof f)) members 1 in
  let sz := fold_left (fun a f => Z.max a (sizeof f)) members 0 in
  mk_layout (round_up sz al) al.

Definition t_uint8 : layout := mk_layout 1 1.
Definition t_uint16 : layout := mk_layout 2 2.
Definition t_uint32 : layout := mk_layout 4 4.
Definition t_uint64 : layout := mk_layout 8 8.
Definition t_int : layout := mk_layout 4 4.
Definition t_size : layout := mk_layout 8 8.
Definition t_ptr : layout := mk_layout 8 8.

Definition layout_amqp_bytes_t : layout := c_struct [t_size; t_ptr].
Definition layout_amqp_decimal_t : layout := c_struct [t_uint8; t_uint32].
Definition layout_amqp_table_t : layout := c_struct [t_int; t_ptr].
Definition layout_amqp_array_t : layout := c_struct [t_int; t_ptr].
Definition layout_amqp_field_value_t : layout :=
  c_struct [t_uint8;
            c_union [t_int; t_uint8; t_uint16; t_uint32; t_uint64; layout_amqp_decimal_t;
                     layout_amqp_bytes_t; layout_amqp_table_t; layout_amqp_array_t]].
Definition layout_amqp_table_entry_t : layout :=
  c_struct [layout_amqp_bytes_t; layout_amqp_field_value_t].
