(* ===== verification/Pool.v ===== *)
(** * Memory pools: [librabbitmq/amqp_mem.c]

    The C heap is a set of live blocks with their sizes; an allocation can be
    refused at any point ([h_refuse]).  A pool owns pages and large blocks; the
    theorems show that it hands out disjoint, aligned, live regions, never frees a
    block twice, and gives everything back. *)

From S2P Require Import Prelude Status Memory Layout.

(** ** The C heap *)

Record heap := mk_heap {
  h_live : gmap Z Z;        (* live blocks and their sizes *)
  h_next : Z;               (* the name of the next block *)
  h_refuse : list bool;     (* the coming requests the heap refuses; [] none *)
}.

Definition malloc (n : Z) : eff heap (option Z) := fun h =>
  match h_refuse h with
  | true :: r => (Ret None, mk_heap (h_live h) (h_next h) r)
  | r => (Ret (Some (h_next h)),
          mk_heap (<[h_next h := n]> (h_live h)) (h_next h + 1) (tail r))
  end.

(** [calloc(1, n)]; the contents of blocks are not part of this model. *)
Definition calloc (n : Z) : eff heap (option Z) := malloc n.

Definition free (b : Z) : eff heap unit := fun h =>
  match h_live h !! b with
  | Some _ => (Ret tt, mk_heap (delete b (h_live h)) (h_next h) (h_refuse h))
  | None => (Undef, h)
  end.

(** A refused [realloc] keeps the block; a granted one moves it. *)
Definition realloc (b n : Z) : eff heap (option Z) :=
  let! p := malloc n in
  match p with
  | None => ret None
  | Some p => do! free b in ret (Some p)
  end.

(** ** The pool *)

(** [blocklist] is the array's address and what it holds. *)
Record amqp_pool_blocklist_t := mk_blocklist {
  num_blocks : Z;
  blocklist : option (Z * list Z);
}.

Record amqp_pool_t := mk_pool {
  pagesize : Z;
  pages : amqp_pool_blocklist_t;
  large_blocks : amqp_pool_blocklist_t;
  next_page : Z;
  alloc_block : option Z;
  alloc_used : Z;
}.

Definition empty_list : amqp_pool_blocklist_t := mk_blocklist 0 None.

Definition init_amqp_pool (pagesize : Z) : amqp_pool_t :=
  mk_pool (if pagesize =? 0 then 4096 else pagesize) empty_list empty_list 0 None 0.

Definition empty_blocklist (x : amqp_pool_blocklist_t) : eff heap amqp_pool_blocklist_t :=
  match blocklist x with
  | None => ret empty_list
  | Some (array, blocks) =>
      if num_blocks x <=? zlen blocks then
        do! for_each free (ztake (num_blocks x) blocks) in
        do! free array in
        ret empty_list
      else undef
  end.

(** Returns [None] for the source's 0, and then leaves the list as it was. *)
Definition record_pool_block (x : amqp_pool_blocklist_t) (block : Z)
    : eff heap (option amqp_pool_blocklist_t) :=
  if num_blocks x =? INT_MAX then undef
  else
    let blocklistlength := 8 * (num_blocks x + 1) in
    match blocklist x with
    | None =>
        let! p := malloc blocklistlength in
        match p with
        | None => ret None
        | Some p => ret (Some (mk_blocklist (num_blocks x + 1) (Some (p, [block]))))
        end
    | Some (array, blocks) =>
        let! newbl := realloc array blocklistlength in
        match newbl with
        | None => ret None
        | Some p => ret (Some (mk_blocklist (num_blocks x + 1)
                                 (Some (p, ztake (num_blocks x) blocks ++ [block]))))
        end
    end.

Definition pool_heap : Type := amqp_pool_t * heap.
Definition on_heap {A} (m : eff heap A) : eff pool_heap A :=
  fun s => let '(r, h) := m s.2 in (r, (s.1, h)).
Definition get_pool : eff pool_heap amqp_pool_t := fun s => (Ret s.1, s).
Definition put_pool (p : amqp_pool_t) : eff pool_heap unit := fun s => (Ret tt, (p, s.2)).

Definition recycle_amqp_pool : eff pool_heap unit :=
  let! p := get_pool in
  let! l := on_heap (empty_blocklist (large_blocks p)) in
  put_pool (mk_pool (pagesize p) (pages p) l 0 None 0).

Definition empty_amqp_pool : eff pool_heap unit :=
  do! recycle_amqp_pool in
  let! p := get_pool in
  let! l := on_heap (empty_blocklist (pages p)) in
  put_pool (mk_pool (pagesize p) l (large_blocks p) (next_page p) (alloc_block p) (alloc_used p)).

(** [(amount + 7) & (~7)] in [size_t] *)
Definition round8 (amount : Z) : Z := Z.land (size_add amount 7) (2 ^ 64 - 8).

Definition alloc_large (amount : Z) : eff pool_heap (option addr) :=
  let! p := get_pool in
  let! result := on_heap (calloc amount) in
  match result with
  | None => ret None
  | Some b =>
      let! l := on_heap (record_pool_block (large_blocks p) b) in
      match l with
      | None => do! on_heap (free b) in ret None
      | Some l =>
          do! put_pool (mk_pool (pagesize p) (pages p) l (next_page p) (alloc_block p) (alloc_used p)) in
          ret (Some (b, 0))
      end
  end.

(** A new page, or the next recorded one after a recycle. *)
Definition alloc_page (amount : Z) : eff pool_heap (option addr) :=
  let! p := get_pool in
  if num_blocks (pages p) <=? next_page p then
    let! block := on_heap (calloc (pagesize p)) in
    do! put_pool (mk_pool (pagesize p) (pages p) (large_blocks p) (next_page p) block (alloc_used p)) in
    match block with
    | None => ret None
    | Some b =>
        let! l := on_heap (record_pool_block (pages p) b) in
        match l with
        | None => ret None
        | Some l =>
            do! put_pool (mk_pool (pagesize p) l (large_blocks p) (num_blocks l) (Some b) amount) in
            ret (Some (b, 0))
        end
    end
  else
    match blocklist (pages p) with
    | Some (_, blocks) =>
        match blocks !! Z.to_nat (next_page p) with
        | Some b =>
            do! put_pool (mk_pool (pagesize p) (pages p) (large_blocks p) (next_page p + 1) (Some b) amount) in
            ret (Some (b, 0))
        | None => undef
        end
    | None => undef
    end.

Definition amqp_pool_alloc (amount : Z) : eff pool_heap (option addr) :=
  if amount =? 0 then ret None
  else
    let amount := round8 amount in
    let! p := get_pool in
    if pagesize p <? amount then alloc_large amount
    else
      match alloc_block p with
      | Some b =>
          if pagesize p <? alloc_used p then undef       (* assert *)
          else if size_add (alloc_used p) amount <=? pagesize p then
            do! put_pool (mk_pool (pagesize p) (pages p) (large_blocks p) (next_page p)
                            (alloc_block p) (alloc_used p + amount)) in
            ret (Some (b, alloc_used p))
          else alloc_page amount
      | None => alloc_page amount
      end.

(** The length and the pointer of the [amqp_bytes_t]. *)
Definition amqp_pool_alloc_bytes (amount : Z) : eff pool_heap (Z * option addr) :=
  let! bytes := amqp_pool_alloc amount in
  ret (amount, bytes).

(** * Theorems *)

(** ** The invariant *)

Definition list_blocks (x : amqp_pool_blocklist_t) : list Z :=
  match blocklist x with Some (_, bs) => bs | None => [] end.
Definition list_array (x : amqp_pool_blocklist_t) : list Z :=
  match blocklist x with Some (a, _) => [a] | None => [] end.

(** Everything the pool has to free. *)
Definition owned (p : amqp_pool_t) : list Z :=
  (list_array (pages p) ++ list_array (large_blocks p)) ++
  list_blocks (large_blocks p) ++ list_blocks (pages p).

Definition heap_ok (h : heap) : Prop := forall b s, h_live h !! b = Some s -> b < h_next h.

Definition list_ok (x : amqp_pool_blocklist_t) : Prop :=
  num_blocks x = zlen (list_blocks x) /\ num_blocks x <= INT_MAX.

(** Pages not handed out since the last recycle. *)
Definition spare (p : amqp_pool_t) : list Z := zdrop (next_page p) (list_blocks (pages p)).

Record pool_ok (p : amqp_pool_t) (h : heap) : Prop := {
  ok_heap : heap_ok h;
  ok_pagesize : 0 < pagesize p < 2 ^ 63;
  ok_pages : list_ok (pages p);
  ok_large : list_ok (large_blocks p);
  ok_nodup : NoDup (owned p);
  ok_live b : b ∈ owned p -> is_Some (h_live h !! b);
  ok_page_size b : b ∈ list_blocks (pages p) -> h_live h !! b = Some (pagesize p);
  ok_next : 0 <= next_page p <= num_blocks (pages p);
  ok_used : 0 <= alloc_used p <= pagesize p /\ (8 | alloc_used p);
  ok_block b : alloc_block p = Some b ->
    h_live h !! b = Some (pagesize p) /\ (b ∉ spare p) /\
    b ∉ (list_array (pages p) ++ list_array (large_blocks p) ++ list_blocks (large_blocks p));
}.

(** A region handed out: a block, an offset and a length. *)
Definition region : Type := addr * Z.

Definition region_ok (p : amqp_pool_t) (h : heap) (r : region) : Prop :=
  let '((b, off), len) := r in
  (exists size, h_live h !! b = Some size /\ 0 <= off /\ 0 <= len /\ off + len <= size) /\
  (8 | off) /\ (b ∉ spare p) /\ (b ∉ list_array (pages p) ++ list_array (large_blocks p)) /\
  (alloc_block p = Some b -> off + len <= alloc_used p).

Definition apart (r r' : region) : Prop :=
  let '((b, off), len) := r in
  let '((b', off'), len') := r' in
  b <> b' \/ off + len <= off' \/ off' + len' <= off.

(** The regions handed out since the last recycle. *)
Definition regions_ok (p : amqp_pool_t) (h : heap) (rs : list region) : Prop :=
  Forall (region_ok p h) rs /\ ForallOrdPairs apart rs.

(** ** Heap calls *)

Lemma malloc_cases n h :
  (exists r, h_refuse h = true :: r /\
     malloc n h = (Ret None, mk_heap (h_live h) (h_next h) r)) \/
  (malloc n h = (Ret (Some (h_next h)),
     mk_heap (<[h_next h := n]> (h_live h)) (h_next h + 1) (tail (h_refuse h)))).
Proof. unfold malloc. destruct (h_refuse h) as [|[] r]; eauto. Qed.

Lemma heap_fresh h b s : heap_ok h -> h_live h !! b = Some s -> b <> h_next h.
Proof. intros Hh E. specialize (Hh b s E). lia. Qed.

Lemma heap_ok_insert h n r : heap_ok h -> heap_ok (mk_heap (<[h_next h := n]> (h_live h)) (h_next h + 1) r).
Proof.
  intros Hh b s. cbn [h_live h_next]. rewrite lookup_insert_Some.
  intros [[<- _]|[_ E]]; [lia|]. specialize (Hh b s E). lia.
Qed.

(** The heap after the list's array has been replaced by a larger one. *)
Definition regrown (x : amqp_pool_blocklist_t) (h : heap) : heap :=
  mk_heap (foldr delete (<[h_next h := 8 * (num_blocks x + 1)]> (h_live h)) (list_array x))
          (h_next h + 1) (tail (h_refuse h)).

Definition recorded (x : amqp_pool_blocklist_t) (h : heap) (b : Z) : amqp_pool_blocklist_t :=
  mk_blocklist (num_blocks x + 1) (Some (h_next h, list_blocks x ++ [b])).

Lemma record_cases x b h :
  list_ok x -> num_blocks x < INT_MAX -> heap_ok h ->
  (forall a, a ∈ list_array x -> is_Some (h_live h !! a)) ->
  (exists r, h_refuse h = true :: r /\
     record_pool_block x b h = (Ret None, mk_heap (h_live h) (h_next h) r)) \/
  record_pool_block x b h = (Ret (Some (recorded x h b)), regrown x h).
Proof.
  intros [Hn _] Hmax Hh Hl. unfold record_pool_block, regrown, recorded, list_array, list_blocks in *.
  destruct (Z.eqb_spec (num_blocks x) INT_MAX); [lia|].
  destruct (blocklist x) as [[a bs]|]; unfold realloc, bind;
    destruct (malloc_cases (8 * (num_blocks x + 1)) h) as [(r & E & ->)| ->]; eauto.
  destruct (Hl a ltac:(set_solver)) as [s Es]. pose proof (heap_fresh _ _ _ Hh Es).
  right. unfold free. cbn [h_live h_next h_refuse].
  rewrite lookup_insert_ne, Es by done. simpl. by rewrite ztake_all by lia.
Qed.

Lemma regrown_lookup x h b :
  b ∉ list_array x -> b <> h_next h -> h_live (regrown x h) !! b = h_live h !! b.
Proof.
  intros Hb Hn. unfold regrown, list_array in *. cbn [h_live].
  destruct (blocklist x) as [[a bs]|]; simpl.
  - rewrite lookup_delete_ne by set_solver. by rewrite lookup_insert_ne.
  - by rewrite lookup_insert_ne.
Qed.

Lemma regrown_array x h :
  h_next h ∉ list_array x -> is_Some (h_live (regrown x h) !! h_next h).
Proof.
  intros Hb. unfold regrown, list_array in *. cbn [h_live].
  destruct (blocklist x) as [[a bs]|]; simpl.
  - rewrite lookup_delete_ne by set_solver. rewrite lookup_insert_eq. by eexists.
  - rewrite lookup_insert_eq. by eexists.
Qed.

(** Every block of the regrown heap was there before, or is the new array. *)
Lemma regrown_inv x h b s :
  h_live (regrown x h) !! b = Some s ->
  b = h_next h \/ (b <> h_next h /\ b ∉ list_array x /\ h_live h !! b = Some s).
Proof.
  unfold regrown, list_array. cbn [h_live]. destruct (blocklist x) as [[a bs]|]; simpl.
  - rewrite lookup_delete_Some, lookup_insert_Some. set_solver.
  - rewrite lookup_insert_Some. set_solver.
Qed.

Lemma heap_ok_regrown x h : heap_ok h -> heap_ok (regrown x h).
Proof.
  intros Hh b s E. apply regrown_inv in E as [->|(_ & _ & E)]; simpl; [lia|].
  specialize (Hh b s E). lia.
Qed.

(** What an allocation of [n] bytes promises. *)
Definition alloc_post (p : amqp_pool_t) (h : heap) (n : Z)
    (out : res (option addr) * pool_heap) : Prop :=
  match out with
  | (Ret r, (p', h')) =>
      pool_ok p' h' /\ pagesize p' = pagesize p /\
      (forall rs, regions_ok p h rs ->
         regions_ok p' h' (match r with Some a => (a, n) :: rs | None => rs end)) /\
      (h_refuse h = [] -> is_Some r /\ h_refuse h' = [] /\
         forall b, is_Some (h_live h' !! b) ->
           b ∈ owned p' \/ (is_Some (h_live h !! b) /\ b ∉ owned p)) /\
      num_blocks (pages p') <= num_blocks (pages p) + 1 /\
      num_blocks (large_blocks p') <= num_blocks (large_blocks p) + 1
  | _ => False
  end.

Lemma on_heap_step {A B} (m : eff heap A) (k : A -> eff pool_heap B) p h a h' :
  m h = (Ret a, h') -> bind (on_heap m) k (p, h) = k a (p, h').
Proof. intros E. unfold bind, on_heap. simpl. by rewrite E. Qed.

Ltac owned_lists :=
  unfold owned, spare in *; cbn [pages large_blocks pagesize next_page alloc_block alloc_used] in *.

Lemma regions_mono p h p' h' rs :
  (forall r, region_ok p h r -> region_ok p' h' r) -> regions_ok p h rs -> regions_ok p' h' rs.
Proof. intros Hr [Hf Ho]. split; [|done]. by eapply Forall_impl. Qed.

Lemma regions_add p h p' h' r rs :
  (forall r, region_ok p h r -> region_ok p' h' r) ->
  region_ok p' h' r -> (forall r', region_ok p h r' -> apart r r') ->
  regions_ok p h rs -> regions_ok p' h' (r :: rs).
Proof.
  intros Hm Hr Ha [Hf Ho]. split.
  - constructor; [done|]. by eapply Forall_impl.
  - constructor; [|done]. by eapply Forall_impl.
Qed.

(** The heap after the block of a new allocation, before it is recorded. *)
Definition with_block (h : heap) (n : Z) : heap :=
  mk_heap (<[h_next h := n]> (h_live h)) (h_next h + 1) (tail (h_refuse h)).

Lemma owned_not_next p h : pool_ok p h -> h_next h ∉ owned p.
Proof.
  intros Hp Hin. destruct (ok_live _ _ Hp _ Hin) as [s E].
  by apply (heap_fresh h) in E; [|apply Hp].
Qed.

Lemma with_block_lookup h n b : b <> h_next h -> h_live (with_block h n) !! b = h_live h !! b.
Proof. intros. unfold with_block. cbn [h_live]. by rewrite lookup_insert_ne. Qed.

(** A pool survives a foreign block appearing in the heap. *)
Lemma pool_ok_with_block p h n : pool_ok p h -> pool_ok p (with_block h n).
Proof.
  intros Hp. pose proof (owned_not_next p h Hp) as Hf. destruct Hp.
  split; try done.
  - by apply heap_ok_insert.
  - intros b Hb. rewrite with_block_lookup; [auto|set_solver].
  - intros b Hb. rewrite with_block_lookup; [auto|unfold owned in *; set_solver].
  - intros b Hb. destruct (ok_block0 b Hb) as [E ?].
    rewrite with_block_lookup; [done|]. by apply (heap_fresh _ _ _ ok_heap0) in E.
Qed.

Lemma region_ok_with_block p h n r : heap_ok h -> region_ok p h r -> region_ok p (with_block h n) r.
Proof.
  intros Hh. destruct r as [[b off] len]. intros [(size & E & Hb) Hr]. split; [|done].
  exists size. split; [|done]. rewrite with_block_lookup; [done|].
  by apply (heap_fresh _ _ _ Hh) in E.
Qed.

(** Blocks change hands: an array is replaced, a block is added. *)
Lemma nodup_recorded (A X L P : list Z) n b :
  NoDup ((A ++ X) ++ L ++ P) -> n ∉ (A ++ X) ++ L ++ P -> b ∉ (A ++ X) ++ L ++ P -> n <> b ->
  NoDup ((A ++ [n]) ++ (L ++ [b]) ++ P).
Proof.
  intros Hnd Hn Hb Hne. rewrite !elem_of_app in Hn, Hb.
  assert (NoDup (n :: b :: A ++ L ++ P)) as Hl.
  { rewrite !NoDup_cons, elem_of_cons, !elem_of_app. split; [tauto|]. split; [tauto|].
    apply NoDup_app in Hnd as (HA & Hd & HL). apply NoDup_app in HA as (HA & _ & _).
    apply NoDup_app. split; [done|]. split; [|done]. intros x Hx. apply Hd.
    rewrite elem_of_app. tauto. }
  eapply (NoDup_Permutation_proper _ _); [|exact Hl].
  rewrite <- !app_assoc. simpl. rewrite <- (Permutation_middle (L) P b).
  rewrite <- Permutation_middle. f_equiv. symmetry. apply Permutation_middle.
Qed.

Ltac elems := rewrite ?elem_of_app, ?elem_of_cons, ?elem_of_nil in *.

Lemma arrays_apart p c : NoDup (owned p) ->
  (c ∈ list_array (pages p) -> (c ∉ list_array (large_blocks p)) /\
     (c ∉ list_blocks (large_blocks p)) /\ c ∉ list_blocks (pages p)) /\
  (c ∈ list_array (large_blocks p) -> (c ∉ list_array (pages p)) /\
     (c ∉ list_blocks (large_blocks p)) /\ c ∉ list_blocks (pages p)).
Proof.
  unfold owned. intros (H1 & H2 & _)%NoDup_app. apply NoDup_app in H1 as (_ & H1 & _).
  specialize (H1 c). specialize (H2 c). elems. tauto.
Qed.

(** ** A block of its own *)

Definition with_large (p : amqp_pool_t) (l : amqp_pool_blocklist_t) : amqp_pool_t :=
  mk_pool (pagesize p) (pages p) l (next_page p) (alloc_block p) (alloc_used p).

Lemma large_ok p h b n :
  pool_ok p h -> num_blocks (large_blocks p) < INT_MAX -> b ∉ owned p -> alloc_block p <> Some b ->
  h_live h !! b = Some n ->
  pool_ok (with_large p (recorded (large_blocks p) h b)) (regrown (large_blocks p) h).
Proof.
  intros Hp Hmax Hb Hab E. pose proof (owned_not_next p h Hp) as Hf.
  pose proof (heap_fresh _ _ _ (ok_heap _ _ Hp) E) as Hbn. destruct Hp.
  assert (Hkeep : forall c, c ∉ list_array (large_blocks p) -> is_Some (h_live h !! c) ->
            h_live (regrown (large_blocks p) h) !! c = h_live h !! c).
  { intros c Hc [s Es]. apply regrown_lookup; [done|]. by apply (heap_fresh _ _ _ ok_heap0) in Es. }
  pose proof (fun c => proj2 (arrays_apart p c ok_nodup0)) as Hap.
  unfold owned, spare in *. unfold with_large, recorded.
  split; unfold owned, spare; cbn [pages large_blocks pagesize next_page alloc_block alloc_used list_blocks list_array blocklist num_blocks] in *; try done.
  - by apply heap_ok_regrown.
  - destruct ok_large0. split; cbn [num_blocks list_blocks blocklist]; [|lia].
    rewrite zlen_app. change (zlen [b]) with 1. lia.
  - by eapply nodup_recorded.
  - intros c Hc. elems. destruct (decide (c = h_next h)) as [->|].
    + apply regrown_array. tauto.
    + destruct (decide (c = b)) as [->|]; [rewrite Hkeep; [eauto|tauto|eauto]|].
      specialize (Hap c). specialize (ok_live0 c). elems. rewrite Hkeep; [tauto..].
  - intros c Hc. specialize (Hap c). rewrite Hkeep; [auto|tauto|]. rewrite ok_page_size0 by done. eauto.
  - intros c Hc. destruct (ok_block0 c Hc) as (Ec & ? & ?).
    pose proof (heap_fresh _ _ _ ok_heap0 Ec). assert (c <> b) by congruence.
    rewrite Hkeep; [|elems; tauto|eauto]. split; [done|]. split; [done|]. elems. tauto.
Qed.

Definition arrays (p : amqp_pool_t) : list Z := list_array (pages p) ++ list_array (large_blocks p).

Lemma region_keep p h p' h' r :
  (forall b s, h_live h !! b = Some s -> b ∉ arrays p -> h_live h' !! b = Some s /\ b ∉ arrays p') ->
  (forall b s, h_live h !! b = Some s -> b ∉ spare p ->
     (b ∉ spare p') /\ (alloc_block p' = Some b -> alloc_block p = Some b /\ alloc_used p <= alloc_used p')) ->
  region_ok p h r -> region_ok p' h' r.
Proof.
  intros Hl Hs. destruct r as [[b off] len]. intros [(size & E & Hb) (H8 & Hsp & Har & Hab)].
  destruct (Hl b size E Har) as [El Hn]. destruct (Hs b size E Hsp) as [Hn' Hab'].
  split; [eauto|]. repeat split; try done. intros Ha. destruct (Hab' Ha) as [Ha' ?].
  specialize (Hab Ha'). lia.
Qed.

Lemma pool_ok_live p h h' :
  pool_ok p h -> h_live h' = h_live h -> h_next h <= h_next h' -> pool_ok p h'.
Proof.
  intros [] E Hn. split; rewrite ?E; try done.
  intros b s Eb. rewrite E in Eb. specialize (ok_heap0 b s Eb). lia.
Qed.

Lemma region_ok_live p h h' r : region_ok p h r -> h_live h' = h_live h -> region_ok p h' r.
Proof. destruct r as [[b off] len]. intros Hr E. unfold region_ok. by rewrite E. Qed.

(** A refusal: the pool may have lost its current block, nothing else. *)
Lemma refused_post p h n p' h' :
  pool_ok p' h' -> h_refuse h <> [] -> pagesize p' = pagesize p ->
  pages p' = pages p -> large_blocks p' = large_blocks p -> 
  (forall r, region_ok p h r -> region_ok p' h' r) ->
  alloc_post p h n (Ret None, (p', h')).
Proof.
  intros Hp Hr Hs Hpg Hl Hreg. split; [done|]. split; [done|]. split.
  { intros rs. by apply regions_mono. }
  split; [done|]. rewrite Hpg, Hl. lia.
Qed.

(** A grant, of the whole block [b], which was not in use. *)
Lemma granted_post p h n n' p' h' b :
  pool_ok p' h' -> pagesize p' = pagesize p ->
  num_blocks (pages p') <= num_blocks (pages p) + 1 ->
  num_blocks (large_blocks p') <= num_blocks (large_blocks p) + 1 ->
  (forall r, region_ok p h r -> region_ok p' h' r) ->
  (forall off len, region_ok p h ((b, off), len) -> False) ->
  region_ok p' h' ((b, 0), n') -> 0 <= n <= n' ->
  (h_refuse h = [] -> h_refuse h' = [] /\ forall c, is_Some (h_live h' !! c) ->
     c ∈ owned p' \/ (is_Some (h_live h !! c) /\ c ∉ owned p)) ->
  alloc_post p h n (Ret (Some (b, 0)), (p', h')).
Proof.
  intros Hp Hs Hn1 Hn2 Hreg Hnew ((size & E & Hb) & H8 & Hsp & Har & Hab) Hn Hown.
  split; [done|]. split; [done|]. split.
  { intros rs. apply regions_add; [done|..].
    - split; [exists size; repeat split; lia || done|]. repeat split; try done.
      intros Ha. specialize (Hab Ha). lia.
    - intros [[b' off] len] Hr. left. intros <-. by apply (Hnew off len). }
  split; [|done]. intros Hr. destruct (Hown Hr). split; [by eexists|done].
Qed.

Lemma free_with_block h n r :
  heap_ok h -> free (h_next h) (mk_heap (h_live (with_block h n)) (h_next h + 1) r)
               = (Ret tt, mk_heap (h_live h) (h_next h + 1) r).
Proof.
  intros Hh. unfold free. cbn [h_live with_block h_next h_refuse]. rewrite lookup_insert_eq.
  rewrite delete_insert_id; [done|].
  destruct (h_live h !! h_next h) as [s|] eqn:E; [|done]. specialize (Hh _ _ E). lia.
Qed.

Lemma spare_pages n (l : list Z) b : b ∈ zdrop n l -> b ∈ l.
Proof. intros Hb. rewrite <- (ztake_zdrop l n). apply elem_of_app. by right. Qed.

(** The heap and the pool after a large block has been recorded. *)
Lemma alloc_large_granted p h n n' :
  pool_ok p h -> num_blocks (large_blocks p) < INT_MAX -> 0 <= n <= n' ->
  let h1 := with_block h n' in
  alloc_post p h n
    (Ret (Some (h_next h, 0)),
     (with_large p (recorded (large_blocks p) h1 (h_next h)), regrown (large_blocks p) h1)).
Proof.
  intros Hp Hmax Hn h1. pose proof (owned_not_next p h Hp) as Hf.
  pose proof (pool_ok_with_block p h n' Hp) as Hp1. fold h1 in Hp1.
  assert (Hb1 : h_live h1 !! h_next h = Some n') by apply lookup_insert_eq.
  assert (Hnext : h_next h1 = h_next h + 1) by done.
  assert (Hblk : alloc_block p <> Some (h_next h)).
  { intros Hb. destruct (ok_block _ _ Hp _ Hb) as [E _].
    by apply (heap_fresh h) in E; [|apply Hp]. }
  assert (Hold : forall b s, h_live h !! b = Some s -> b <> h_next h /\ b <> h_next h1).
  { intros b s E. apply (ok_heap _ _ Hp) in E. lia. }
  assert (Hkeep : forall b, b ∉ list_array (large_blocks p) -> b <> h_next h -> b <> h_next h1 ->
    h_live (regrown (large_blocks p) h1) !! b = h_live h !! b).
  { intros b ???. rewrite regrown_lookup by done. by apply with_block_lookup. }
  eapply (granted_post _ _ _ n'); try done; cbn [pages large_blocks with_large recorded num_blocks]; try lia.
  - by apply (large_ok p h1 (h_next h) n').
  - intros r Hr. eapply region_keep; [| |exact Hr].
    + intros b s E Ha. destruct (Hold b s E). unfold arrays in *.
      cbn [pages large_blocks with_large recorded list_array blocklist]. elems.
      rewrite Hkeep by tauto. split; [done|]. tauto.
    + intros b s E Hs. done.
  - intros off len [(s & E & _) _]. by destruct (Hold _ _ E).
  - split.
    + exists n'. rewrite regrown_lookup; [repeat split; lia || done| |lia].
      unfold owned in Hf. elems. tauto.
    + split; [apply Z.divide_0_r|]. unfold owned, spare in *.
      cbn [pages large_blocks with_large recorded list_array blocklist next_page alloc_block].
      split; [|split; [|done]].
      * intros Hin. apply spare_pages in Hin. elems. tauto.
      * elems. intros [?|[?|?]]; [tauto|lia|done].
  - intros Er. split; [unfold regrown; cbn [h_refuse]; unfold h1, with_block; cbn [h_refuse]; by rewrite Er|].
    intros c [s Ec]. unfold owned in *. cbn [pages large_blocks with_large recorded list_array list_blocks blocklist].
    apply regrown_inv in Ec as [->|(Hc1 & Hc2 & Ec)]; [left; elems; tauto|].
    destruct (decide (c = h_next h)) as [->|Hc]; [left; elems; tauto|].
    assert (h_live h !! c = Some s) by (rewrite <- Ec; symmetry; by apply with_block_lookup).
    destruct (decide (c ∈ owned p)) as [Ho|Ho]; unfold owned in *; elems; [left; tauto|right; eauto].
Qed.

Lemma alloc_large_post p h n n' :
  pool_ok p h -> num_blocks (large_blocks p) < INT_MAX -> 0 <= n <= n' ->
  alloc_post p h n (alloc_large n' (p, h)).
Proof.
  intros Hp Hmax Hn. unfold alloc_large. change (bind get_pool ?k (p, h)) with (k p (p, h)). cbv beta.
  destruct (malloc_cases n' h) as [(r & Er & E)|E]; rewrite (on_heap_step _ _ _ _ _ _ E).
  { apply refused_post; try done; [by eapply pool_ok_live|by rewrite Er]. }
  fold (with_block h n').
  destruct (record_cases (large_blocks p) (h_next h) (with_block h n')) as [(r & Er & E2)|E2];
    [apply Hp|done|by apply heap_ok_insert, Hp| | |].
  - intros a Ha. apply (pool_ok_with_block p h n' Hp). unfold owned. elems. tauto.
  - rewrite (on_heap_step _ _ _ _ _ _ E2).
    rewrite (on_heap_step _ _ _ _ _ _ (free_with_block h n' r (ok_heap _ _ Hp))).
    apply refused_post; try done.
    + eapply pool_ok_live; [exact Hp|done|simpl; lia].
    + intros E0. cbn [with_block h_refuse] in Er. by rewrite E0 in Er.
  - rewrite (on_heap_step _ _ _ _ _ _ E2). by apply alloc_large_granted.
Qed.

(** ** A page *)

Definition with_page (p : amqp_pool_t) (l : amqp_pool_blocklist_t) (next b amount : Z) : amqp_pool_t :=
  mk_pool (pagesize p) l (large_blocks p) next (Some b) amount.

Lemma nodup_page (X A L P : list Z) n b :
  NoDup ((X ++ A) ++ L ++ P) -> n ∉ (X ++ A) ++ L ++ P -> b ∉ (X ++ A) ++ L ++ P -> n <> b ->
  NoDup (([n] ++ A) ++ L ++ P ++ [b]).
Proof.
  intros Hnd Hn Hb Hne. rewrite !elem_of_app in Hn, Hb.
  apply NoDup_app in Hnd as (HA & Hd & HL). apply NoDup_app in HA as (_ & _ & HA).
  rewrite (app_assoc L), app_assoc. apply NoDup_app. split; [|split].
  - simpl. apply NoDup_cons. rewrite !elem_of_app. split; [tauto|].
    apply NoDup_app. split; [done|]. split; [|done]. intros x Hx. apply Hd.
    rewrite elem_of_app. tauto.
  - intros x Hx Hxb. elems. destruct Hxb as [->|[]].
    destruct Hx as [[[->|[]]|?]|?]; tauto.
  - apply NoDup_singleton.
Qed.

Lemma page_ok p h b amount :
  pool_ok p h -> num_blocks (pages p) < INT_MAX -> b ∉ owned p ->
  h_live h !! b = Some (pagesize p) -> 0 <= amount <= pagesize p -> (8 | amount) ->
  pool_ok (with_page p (recorded (pages p) h b) (num_blocks (pages p) + 1) b amount)
          (regrown (pages p) h).
Proof.
  intros Hp Hmax Hb E Ham H8. pose proof (owned_not_next p h Hp) as Hf.
  pose proof (heap_fresh _ _ _ (ok_heap _ _ Hp) E) as Hbn. destruct Hp.
  assert (Hkeep : forall c, c ∉ list_array (pages p) -> is_Some (h_live h !! c) ->
            h_live (regrown (pages p) h) !! c = h_live h !! c).
  { intros c Hc [s Es]. apply regrown_lookup; [done|]. by apply (heap_fresh _ _ _ ok_heap0) in Es. }
  pose proof (fun c => proj1 (arrays_apart p c ok_nodup0)) as Hap.
  unfold owned, spare in *. unfold with_page, recorded.
  assert (zlen (list_blocks (pages p) ++ [b]) = num_blocks (pages p) + 1) as Hlen.
  { rewrite zlen_app. destruct ok_pages0. change (zlen [b]) with 1. lia. }
  split; unfold owned, spare; cbn [pages large_blocks pagesize next_page alloc_block alloc_used list_blocks list_array blocklist num_blocks] in *; try done.
  - by apply heap_ok_regrown.
  - split; cbn [num_blocks list_blocks blocklist]; lia.
  - by eapply nodup_page.
  - intros c Hc. elems. destruct (decide (c = h_next h)) as [->|].
    + apply regrown_array. tauto.
    + destruct (decide (c = b)) as [->|]; [rewrite Hkeep; [eauto|tauto|eauto]|].
      specialize (Hap c). specialize (ok_live0 c). elems. rewrite Hkeep; [tauto..].
  - intros c Hc. specialize (Hap c). specialize (ok_live0 c). elems.
    destruct (decide (c = b)) as [->|]; [rewrite Hkeep; [eauto|tauto|eauto]|].
    rewrite Hkeep; [apply ok_page_size0; tauto|tauto|tauto].
  - lia.
  - intros c [= <-]. rewrite Hkeep; [|elems; tauto|eauto]. split; [done|].
    unfold zdrop. rewrite drop_ge by (unfold zlen in Hlen; lia).
    elems. split; [tauto|]. intros [[->|[]]|?]; tauto.
Qed.

Lemma alloc_page_granted p h n n' :
  pool_ok p h -> num_blocks (pages p) < INT_MAX -> 0 <= n <= n' -> n' <= pagesize p -> (8 | n') ->
  let h1 := with_block h (pagesize p) in
  alloc_post p h n
    (Ret (Some (h_next h, 0)),
     (with_page p (recorded (pages p) h1 (h_next h)) (num_blocks (pages p) + 1) (h_next h) n',
      regrown (pages p) h1)).
Proof.
  intros Hp Hmax Hn Hn' H8 h1. pose proof (owned_not_next p h Hp) as Hf.
  pose proof (pool_ok_with_block p h (pagesize p) Hp) as Hp1. fold h1 in Hp1.
  assert (Hb1 : h_live h1 !! h_next h = Some (pagesize p)) by apply lookup_insert_eq.
  assert (Hnext : h_next h1 = h_next h + 1) by done.
  assert (Hold : forall b s, h_live h !! b = Some s -> b <> h_next h /\ b <> h_next h1).
  { intros b s E. apply (ok_heap _ _ Hp) in E. lia. }
  assert (Hkeep : forall b, b ∉ list_array (pages p) -> b <> h_next h -> b <> h_next h1 ->
    h_live (regrown (pages p) h1) !! b = h_live h !! b).
  { intros b ???. rewrite regrown_lookup by done. by apply with_block_lookup. }
  assert (Hspare : spare (with_page p (recorded (pages p) h1 (h_next h)) (num_blocks (pages p) + 1) (h_next h) n') = []).
  { unfold spare. cbn [pages with_page recorded next_page list_blocks blocklist].
    destruct (ok_pages _ _ Hp). unfold zdrop. apply drop_ge. rewrite length_app. simpl.
    unfold zlen in *. lia. }
  eapply (granted_post _ _ _ n'); try done; cbn [pages large_blocks with_page recorded num_blocks]; try lia.
  - apply page_ok; done || lia.
  - intros r Hr. eapply region_keep; [| |exact Hr].
    + intros b s E Ha. destruct (Hold b s E). unfold arrays in *.
      cbn [pages large_blocks with_page recorded list_array blocklist]. elems.
      rewrite Hkeep by tauto. split; [done|]. tauto.
    + intros b s E Hs. rewrite Hspare. split; [set_solver|]. cbn [with_page alloc_block].
      intros [= <-]. by destruct (Hold _ _ E).
  - intros off len [(s & E & _) _]. by destruct (Hold _ _ E).
  - split.
    + exists (pagesize p). rewrite regrown_lookup; [repeat split; lia || done| |lia].
      unfold owned in Hf. elems. tauto.
    + split; [apply Z.divide_0_r|]. rewrite Hspare. unfold owned in *.
      cbn [pages large_blocks with_page recorded list_array blocklist next_page alloc_block alloc_used].
      elems. split; [tauto|]. split; [|done]. intros [[?|[]]|?]; [lia|tauto].
  - intros Er. split; [unfold regrown; cbn [h_refuse]; unfold h1, with_block; cbn [h_refuse]; by rewrite Er|].
    intros c [s Ec]. unfold owned in *. cbn [pages large_blocks with_page recorded list_array list_blocks blocklist].
    apply regrown_inv in Ec as [->|(Hc1 & Hc2 & Ec)]; [left; elems; tauto|].
    destruct (decide (c = h_next h)) as [->|Hc]; [left; elems; tauto|].
    assert (h_live h !! c = Some s) by (rewrite <- Ec; symmetry; by apply with_block_lookup).
    destruct (decide (c ∈ owned p)) as [Ho|Ho]; unfold owned in *; elems; [left; tauto|right; eauto].
Qed.

(** A page that was recorded before the last recycle is handed out again. *)
Lemma alloc_page_reused p h n n' b :
  pool_ok p h -> next_page p < num_blocks (pages p) -> 0 <= n <= n' -> n' <= pagesize p -> (8 | n') ->
  list_blocks (pages p) !! Z.to_nat (next_page p) = Some b ->
  alloc_post p h n (Ret (Some (b, 0)), (with_page p (pages p) (next_page p + 1) b n', h)).
Proof.
  intros Hp Hnext Hn Hn' H8 Eb. pose proof (ok_next _ _ Hp). pose proof (ok_pages _ _ Hp) as [Hnum _].
  assert (Hspare : spare p = b :: spare (with_page p (pages p) (next_page p + 1) b n')).
  { unfold spare, zdrop. cbn [with_page pages next_page]. rewrite (drop_S _ b) by done.
    do 2 f_equal. lia. }
  assert (Hbp : b ∈ list_blocks (pages p)) by (eapply list_elem_of_lookup_2; exact Eb).
  assert (Hnd : NoDup (b :: spare (with_page p (pages p) (next_page p + 1) b n'))).
  { rewrite <- Hspare. pose proof (ok_nodup _ _ Hp) as Ho. unfold owned in Ho.
    apply NoDup_app in Ho as (_ & _ & Ho). apply NoDup_app in Ho as (_ & _ & Ho).
    rewrite <- (ztake_zdrop (list_blocks (pages p)) (next_page p)) in Ho.
    by apply NoDup_app in Ho as (_ & _ & Ho). }
  apply NoDup_cons in Hnd as [Hnb _].
  assert (Hbo : b ∉ list_array (pages p) ++ list_array (large_blocks p) ++ list_blocks (large_blocks p)).
  { pose proof (arrays_apart p b (ok_nodup _ _ Hp)). pose proof (ok_nodup _ _ Hp) as Ho.
    unfold owned in Ho. apply NoDup_app in Ho as (_ & _ & Ho). apply NoDup_app in Ho as (_ & Ho & _).
    specialize (Ho b). elems. tauto. }
  assert (Hlive := ok_page_size _ _ Hp b Hbp).
  eapply (granted_post _ _ _ n'); try done; cbn [pages large_blocks with_page]; try lia.
  - destruct Hp. split; try done; cbn [pages large_blocks with_page next_page alloc_used pagesize].
    + lia.
    + split; [lia|done].
    + intros c [= <-]. done.
  - intros r Hr. eapply region_keep; [| |exact Hr]; [done|].
    intros c s E Hs. rewrite Hspare in Hs. split; [set_solver|].
    cbn [with_page alloc_block]. intros [= <-]. set_solver.
  - intros off len (_ & _ & Hs & _). rewrite Hspare in Hs. set_solver.
  - split; [exists (pagesize p); repeat split; done || lia|]. split; [apply Z.divide_0_r|].
    split; [done|]. split; [|done]. elems. tauto.
  - intros Er. split; [done|]. intros c Hc.
    destruct (decide (c ∈ owned p)); [by left|by right].
Qed.

(** The rest of the current page. *)
Lemma alloc_bump p h n n' b :
  pool_ok p h -> alloc_block p = Some b -> 0 <= n <= n' -> alloc_used p + n' <= pagesize p -> (8 | n') ->
  alloc_post p h n
    (Ret (Some (b, alloc_used p)),
     (mk_pool (pagesize p) (pages p) (large_blocks p) (next_page p) (alloc_block p) (alloc_used p + n'), h)).
Proof.
  intros Hp Hab Hn Hfit H8. pose proof (ok_used _ _ Hp) as [Hu Hu8].
  destruct (ok_block _ _ Hp b Hab) as (Hlive & Hsp & Hna).
  set (p' := mk_pool _ _ _ _ _ _).
  assert (Hkeep : forall r, region_ok p h r -> region_ok p' h r).
  { intros r Hr. eapply region_keep; [| |exact Hr]; [done|]. intros c s E Hs.
    split; [done|]. intros Hc. split; [exact Hc|]. cbn [p' alloc_used]. lia. }
  split; [|split; [done|split; [|split; [|cbn [p' pages large_blocks]; lia]]]].
  - destruct Hp. split; try done. cbn [p' pagesize alloc_used]. split; [lia|]. by apply Z.divide_add_r.
  - intros rs. apply regions_add; [done|..].
    + split; [exists (pagesize p); repeat split; done || lia|]. split; [done|]. split; [done|].
      split; [cbn [p' pages large_blocks]; elems; tauto|]. intros _. cbn [p' alloc_used]. lia.
    + intros [[c off] len] (_ & _ & _ & _ & Hc). unfold apart.
      destruct (decide (b = c)) as [->|]; [|by left]. right; right. by apply Hc.
  - intros Er. split; [by eexists|]. split; [done|]. intros c Hc.
    destruct (decide (c ∈ owned p)); [by left|by right].
Qed.

Lemma alloc_page_post p h n n' :
  pool_ok p h -> num_blocks (pages p) < INT_MAX -> 0 <= n <= n' -> n' <= pagesize p -> (8 | n') ->
  alloc_post p h n (alloc_page n' (p, h)).
Proof.
  intros Hp Hmax Hn Hn' H8. unfold alloc_page.
  change (bind get_pool ?k (p, h)) with (k p (p, h)). cbv beta.
  pose proof (ok_next _ _ Hp). pose proof (ok_pages _ _ Hp) as [Hnum _].
  destruct (Z.leb_spec (num_blocks (pages p)) (next_page p)).
  - set (q blk := mk_pool (pagesize p) (pages p) (large_blocks p) (next_page p) blk (alloc_used p)).
    destruct (malloc_cases (pagesize p) h) as [(r & Er & E)|E]; rewrite (on_heap_step _ _ _ _ _ _ E);
      change (bind (put_pool ?q) ?k (p, ?h)) with (k tt (q, h)); cbv beta.
    { apply refused_post; try done; [|by rewrite Er|].
      - apply (pool_ok_live _ h); [|done|done]. destruct Hp; split; done.
      - intros rg Hr. eapply region_keep; [| |exact Hr]; [done|]. intros. split; [done|].
        cbn [alloc_block]. done. }
    fold (with_block h (pagesize p)). set (h1 := with_block h (pagesize p)).
    pose proof (pool_ok_with_block p h (pagesize p) Hp) as Hp1.
    destruct (record_cases (pages p) (h_next h) h1) as [(r & Er & E2)|E2];
      [apply Hp|done|apply Hp1| | |].
    + intros a Ha. apply Hp1. unfold owned. elems. tauto.
    + rewrite (on_heap_step _ _ _ _ _ _ E2). pose proof (owned_not_next p h Hp) as Hf.
      apply refused_post; try done.
      * apply (pool_ok_live _ h1); [|done|done]. destruct Hp1; split; try done.
        intros c [= <-]. split; [apply lookup_insert_eq|]. unfold owned, spare in *.
        cbn [pages large_blocks next_page]. split; [intros Hs%spare_pages|]; elems; tauto.
      * intros E0. unfold h1 in Er. cbn [with_block h_refuse] in Er. by rewrite E0 in Er.
      * intros rg Hr. eapply region_keep; [| |exact Hr].
        -- intros c s Ec Ha. split; [|done]. cbn [h_live]. unfold h1.
           rewrite with_block_lookup; [done|]. by apply (heap_fresh h) in Ec; [|apply Hp].
        -- intros c s Ec Hs. split; [done|]. cbn [alloc_block]. intros [= <-].
           by apply (heap_fresh h) in Ec; [|apply Hp].
    + rewrite (on_heap_step _ _ _ _ _ _ E2). by apply alloc_page_granted.
  - destruct (lookup_lt_is_Some_2 (list_blocks (pages p)) (Z.to_nat (next_page p))) as [b Eb].
    { unfold zlen in Hnum. lia. }
    pose proof Eb as Eb'. unfold list_blocks in Eb. destruct (blocklist (pages p)) as [[a bs]|]; [|done].
    rewrite Eb. by apply alloc_page_reused.
Qed.

(** [(amount + 7) & ~7] is the least multiple of 8 that is large enough, unless
    the addition wraps. *)
Lemma round8_spec n : 0 < n <= 2 ^ 64 - 8 -> n <= round8 n < n + 8 /\ (8 | round8 n).
Proof.
  intros Hn. unfold round8. rewrite size_add_small by lia.
  assert (Z.land (n + 7) (2 ^ 64 - 8) = (n + 7) / 8 * 8) as ->.
  { change (2 ^ 64 - 8) with (Z.shiftl (Z.ones 61) 3).
    transitivity (Z.shiftl (Z.shiftr (n + 7) 3) 3).
    - apply Z.bits_inj'. intros i Hi. rewrite Z.land_spec, !Z.shiftl_spec by lia.
      destruct (decide (i < 3)).
      + rewrite !(Z.testbit_neg_r _ (i - 3)) by lia. by rewrite andb_false_r.
      + rewrite Z.shiftr_spec by lia. replace (i - 3 + 3) with i by lia.
        destruct (decide (i < 64)).
        * rewrite Z.ones_spec_low by lia. by rewrite andb_true_r.
        * rewrite Z.ones_spec_high by lia. rewrite andb_false_r. symmetry.
          apply Z.bits_above_log2; [lia|]. apply Z.log2_lt_pow2; [lia|].
          apply Z.lt_le_trans with (2 ^ 64); [lia|]. apply Z.pow_le_mono_r; lia.
    - rewrite Z.shiftr_div_pow2, Z.shiftl_mul_pow2 by lia. done. }
  split; [|apply Z.divide_factor_r].
  pose proof (Z.div_mod (n + 7) 8). pose proof (Z.mod_pos_bound (n + 7) 8). lia.
Qed.

Lemma amqp_pool_alloc_post p h n :
  pool_ok p h -> num_blocks (pages p) < INT_MAX -> num_blocks (large_blocks p) < INT_MAX ->
  0 < n <= 2 ^ 64 - 8 -> alloc_post p h n (amqp_pool_alloc n (p, h)).
Proof.
  intros Hp Hm1 Hm2 Hn. destruct (round8_spec n Hn) as [Hr H8]. unfold amqp_pool_alloc.
  destruct (Z.eqb_spec n 0); [lia|]. change (bind get_pool ?k (p, h)) with (k p (p, h)). cbv beta.
  pose proof (ok_pagesize _ _ Hp). pose proof (ok_used _ _ Hp) as [Hu _].
  destruct (Z.ltb_spec (pagesize p) (round8 n)); [apply alloc_large_post; done || lia|].
  destruct (alloc_block p) as [b|] eqn:Eb; [|apply alloc_page_post; done || lia].
  destruct (Z.ltb_spec (pagesize p) (alloc_used p)); [lia|].
  rewrite size_add_small by lia.
  destruct (Z.leb_spec (alloc_used p + round8 n) (pagesize p)); [|apply alloc_page_post; done || lia].
  rewrite <- Eb. apply alloc_bump; done || lia.
Qed.

(** ** Giving blocks back *)

(** [h'] is [h] without the blocks of [l]. *)
Definition freed (l : list Z) (h h' : heap) : Prop :=
  (forall b, h_live h' !! b = if decide (b ∈ l) then None else h_live h !! b) /\
  h_next h' = h_next h /\ h_refuse h' = h_refuse h.

Lemma free_freed b h : is_Some (h_live h !! b) -> exists h', free b h = (Ret tt, h') /\ freed [b] h h'.
Proof.
  intros [s E]. unfold free. rewrite E. eexists. split; [done|]. split; [|done].
  intros c. cbn [h_live]. case_decide as Hc; elems.
  - destruct Hc as [->|[]]. apply lookup_delete_eq.
  - apply lookup_delete_ne. intros ->. tauto.
Qed.

Lemma freed_app l k h h1 h2 : freed l h h1 -> freed k h1 h2 -> freed (l ++ k) h h2.
Proof.
  intros (H1 & Hn1 & Hr1) (H2 & Hn2 & Hr2). split; [|split; congruence].
  intros b. rewrite H2, H1. repeat case_decide; elems; tauto || done.
Qed.

Lemma free_all l h :
  NoDup l -> (forall b, b ∈ l -> is_Some (h_live h !! b)) ->
  exists h', for_each free l h = (Ret tt, h') /\ freed l h h'.
Proof.
  intros Hnd. revert h. induction Hnd as [|b l Hb _ IH]; intros h Hl; simpl.
  { eexists. split; [done|]. split; [|done]. intros b. by rewrite decide_False by set_solver. }
  destruct (free_freed b h) as (h1 & E1 & Hf1); [apply Hl; left|].
  rewrite (bind_step _ _ _ _ _ E1). destruct (IH h1) as (h2 & E2 & Hf2).
  { intros c Hc. destruct Hf1 as [Hf1 _]. rewrite Hf1, decide_False; [apply Hl; by right|].
    elems. intros [->|[]]. done. }
  exists h2. split; [done|]. by apply (freed_app [b] l h h1).
Qed.

Lemma empty_blocklist_freed x h :
  list_ok x -> NoDup (list_blocks x ++ list_array x) ->
  (forall b, b ∈ list_blocks x ++ list_array x -> is_Some (h_live h !! b)) ->
  exists h', empty_blocklist x h = (Ret empty_list, h') /\ freed (list_blocks x ++ list_array x) h h'.
Proof.
  intros [Hn _] Hnd Hl. unfold empty_blocklist, list_blocks, list_array in *.
  destruct (blocklist x) as [[a bs]|].
  - destruct (Z.leb_spec (num_blocks x) (zlen bs)); [|lia]. rewrite ztake_all by lia.
    apply NoDup_app in Hnd as (Hnd & Hna & _).
    destruct (free_all bs h Hnd) as (h1 & E1 & Hf1); [intros; apply Hl; set_solver|].
    rewrite (bind_step _ _ _ _ _ E1).
    destruct (free_freed a h1) as (h2 & E2 & Hf2).
    { destruct Hf1 as [Hf1 _]. rewrite Hf1, decide_False; [apply Hl; set_solver|set_solver]. }
    rewrite (bind_step _ _ _ _ _ E2). exists h2. split; [done|]. by apply (freed_app bs [a] h h1).
  - exists h. split; [done|]. split; [|done]. intros b. by rewrite decide_False by set_solver.
Qed.

Definition large_owned (p : amqp_pool_t) : list Z :=
  list_blocks (large_blocks p) ++ list_array (large_blocks p).
Definition pages_owned (p : amqp_pool_t) : list Z :=
  list_blocks (pages p) ++ list_array (pages p).

Lemma owned_split p : owned p ≡ₚ large_owned p ++ pages_owned p.
Proof. unfold owned, large_owned, pages_owned. solve_Permutation. Qed.

(** Recycling frees the large blocks and keeps the pages, all of them spare. *)
Lemma recycle_post p h :
  pool_ok p h ->
  exists h', recycle_amqp_pool (p, h)
             = (Ret tt, (mk_pool (pagesize p) (pages p) empty_list 0 None 0, h')) /\
    freed (large_owned p) h h' /\ pool_ok (mk_pool (pagesize p) (pages p) empty_list 0 None 0) h'.
Proof.
  intros Hp. pose proof (owned_split p) as Hs.
  pose proof (ok_nodup _ _ Hp) as Hnd. rewrite Hs in Hnd. apply NoDup_app in Hnd as (Hnl & Hap & Hnp).
  destruct (empty_blocklist_freed (large_blocks p) h) as (h' & E & Hf);
    [apply Hp|done|intros b Hb; apply Hp; rewrite Hs; apply elem_of_app; by left|].
  exists h'. unfold recycle_amqp_pool. change (bind get_pool ?k (p, h)) with (k p (p, h)). cbv beta.
  rewrite (on_heap_step _ _ _ _ _ _ E). split; [done|]. split; [done|].
  destruct Hf as (Hf & Hnx & _). unfold large_owned, pages_owned in *.
  assert (Hkeep : forall b, b ∈ list_blocks (pages p) ++ list_array (pages p) -> h_live h' !! b = h_live h !! b).
  { intros b Hb. rewrite Hf, decide_False; [done|]. intros Hb'. by apply (Hap b). }
  destruct Hp. split; cbn [pagesize pages large_blocks next_page alloc_block alloc_used]; try done.
  - intros b s Eb. rewrite Hf in Eb. case_decide; [done|]. rewrite Hnx. by apply (ok_heap0 b s).
  - unfold owned. cbn [pages large_blocks]. rewrite app_nil_r. simpl. by rewrite Permutation_app_comm.
  - unfold owned. cbn [pages large_blocks list_array empty_list blocklist list_blocks].
    rewrite app_nil_r. intros b Hb. simpl in Hb. rewrite Hkeep by (elems; tauto).
    apply ok_live0. unfold owned. elems. tauto.
  - intros b Hb. rewrite Hkeep by (elems; tauto). auto.
  - lia.
  - split; [lia|apply Z.divide_0_r].
Qed.

Lemma empty_post p h :
  pool_ok p h ->
  exists h', empty_amqp_pool (p, h)
             = (Ret tt, (mk_pool (pagesize p) empty_list empty_list 0 None 0, h')) /\
    freed (owned p) h h'.
Proof.
  intros Hp. destruct (recycle_post p h Hp) as (h1 & E1 & Hf1 & Hp1).
  set (p1 := mk_pool (pagesize p) (pages p) empty_list 0 None 0) in *.
  pose proof (ok_nodup _ _ Hp1) as Hnd. rewrite (owned_split p1) in Hnd.
  destruct (empty_blocklist_freed (pages p) h1) as (h2 & E2 & Hf2);
    [apply Hp1|exact Hnd|intros b Hb; apply Hp1; rewrite (owned_split p1); exact Hb|].
  exists h2. unfold empty_amqp_pool. rewrite (bind_step _ _ _ _ _ E1).
  change (bind get_pool ?k (p1, h1)) with (k p1 (p1, h1)). cbv beta.
  rewrite (on_heap_step _ _ _ _ _ _ E2). split; [done|].
  destruct (freed_app _ _ _ _ _ Hf1 Hf2) as (Hl & Hn & Hr). split; [|done].
  intros b. rewrite Hl. apply decide_ext. fold (pages_owned p). by rewrite <- owned_split.
Qed.
