(* ===== verification/PoolMem.v ===== *)
(** * Channel pools and the memory the decoders run in

    [librabbitmq/amqp_mem.c]: the table of channel pools of a connection, and the
    instance of the interface of [Memory.v] by the pools of [Pool.v].  The
    properties of the whole component are at the end. *)

From S2P Require Import Prelude Status Memory Layout Pool.

(** ** The memory *)

(** The heap the pools live in, the pools by name, and the scratch blocks of the
    decoders, which are named apart: no scratch block is ever given to a pool. *)
Record memory := mk_memory {
  m_heap : heap;
  m_pools : gmap Z amqp_pool_t;
  m_scratch : gmap Z Z;
  m_snext : Z;
}.

Definition set_heap (m : memory) (h : heap) : memory :=
  mk_memory h (m_pools m) (m_scratch m) (m_snext m).

Definition mem_pool_alloc (p : Z) (n : Z) (m : memory) : option addr * memory :=
  match m_pools m !! p with
  | None => (None, m)
  | Some pl =>
      match amqp_pool_alloc n (pl, m_heap m) with
      | (Ret a, (pl', h')) => (a, mk_memory h' (<[p := pl']> (m_pools m)) (m_scratch m) (m_snext m))
      | _ => (None, m)
      end
  end.

Definition scratch_malloc (n : Z) (m : memory) : option Z * memory :=
  let h := m_heap m in
  match h_refuse h with
  | true :: r => (None, set_heap m (mk_heap (h_live h) (h_next h) r))
  | r => (Some (m_snext m),
          mk_memory (mk_heap (h_live h) (h_next h) (tail r)) (m_pools m)
            (<[m_snext m := n]> (m_scratch m)) (m_snext m + 1))
  end.

Definition scratch_free (b : Z) (m : memory) : memory :=
  mk_memory (m_heap m) (m_pools m) (delete b (m_scratch m)) (m_snext m).

Definition scratch_realloc (b n : Z) (m : memory) : option Z * memory :=
  match scratch_malloc n m with
  | (Some b', m') => (Some b', scratch_free b m')
  | (None, m') => (None, m')
  end.

#[export] Instance memory_ops : MemOps memory Z := {
  pool_alloc := mem_pool_alloc;
  c_malloc := scratch_malloc;
  c_realloc := scratch_realloc;
  c_free := scratch_free;
}.

(** ** Channel pools *)

Definition POOL_TABLE_SIZE : Z := 16.
Definition layout_amqp_pool_blocklist_t : layout := c_struct [t_int; t_ptr].
Definition layout_amqp_pool_t : layout :=
  c_struct [t_size; layout_amqp_pool_blocklist_t; layout_amqp_pool_blocklist_t; t_int; t_ptr; t_size].
Definition layout_amqp_pool_table_entry_t : layout := c_struct [t_ptr; layout_amqp_pool_t; t_uint16].

(** [state->pool_table]: per bucket the linked list of entries, each the channel
    and the name of the pool inside the entry. *)
Definition pool_table_t : Type := list (list (Z * Z)).

Definition empty_pool_table : pool_table_t := replicate (Z.to_nat POOL_TABLE_SIZE) [].

Fixpoint find_entry (channel : Z) (l : list (Z * Z)) : option Z :=
  match l with
  | [] => None
  | (c, p) :: l' => if channel =? c then Some p else find_entry channel l'
  end.

Definition bucket (t : pool_table_t) (channel : Z) : list (Z * Z) :=
  default [] (t !! Z.to_nat (channel mod POOL_TABLE_SIZE)).

Definition amqp_get_channel_pool (t : pool_table_t) (channel : Z) : option Z :=
  find_entry channel (bucket t channel).

Definition amqp_get_or_create_channel_pool (frame_max channel : Z)
    : eff (pool_table_t * memory) (option Z) :=
  fun '(t, m) =>
    match find_entry channel (bucket t channel) with
    | Some p => (Ret (Some p), (t, m))
    | None =>
        match malloc (sizeof layout_amqp_pool_table_entry_t) (m_heap m) with
        | (Ret (Some e), h) =>
            (Ret (Some e),
             (<[Z.to_nat (channel mod POOL_TABLE_SIZE) := (channel, e) :: bucket t channel]> t,
              mk_memory h (<[e := init_amqp_pool (wrap 64 frame_max)]> (m_pools m))
                (m_scratch m) (m_snext m)))
        | (Ret None, h) => (Ret None, (t, set_heap m h))
        | (Err st, h) => (Err st, (t, set_heap m h))
        | (Undef, h) => (Undef, (t, set_heap m h))
        | (NoFuel, h) => (NoFuel, (t, set_heap m h))
        end
    end.

(** * Theorems *)

(** ** The memory obeys the laws its clients rely on *)

Definition mem_plenty (p k : Z) (m : memory) : Prop :=
  h_refuse (m_heap m) = [] /\
  exists pl, m_pools m !! p = Some pl /\ pool_ok pl (m_heap m) /\
    num_blocks (pages pl) + k <= INT_MAX /\ num_blocks (large_blocks pl) + k <= INT_MAX.

Lemma mem_plenty_heap p k m m' :
  mem_plenty p k m -> m_heap m' = m_heap m -> m_pools m' = m_pools m -> mem_plenty p k m'.
Proof. unfold mem_plenty. by intros ? -> ->. Qed.

Lemma scratch_malloc_plenty p k m n :
  mem_plenty p k m -> exists b m', scratch_malloc n m = (Some b, m') /\ mem_plenty p k m'.
Proof.
  intros Hp. pose proof Hp as [Hr _]. unfold scratch_malloc. rewrite Hr. do 2 eexists. split; [done|].
  eapply mem_plenty_heap; [exact Hp| |done]. simpl. destruct m as [[] ???]. simpl in *. congruence.
Qed.

#[export] Instance memory_laws : MemLaws memory Z.
Proof.
  refine {| plenty := mem_plenty |}.
  - intros p m k k' (Hr & pl & E & Hp & H1 & H2) Hk. split; [done|]. exists pl.
    split; [done|]. split; [done|]. lia.
  - intros p m. simpl. unfold mem_pool_alloc. destruct (m_pools m !! p) as [pl|] eqn:E; [|done].
    unfold amqp_pool_alloc. simpl. rewrite insert_id by done. by destruct m.
  - intros p m k n (Hr & pl & E & Hp & H1 & H2) Hk Hn. simpl. unfold mem_pool_alloc. rewrite E.
    pose proof (amqp_pool_alloc_post pl (m_heap m) n Hp ltac:(lia) ltac:(lia) ltac:(lia)) as Hpost.
    destruct (amqp_pool_alloc n _) as [[a| | |] [pl' h']]; try done.
    destruct Hpost as (Hp' & _ & _ & Hok & Hn1 & Hn2). destruct (Hok Hr) as ([a' ->] & Hr' & _).
    do 2 eexists. split; [done|]. split; [done|]. exists pl'.
    split; [apply lookup_insert_eq|]. split; [done|]. lia.
  - intros p m k n Hp _. by apply scratch_malloc_plenty.
  - intros p m k b n Hp _. simpl. unfold scratch_realloc.
    destruct (scratch_malloc_plenty p k m n Hp) as (b' & m' & -> & Hp'). do 2 eexists. split; [done|].
    by eapply mem_plenty_heap.
  - intros p m k b Hp. by eapply mem_plenty_heap.
Defined.

(** ** Histories of a pool *)

(** The pool, the heap and the regions handed out since the last recycle. *)
Definition pool_state : Type := amqp_pool_t * heap * list region.

Inductive pool_step : pool_state -> pool_state -> Prop :=
| step_alloc n p h rs r p' h' :
    0 < n <= 2 ^ 64 - 8 ->
    amqp_pool_alloc n (p, h) = (Ret r, (p', h')) ->
    pool_step (p, h, rs) (p', h', match r with Some a => (a, n) :: rs | None => rs end)
| step_recycle p h rs p' h' :
    recycle_amqp_pool (p, h) = (Ret tt, (p', h')) ->
    pool_step (p, h, rs) (p', h', []).

Definition pool_inv (k : Z) (s : pool_state) : Prop :=
  let '(p, h, rs) := s in
  pool_ok p h /\ regions_ok p h rs /\
  num_blocks (pages p) <= k /\ num_blocks (large_blocks p) <= k.

Lemma pool_inv_init ps h :
  heap_ok h -> 0 <= ps < 2 ^ 63 -> pool_inv 0 (init_amqp_pool ps, h, []).
Proof.
  intros Hh Hps. split; [|split; [by split; constructor|done]].
  unfold init_amqp_pool. split; try done; cbn [pagesize alloc_used].
  - destruct (Z.eqb_spec ps 0); lia.
  - apply NoDup_nil_2.
  - intros b Hb. unfold owned in Hb. simpl in Hb. set_solver.
  - intros b Hb. simpl in Hb. set_solver.
  - split; [destruct (Z.eqb_spec ps 0); lia|apply Z.divide_0_r].
Qed.

Lemma pool_inv_step k s s' :
  0 <= k < INT_MAX -> pool_inv k s -> pool_step s s' -> pool_inv (k + 1) s'.
Proof.
  intros Hk Hinv Hstep. destruct Hstep as [n p h rs r p' h' Hn E|p h rs p' h' E];
    destruct Hinv as (Hp & Hrs & Hn1 & Hn2).
  - pose proof (amqp_pool_alloc_post p h n Hp ltac:(lia) ltac:(lia) Hn) as Hpost.
    rewrite E in Hpost. destruct Hpost as (Hp' & _ & Hreg & _ & H1 & H2).
    split; [done|]. split; [by apply Hreg|]. lia.
  - destruct (recycle_post p h Hp) as (h2 & E2 & _ & Hp2). rewrite E in E2. simplify_eq.
    split; [done|]. split; [by split; constructor|]. cbn [pages large_blocks num_blocks empty_list]. lia.
Qed.

Lemma pool_inv_steps k n s s' :
  0 <= k -> k + Z.of_nat n < INT_MAX -> pool_inv k s -> nsteps pool_step n s s' ->
  pool_inv (k + Z.of_nat n) s'.
Proof.
  intros Hk Hn Hinv Hs. revert k Hk Hn Hinv.
  induction Hs as [s|n s1 s2 s3 Hst _ IH]; intros k Hk Hn Hinv.
  - by rewrite Z.add_0_r.
  - replace (k + Z.of_nat (S n)) with (k + 1 + Z.of_nat n) by lia.
    apply IH; [lia|lia|]. eapply pool_inv_step; [|done|done]. lia.
Qed.

(** C18: After any sequence of allocations and recycles of a fresh pool, whichever
    of its requests the heap refuses, the regions handed out since the last recycle
    are 8-byte aligned, lie inside live blocks, and do not overlap. *)
Theorem pool_regions_disjoint ps h n p' h' rs :
  heap_ok h -> 0 <= ps < 2 ^ 63 -> Z.of_nat n < INT_MAX ->
  nsteps pool_step n (init_amqp_pool ps, h, []) (p', h', rs) ->
  Forall (fun '((b, off), len) => (8 | off) /\
            exists size, h_live h' !! b = Some size /\ 0 <= off /\ off + len <= size) rs /\
  ForallOrdPairs apart rs.
Proof.
  intros Hh Hps Hn Hs.
  destruct (pool_inv_steps 0 n _ _ ltac:(lia) Hn (pool_inv_init ps h Hh Hps) Hs) as (_ & [Hf Ho] & _).
  split; [|done]. eapply Forall_impl; [exact Hf|].
  intros [[b off] len] ((size & ? & ? & ? & ?) & ? & _). eauto 10.
Qed.

Definition heap0 : heap := mk_heap ∅ 0 [].
(** An empty heap that refuses the requests marked [true]. *)
Definition refusing (refuse : list bool) : heap := mk_heap ∅ 0 refuse.

(** Three allocations from a 64-byte page, the second too large for a page. *)
Definition demo_heap : heap := mk_heap {[0 := 64; 3 := 8; 2 := 104; 1 := 8]} 4 [].
Definition demo_regions : list region := [((0, 16), 40); ((2, 0), 100); ((0, 0), 10)].

Example pool_regions_disjoint_witness :
  Forall (fun '((b, off), len) => (8 | off) /\
            exists size, h_live demo_heap !! b = Some size /\ 0 <= off /\ off + len <= size)
    demo_regions /\
  ForallOrdPairs apart demo_regions.
Proof.
  apply (pool_regions_disjoint 64 heap0 3
           (mk_pool 64 (mk_blocklist 1 (Some (1, [0]))) (mk_blocklist 1 (Some (3, [2]))) 1 (Some 0) 56)
           demo_heap demo_regions).
  - intros b s. simpl. by rewrite lookup_empty.
  - lia.
  - vm_compute. reflexivity.
  - eapply nsteps_l; [apply (step_alloc 10); [lia|vm_compute; reflexivity]|].
    eapply nsteps_l; [apply (step_alloc 100); [lia|vm_compute; reflexivity]|].
    eapply nsteps_l; [apply (step_alloc 40); [lia|vm_compute; reflexivity]|].
    apply nsteps_O.
Defined.

(** C19: In every such history the next allocation is defined: the assertion on
    [alloc_used] holds, no block array is read or written out of range and no block
    is freed that is not live; it returns [NULL] only if the heap refuses a request,
    and otherwise a region of at least the requested size, apart from those in use. *)
Theorem pool_alloc_defined ps h k p' h' rs n :
  heap_ok h -> 0 <= ps < 2 ^ 63 -> Z.of_nat k < INT_MAX ->
  nsteps pool_step k (init_amqp_pool ps, h, []) (p', h', rs) ->
  0 < n <= 2 ^ 64 - 8 ->
  exists r s, amqp_pool_alloc n (p', h') = (Ret r, s) /\
    match r with
    | None => h_refuse h' <> []
    | Some a => Forall (apart (a, n)) rs /\ region_ok s.1 s.2 (a, n)
    end.
Proof.
  intros Hh Hps Hk Hs Hn.
  destruct (pool_inv_steps 0 k _ _ ltac:(lia) Hk (pool_inv_init ps h Hh Hps) Hs) as (Hp & Hrs & H1 & H2).
  pose proof (amqp_pool_alloc_post p' h' n Hp ltac:(lia) ltac:(lia) Hn) as Hpost.
  destruct (amqp_pool_alloc n (p', h')) as [[r| | |] [p2 h2]]; try done.
  exists r, (p2, h2). split; [done|]. destruct Hpost as (_ & _ & Hreg & Hr & _).
  destruct r as [a|].
  - destruct (Hreg rs Hrs) as [Hf Ho]. apply Forall_cons in Hf as [Hf _].
    inversion Ho; subst. done.
  - intros E. destruct (Hr E) as [[? [=]] _].
Qed.

Example pool_alloc_defined_witness :
  exists r s, amqp_pool_alloc 24 (init_amqp_pool 0, mk_heap ∅ 0 [false; true]) = (Ret r, s) /\
    match r with
    | None => h_refuse (mk_heap ∅ 0 [false; true]) <> []
    | Some a => Forall (apart (a, 24)) [] /\ region_ok s.1 s.2 (a, 24)
    end.
Proof.
  apply (pool_alloc_defined 0 (mk_heap ∅ 0 [false; true]) 0); [|lia|done|constructor|lia].
  intros b s. simpl. by rewrite lookup_empty.
Defined.

(** Every live block is the pool's. *)
Definition tight (p : amqp_pool_t) (h : heap) : Prop :=
  forall b, is_Some (h_live h !! b) -> b ∈ owned p.

Lemma tight_steps n s s' k :
  0 <= k -> k + Z.of_nat n < INT_MAX -> pool_inv k s -> nsteps pool_step n s s' ->
  h_refuse s.1.2 = [] -> tight s.1.1 s.1.2 -> h_refuse s'.1.2 = [] /\ tight s'.1.1 s'.1.2.
Proof.
  intros Hk Hn Hinv Hs. revert k Hk Hn Hinv.
  induction Hs as [s|n s1 s2 s3 Hst _ IH]; intros k Hk Hn Hinv Hr Ht; [done|].
  apply (IH (k + 1)); [lia|lia|by eapply pool_inv_step; [lia|..]|..];
    destruct Hst as [m p h rs r p' h' Hm E|p h rs p' h' E]; simpl in *;
    destruct Hinv as (Hp & Hrs & H1 & H2).
  1,3: pose proof (amqp_pool_alloc_post p h m Hp ltac:(lia) ltac:(lia) Hm) as Hpost;
    rewrite E in Hpost; destruct Hpost as (_ & _ & _ & Hok & _); destruct (Hok Hr) as (_ & Hr' & Ho).
  - done.
  - intros b Hb. destruct (Ho b Hb) as [|[Hl Hn']]; [done|]. by apply Ht in Hl.
  - destruct (recycle_post p h Hp) as (h2 & E2 & (_ & _ & Hf) & _). rewrite E in E2. simplify_eq.
    by rewrite Hf.
  - destruct (recycle_post p h Hp) as (h2 & E2 & (Hf & _ & _) & _). rewrite E in E2. simplify_eq.
    intros b Hb. rewrite Hf in Hb. case_decide as Hd; [by destruct Hb|]. specialize (Ht b Hb).
    rewrite owned_split in Ht. rewrite owned_split. unfold large_owned, pages_owned in *.
    cbn [pages large_blocks list_blocks list_array empty_list blocklist]. elems. tauto.
Qed.

(** With a heap that refuses nothing, emptying a pool after any history frees
    each of its blocks exactly once and leaves no block behind. *)
Theorem pool_empty_no_leak ps n p' h' rs :
  0 <= ps < 2 ^ 63 -> Z.of_nat n < INT_MAX ->
  nsteps pool_step n (init_amqp_pool ps, heap0, []) (p', h', rs) ->
  exists p'' h'', empty_amqp_pool (p', h') = (Ret tt, (p'', h'')) /\ h_live h'' = ∅.
Proof.
  intros Hps Hn Hs. assert (Hh : heap_ok heap0) by (intros b s; simpl; by rewrite lookup_empty).
  pose proof (pool_inv_init ps heap0 Hh Hps) as H0.
  destruct (pool_inv_steps 0 n _ _ ltac:(lia) Hn H0 Hs) as (Hp & _).
  destruct (tight_steps n _ _ 0 ltac:(lia) Hn H0 Hs) as [_ Ht]; [done|..].
  { intros b [s E]. simpl in E. by rewrite lookup_empty in E. }
  destruct (empty_post p' h' Hp) as (h2 & E & Hf & _). do 2 eexists. split; [exact E|].
  apply map_empty. intros b. rewrite Hf. case_decide as Hb; [done|].
  destruct (h_live h' !! b) eqn:El; [|done]. destruct Hb. by apply Ht.
Qed.

Example pool_empty_no_leak_witness :
  exists p'' h'',
    empty_amqp_pool (mk_pool 64 (mk_blocklist 1 (Some (1, [0]))) empty_list 1 (Some 0) 16,
                     mk_heap {[0 := 64; 1 := 8]} 2 []) = (Ret tt, (p'', h'')) /\ h_live h'' = ∅.
Proof.
  apply (pool_empty_no_leak 64 1 _ _ [((0, 0), 10)]); [lia|done|].
  eapply nsteps_l; [apply (step_alloc 10); [lia|vm_compute; reflexivity]|]. apply nsteps_O.
Defined.

(** When the page is allocated but its entry in the block list is refused,
    [amqp_pool_alloc] returns [NULL] and keeps the page outside the list: emptying
    the pool does not free it. *)
Theorem pool_page_leaked :
  let '(r, s1) := amqp_pool_alloc 8 (init_amqp_pool 4096, refusing [false; true]) in
  let '(_, s2) := empty_amqp_pool s1 in
  r = Ret None /\ h_live s2.2 = {[0 := 4096]} /\ owned s2.1 = [].
Proof. vm_compute. done. Qed.

(** A refused [amqp_pool_alloc_bytes] stores a [NULL] pointer beside the
    requested, non-zero length. *)
Theorem pool_alloc_bytes_refused_len :
  fst (amqp_pool_alloc_bytes 100 (init_amqp_pool 4096, refusing [true])) = Ret (100, None).
Proof. vm_compute. done. Qed.

(** A request within 7 bytes of [SIZE_MAX] wraps in the rounding and is granted
    as a region of no bytes at all. *)
Theorem pool_alloc_size_wraps :
  fst (amqp_pool_alloc SIZE_MAX (init_amqp_pool 4096, heap0)) = Ret (Some (0, 0)) /\
  round8 SIZE_MAX = 0.
Proof. vm_compute. done. Qed.

(** ** The channel table is a map from channels to pools *)

Definition channel_ok (channel : Z) : Prop := 0 <= channel < 2 ^ 16.

(** Every entry stands in its channel's bucket. *)
Definition table_wf (t : pool_table_t) : Prop :=
  length t = Z.to_nat POOL_TABLE_SIZE /\
  forall i l c p, t !! i = Some l -> (c, p) ∈ l -> i = Z.to_nat (c mod POOL_TABLE_SIZE).

Lemma bucket_index c : (Z.to_nat (c mod POOL_TABLE_SIZE) < Z.to_nat POOL_TABLE_SIZE)%nat.
Proof. unfold POOL_TABLE_SIZE. pose proof (Z.mod_pos_bound c 16 ltac:(lia)). lia. Qed.

(** The table is a map: asking for a channel's pool returns the one it has and
    changes nothing; otherwise, unless the heap refuses, it adds a fresh pool of page
    size [frame_max] for that channel and leaves every other channel's pool alone. *)
Theorem channel_pool_refines_map frame_max channel t m :
  table_wf t -> heap_ok (m_heap m) ->
  let '(r, (t', m')) := amqp_get_or_create_channel_pool frame_max channel (t, m) in
  table_wf t' /\
  match amqp_get_channel_pool t channel with
  | Some p => r = Ret (Some p) /\ t' = t /\ m' = m
  | None =>
      (r = Ret None /\ t' = t /\ m_pools m' = m_pools m /\ h_refuse (m_heap m) <> []) \/
      (exists p, r = Ret (Some p) /\ h_live (m_heap m) !! p = None /\
         (forall c, amqp_get_channel_pool t' c
                    = if decide (c = channel) then Some p else amqp_get_channel_pool t c) /\
         m_pools m' = <[p := init_amqp_pool (wrap 64 frame_max)]> (m_pools m))
  end.
Proof.
  intros [Hlen Hwf] Hh. unfold amqp_get_or_create_channel_pool, pool_table_t in *.
  change (find_entry channel (bucket t channel)) with (amqp_get_channel_pool t channel).
  destruct (amqp_get_channel_pool t channel) as [p|] eqn:E; [done|].
  destruct (malloc_cases (sizeof layout_amqp_pool_table_entry_t) (m_heap m)) as [(r & Er & ->)| ->].
  { split; [done|]. left. by rewrite Er. }
  set (i := Z.to_nat (channel mod POOL_TABLE_SIZE)). pose proof (bucket_index channel) as Hi. fold i in Hi.
  split.
  - split; [by rewrite length_insert|]. intros j l c p. rewrite list_lookup_insert_Some.
    intros [(<- & <- & _)|[_ El]]; [|by apply Hwf]. rewrite elem_of_cons. intros [[= -> ->]|Hin]; [done|].
    unfold bucket, pool_table_t in Hin. fold i in Hin. destruct (t !! i) as [l|] eqn:El; [exact (Hwf i l c p El Hin)|].
    by apply elem_of_nil in Hin.
  - right. eexists. split; [done|]. split.
    { destruct (h_live (m_heap m) !! h_next (m_heap m)) eqn:El; [|done]. apply Hh in El. lia. }
    split; [|done]. intros c. unfold amqp_get_channel_pool, bucket, pool_table_t in *.
    destruct (decide (Z.to_nat (c mod POOL_TABLE_SIZE) = i)) as [Ec|Ec].
    + rewrite Ec, list_lookup_insert_eq by lia. simpl. fold i.
      case_decide; destruct (Z.eqb_spec c channel); done || lia.
    + rewrite list_lookup_insert_ne by done. rewrite decide_False by (intros ->; done). done.
Qed.

Example channel_pool_refines_map_witness :
  table_wf empty_pool_table /\
  let '(r, (t', m')) := amqp_get_or_create_channel_pool 131072 17
                          (empty_pool_table, mk_memory heap0 ∅ ∅ 0) in
  amqp_get_channel_pool t' 17 = Some 0 /\ amqp_get_channel_pool t' 1 = None.
Proof.
  assert (Hwf : table_wf empty_pool_table).
  { split; [done|]. intros i l c p Hl. apply lookup_replicate in Hl as [-> _]. set_solver. }
  split; [exact Hwf|].
  assert (Hh : heap_ok (m_heap (mk_memory heap0 ∅ ∅ 0))) by (intros b s; simpl; by rewrite lookup_empty).
  pose proof (channel_pool_refines_map 131072 17 empty_pool_table (mk_memory heap0 ∅ ∅ 0) Hwf Hh) as H.
  destruct (amqp_get_or_create_channel_pool _ _ _) as [r [t' m']] eqn:Ex.
  destruct H as [_ [(-> & _)|(p & _ & _ & Hc & _)]]; vm_compute in Ex; [done|].
  simplify_eq. done.
Defined.
