(* ===== verification/PoolSep.v ===== *)
(** * Pools of different channels do not disturb each other

    Every channel has a pool, and all of them live in one heap.  What one pool does
    leaves the blocks of the others alone; so the memory of a connection satisfies the
    laws of [Memory.v] for all of its pools at once. *)

From S2P Require Import Prelude Status Memory Layout Pool PoolMem.

(** ** Footprints *)

(** The blocks a pool uses: those it owns and the one it allocates from. *)
Definition footprint (p : amqp_pool_t) : list Z :=
  owned p ++ match alloc_block p with Some b => [b] | None => [] end.

(** From [h] to [h'], at most the blocks [O] have been freed. *)
Definition within (O : list Z) (h h' : heap) : Prop :=
  h_next h <= h_next h' /\ heap_ok h' /\
  forall c s, h_live h !! c = Some s -> c ∉ O -> h_live h' !! c = Some s.

(** A pool's blocks after an operation: old ones and new ones. *)
Definition grows (p : amqp_pool_t) (h : heap) (p' : amqp_pool_t) : Prop :=
  forall c, c ∈ footprint p' -> c ∈ footprint p \/ h_next h <= c.

Lemma within_refl O h : heap_ok h -> within O h h.
Proof. intros Hh. split; [lia|]. by split. Qed.

Lemma within_refuse O h r : heap_ok h -> within O h (mk_heap (h_live h) (h_next h) r).
Proof. intros Hh. split; [simpl; lia|]. split; [exact Hh|]. done. Qed.

Lemma within_trans O O' h h1 h2 :
  heap_ok h -> within O h h1 -> within O' h1 h2 -> (forall c, c ∈ O' -> c ∈ O \/ h_next h <= c) -> within O h h2.
Proof.
  intros Hh (Hn1 & Hk1 & H1) (Hn2 & Hk2 & H2) HO. split; [lia|]. split; [done|].
  intros c s E Hc. apply H2; [by apply H1|]. intros Hc'. destruct (HO c Hc'); [done|].
  specialize (Hh c s E). lia.
Qed.

Lemma within_block O h n : heap_ok h -> within O h (with_block h n).
Proof.
  intros Hh. split; [simpl; lia|]. split; [by apply heap_ok_insert|]. intros c s E _.
  rewrite with_block_lookup; [done|]. by apply (heap_fresh h c s).
Qed.

Lemma within_regrown x h : heap_ok h -> within (list_array x) h (regrown x h).
Proof.
  intros Hh. split; [simpl; lia|]. split; [by apply heap_ok_regrown|]. intros c s E Hc.
  rewrite regrown_lookup; [done|done|]. by apply (heap_fresh h c s).
Qed.

Lemma within_freed l h h' : heap_ok h -> freed l h h' -> within l h h'.
Proof.
  intros Hh (Hf & Hn & _). split; [lia|]. split.
  - intros b s E. rewrite Hf in E. case_decide; [done|]. rewrite Hn. by apply (Hh b s).
  - intros c s E Hc. by rewrite Hf, decide_False.
Qed.

(** A pool survives what happens outside its footprint. *)
Lemma pool_ok_within O p h h' :
  pool_ok p h -> within O h h' -> (forall c, c ∈ footprint p -> c ∉ O) -> pool_ok p h'.
Proof.
  intros Hp (Hn & Hh & Hk) Hd. unfold footprint in Hd. split; try apply Hp; try done.
  - intros b Hb. destruct (ok_live _ _ Hp b Hb) as [s Es]. exists s. apply Hk; [done|]. apply Hd. elems. by left.
  - intros b Hb. apply Hk; [by apply Hp|]. apply Hd. unfold owned. elems. tauto.
  - intros b Hb. destruct (ok_block _ _ Hp b Hb) as [Es Hr]. split; [|done]. apply Hk; [done|]. apply Hd.
    rewrite Hb. elems. tauto.
Qed.

Lemma footprint_live p h c : pool_ok p h -> c ∈ footprint p -> exists s, h_live h !! c = Some s.
Proof.
  intros Hp Hc. unfold footprint in Hc. apply elem_of_app in Hc as [Hc|Hc]; [by apply (ok_live _ _ Hp)|].
  destruct (alloc_block p) as [b|] eqn:E; [|set_solver]. apply list_elem_of_singleton in Hc as ->.
  destruct (ok_block _ _ Hp b E) as [El _]. eauto.
Qed.

(** ** The operations *)

Definition alloc_frame (p : amqp_pool_t) (h : heap) (s : pool_heap) : Prop :=
  within (owned p) h s.2 /\ grows p h s.1.

Ltac footprints :=
  unfold grows, footprint, owned, recorded, with_large, with_page; intros ?;
  cbn [fst snd pages large_blocks alloc_block list_array list_blocks blocklist with_block h_next empty_list]; elems;
  intros; destruct_or?; subst; try done; first [by left; tauto|by right; lia|idtac].

Lemma alloc_large_frame p h n :
  pool_ok p h -> num_blocks (large_blocks p) < INT_MAX -> alloc_frame p h (alloc_large n (p, h)).2.
Proof.
  intros Hp Hmax. pose proof (ok_heap _ _ Hp) as Hh. unfold alloc_large.
  change (bind get_pool ?k (p, h)) with (k p (p, h)). cbv beta.
  destruct (malloc_cases n h) as [(r & Er & E)|E]; rewrite (on_heap_step _ _ _ _ _ _ E).
  { split; [by apply within_refuse|]. intros c. by left. }
  fold (with_block h n). pose proof (heap_ok_insert h n (tail (h_refuse h)) Hh) as Hh1. fold (with_block h n) in Hh1.
  destruct (record_cases (large_blocks p) (h_next h) (with_block h n)) as [(r & Er & E2)|E2]; [apply Hp|done|done|..].
  - intros a Ha. apply (pool_ok_with_block p h n Hp). unfold owned. elems. tauto.
  - rewrite (on_heap_step _ _ _ _ _ _ E2).
    rewrite (on_heap_step _ _ _ _ _ _ (free_with_block h n r Hh)). simpl.
    split; [|intros c; by left]. split; [simpl; lia|]. split; [|done]. intros b s Eb. simpl in *. specialize (Hh b s Eb). lia.
  - rewrite (on_heap_step _ _ _ _ _ _ E2). simpl. split.
    + eapply within_trans; [done|by apply within_block|by apply within_regrown|]. intros c Hc. left. unfold owned. elems. tauto.
    + footprints.
Qed.

Lemma alloc_page_frame p h n :
  pool_ok p h -> num_blocks (pages p) < INT_MAX -> alloc_frame p h (alloc_page n (p, h)).2.
Proof.
  intros Hp Hmax. pose proof (ok_heap _ _ Hp) as Hh. unfold alloc_page.
  change (bind get_pool ?k (p, h)) with (k p (p, h)). cbv beta.
  pose proof (ok_next _ _ Hp). pose proof (ok_pages _ _ Hp) as [Hnum _].
  destruct (Z.leb_spec (num_blocks (pages p)) (next_page p)).
  - destruct (malloc_cases (pagesize p) h) as [(r & Er & E)|E]; rewrite (on_heap_step _ _ _ _ _ _ E);
      change (bind (put_pool ?q) ?k (p, ?h)) with (k tt (q, h)); cbv beta.
    { split; [by apply within_refuse|]. footprints. }
    fold (with_block h (pagesize p)).
    pose proof (heap_ok_insert h (pagesize p) (tail (h_refuse h)) Hh) as Hh1. fold (with_block h (pagesize p)) in Hh1.
    destruct (record_cases (pages p) (h_next h) (with_block h (pagesize p))) as [(r & Er & E2)|E2]; [apply Hp|done|done|..].
    + intros a Ha. apply (pool_ok_with_block p h (pagesize p) Hp). unfold owned. elems. tauto.
    + rewrite (on_heap_step _ _ _ _ _ _ E2). simpl. split.
      * apply (within_trans _ [] h (with_block h (pagesize p))); [done|by apply within_block|exact (within_refuse [] _ r Hh1)|set_solver].
      * footprints.
    + rewrite (on_heap_step _ _ _ _ _ _ E2). simpl. split.
      * eapply within_trans; [done|by apply within_block|by apply within_regrown|]. intros c Hc. left. unfold owned. elems. tauto.
      * footprints.
  - unfold list_blocks in Hnum. destruct (blocklist (pages p)) as [[arr blocks]|] eqn:Eb; [|split; [by apply within_refl|intros c; by left]].
    destruct (blocks !! Z.to_nat (next_page p)) as [b|] eqn:El; [|split; [by apply within_refl|intros c; by left]].
    simpl. split; [by apply within_refl|]. apply list_elem_of_lookup_2 in El.
    assert (b ∈ list_blocks (pages p)) by (unfold list_blocks; by rewrite Eb). footprints.
Qed.

Lemma pool_alloc_frame p h n :
  pool_ok p h -> num_blocks (pages p) < INT_MAX -> num_blocks (large_blocks p) < INT_MAX ->
  alloc_frame p h (amqp_pool_alloc n (p, h)).2.
Proof.
  intros Hp Hm1 Hm2. pose proof (ok_heap _ _ Hp) as Hh.
  assert (Hsame : alloc_frame p h (p, h)) by (split; [by apply within_refl|intros c; by left]).
  unfold amqp_pool_alloc. destruct (n =? 0); [done|].
  change (bind get_pool ?k (p, h)) with (k p (p, h)). cbv beta zeta.
  destruct (_ <? round8 n); [by apply alloc_large_frame|].
  destruct (alloc_block p) as [b|] eqn:Eb; [|by apply alloc_page_frame].
  destruct (_ <? alloc_used p); [done|]. destruct (size_add _ _ <=? _); [|by apply alloc_page_frame].
  split; [by apply within_refl|]. intros c Hc. left. revert Hc. unfold footprint, owned. simpl. by rewrite Eb.
Qed.

Lemma recycle_frame p h :
  pool_ok p h ->
  exists p' h', recycle_amqp_pool (p, h) = (Ret tt, (p', h')) /\ pool_ok p' h' /\ alloc_frame p h (p', h') /\
    h_refuse h' = h_refuse h /\ num_blocks (pages p') = num_blocks (pages p) /\ num_blocks (large_blocks p') = 0.
Proof.
  intros Hp. destruct (recycle_post p h Hp) as (h' & E & Hf & Hp'). do 2 eexists. split; [exact E|]. split; [done|].
  split; [split|].
  - pose proof (within_freed _ _ _ (ok_heap _ _ Hp) Hf) as (H1 & H2 & H3). split; [done|]. split; [done|].
    intros c s Ec Hc. apply H3; [done|]. intros Hin. apply Hc. rewrite owned_split. elems. tauto.
  - footprints.
  - destruct Hf as (_ & _ & Hr). done.
Qed.

(** ** A memory with many pools *)

(** The pools [S] are in order and use different blocks; the blocks [F] are live and
    no pool's. *)
Record mem_sep (S : gset Z) (F : list Z) (m : memory) : Prop := {
  sep_heap : heap_ok (m_heap m);
  sep_pool p : p ∈ S -> exists pl, m_pools m !! p = Some pl /\ pool_ok pl (m_heap m);
  sep_apart p q pl ql c : p ∈ S -> q ∈ S -> p <> q ->
    m_pools m !! p = Some pl -> m_pools m !! q = Some ql -> c ∈ footprint pl -> c ∉ footprint ql;
  sep_fixed c : c ∈ F -> is_Some (h_live (m_heap m) !! c);
  sep_fixed_apart c p pl : c ∈ F -> p ∈ S -> m_pools m !! p = Some pl -> c ∉ footprint pl;
}.

(** An operation on one pool keeps all of them apart. *)
Lemma mem_sep_step S F m p pl pl' h' sc sn :
  mem_sep S F m -> p ∈ S -> m_pools m !! p = Some pl -> pool_ok pl' h' -> alloc_frame pl (m_heap m) (pl', h') ->
  mem_sep S F (mk_memory h' (<[p := pl']> (m_pools m)) sc sn).
Proof.
  intros Hm Hp Epl Hp' [Hw Hg]. simpl in *.
  assert (Hpl : pool_ok pl (m_heap m)).
  { destruct (sep_pool _ _ _ Hm p Hp) as (pl1 & E1 & H1). by simplify_eq. }
  assert (Hown : forall c, c ∈ owned pl -> c ∈ footprint pl) by (intros c Hc; unfold footprint; elems; by left).
  assert (Hnew : forall q ql c, q ∈ S -> q <> p -> m_pools m !! q = Some ql -> c ∈ footprint pl' -> c ∉ footprint ql).
  { intros q ql c Hq Hne Eql Hc Hcq. destruct (Hg c Hc) as [Hc'|Hc'].
    - exact (sep_apart _ _ _ Hm q p ql pl c Hq Hp Hne Eql Epl Hcq Hc').
    - destruct (sep_pool _ _ _ Hm q Hq) as (ql1 & E1 & H1). simplify_eq.
      destruct (footprint_live _ _ _ H1 Hcq) as [s Es]. pose proof (sep_heap _ _ _ Hm c s Es). lia. }
  split; simpl.
  - apply Hw.
  - intros q Hq. destruct (decide (q = p)) as [->|Hne]; [rewrite lookup_insert_eq; eauto|].
    rewrite lookup_insert_ne by done. destruct (sep_pool _ _ _ Hm q Hq) as (ql & Eql & Hql). exists ql. split; [done|].
    eapply pool_ok_within; [done|done|]. intros c Hc Ho. apply Hown in Ho.
    exact (sep_apart _ _ _ Hm q p ql pl c Hq Hp Hne Eql Epl Hc Ho).
  - intros q1 q2 l1 l2 c Hq1 Hq2 Hne E1 E2 Hc Hc2.
    destruct (decide (q1 = p)) as [->|H1]; [|destruct (decide (q2 = p)) as [->|H2]].
    + rewrite lookup_insert_eq in E1. rewrite lookup_insert_ne in E2 by done. simplify_eq.
      by apply (Hnew q2 l2 c).
    + rewrite lookup_insert_eq in E2. rewrite lookup_insert_ne in E1 by done. simplify_eq.
      by apply (Hnew q1 l1 c).
    + rewrite lookup_insert_ne in E1, E2 by done. by apply (sep_apart _ _ _ Hm q1 q2 l1 l2 c).
  - intros c Hc. destruct (sep_fixed _ _ _ Hm c Hc) as [s Es]. exists s. apply Hw; [done|].
    intros Ho. apply Hown in Ho. by apply (sep_fixed_apart _ _ _ Hm c p pl).
  - intros c q ql Hc Hq E. destruct (decide (q = p)) as [->|Hne].
    + rewrite lookup_insert_eq in E. simplify_eq. intros Hc'. destruct (Hg c Hc') as [H1|H1].
      * by apply (sep_fixed_apart _ _ _ Hm c p pl).
      * destruct (sep_fixed _ _ _ Hm c Hc) as [s Es]. pose proof (sep_heap _ _ _ Hm c s Es). lia.
    + rewrite lookup_insert_ne in E by done. by apply (sep_fixed_apart _ _ _ Hm c q ql).
Qed.

(** Scratch blocks are named apart: only the refusals of the heap change. *)
Lemma mem_sep_refuse S F m r sc sn :
  mem_sep S F m -> mem_sep S F (mk_memory (mk_heap (h_live (m_heap m)) (h_next (m_heap m)) r) (m_pools m) sc sn).
Proof.
  intros [H1 H2 H3 H4 H5]. split; simpl; try done. intros p Hp. destruct (H2 p Hp) as (pl & E & Hpl).
  exists pl. split; [done|]. by eapply pool_ok_live.
Qed.

(** Writing to a pool that is not among the connection's. *)
Lemma mem_sep_other S F m self pl :
  self ∉ S -> mem_sep S F m -> mem_sep S F (mk_memory (m_heap m) (<[self := pl]> (m_pools m)) (m_scratch m) (m_snext m)).
Proof.
  intros Hs [H1 H2 H3 H4 H5].
  assert (Hl : forall q, q ∈ S -> <[self := pl]> (m_pools m) !! q = m_pools m !! q)
    by (intros q Hq; rewrite lookup_insert_ne; [done|by intros ->]).
  split; simpl; [done|..|done|].
  - intros p Hp. rewrite Hl by done. by apply H2.
  - intros p q pl' ql c Hp Hq. rewrite !Hl by done. by apply H3.
  - intros c p pl' Hc Hp. rewrite Hl by done. by apply H5.
Qed.

(** A new pool joins the others. *)
Lemma mem_sep_new ps S F m self :
  0 < ps < 2 ^ 63 -> self ∉ S -> mem_sep S F m ->
  mem_sep ({[self]} ∪ S) F (mk_memory (m_heap m) (<[self := init_amqp_pool ps]> (m_pools m)) (m_scratch m) (m_snext m)).
Proof.
  intros Hps Hs Hm. pose proof (mem_sep_other S F m self (init_amqp_pool ps) Hs Hm) as [H1 H2 H3 H4 H5]. simpl in *.
  assert (He : forall c, c ∉ footprint (init_amqp_pool ps)) by (intros c Hc; by apply elem_of_nil in Hc).
  split; simpl; [done|..|done|].
  - intros p Hp. apply elem_of_union in Hp as [Hp|Hp]; [|by apply H2]. apply elem_of_singleton in Hp as ->.
    rewrite lookup_insert_eq. eexists. split; [done|]. apply (pool_inv_init ps (m_heap m)); [done|lia].
  - intros p q pl ql c Hp Hq Hne Ep Eq Hc Hc'. apply elem_of_union in Hp as [Hp|Hp], Hq as [Hq|Hq].
    + apply elem_of_singleton in Hp, Hq. congruence.
    + apply elem_of_singleton in Hp as ->. rewrite lookup_insert_eq in Ep. simplify_eq. by apply (He c).
    + apply elem_of_singleton in Hq as ->. rewrite lookup_insert_eq in Eq. simplify_eq. by apply (He c).
    + by apply (H3 p q pl ql c).
  - intros c p pl Hc Hp Ep. apply elem_of_union in Hp as [Hp|Hp]; [|by apply (H5 c p pl)].
    apply elem_of_singleton in Hp as ->. rewrite lookup_insert_eq in Ep. simplify_eq. apply He.
Qed.

(** A block of one's own. *)
Lemma mem_sep_block S F m n : mem_sep S F m -> mem_sep S (h_next (m_heap m) :: F) (set_heap m (with_block (m_heap m) n)).
Proof.
  intros [H1 H2 H3 H4 H5]. pose proof (within_block [] (m_heap m) n H1) as Hw. split; simpl.
  - by apply heap_ok_insert.
  - intros p Hp. destruct (H2 p Hp) as (pl & E & Hpl). exists pl. split; [done|]. eapply pool_ok_within; [done|exact Hw|].
    intros c _ Hc. by apply elem_of_nil in Hc.
  - done.
  - intros c Hc. elems. destruct Hc as [->|Hc]; [rewrite lookup_insert_eq; by eexists|].
    destruct (H4 c Hc) as [s Es]. exists s. apply Hw; [done|]. intros Hn. by apply elem_of_nil in Hn.
  - intros c p pl Hc Hp E Hf. elems. destruct Hc as [->|Hc]; [|by apply (H5 c p pl)].
    destruct (H2 p Hp) as (pl' & E' & Hpl). simplify_eq. destruct (footprint_live _ _ _ Hpl Hf) as [s Es].
    specialize (H1 _ _ Es). lia.
Qed.

(** Every pool of [S] has room for [k] more blocks. *)
Definition room_for (S : gset Z) (k : Z) (m : memory) : Prop :=
  forall q ql, q ∈ S -> m_pools m !! q = Some ql ->
    num_blocks (pages ql) + k <= INT_MAX /\ num_blocks (large_blocks ql) + k <= INT_MAX.

Definition sep_plenty (S : gset Z) (F : list Z) (p k : Z) (m : memory) : Prop :=
  p ∈ S /\ h_refuse (m_heap m) = [] /\ mem_sep S F m /\ room_for S k m.

Lemma sep_plenty_other S F p q k m : q ∈ S -> sep_plenty S F p k m -> sep_plenty S F q k m.
Proof. intros Hq (_ & ?). by split. Qed.

Lemma sep_plenty_malloc S F p k m n :
  sep_plenty S F p k m -> exists b m', scratch_malloc n m = (Some b, m') /\ sep_plenty S F p k m'.
Proof.
  intros (Hp & Hr & Hm & Hk). unfold scratch_malloc. rewrite Hr. do 2 eexists. split; [done|].
  split; [done|]. split; [done|]. split; [by apply mem_sep_refuse|]. done.
Qed.

Lemma sep_plenty_free S F p k m b : sep_plenty S F p k m -> sep_plenty S F p k (scratch_free b m).
Proof.
  intros (Hp & Hr & Hm & Hk). split; [done|]. split; [done|]. split; [|done].
  destruct m as [[] ???]. exact (mem_sep_refuse S F _ _ _ _ Hm).
Qed.

Lemma sep_plenty_alloc S F p k m n :
  sep_plenty S F p (k + 1) m -> 0 <= k -> 0 < n < 2 ^ 63 ->
  exists a m', mem_pool_alloc p n m = (Some a, m') /\ sep_plenty S F p k m'.
Proof.
  intros (Hp & Hr & Hm & Hk) H0 Hn. destruct (sep_pool _ _ _ Hm p Hp) as (pl & E & Hpl).
  destruct (Hk p pl Hp E) as [Hk1 Hk2]. unfold mem_pool_alloc. rewrite E.
  pose proof (amqp_pool_alloc_post pl (m_heap m) n Hpl ltac:(lia) ltac:(lia) ltac:(lia)) as Hpost.
  pose proof (pool_alloc_frame pl (m_heap m) n Hpl ltac:(lia) ltac:(lia)) as Hfr.
  destruct (amqp_pool_alloc n _) as [[a| | |] [pl' h']]; try done.
  destruct Hpost as (Hp' & _ & _ & Hok & Hn1 & Hn2). destruct (Hok Hr) as ([a' ->] & Hr' & _).
  do 2 eexists. split; [done|]. split; [done|]. split; [done|].
  split; [by eapply mem_sep_step|]. intros q ql Hq Eq. simpl in Eq. destruct (decide (q = p)) as [->|Hne].
  - rewrite lookup_insert_eq in Eq. simplify_eq. lia.
  - rewrite lookup_insert_ne in Eq by done. destruct (Hk q ql Hq Eq). lia.
Qed.

Definition sep_laws (S : gset Z) (F : list Z) : MemLaws memory Z.
Proof.
  refine {| plenty := sep_plenty S F |}.
  - intros p m k k' (Hp & Hr & Hm & Hk) Hle. split; [done|]. split; [done|]. split; [done|].
    intros q ql Hq Eq. destruct (Hk q ql Hq Eq). lia.
  - apply pool_alloc_zero.
  - intros p m k n. apply sep_plenty_alloc.
  - intros p m k n Hp _. by apply sep_plenty_malloc.
  - intros p m k b n Hp _. simpl. unfold scratch_realloc.
    destruct (sep_plenty_malloc S F p k m n Hp) as (b' & m' & -> & Hp'). do 2 eexists. split; [done|].
    by apply sep_plenty_free.
  - intros p m k b. apply sep_plenty_free.
Defined.

(** C20: The pools of a connection are isolated: when they use different blocks, an
    allocation from one keeps every other intact, for any size and whatever the heap
    refuses, and so does recycling one; the pools stay apart. *)
Theorem pools_isolated S F m p n :
  mem_sep S F m -> p ∈ S -> room_for S 1 m -> 0 < n <= 2 ^ 64 - 8 ->
  (let '(a, m') := mem_pool_alloc p n m in
   mem_sep S F m' /\ (h_refuse (m_heap m) = [] -> is_Some a) /\
   forall q, q <> p -> m_pools m' !! q = m_pools m !! q) /\
  exists pl h pl', m_pools m !! p = Some pl /\ recycle_amqp_pool (pl, m_heap m) = (Ret tt, (pl', h)) /\
    mem_sep S F (mk_memory h (<[p := pl']> (m_pools m)) (m_scratch m) (m_snext m)).
Proof.
  intros Hm Hp Hk Hn. destruct (sep_pool _ _ _ Hm p Hp) as (pl & E & Hpl). destruct (Hk p pl Hp E) as [Hk1 Hk2]. split.
  - unfold mem_pool_alloc. rewrite E.
    pose proof (amqp_pool_alloc_post pl (m_heap m) n Hpl ltac:(lia) ltac:(lia) Hn) as Hpost.
    pose proof (pool_alloc_frame pl (m_heap m) n Hpl ltac:(lia) ltac:(lia)) as Hfr.
    destruct (amqp_pool_alloc n _) as [[a| | |] [pl' h']]; try done. destruct Hpost as (Hp' & _ & _ & Hok & _).
    split; [by eapply mem_sep_step|]. split; [intros Hr; apply (Hok Hr)|]. intros q Hq. simpl. by rewrite lookup_insert_ne.
  - destruct (recycle_frame pl (m_heap m) Hpl) as (pl' & h' & Er & Hp' & Hfr & _). exists pl, h', pl'.
    split; [done|]. split; [done|]. by eapply mem_sep_step.
Qed.

(** Two fresh pools. *)
Definition two_pools : memory :=
  mk_memory heap0 (<[1 := init_amqp_pool 4096]> (<[2 := init_amqp_pool 4096]> ∅)) ∅ 0.

Lemma two_pools_sep : mem_sep {[1; 2]} [] two_pools.
Proof.
  assert (Hp : pool_ok (init_amqp_pool 4096) heap0).
  { apply (pool_inv_init 4096 heap0); [|lia]. intros b s. simpl. by rewrite lookup_empty. }
  assert (Hl : forall p pl, m_pools two_pools !! p = Some pl -> pl = init_amqp_pool 4096).
  { intros p pl. unfold two_pools. cbn [m_pools]. rewrite !lookup_insert_Some, lookup_empty. intuition congruence. }
  split.
  - apply (ok_heap _ _ Hp).
  - intros p Hin. exists (init_amqp_pool 4096). split; [|done]. apply elem_of_union in Hin.
    rewrite !elem_of_singleton in Hin. by destruct Hin as [->| ->].
  - intros p q pl ql c _ _ _ El _ Hc. apply Hl in El as ->. by apply elem_of_nil in Hc.
  - intros c Hc. by apply elem_of_nil in Hc.
  - intros c p pl Hc. by apply elem_of_nil in Hc.
Qed.

Example pools_isolated_witness :
  (let '(a, m') := mem_pool_alloc 1 100 two_pools in
   mem_sep {[1; 2]} [] m' /\ (h_refuse (m_heap two_pools) = [] -> is_Some a) /\
   forall q, q <> 1 -> m_pools m' !! q = m_pools two_pools !! q).
Proof.
  apply (pools_isolated {[1; 2]} [] two_pools 1 100); [apply two_pools_sep|set_solver| |lia].
  intros q ql _. unfold two_pools. cbn [m_pools]. rewrite !lookup_insert_Some, lookup_empty.
  assert (Hi : 0 + 1 <= INT_MAX) by done. intros [[_ <-]|[_ [[_ <-]|[_ ?]]]]; [exact (conj Hi Hi)|exact (conj Hi Hi)|done].
Defined.
