(* ===== verification/Codec.v ===== *)
(** * The scalar codecs of [librabbitmq/amqp_private.h]

    [amqp_e8 .. amqp_e64] and [amqp_d8 .. amqp_d64] move an integer between its
    object representation and network order; [DECLARE_CODEC_BASE_TYPE] wraps them
    with the bounds check on the caller's buffer; [amqp_encode_bytes] and
    [amqp_decode_bytes] do the same for byte strings.  The two predicates
    [Emits] and [Parses] at the end are the interface every larger encoder and
    decoder is specified against. *)

From S2P Require Import Prelude Status Memory.

(** ** The host's integer representation *)

(** The byte order of the host; every statement below holds for both. *)
Class Host := { host_big : bool }.
Definition little_endian : Host := {| host_big := false |}.

Section Endian.
Context `{Host}.

(** The bytes [memcpy] copies out of an [n]-byte integer object, and back. *)
Definition object_bytes (n : nat) (v : Z) : list byte :=
  if host_big then be_bytes n v else rev (be_bytes n v).
Definition object_val (bs : list byte) : Z :=
  be_val (if host_big then bs else rev bs).

Definition is_bigendian : bool :=
  match object_bytes 4 0x01020304 with c :: _ => b2z c =? 1 | [] => false end.

Definition bswap16 (val : Z) : Z :=
  wrap 16 (Z.lor (Z.shiftr (Z.land val 0xFF00) 8) (Z.shiftl (Z.land val 0x00FF) 8)).

Definition bswap32 (val : Z) : Z :=
  wrap 32 (Z.lor (Z.lor (Z.lor (Z.shiftr (Z.land val 0xFF000000) 24)
                               (Z.shiftr (Z.land val 0x00FF0000) 8))
                        (Z.shiftl (Z.land val 0x0000FF00) 8))
                 (Z.shiftl (Z.land val 0x000000FF) 24)).

Definition bswap64 (val : Z) : Z :=
  wrap 64
    (Z.lor (Z.lor (Z.lor (Z.lor (Z.lor (Z.lor (Z.lor
      (Z.shiftr (Z.land val 0xFF00000000000000) 56)
      (Z.shiftr (Z.land val 0x00FF000000000000) 40))
      (Z.shiftr (Z.land val 0x0000FF0000000000) 24))
      (Z.shiftr (Z.land val 0x000000FF00000000) 8))
      (Z.shiftl (Z.land val 0x00000000FF000000) 8))
      (Z.shiftl (Z.land val 0x0000000000FF0000) 24))
      (Z.shiftl (Z.land val 0x000000000000FF00) 40))
      (Z.shiftl (Z.land val 0x00000000000000FF) 56)).

Definition amqp_e8 (val : Z) : list byte := object_bytes 1 val.
Definition amqp_d8 (data : list byte) : Z := object_val data.
Definition amqp_e16 (val : Z) : list byte :=
  object_bytes 2 (if negb is_bigendian then bswap16 val else val).
Definition amqp_d16 (data : list byte) : Z :=
  let val := object_val data in if negb is_bigendian then bswap16 val else val.
Definition amqp_e32 (val : Z) : list byte :=
  object_bytes 4 (if negb is_bigendian then bswap32 val else val).
Definition amqp_d32 (data : list byte) : Z :=
  let val := object_val data in if negb is_bigendian then bswap32 val else val.
Definition amqp_e64 (val : Z) : list byte :=
  object_bytes 8 (if negb is_bigendian then bswap64 val else val).
Definition amqp_d64 (data : list byte) : Z :=
  let val := object_val data in if negb is_bigendian then bswap64 val else val.

End Endian.

(** ** Encoders: the buffer [encoded] and [*offset] *)

Record enc_state := mk_enc { e_buf : list byte; e_off : Z }.

Section Encode.
Context `{Host}.

(** [amqp_encode_##bits]: [n] bytes, written by [e] when they fit.  [*offset]
    moves even when they do not. *)
Definition amqp_encode_base (n : Z) (e : Z -> list byte) (input : Z) : eff enc_state bool :=
  fun s =>
    let o := e_off s in
    let o' := size_add o n in
    if o' <=? zlen (e_buf s) then
      match store (e_buf s) o (e input) with
      | Some buf => (Ret true, mk_enc buf o')
      | None => (Undef, mk_enc (e_buf s) o')
      end
    else (Ret false, mk_enc (e_buf s) o').

Definition amqp_encode_8 (input : Z) : eff enc_state bool := amqp_encode_base (8 / 8) amqp_e8 input.
Definition amqp_encode_16 (input : Z) : eff enc_state bool := amqp_encode_base (16 / 8) amqp_e16 input.
Definition amqp_encode_32 (input : Z) : eff enc_state bool := amqp_encode_base (32 / 8) amqp_e32 input.
Definition amqp_encode_64 (input : Z) : eff enc_state bool := amqp_encode_base (64 / 8) amqp_e64 input.

Definition amqp_encode_bytes (input : list byte) : eff enc_state bool :=
  fun s =>
    let o := e_off s in
    if zlen input =? 0 then (Ret true, s)
    else
      let o' := size_add o (zlen input) in
      if o' <=? zlen (e_buf s) then
        match store (e_buf s) o input with
        | Some buf => (Ret true, mk_enc buf o')
        | None => (Undef, mk_enc (e_buf s) o')
        end
      else (Ret false, mk_enc (e_buf s) o').

(** [if (!call) return st;] *)
Definition guard (call : eff enc_state bool) (st : Z) : eff enc_state unit :=
  let! ok := call in if ok then ret tt else fail st.

(** A call made with [&start] in place of [offset]. *)
Definition at_start {A} (start : Z) (m : eff enc_state A) : eff enc_state A :=
  fun s => let '(r, s') := m (mk_enc (e_buf s) start) in (r, mk_enc (e_buf s') (e_off s)).

Definition get_offset : eff enc_state Z := fun s => (Ret (e_off s), s).
(** [*offset += n] *)
Definition skip_offset (n : Z) : eff enc_state unit :=
  fun s => (Ret tt, mk_enc (e_buf s) (size_add (e_off s) n)).

End Encode.

(** ** Decoders: the buffer [encoded], [*offset] and the memory *)

Record dec_state (Mem : Type) := mk_dec { d_off : Z; d_mem : Mem }.
Arguments mk_dec {Mem} d_off d_mem.
Arguments d_off {Mem} _.
Arguments d_mem {Mem} _.

Section Decode.
Context `{Host} {Mem : Type}.
Context (encoded : list byte).

(** [amqp_decode_##bits]; [None] is the return value 0. *)
Definition amqp_decode_base (n : Z) (d : list byte -> Z) : eff (dec_state Mem) (option Z) :=
  fun s =>
    let o := d_off s in
    let o' := size_add o n in
    if o' <=? zlen encoded then
      match load encoded o n with
      | Some bs => (Ret (Some (d bs)), mk_dec o' (d_mem s))
      | None => (Undef, mk_dec o' (d_mem s))
      end
    else (Ret None, mk_dec o' (d_mem s)).

Definition amqp_decode_8 : eff (dec_state Mem) (option Z) := amqp_decode_base (8 / 8) amqp_d8.
Definition amqp_decode_16 : eff (dec_state Mem) (option Z) := amqp_decode_base (16 / 8) amqp_d16.
Definition amqp_decode_32 : eff (dec_state Mem) (option Z) := amqp_decode_base (32 / 8) amqp_d32.
Definition amqp_decode_64 : eff (dec_state Mem) (option Z) := amqp_decode_base (64 / 8) amqp_d64.

Definition amqp_decode_bytes (len : Z) : eff (dec_state Mem) (option (list byte)) :=
  fun s =>
    let o := d_off s in
    let o' := size_add o len in
    if o' <=? zlen encoded then
      match load encoded o len with
      | Some bs => (Ret (Some bs), mk_dec o' (d_mem s))
      | None => (Undef, mk_dec o' (d_mem s))
      end
    else (Ret None, mk_dec o' (d_mem s)).

(** [if (!call) return st;] keeping the value read otherwise. *)
Definition require {A} (call : eff (dec_state Mem) (option A)) (st : Z) : eff (dec_state Mem) A :=
  let! v := call in match v with Some a => ret a | None => fail st end.

End Decode.

(** * Theorems *)

(** ** Byte order *)

Section EndianFacts.
Context `{Host}.

Lemma is_bigendian_host : is_bigendian = host_big.
Proof. unfold is_bigendian, object_bytes. by destruct host_big. Qed.

Lemma z2b_testbit x y :
  (forall i, 0 <= i < 8 -> Z.testbit x i = Z.testbit y i) -> z2b x = z2b y.
Proof.
  intros Hb. rewrite <- (z2b_mod x), <- (z2b_mod y). f_equal.
  change 256 with (2 ^ 8). apply Z.bits_inj'. intros i Hi.
  destruct (decide (i < 8)).
  - rewrite !Z.mod_pow2_bits_low by lia. auto with lia.
  - by rewrite !Z.mod_pow2_bits_high by lia.
Qed.

Lemma in8_cases (P : Z -> Prop) :
  P 0 -> P 1 -> P 2 -> P 3 -> P 4 -> P 5 -> P 6 -> P 7 -> forall i, 0 <= i < 8 -> P i.
Proof.
  intros. assert (i = 0 \/ i = 1 \/ i = 2 \/ i = 3 \/ i = 4 \/ i = 5 \/ i = 6 \/ i = 7)
    as Hi by lia.
  by destruct_or! Hi; subst.
Qed.

Ltac split_list :=
  repeat (apply (f_equal2 cons); [|]); try reflexivity.

(** One byte of a byte swap against one byte of its argument, bit by bit. *)
Ltac swap_byte :=
  apply z2b_testbit;
  repeat match goal with
  | |- context [256 ^ Z.of_nat ?k] =>
      let e := eval vm_compute in (8 * Z.of_nat k) in
      change (256 ^ Z.of_nat k) with (2 ^ e)
  end;
  intros i Hi; rewrite !Z.div_pow2_bits by lia; revert i Hi; unfold wrap;
  apply in8_cases; simpl Z.add;
  rewrite !Z.mod_pow2_bits_low by lia;
  rewrite ?Z.lor_spec, ?Z.shiftr_spec, ?Z.shiftl_spec, ?Z.land_spec by lia;
  simpl Z.add; simpl Z.sub; rewrite ?(Z.testbit_neg_r _ (Zneg _)) by lia;
  repeat match goal with
  | |- context [Z.testbit (Zpos ?p) ?i] =>
      let b := eval vm_compute in (Z.testbit (Zpos p) i) in
      change (Z.testbit (Zpos p) i) with b
  end;
  rewrite ?andb_false_r, ?andb_true_r, ?orb_false_r, ?orb_false_l; reflexivity.

Lemma bswap16_rev v : rev (be_bytes 2 (bswap16 v)) = be_bytes 2 v.
Proof. unfold bswap16. cbv beta iota delta [be_bytes rev app]. split_list; swap_byte. Qed.

Lemma bswap32_rev v : rev (be_bytes 4 (bswap32 v)) = be_bytes 4 v.
Proof. unfold bswap32. cbv beta iota delta [be_bytes rev app]. split_list; swap_byte. Qed.

Lemma bswap64_rev v : rev (be_bytes 8 (bswap64 v)) = be_bytes 8 v.
Proof. unfold bswap64. cbv beta iota delta [be_bytes rev app]. split_list; swap_byte. Qed.

(** Reading back through a swap that reverses the bytes. *)
Lemma swap_val (n : nat) (bswap : Z -> Z) (bs : list byte) :
  (forall v, rev (be_bytes n (bswap v)) = be_bytes n v) ->
  (forall v, 0 <= bswap v < 256 ^ Z.of_nat n) ->
  length bs = n -> bswap (be_val (rev bs)) = be_val bs.
Proof.
  intros Hrev Hrange Hlen.
  assert (be_bytes n (bswap (be_val (rev bs))) = bs) as Hb.
  { rewrite <- (rev_involutive (be_bytes _ _)), Hrev.
    rewrite <- Hlen, <- length_rev, be_bytes_val. apply rev_involutive. }
  rewrite <- (Z.mod_small (bswap _) (256 ^ Z.of_nat n)) by apply Hrange.
  by rewrite <- be_val_bytes, Hb.
Qed.

Lemma amqp_e8_network v : amqp_e8 v = be_bytes 1 v.
Proof. unfold amqp_e8, object_bytes. by destruct host_big. Qed.

Lemma amqp_e16_network v : amqp_e16 v = be_bytes 2 v.
Proof.
  unfold amqp_e16, object_bytes. rewrite is_bigendian_host.
  destruct host_big; simpl negb; cbv iota; [done|apply bswap16_rev].
Qed.

Lemma amqp_e32_network v : amqp_e32 v = be_bytes 4 v.
Proof.
  unfold amqp_e32, object_bytes. rewrite is_bigendian_host.
  destruct host_big; simpl negb; cbv iota; [done|apply bswap32_rev].
Qed.

Lemma amqp_e64_network v : amqp_e64 v = be_bytes 8 v.
Proof.
  unfold amqp_e64, object_bytes. rewrite is_bigendian_host.
  destruct host_big; simpl negb; cbv iota; [done|apply bswap64_rev].
Qed.

Lemma amqp_d8_network bs : length bs = 1%nat -> amqp_d8 bs = be_val bs.
Proof.
  unfold amqp_d8, object_val. destruct bs as [|b [|]]; try done. by destruct host_big.
Qed.

Lemma amqp_d16_network bs : length bs = 2%nat -> amqp_d16 bs = be_val bs.
Proof.
  intros Hl. unfold amqp_d16, object_val. rewrite is_bigendian_host.
  destruct host_big; simpl; [done|]. apply (swap_val 2); [apply bswap16_rev|..|done].
  intros v. apply (wrap_range 16); lia.
Qed.

Lemma amqp_d32_network bs : length bs = 4%nat -> amqp_d32 bs = be_val bs.
Proof.
  intros Hl. unfold amqp_d32, object_val. rewrite is_bigendian_host.
  destruct host_big; simpl; [done|]. apply (swap_val 4); [apply bswap32_rev|..|done].
  intros v. apply (wrap_range 32); lia.
Qed.

Lemma amqp_d64_network bs : length bs = 8%nat -> amqp_d64 bs = be_val bs.
Proof.
  intros Hl. unfold amqp_d64, object_val. rewrite is_bigendian_host.
  destruct host_big; simpl; [done|]. apply (swap_val 8); [apply bswap64_rev|..|done].
  intros v. apply (wrap_range 64); lia.
Qed.

End EndianFacts.

(** ** Encoders: what they emit

    [Emits m bs]: started inside the buffer, [m] writes exactly [bs] at the offset
    and moves past it when [bs] fits; otherwise it returns an error, and nothing
    before the offset is touched. *)

Definition enc_err (st : Z) : Prop :=
  st = AMQP_STATUS_BAD_AMQP_DATA \/ st = AMQP_STATUS_TABLE_TOO_BIG.

Definition EmitsB (m : eff enc_state bool) (bs : list byte) : Prop :=
  forall buf o, zlen buf < 2 ^ 63 -> 0 <= o <= zlen buf ->
  if decide (o + zlen bs <= zlen buf)
  then m (mk_enc buf o) = (Ret true, mk_enc (splice buf o bs) (o + zlen bs))
  else exists o', m (mk_enc buf o) = (Ret false, mk_enc buf o').

Definition Emits (m : eff enc_state unit) (bs : list byte) : Prop :=
  forall buf o, zlen buf < 2 ^ 63 -> 0 <= o <= zlen buf ->
  if decide (o + zlen bs <= zlen buf)
  then m (mk_enc buf o) = (Ret tt, mk_enc (splice buf o bs) (o + zlen bs))
  else exists st buf' o', m (mk_enc buf o) = (Err st, mk_enc buf' o') /\ enc_err st /\
         zlen buf' = zlen buf /\ ztake o buf' = ztake o buf.

Section EmitFacts.
Context `{Host}.

Lemma emits_base n k e v :
  n = Z.of_nat k -> 0 < n < 2 ^ 32 -> e v = be_bytes k v ->
  EmitsB (amqp_encode_base n e v) (be_bytes k v).
Proof.
  intros -> Hn He buf o Hbuf Ho. unfold amqp_encode_base. simpl e_off; simpl e_buf.
  rewrite He, zlen_be_bytes, size_add_small by lia.
  case_decide; destruct (Z.leb_spec (o + Z.of_nat k) (zlen buf)); try lia; [|eauto].
  by rewrite store_fits by (rewrite ?zlen_be_bytes; lia).
Qed.

Lemma emits_8 v : EmitsB (amqp_encode_8 v) (be_bytes 1 v).
Proof. by apply (emits_base _ 1); [..|apply amqp_e8_network]. Qed.
Lemma emits_16 v : EmitsB (amqp_encode_16 v) (be_bytes 2 v).
Proof. by apply (emits_base _ 2); [..|apply amqp_e16_network]. Qed.
Lemma emits_32 v : EmitsB (amqp_encode_32 v) (be_bytes 4 v).
Proof. by apply (emits_base _ 4); [..|apply amqp_e32_network]. Qed.
Lemma emits_64 v : EmitsB (amqp_encode_64 v) (be_bytes 8 v).
Proof. by apply (emits_base _ 8); [..|apply amqp_e64_network]. Qed.

Lemma emits_bytes bs : zlen bs < 2 ^ 63 -> EmitsB (amqp_encode_bytes bs) bs.
Proof.
  intros Hbs buf o Hbuf Ho. unfold amqp_encode_bytes. simpl e_off; simpl e_buf.
  destruct (Z.eqb_spec (zlen bs) 0) as [E|E].
  { destruct bs; [|zlia]. rewrite decide_True by zlia.
    by rewrite splice_nil, zlen_nil, Z.add_0_r. }
  zlen_pos. rewrite size_add_small by lia.
  case_decide; destruct (Z.leb_spec (o + zlen bs) (zlen buf)); try lia; [|eauto].
  by rewrite store_fits by lia.
Qed.

Lemma emits_guard m bs st : enc_err st -> EmitsB m bs -> Emits (guard m st) bs.
Proof.
  intros Hst Hm buf o Hbuf Ho. specialize (Hm buf o Hbuf Ho).
  unfold guard, bind. case_decide; [by rewrite Hm|].
  destruct Hm as [o' ->]. exists st, buf, o'. done.
Qed.

Lemma emits_ret : Emits (ret tt) [].
Proof.
  intros buf o Hbuf Ho. rewrite decide_True by zlia.
  by rewrite splice_nil, zlen_nil, Z.add_0_r.
Qed.

Lemma ztake_ztake_eq {A} (l k : list A) n m :
  n <= m -> ztake m l = ztake m k -> ztake n l = ztake n k.
Proof.
  intros Hnm E. apply (f_equal (take (Z.to_nat n))) in E. unfold ztake in *.
  rewrite !take_take, Nat.min_l in E by lia. done.
Qed.

Lemma emits_bind m k bs cs :
  Emits m bs -> Emits k cs -> Emits (bind m (fun _ => k)) (bs ++ cs).
Proof.
  intros Hm Hk buf o Hbuf Ho. specialize (Hm buf o Hbuf Ho).
  rewrite zlen_app. zlen_pos. unfold bind. destruct (decide (o + zlen bs <= zlen buf)) as [Hf|Hf].
  - rewrite Hm.
    assert (Hl : zlen (splice buf o bs) = zlen buf) by (apply zlen_splice; lia).
    specialize (Hk (splice buf o bs) (o + zlen bs) ltac:(lia) ltac:(lia)).
    rewrite Hl in Hk. destruct (decide (o + zlen bs + zlen cs <= zlen buf)).
    + rewrite decide_True by lia. rewrite Hk, splice_app by lia. by rewrite Z.add_assoc.
    + rewrite decide_False by lia. destruct Hk as (st & buf' & o' & -> & Hst & Hl' & Ht).
      exists st, buf', o'. repeat split; [done|lia|].
      etrans; [|apply (ztake_splice _ _ bs); lia].
      apply (ztake_ztake_eq _ _ _ (o + zlen bs)); [lia|done].
  - rewrite decide_False by lia. destruct Hm as (st & buf' & o' & -> & Hst & Hl' & Ht). eauto 10.
Qed.

Lemma emits_eq m bs cs : Emits m bs -> bs = cs -> Emits m cs.
Proof. by intros ? <-. Qed.

Lemma emits_for_each {A} (f : A -> eff enc_state unit) (w : A -> list byte) l :
  Forall (fun x => Emits (f x) (w x)) l -> Emits (for_each f l) (concat (map w l)).
Proof.
  induction 1; simpl; [apply emits_ret|]. by apply emits_bind.
Qed.

(** Past the end of the buffer a scalar write is refused. *)
Lemma guard_past_end n e v st buf o :
  0 < n < 2 ^ 32 -> zlen buf < 2 ^ 63 -> zlen buf < o + n < 2 ^ 64 -> 0 <= o ->
  exists o', guard (amqp_encode_base n e v) st (mk_enc buf o) = (Err st, mk_enc buf o').
Proof.
  intros. unfold guard, bind, amqp_encode_base. simpl e_off; simpl e_buf.
  rewrite size_add_small by lia.
  destruct (Z.leb_spec (o + n) (zlen buf)); [lia|]. by eexists.
Qed.

End EmitFacts.

(** ** Decoders: what they parse, and safety on arbitrary input *)

Section Parse.
Context `{Host} {Mem Pool : Type} `{MemLaws Mem Pool}.
Context (pool : Pool).

(** [Parses enc d bs a]: where the bytes [bs] stand in [enc], [d] returns [a] and
    moves past them, unless memory runs out; it makes at most one pool allocation
    per byte read. *)
Definition Parses {A} (enc : list byte) (d : eff (dec_state Mem) A) (bs : list byte) (a : A) : Prop :=
  forall o m, at_off enc o bs ->
  (exists m', d (mk_dec o m) = (Ret a, mk_dec (o + zlen bs) m') /\
     forall k, 0 <= k -> plenty pool (k + zlen bs) m -> plenty pool k m')
  \/ (~ plenty pool (zlen bs) m /\ exists s', d (mk_dec o m) = (Err AMQP_STATUS_NO_MEMORY, s')).

Definition dec_err (st : Z) : Prop :=
  st = AMQP_STATUS_BAD_AMQP_DATA \/ st = AMQP_STATUS_NO_MEMORY.

(** [DecSafe lo enc d Q]: from any offset of [enc] at or after [lo], whatever the
    bytes, [d] returns an error status or a value [a] and an offset still inside
    [enc], [Q] holding of [a] and of the number of bytes consumed. *)
Definition DecSafe {A} (lo : Z) (enc : list byte) (d : eff (dec_state Mem) A) (Q : A -> Z -> Prop) : Prop :=
  forall o m, 0 <= o -> lo <= o <= zlen enc ->
  match d (mk_dec o m) with
  | (Ret a, s') => exists n, 0 <= n /\ d_off s' = o + n /\ o + n <= zlen enc /\ Q a n
  | (Err st, _) => dec_err st
  | (Undef, _) | (NoFuel, _) => False
  end.

Lemma parses_ret {A} enc (a : A) : Parses enc (ret a) [] a.
Proof. intros o m _. left. exists m. rewrite zlen_nil, Z.add_0_r. split; [done|].
  intros k _. by rewrite Z.add_0_r. Qed.

Lemma parses_bind {A B} enc d (k : A -> eff (dec_state Mem) B) bs cs a b :
  Parses enc d bs a -> Parses enc (k a) cs b -> Parses enc (bind d k) (bs ++ cs) b.
Proof.
  intros Hd Hk o m Hat. apply at_off_app in Hat as [Ha Hc]. unfold bind.
  rewrite zlen_app. zlen_pos.
  destruct (Hd o m Ha) as [(m' & -> & Hp)|(Hp & s' & ->)].
  2:{ right. split; [|eauto]. intros Hpl. apply Hp. apply (plenty_mono _ _ _ _ Hpl). lia. }
  destruct (Hk _ m' Hc) as [(m'' & -> & Hp')|(Hp' & s' & ->)].
  - left. exists m''. rewrite Z.add_assoc. split; [done|]. intros j Hj Hpl.
    apply Hp', Hp; [done|lia|]. by replace (j + zlen cs + zlen bs) with (j + (zlen bs + zlen cs)) by lia.
  - right. split; [|eauto]. intros Hpl. apply Hp', Hp; [lia|]. by rewrite Z.add_comm.
Qed.

Lemma parses_eq {A} enc d bs cs (a : A) : Parses enc d bs a -> bs = cs -> Parses enc d cs a.
Proof. by intros ? <-. Qed.

(** A read that leaves the memory alone. *)
Lemma parses_pure {A} enc (d : eff (dec_state Mem) A) bs a :
  (forall o m, at_off enc o bs -> d (mk_dec o m) = (Ret a, mk_dec (o + zlen bs) m)) ->
  Parses enc d bs a.
Proof.
  intros Hd o m Hat. left. exists m. split; [by apply Hd|].
  intros k ? Hp. apply (plenty_mono _ _ _ _ Hp). zlen_pos. lia.
Qed.

Lemma read_base enc n k f v st o (m : Mem) :
  zlen enc < 2 ^ 63 -> n = Z.of_nat k -> 0 < n < 2 ^ 32 ->
  (forall bs, length bs = k -> f bs = be_val bs) -> 0 <= v < 256 ^ n ->
  at_off enc o (be_bytes k v) ->
  require (amqp_decode_base enc n f) st (mk_dec o m) = (Ret v, mk_dec (o + n) m).
Proof.
  intros Henc -> Hn Hf Hv Hat.
  pose proof (at_off_bound _ _ _ Hat) as [? Hb]. rewrite zlen_be_bytes in *.
  unfold require, bind, amqp_decode_base. simpl d_off.
  rewrite size_add_small by lia.
  destruct (Z.leb_spec (o + Z.of_nat k) (zlen enc)); [|lia].
  rewrite (at_off_load _ _ _ _ Hat) by (by rewrite zlen_be_bytes).
  rewrite Hf by apply length_be_bytes. rewrite be_val_bytes, Z.mod_small by lia. done.
Qed.

Lemma read_32 enc v st o (m : Mem) :
  zlen enc < 2 ^ 63 -> in_u 32 v -> at_off enc o (be_bytes 4 v) ->
  require (amqp_decode_32 enc) st (mk_dec o m) = (Ret v, mk_dec (o + 4) m).
Proof. intros. eapply (read_base _ _ 4); [done..|apply amqp_d32_network|assumption|assumption]. Qed.

Lemma parses_base enc n k f v st :
  zlen enc < 2 ^ 63 -> n = Z.of_nat k -> 0 < n < 2 ^ 32 ->
  (forall bs, length bs = k -> f bs = be_val bs) -> 0 <= v < 256 ^ n ->
  Parses enc (require (amqp_decode_base enc n f) st) (be_bytes k v) v.
Proof.
  intros. apply parses_pure. intros o m Hat. rewrite zlen_be_bytes. subst n.
  by apply (read_base _ _ k).
Qed.

Lemma parses_8 enc v st : zlen enc < 2 ^ 63 -> in_u 8 v ->
  Parses enc (require (amqp_decode_8 enc) st) (be_bytes 1 v) v.
Proof. intros. apply parses_base; [done|done|done|apply amqp_d8_network|assumption]. Qed.
Lemma parses_16 enc v st : zlen enc < 2 ^ 63 -> in_u 16 v ->
  Parses enc (require (amqp_decode_16 enc) st) (be_bytes 2 v) v.
Proof. intros. apply parses_base; [done|done|done|apply amqp_d16_network|assumption]. Qed.
Lemma parses_32 enc v st : zlen enc < 2 ^ 63 -> in_u 32 v ->
  Parses enc (require (amqp_decode_32 enc) st) (be_bytes 4 v) v.
Proof. intros. apply parses_base; [done|done|done|apply amqp_d32_network|assumption]. Qed.
Lemma parses_64 enc v st : zlen enc < 2 ^ 63 -> in_u 64 v ->
  Parses enc (require (amqp_decode_64 enc) st) (be_bytes 8 v) v.
Proof. intros. apply parses_base; [done|done|done|apply amqp_d64_network|assumption]. Qed.

Lemma parses_bytes enc bs n st : zlen enc < 2 ^ 63 -> n = zlen bs ->
  Parses enc (require (amqp_decode_bytes enc n) st) bs bs.
Proof.
  intros Henc ->. apply parses_pure. intros o m Hat.
  pose proof (at_off_bound _ _ _ Hat) as [? Hb]. zlen_pos.
  unfold require, bind, amqp_decode_bytes. simpl d_off. rewrite size_add_small by lia.
  destruct (Z.leb_spec (o + zlen bs) (zlen enc)); [|lia].
  by rewrite (at_off_load _ _ _ _ Hat).
Qed.

Lemma safe_ret {A} lo enc (a : A) (Q : A -> Z -> Prop) : Q a 0 -> DecSafe lo enc (ret a) Q.
Proof. intros HQ o m ? Ho. simpl. exists 0. rewrite Z.add_0_r. repeat split; [done|lia|done]. Qed.

Lemma safe_fail {A} lo enc st (Q : A -> Z -> Prop) : dec_err st -> DecSafe lo enc (fail st) Q.
Proof. intros ? o m ? Ho. done. Qed.

Lemma safe_bind {A B} lo enc d (k : A -> eff (dec_state Mem) B) (Q : A -> Z -> Prop) (R : B -> Z -> Prop) :
  DecSafe lo enc d Q ->
  (forall a n, 0 <= n -> Q a n -> DecSafe (lo + n) enc (k a) (fun b n' => R b (n + n'))) ->
  DecSafe lo enc (bind d k) R.
Proof.
  intros Hd Hk o m Ho0 Ho. specialize (Hd o m Ho0 Ho). unfold bind.
  destruct (d (mk_dec o m)) as [[a| | |] [o' m']]; try done.
  destruct Hd as (n & Hn & Ho' & Hle & HQ). simpl in Ho'. subst o'.
  specialize (Hk a n Hn HQ (o + n) m' ltac:(lia) ltac:(lia)).
  destruct (k a _) as [[b| | |] s'']; try done.
  destruct Hk as (n' & Hn' & E & Hle' & HR). exists (n + n'). rewrite Z.add_assoc.
  repeat split; [lia|done|done|done].
Qed.

Lemma safe_mono {A} lo enc (d : eff (dec_state Mem) A) (Q R : A -> Z -> Prop) :
  DecSafe lo enc d Q -> (forall a n, 0 <= n -> Q a n -> R a n) -> DecSafe lo enc d R.
Proof.
  intros Hd HQR o m Ho0 Ho. specialize (Hd o m Ho0 Ho).
  destruct (d _) as [[a| | |] s']; try done.
  destruct Hd as (n & ? & ? & ? & ?). eauto 10.
Qed.

Lemma safe_base lo enc n k f st :
  zlen enc < 2 ^ 63 -> n = Z.of_nat k -> 0 < n < 2 ^ 32 -> dec_err st ->
  (forall bs, length bs = k -> f bs = be_val bs) ->
  DecSafe lo enc (require (amqp_decode_base enc n f) st) (fun v c => 0 <= v < 256 ^ n /\ c = n).
Proof.
  intros Henc -> Hn Hst Hf o m Ho0 Ho. unfold require, bind, amqp_decode_base. simpl d_off.
  rewrite size_add_small by lia.
  destruct (Z.leb_spec (o + Z.of_nat k) (zlen enc)); [|done].
  rewrite load_fits by lia. simpl. exists (Z.of_nat k). repeat split; try lia.
  all: assert (length (ztake (Z.of_nat k) (zdrop o enc)) = k) as Hlen
    by (apply Nat2Z.inj; fold (zlen (ztake (Z.of_nat k) (zdrop o enc)));
        rewrite zlen_ztake; rewrite ?zlen_zdrop; lia).
  all: rewrite Hf by done; pose proof (be_val_range (ztake (Z.of_nat k) (zdrop o enc))) as Hr;
    rewrite Hlen in Hr; lia.
Qed.

Lemma safe_8 lo enc st : zlen enc < 2 ^ 63 -> dec_err st ->
  DecSafe lo enc (require (amqp_decode_8 enc) st) (fun v c => in_u 8 v /\ c = 1).
Proof. intros. apply (safe_base lo enc (8 / 8) 1); [done|done|done|done|apply amqp_d8_network]. Qed.
Lemma safe_16 lo enc st : zlen enc < 2 ^ 63 -> dec_err st ->
  DecSafe lo enc (require (amqp_decode_16 enc) st) (fun v c => in_u 16 v /\ c = 2).
Proof. intros. apply (safe_base lo enc (16 / 8) 2); [done|done|done|done|apply amqp_d16_network]. Qed.
Lemma safe_32 lo enc st : zlen enc < 2 ^ 63 -> dec_err st ->
  DecSafe lo enc (require (amqp_decode_32 enc) st) (fun v c => in_u 32 v /\ c = 4).
Proof. intros. apply (safe_base lo enc (32 / 8) 4); [done|done|done|done|apply amqp_d32_network]. Qed.
Lemma safe_64 lo enc st : zlen enc < 2 ^ 63 -> dec_err st ->
  DecSafe lo enc (require (amqp_decode_64 enc) st) (fun v c => in_u 64 v /\ c = 8).
Proof. intros. apply (safe_base lo enc (64 / 8) 8); [done|done|done|done|apply amqp_d64_network]. Qed.

Lemma safe_bytes lo enc n st : zlen enc < 2 ^ 63 -> dec_err st -> 0 <= n < 2 ^ 63 ->
  DecSafe lo enc (require (amqp_decode_bytes enc n) st) (fun bs c => zlen bs = n /\ c = n).
Proof.
  intros Henc Hst Hn o m Ho0 Ho. unfold require, bind, amqp_decode_bytes. simpl d_off.
  rewrite size_add_small by lia.
  destruct (Z.leb_spec (o + n) (zlen enc)); [|done].
  rewrite load_fits by lia. simpl. exists n. repeat split; try lia.
  rewrite zlen_ztake; rewrite ?zlen_zdrop; lia.
Qed.

End Parse.

(** ** Properties *)

(** On a host of either byte order, [amqp_e8] .. [amqp_e64] produce network
    order, [amqp_d8] .. [amqp_d64] read it, and reading what was written gives the
    value back. *)
Theorem codec_network_order `{Host} (v8 v16 v32 v64 : Z) :
  in_u 8 v8 -> in_u 16 v16 -> in_u 32 v32 -> in_u 64 v64 ->
  (amqp_e8 v8 = be_bytes 1 v8 /\ amqp_d8 (amqp_e8 v8) = v8) /\
  (amqp_e16 v16 = be_bytes 2 v16 /\ amqp_d16 (amqp_e16 v16) = v16) /\
  (amqp_e32 v32 = be_bytes 4 v32 /\ amqp_d32 (amqp_e32 v32) = v32) /\
  (amqp_e64 v64 = be_bytes 8 v64 /\ amqp_d64 (amqp_e64 v64) = v64).
Proof.
  intros H8 H16 H32 H64.
  rewrite amqp_e8_network, amqp_e16_network, amqp_e32_network, amqp_e64_network.
  rewrite amqp_d8_network, amqp_d16_network, amqp_d32_network, amqp_d64_network by apply length_be_bytes.
  rewrite !be_val_bytes, !Z.mod_small by assumption. done.
Qed.

Example codec_network_order_witness :
  amqp_e32 (H := little_endian) 0x01020304 = [x01; x02; x03; x04] /\
  amqp_e32 (H := {| host_big := true |}) 0x01020304 = [x01; x02; x03; x04].
Proof.
  split.
  - apply (codec_network_order (H := little_endian) 1 2 0x01020304 4); split; lia.
  - apply (codec_network_order (H := {| host_big := true |}) 1 2 0x01020304 4); split; lia.
Defined.
