(* ===== verification/Table.v ===== *)
(** * Field tables: [librabbitmq/amqp_table.c], encoding and decoding

    An [amqp_field_value_t] is its tagged union; an [amqp_table_t] is the list of
    its entries.  Encoding is structural recursion over the value; decoding runs
    over arbitrary bytes, so it carries fuel, which [decode_table_safe] in
    [TableSpec.v] shows is never used up. *)

From S2P Require Import Prelude Status Memory Codec Layout.

(** ** Data ([include/rabbitmq-c/amqp.h]) *)

Definition AMQP_FIELD_KIND_BOOLEAN : Z := 116.   (* 't' *)
Definition AMQP_FIELD_KIND_I8 : Z := 98.         (* 'b' *)
Definition AMQP_FIELD_KIND_U8 : Z := 66.         (* 'B' *)
Definition AMQP_FIELD_KIND_I16 : Z := 115.       (* 's' *)
Definition AMQP_FIELD_KIND_U16 : Z := 117.       (* 'u' *)
Definition AMQP_FIELD_KIND_I32 : Z := 73.        (* 'I' *)
Definition AMQP_FIELD_KIND_U32 : Z := 105.       (* 'i' *)
Definition AMQP_FIELD_KIND_I64 : Z := 108.       (* 'l' *)
Definition AMQP_FIELD_KIND_U64 : Z := 76.        (* 'L' *)
Definition AMQP_FIELD_KIND_F32 : Z := 102.       (* 'f' *)
Definition AMQP_FIELD_KIND_F64 : Z := 100.       (* 'd' *)
Definition AMQP_FIELD_KIND_DECIMAL : Z := 68.    (* 'D' *)
Definition AMQP_FIELD_KIND_UTF8 : Z := 83.       (* 'S' *)
Definition AMQP_FIELD_KIND_ARRAY : Z := 65.      (* 'A' *)
Definition AMQP_FIELD_KIND_TIMESTAMP : Z := 84.  (* 'T' *)
Definition AMQP_FIELD_KIND_TABLE : Z := 70.      (* 'F' *)
Definition AMQP_FIELD_KIND_VOID : Z := 86.       (* 'V' *)
Definition AMQP_FIELD_KIND_BYTES : Z := 120.     (* 'x' *)

(** [kind] selects the union member.  An array keeps whether its [entries]
    pointer is [NULL], which the cloner tests.  A float is its bits.  [FV_OTHER]
    is a value whose [kind] is none of the enumeration. *)
#[local] Unset Elimination Schemes.
Inductive amqp_field_value_t : Type :=
| FV_BOOLEAN (boolean : Z)
| FV_I8 (i8 : Z)
| FV_U8 (u8 : Z)
| FV_I16 (i16 : Z)
| FV_U16 (u16 : Z)
| FV_I32 (i32 : Z)
| FV_U32 (u32 : Z)
| FV_I64 (i64 : Z)
| FV_U64 (u64 : Z)
| FV_F32 (u32 : Z)
| FV_F64 (u64 : Z)
| FV_DECIMAL (decimals value : Z)
| FV_UTF8 (bytes : list byte)
| FV_BYTES (bytes : list byte)
| FV_ARRAY (entries_null : bool) (entries : list amqp_field_value_t)
| FV_TIMESTAMP (u64 : Z)
| FV_TABLE (entries : list (list byte * amqp_field_value_t))
| FV_VOID
| FV_OTHER (kind : Z).
#[local] Set Elimination Schemes.

Definition amqp_bytes_t : Type := list byte.
Definition amqp_table_entry_t : Type := (list byte * amqp_field_value_t)%type.
Definition amqp_table_t : Type := list (list byte * amqp_field_value_t).

Definition fv_kind (v : amqp_field_value_t) : Z :=
  match v with
  | FV_BOOLEAN _ => AMQP_FIELD_KIND_BOOLEAN
  | FV_I8 _ => AMQP_FIELD_KIND_I8
  | FV_U8 _ => AMQP_FIELD_KIND_U8
  | FV_I16 _ => AMQP_FIELD_KIND_I16
  | FV_U16 _ => AMQP_FIELD_KIND_U16
  | FV_I32 _ => AMQP_FIELD_KIND_I32
  | FV_U32 _ => AMQP_FIELD_KIND_U32
  | FV_I64 _ => AMQP_FIELD_KIND_I64
  | FV_U64 _ => AMQP_FIELD_KIND_U64
  | FV_F32 _ => AMQP_FIELD_KIND_F32
  | FV_F64 _ => AMQP_FIELD_KIND_F64
  | FV_DECIMAL _ _ => AMQP_FIELD_KIND_DECIMAL
  | FV_UTF8 _ => AMQP_FIELD_KIND_UTF8
  | FV_BYTES _ => AMQP_FIELD_KIND_BYTES
  | FV_ARRAY _ _ => AMQP_FIELD_KIND_ARRAY
  | FV_TIMESTAMP _ => AMQP_FIELD_KIND_TIMESTAMP
  | FV_TABLE _ => AMQP_FIELD_KIND_TABLE
  | FV_VOID => AMQP_FIELD_KIND_VOID
  | FV_OTHER kind => kind
  end.

(** ** Encoding *)

Section TableEncode.
Context `{Host}.

(** The size word is left open, the entries follow, the size is patched in. *)
Definition amqp_encode_array_with (encode_field_value : amqp_field_value_t -> eff enc_state unit)
    (entries : list amqp_field_value_t) : eff enc_state unit :=
  let! start := get_offset in
  do! skip_offset 4 in
  do! for_each encode_field_value entries in
  let! offset := get_offset in
  guard (at_start start (amqp_encode_32 (wrap 32 (size_sub (size_sub offset start) 4))))
        AMQP_STATUS_TABLE_TOO_BIG.

Definition amqp_encode_table_entry_with (encode_field_value : amqp_field_value_t -> eff enc_state unit)
    (entry : list byte * amqp_field_value_t) : eff enc_state unit :=
  match entry with
  | (key, value) =>
    do! guard (amqp_encode_8 (wrap 8 (zlen key))) AMQP_STATUS_TABLE_TOO_BIG in
    do! guard (amqp_encode_bytes key) AMQP_STATUS_TABLE_TOO_BIG in
    encode_field_value value
  end.

Definition amqp_encode_table_with (encode_field_value : amqp_field_value_t -> eff enc_state unit)
    (entries : list (list byte * amqp_field_value_t)) : eff enc_state unit :=
  let! start := get_offset in
  do! skip_offset 4 in
  do! for_each (amqp_encode_table_entry_with encode_field_value) entries in
  let! offset := get_offset in
  guard (at_start start (amqp_encode_32 (wrap 32 (size_sub (size_sub offset start) 4))))
        AMQP_STATUS_TABLE_TOO_BIG.

Fixpoint amqp_encode_field_value (entry : amqp_field_value_t) : eff enc_state unit :=
  do! guard (amqp_encode_8 (fv_kind entry)) AMQP_STATUS_BAD_AMQP_DATA in
  match entry with
  | FV_BOOLEAN boolean =>
      guard (amqp_encode_8 (if boolean =? 0 then 0 else 1)) AMQP_STATUS_TABLE_TOO_BIG
  | FV_I8 i8 => guard (amqp_encode_8 (wrap 8 i8)) AMQP_STATUS_TABLE_TOO_BIG
  | FV_U8 u8 => guard (amqp_encode_8 u8) AMQP_STATUS_TABLE_TOO_BIG
  | FV_I16 i16 => guard (amqp_encode_16 (wrap 16 i16)) AMQP_STATUS_TABLE_TOO_BIG
  | FV_U16 u16 => guard (amqp_encode_16 u16) AMQP_STATUS_TABLE_TOO_BIG
  | FV_I32 i32 => guard (amqp_encode_32 (wrap 32 i32)) AMQP_STATUS_TABLE_TOO_BIG
  | FV_U32 u32 => guard (amqp_encode_32 u32) AMQP_STATUS_TABLE_TOO_BIG
  | FV_I64 i64 => guard (amqp_encode_64 (wrap 64 i64)) AMQP_STATUS_TABLE_TOO_BIG
  | FV_U64 u64 => guard (amqp_encode_64 u64) AMQP_STATUS_TABLE_TOO_BIG
  | FV_F32 u32 => guard (amqp_encode_32 u32) AMQP_STATUS_TABLE_TOO_BIG
  | FV_F64 u64 => guard (amqp_encode_64 u64) AMQP_STATUS_TABLE_TOO_BIG
  | FV_DECIMAL decimals value =>
      do! guard (amqp_encode_8 decimals) AMQP_STATUS_TABLE_TOO_BIG in
      guard (amqp_encode_32 value) AMQP_STATUS_TABLE_TOO_BIG
  | FV_UTF8 bytes
  | FV_BYTES bytes =>
      do! guard (amqp_encode_32 (wrap 32 (zlen bytes))) AMQP_STATUS_TABLE_TOO_BIG in
      guard (amqp_encode_bytes bytes) AMQP_STATUS_TABLE_TOO_BIG
  | FV_ARRAY _ entries => amqp_encode_array_with amqp_encode_field_value entries
  | FV_TIMESTAMP u64 => guard (amqp_encode_64 u64) AMQP_STATUS_TABLE_TOO_BIG
  | FV_TABLE entries => amqp_encode_table_with amqp_encode_field_value entries
  | FV_VOID => ret tt
  | FV_OTHER _ => fail AMQP_STATUS_INVALID_PARAMETER
  end.

Definition amqp_encode_array (entries : list amqp_field_value_t) : eff enc_state unit :=
  amqp_encode_array_with amqp_encode_field_value entries.
Definition amqp_encode_table (input : amqp_table_t) : eff enc_state unit :=
  amqp_encode_table_with amqp_encode_field_value input.

End TableEncode.

(** ** Decoding *)

Definition INITIAL_ARRAY_SIZE : Z := 16.
Definition INITIAL_TABLE_SIZE : Z := 16.

(** The locals of the two decoding loops: [num_entries], [allocated_entries], the
    scratch array [entries] and what it holds, over the decoder's own state. *)
Record loop_state (Mem A : Type) := mk_loop {
  l_num : Z;
  l_allocated : Z;
  l_entries : Z;
  l_acc : list A;
  l_dec : dec_state Mem;
}.
Arguments mk_loop {Mem A} _ _ _ _ _.
Arguments l_num {Mem A} _.
Arguments l_allocated {Mem A} _.
Arguments l_entries {Mem A} _.
Arguments l_acc {Mem A} _.
Arguments l_dec {Mem A} _.

Section TableDecode.
Context `{Host} {Mem Pool : Type} `{MemOps Mem Pool}.
Context (encoded : list byte) (pool : Pool).

Definition d_get_offset : eff (dec_state Mem) Z := fun s => (Ret (d_off s), s).

Section Loop.
Context {A : Type} (esize : Z).

Definition lift {B} (m : eff (dec_state Mem) B) : eff (loop_state Mem A) B :=
  fun ls => let '(r, s) := m (l_dec ls) in
            (r, mk_loop (l_num ls) (l_allocated ls) (l_entries ls) (l_acc ls) s).

(** [if (num_entries >= allocated_entries)]: double the scratch array.  The
    doubling is [int] arithmetic. *)
Definition grow : eff (loop_state Mem A) unit :=
  fun ls =>
    if l_allocated ls <=? l_num ls then
      let allocated := l_allocated ls * 2 in
      if INT_MAX <? allocated then (Undef, ls)
      else
        let '(p, m) := c_realloc (l_entries ls) (allocated * esize) (d_mem (l_dec ls)) in
        let s := mk_dec (d_off (l_dec ls)) m in
        match p with
        | None => (Err AMQP_STATUS_NO_MEMORY,
                   mk_loop (l_num ls) allocated (l_entries ls) (l_acc ls) s)
        | Some p => (Ret tt, mk_loop (l_num ls) allocated p (l_acc ls) s)
        end
    else (Ret tt, ls).

(** [entries[num_entries] = x; num_entries++] *)
Definition push (x : A) : eff (loop_state Mem A) unit :=
  fun ls => (Ret tt, mk_loop (l_num ls + 1) (l_allocated ls) (l_entries ls)
                             (l_acc ls ++ [x]) (l_dec ls)).

(** [while ( *offset < limit ) body] *)
Fixpoint decode_loop (fuel : nat) (body : eff (loop_state Mem A) unit) (limit : Z)
    : eff (loop_state Mem A) unit :=
  match fuel with
  | O => nofuel
  | S fuel' => fun ls =>
      if d_off (l_dec ls) <? limit
      then bind body (fun _ => decode_loop fuel' body limit) ls
      else (Ret tt, ls)
  end.

(** The frame the array and the table decoder share: the size word and its check,
    the scratch array, the loop, the copy into the pool and [out: free(entries)].
    The result says whether [output->entries] is [NULL]. *)
Definition decode_entries (fuel : nat) (initial : Z) (body : eff (loop_state Mem A) unit)
    : eff (dec_state Mem) (bool * list A) :=
  let! size := require (amqp_decode_32 encoded) AMQP_STATUS_BAD_AMQP_DATA in
  let! offset := d_get_offset in
  if zlen encoded <? size_add size offset then fail AMQP_STATUS_BAD_AMQP_DATA
  else fun s =>
    match c_malloc (initial * esize) (d_mem s) with
    | (None, m) => (Err AMQP_STATUS_NO_MEMORY, mk_dec (d_off s) m)
    | (Some entries, m) =>
      let limit := size_add offset size in
      let '(r, ls) := decode_loop fuel body limit
                        (mk_loop 0 initial entries [] (mk_dec (d_off s) m)) in
      let out (r : res (bool * list A)) (m : Mem) :=
        (r, mk_dec (d_off (l_dec ls)) (c_free (l_entries ls) m)) in
      match r with
      | Ret _ =>
          match pool_alloc pool (l_num ls * esize) (d_mem (l_dec ls)) with
          | (None, m') => out (if l_num ls =? 0 then Ret (true, [])
                               else Err AMQP_STATUS_NO_MEMORY) m'
          | (Some _, m') => out (Ret (false, l_acc ls)) m'
          end
      | Err st => out (Err st) (d_mem (l_dec ls))
      | Undef => (Undef, l_dec ls)
      | NoFuel => (NoFuel, l_dec ls)
      end
    end.
End Loop.

Definition array_body (decode_field_value : eff (dec_state Mem) amqp_field_value_t)
    : eff (loop_state Mem amqp_field_value_t) unit :=
  do! grow (sizeof layout_amqp_field_value_t) in
  let! v := lift decode_field_value in
  push v.

Definition table_body (decode_field_value : eff (dec_state Mem) amqp_field_value_t)
    : eff (loop_state Mem amqp_table_entry_t) unit :=
  let! keylen := lift (require (amqp_decode_8 encoded) AMQP_STATUS_BAD_AMQP_DATA) in
  do! grow (sizeof layout_amqp_table_entry_t) in
  let! key := lift (require (amqp_decode_bytes encoded keylen) AMQP_STATUS_BAD_AMQP_DATA) in
  let! value := lift decode_field_value in
  push (key, value).

Definition amqp_decode_array_with (decode_field_value : eff (dec_state Mem) amqp_field_value_t)
    (fuel : nat) : eff (dec_state Mem) (bool * list amqp_field_value_t) :=
  decode_entries (sizeof layout_amqp_field_value_t) fuel INITIAL_ARRAY_SIZE
    (array_body decode_field_value).

Definition amqp_decode_table_with (decode_field_value : eff (dec_state Mem) amqp_field_value_t)
    (fuel : nat) : eff (dec_state Mem) amqp_table_t :=
  let! out := decode_entries (sizeof layout_amqp_table_entry_t) fuel INITIAL_TABLE_SIZE
                (table_body decode_field_value) in
  ret out.2.

Definition dec_u8 : eff (dec_state Mem) Z := require (amqp_decode_8 encoded) AMQP_STATUS_BAD_AMQP_DATA.
Definition dec_u16 : eff (dec_state Mem) Z := require (amqp_decode_16 encoded) AMQP_STATUS_BAD_AMQP_DATA.
Definition dec_u32 : eff (dec_state Mem) Z := require (amqp_decode_32 encoded) AMQP_STATUS_BAD_AMQP_DATA.
Definition dec_u64 : eff (dec_state Mem) Z := require (amqp_decode_64 encoded) AMQP_STATUS_BAD_AMQP_DATA.
Definition dec_bytes (len : Z) : eff (dec_state Mem) (list byte) :=
  require (amqp_decode_bytes encoded len) AMQP_STATUS_BAD_AMQP_DATA.

Fixpoint amqp_decode_field_value (fuel : nat) : eff (dec_state Mem) amqp_field_value_t :=
  match fuel with
  | O => nofuel
  | S fuel' =>
    let! kind := dec_u8 in
    switch kind
      [(AMQP_FIELD_KIND_BOOLEAN, let! val := dec_u8 in ret (FV_BOOLEAN (if val =? 0 then 0 else 1)));
       (AMQP_FIELD_KIND_I8, let! val := dec_u8 in ret (FV_I8 (swrap 8 val)));
       (AMQP_FIELD_KIND_U8, let! val := dec_u8 in ret (FV_U8 val));
       (AMQP_FIELD_KIND_I16, let! val := dec_u16 in ret (FV_I16 (swrap 16 val)));
       (AMQP_FIELD_KIND_U16, let! val := dec_u16 in ret (FV_U16 val));
       (AMQP_FIELD_KIND_I32, let! val := dec_u32 in ret (FV_I32 (swrap 32 val)));
       (AMQP_FIELD_KIND_U32, let! val := dec_u32 in ret (FV_U32 val));
       (AMQP_FIELD_KIND_I64, let! val := dec_u64 in ret (FV_I64 (swrap 64 val)));
       (AMQP_FIELD_KIND_U64, let! val := dec_u64 in ret (FV_U64 val));
       (AMQP_FIELD_KIND_F32, let! val := dec_u32 in ret (FV_F32 val));
       (AMQP_FIELD_KIND_F64, let! val := dec_u64 in ret (FV_F64 val));
       (AMQP_FIELD_KIND_DECIMAL,
         let! decimals := dec_u8 in let! value := dec_u32 in ret (FV_DECIMAL decimals value));
       (AMQP_FIELD_KIND_UTF8,
         let! len := dec_u32 in let! bytes := dec_bytes len in ret (FV_UTF8 bytes));
       (AMQP_FIELD_KIND_BYTES,
         let! len := dec_u32 in let! bytes := dec_bytes len in ret (FV_BYTES bytes));
       (AMQP_FIELD_KIND_ARRAY,
         let! a := amqp_decode_array_with (amqp_decode_field_value fuel') fuel' in
         ret (FV_ARRAY a.1 a.2));
       (AMQP_FIELD_KIND_TIMESTAMP, let! val := dec_u64 in ret (FV_TIMESTAMP val));
       (AMQP_FIELD_KIND_TABLE,
         let! t := amqp_decode_table_with (amqp_decode_field_value fuel') fuel' in
         ret (FV_TABLE t));
       (AMQP_FIELD_KIND_VOID, ret FV_VOID)]
      (fail AMQP_STATUS_BAD_AMQP_DATA)
  end.

(** Fuel for a whole buffer: every loop turn and every nesting level reads at
    least one byte. *)
Definition decode_fuel : nat := S (length encoded).

Definition amqp_decode_array : eff (dec_state Mem) (bool * list amqp_field_value_t) :=
  amqp_decode_array_with (amqp_decode_field_value decode_fuel) decode_fuel.
Definition amqp_decode_table : eff (dec_state Mem) amqp_table_t :=
  amqp_decode_table_with (amqp_decode_field_value decode_fuel) decode_fuel.

End TableDecode.
