(* ===== verification/TableSpec.v ===== *)
(** * Field tables: the wire format and the theorems about [Table.v]

    [wire_fv] and [wire_table] are the AMQP 0-9-1 wire format as a function of
    the value; the encoder writes it, the decoder reads it back, and on arbitrary
    bytes the decoder stays inside its buffer, terminates, and returns either an
    error or a well-formed value whose wire format is as long as what was read. *)

From S2P Require Import Prelude Status Memory Codec Layout Pool PoolMem Table.

(** ** Induction over values *)

Section FvInd.
Variable P : amqp_field_value_t -> Prop.
Hypothesis Hleaf : forall v,
  match v with FV_ARRAY _ _ | FV_TABLE _ => True | _ => P v end.
Hypothesis Harray : forall b l, Forall P l -> P (FV_ARRAY b l).
Hypothesis Htable : forall l, Forall (fun e => P e.2) l -> P (FV_TABLE l).

Fixpoint fv_ind (v : amqp_field_value_t) : P v :=
  match v as v0 return match v0 with FV_ARRAY _ _ | FV_TABLE _ => True | _ => P v0 end -> P v0 with
  | FV_ARRAY b l => fun _ => Harray b l
      ((fix go l := match l return Forall P l with
                    | [] => Forall_nil_2 _
                    | x :: l' => Forall_cons_2 _ x l' (fv_ind x) (go l')
                    end) l)
  | FV_TABLE l => fun _ => Htable l
      ((fix go l := match l return Forall (fun e => P e.2) l with
                    | [] => Forall_nil_2 _
                    | (k, x) :: l' => Forall_cons_2 (fun e => P e.2) (k, x) l' (fv_ind x) (go l')
                    end) l)
  | _ => fun H => H
  end (Hleaf v).
End FvInd.

(** ** The wire format *)

Section AllP.
Context {A : Type} (P : A -> Prop).
Fixpoint allP (l : list A) : Prop :=
  match l with [] => True | x :: l' => P x /\ allP l' end.
End AllP.

Lemma allP_Forall {A} (P : A -> Prop) l : allP P l <-> Forall P l.
Proof. induction l; simpl; rewrite ?Forall_cons, ?Forall_nil; tauto. Qed.

(** A size word and what it counts. *)
Definition wire_sized (payload : list byte) : list byte := be_bytes 4 (zlen payload) ++ payload.

Definition wire_entry_with (w : amqp_field_value_t -> list byte)
    (e : list byte * amqp_field_value_t) : list byte :=
  match e with (k, v) => be_bytes 1 (zlen k) ++ k ++ w v end.

Fixpoint wire_fv (v : amqp_field_value_t) : list byte :=
  be_bytes 1 (fv_kind v) ++
  match v with
  | FV_BOOLEAN b => be_bytes 1 b
  | FV_I8 z => be_bytes 1 (wrap 8 z)
  | FV_U8 z => be_bytes 1 z
  | FV_I16 z => be_bytes 2 (wrap 16 z)
  | FV_U16 z => be_bytes 2 z
  | FV_I32 z => be_bytes 4 (wrap 32 z)
  | FV_U32 z => be_bytes 4 z
  | FV_I64 z => be_bytes 8 (wrap 64 z)
  | FV_U64 z => be_bytes 8 z
  | FV_F32 z => be_bytes 4 z
  | FV_F64 z => be_bytes 8 z
  | FV_DECIMAL d z => be_bytes 1 d ++ be_bytes 4 z
  | FV_UTF8 bs | FV_BYTES bs => wire_sized bs
  | FV_ARRAY _ l => wire_sized (concat (map wire_fv l))
  | FV_TIMESTAMP z => be_bytes 8 z
  | FV_TABLE l => wire_sized (concat (map (wire_entry_with wire_fv) l))
  | FV_VOID => []
  | FV_OTHER _ => []
  end.

Definition wire_entry : amqp_table_entry_t -> list byte := wire_entry_with wire_fv.
Definition wire_table (t : amqp_table_t) : list byte := wire_sized (concat (map wire_entry t)).

(** Values the C types can hold and the wire can carry: integers in their width,
    booleans 0 or 1, keys of at most 255 bytes, sizes of at most 32 bits, the
    [entries] pointer [NULL] exactly for the empty array. *)
Fixpoint fv_ok (v : amqp_field_value_t) : Prop :=
  match v with
  | FV_BOOLEAN b => b = 0 \/ b = 1
  | FV_I8 z => in_s 8 z
  | FV_U8 z => in_u 8 z
  | FV_I16 z => in_s 16 z
  | FV_U16 z => in_u 16 z
  | FV_I32 z => in_s 32 z
  | FV_U32 z | FV_F32 z => in_u 32 z
  | FV_I64 z => in_s 64 z
  | FV_U64 z | FV_F64 z | FV_TIMESTAMP z => in_u 64 z
  | FV_DECIMAL d z => in_u 8 d /\ in_u 32 z
  | FV_UTF8 bs | FV_BYTES bs => zlen bs < 2 ^ 32
  | FV_ARRAY null l =>
      null = bool_decide (length l = 0%nat) /\ allP fv_ok l /\
      zlen (concat (map wire_fv l)) < 2 ^ 32
  | FV_TABLE l =>
      allP (fun e => match e with (k, v) => zlen k < 256 /\ fv_ok v end) l /\
      zlen (concat (map (wire_entry_with wire_fv) l)) < 2 ^ 32
  | FV_VOID => True
  | FV_OTHER _ => False
  end.

Definition entry_ok (e : amqp_table_entry_t) : Prop :=
  match e with (k, v) => zlen k < 256 /\ fv_ok v end.
Definition table_ok (t : amqp_table_t) : Prop :=
  allP entry_ok t /\ zlen (concat (map wire_entry t)) < 2 ^ 32.

Lemma wire_fv_pos v : 1 <= zlen (wire_fv v).
Proof. destruct v; simpl wire_fv; zlia. Qed.

Lemma wire_entry_pos e : 1 <= zlen (wire_entry e).
Proof. destruct e. unfold wire_entry, wire_entry_with. zlia. Qed.

Lemma zlen_wire_sized p : zlen (wire_sized p) = 4 + zlen p.
Proof. unfold wire_sized. zlia. Qed.
#[export] Hint Rewrite zlen_wire_sized : zlen.

Lemma zlen_concat_le {A} (w : A -> list byte) x l :
  x ∈ l -> zlen (w x) <= zlen (concat (map w l)).
Proof.
  induction 1 as [x l|x y l _ IH]; cbn [map concat]; rewrite zlen_app; zlen_pos; lia.
Qed.

Lemma length_concat_le {A} (w : A -> list byte) l :
  (forall x, 1 <= zlen (w x)) -> zlen l <= zlen (concat (map w l)).
Proof.
  intros Hw. induction l as [|y l IH]; cbn [map concat]; rewrite ?zlen_nil, ?zlen_cons, ?zlen_app; [done|].
  specialize (Hw y). lia.
Qed.

(** ** Encoding *)

Section Encode.
Context `{Host}.

(** The last step of the array and table encoders: the size word at [start]. *)
Definition patch_size (start : Z) : eff enc_state unit :=
  let! offset := get_offset in
  guard (at_start start (amqp_encode_32 (wrap 32 (size_sub (size_sub offset start) 4))))
        AMQP_STATUS_TABLE_TOO_BIG.

Lemma patch_size_fits buf o p :
  zlen buf < 2 ^ 63 -> 0 <= o -> o + 4 + zlen p <= zlen buf -> zlen p < 2 ^ 32 ->
  patch_size o (mk_enc (splice buf (o + 4) p) (o + 4 + zlen p))
  = (Ret tt, mk_enc (splice buf o (wire_sized p)) (o + 4 + zlen p)).
Proof.
  intros. zlen_pos. unfold patch_size, bind, get_offset, guard, bind, at_start, size_sub. simpl.
  assert (wrap 32 (wrap 64 (wrap 64 (o + 4 + zlen p - o) - 4)) = zlen p) as ->.
  { rewrite (wrap_small 64 (o + 4 + zlen p - o)) by (unfold in_u; lia).
    rewrite (wrap_small 64) by (unfold in_u; lia).
    rewrite wrap_small by (unfold in_u; lia). lia. }
  assert (zlen (splice buf (o + 4) p) = zlen buf) as Hl by (apply zlen_splice; lia).
  pose proof (emits_32 (zlen p) (splice buf (o + 4) p) o ltac:(lia) ltac:(lia)) as H32.
  rewrite zlen_be_bytes, Hl, decide_True in H32 by lia. rewrite H32. simpl. do 2 f_equal.
  pose proof (splice_before buf o (be_bytes 4 (zlen p)) p ltac:(lia)) as Hs.
  rewrite zlen_be_bytes in Hs. apply Hs. lia.
Qed.

Lemma patch_size_past_end buf o o' :
  zlen buf < 2 ^ 63 -> 0 <= o <= zlen buf -> zlen buf < o + 4 ->
  patch_size o (mk_enc buf o') = (Err AMQP_STATUS_TABLE_TOO_BIG, mk_enc buf o').
Proof.
  intros. unfold patch_size, bind, get_offset, guard, bind, at_start. simpl.
  set (v := wrap 32 _).
  pose proof (emits_32 v buf o ltac:(lia) ltac:(lia)) as H32.
  rewrite zlen_be_bytes, decide_False in H32 by lia. destruct H32 as [o'' E]. by rewrite E.
Qed.

(** The back-patched frame of arrays and tables, for any entry encoder that fails
    once the offset is past the end of the buffer. *)
Lemma emits_sized {A} (f : A -> eff enc_state unit) (w : A -> list byte) (l : list A) :
  Forall (fun x => Emits (f x) (w x)) l ->
  (forall x buf o, In x l -> zlen buf < 2 ^ 63 -> zlen buf < o -> o < 2 ^ 63 + 2 ^ 32 ->
     exists st o', f x (mk_enc buf o) = (Err st, mk_enc buf o') /\ enc_err st) ->
  zlen (concat (map w l)) < 2 ^ 32 ->
  Emits (let! start := get_offset in
         do! skip_offset 4 in
         do! for_each f l in
         let! offset := get_offset in
         guard (at_start start (amqp_encode_32 (wrap 32 (size_sub (size_sub offset start) 4))))
               AMQP_STATUS_TABLE_TOO_BIG)
        (wire_sized (concat (map w l))).
Proof.
  intros Hf Hpast Hsz buf o Hbuf Ho. rewrite zlen_wire_sized. zlen_pos.
  set (p := concat (map w l)) in *.
  match goal with |- context [bind get_offset ?k] => set (prog := bind get_offset k) end.
  assert (prog (mk_enc buf o) = bind (for_each f l) (fun _ => patch_size o) (mk_enc buf (o + 4))) as ->.
  { unfold prog, patch_size, bind, get_offset, skip_offset. simpl. by rewrite size_add_small by lia. }
  destruct (decide (o + 4 <= zlen buf)) as [H4|H4].
  - pose proof (emits_for_each f w l Hf buf (o + 4) Hbuf ltac:(lia)) as Hloop.
    fold p in Hloop. case_decide as Hfit; case_decide as Hfit'; try lia.
    + rewrite (bind_step _ _ _ _ _ Hloop), patch_size_fits by lia. f_equal. f_equal. lia.
    + destruct Hloop as (st & buf' & o' & E & Hst & Hl & Ht). rewrite (bind_err _ _ _ _ _ E).
      exists st, buf', o'. repeat split; auto.
      apply (ztake_ztake_eq _ _ _ (o + 4)); [lia|done].
  - rewrite decide_False by lia. destruct l as [|x l].
    + simpl for_each. rewrite bind_ret_l, patch_size_past_end by lia.
      exists AMQP_STATUS_TABLE_TOO_BIG, buf, (o + 4). repeat split. by right.
    + destruct (Hpast x buf (o + 4) ltac:(by left) Hbuf ltac:(lia) ltac:(lia)) as (st & o' & E & Hst).
      simpl for_each. rewrite (bind_err _ _ _ st (mk_enc buf o')); [eauto 10|].
      by apply bind_err.
Qed.

Lemma field_value_past_end v buf o :
  zlen buf < 2 ^ 63 -> zlen buf < o -> o < 2 ^ 63 + 2 ^ 32 ->
  exists st o', amqp_encode_field_value v (mk_enc buf o) = (Err st, mk_enc buf o') /\ enc_err st.
Proof.
  intros. zlen_pos.
  destruct (guard_past_end (8 / 8) amqp_e8 (fv_kind v) AMQP_STATUS_BAD_AMQP_DATA buf o)
    as [o' E]; [done|lia|change (8 / 8) with 1; lia|lia|].
  exists AMQP_STATUS_BAD_AMQP_DATA, o'. split; [|by left].
  destruct v; simpl amqp_encode_field_value; by apply bind_err.
Qed.

Lemma table_entry_past_end (e : amqp_table_entry_t) buf o :
  zlen buf < 2 ^ 63 -> zlen buf < o -> o < 2 ^ 63 + 2 ^ 32 ->
  exists st o', amqp_encode_table_entry_with amqp_encode_field_value e (mk_enc buf o)
                = (Err st, mk_enc buf o') /\ enc_err st.
Proof.
  intros. zlen_pos. destruct e as [k v].
  destruct (guard_past_end (8 / 8) amqp_e8 (wrap 8 (zlen k)) AMQP_STATUS_TABLE_TOO_BIG buf o)
    as [o' E]; [done|lia|change (8 / 8) with 1; lia|lia|].
  exists AMQP_STATUS_TABLE_TOO_BIG, o'. split; [|by right].
  simpl. by apply bind_err.
Qed.

Lemma emits_guard_8 v st : enc_err st -> Emits (guard (amqp_encode_8 v) st) (be_bytes 1 v).
Proof. intros. apply emits_guard, emits_8; done. Qed.
Lemma emits_guard_16 v st : enc_err st -> Emits (guard (amqp_encode_16 v) st) (be_bytes 2 v).
Proof. intros. apply emits_guard, emits_16; done. Qed.
Lemma emits_guard_32 v st : enc_err st -> Emits (guard (amqp_encode_32 v) st) (be_bytes 4 v).
Proof. intros. apply emits_guard, emits_32; done. Qed.
Lemma emits_guard_64 v st : enc_err st -> Emits (guard (amqp_encode_64 v) st) (be_bytes 8 v).
Proof. intros. apply emits_guard, emits_64; done. Qed.
Lemma emits_guard_bytes bs st : enc_err st -> zlen bs < 2 ^ 63 ->
  Emits (guard (amqp_encode_bytes bs) st) bs.
Proof. intros. apply emits_guard, emits_bytes; done. Qed.

Lemma enc_err_bad : enc_err AMQP_STATUS_BAD_AMQP_DATA. Proof. by left. Qed.
Lemma enc_err_big : enc_err AMQP_STATUS_TABLE_TOO_BIG. Proof. by right. Qed.

(** A string behind its 32-bit length. *)
Lemma emits_sized_bytes bs st : enc_err st -> zlen bs < 2 ^ 32 ->
  Emits (do! guard (amqp_encode_32 (wrap 32 (zlen bs))) st in guard (amqp_encode_bytes bs) st)
        (wire_sized bs).
Proof.
  intros. zlen_pos. rewrite wrap_small by (unfold in_u; lia).
  apply emits_bind; [by apply emits_guard_32|apply emits_guard_bytes; [done|lia]].
Qed.

Lemma emits_entry k v :
  zlen k < 256 -> Emits (amqp_encode_field_value v) (wire_fv v) ->
  Emits (amqp_encode_table_entry_with amqp_encode_field_value (k, v)) (wire_entry (k, v)).
Proof.
  intros Hk Hv. zlen_pos. unfold wire_entry, wire_entry_with, amqp_encode_table_entry_with.
  rewrite wrap_small by (unfold in_u; lia).
  apply emits_bind; [apply emits_guard_8, enc_err_big|].
  apply emits_bind; [apply emits_guard_bytes; [apply enc_err_big|lia]|done].
Qed.

Lemma emits_fv v : fv_ok v -> Emits (amqp_encode_field_value v) (wire_fv v).
Proof.
  revert v. apply (fv_ind (fun v => fv_ok v -> Emits (amqp_encode_field_value v) (wire_fv v))).
  - intros []; try exact I; intros Hok; cbn [amqp_encode_field_value wire_fv];
      (apply emits_bind; [apply emits_guard_8, enc_err_bad|]);
      auto using emits_guard_8, emits_guard_16, emits_guard_32, emits_guard_64, enc_err_big,
        emits_bind, emits_sized_bytes, emits_ret; [|done].
    destruct Hok as [-> | ->]; apply emits_guard_8, enc_err_big.
  - intros b l IH (_ & Hl & Hsz). apply allP_Forall in Hl.
    cbn [amqp_encode_field_value wire_fv].
    apply emits_bind; [apply emits_guard_8, enc_err_bad|].
    apply emits_sized; [|intros; by apply field_value_past_end|done].
    rewrite Forall_forall in IH, Hl |- *. auto.
  - intros l IH (Hl & Hsz). apply allP_Forall in Hl.
    cbn [amqp_encode_field_value wire_fv].
    apply emits_bind; [apply emits_guard_8, enc_err_bad|].
    apply emits_sized; [|intros; by apply table_entry_past_end|done].
    rewrite Forall_forall in IH, Hl |- *. intros [k v] Hin.
    destruct (Hl _ Hin) as [Hk Hv]. apply (emits_entry k v); [done|].
    by apply (IH (k, v)).
Qed.

Lemma emits_table t : table_ok t -> Emits (amqp_encode_table t) (wire_table t).
Proof.
  intros [Hl Hsz]. apply allP_Forall in Hl.
  apply emits_sized; [|intros; by apply table_entry_past_end|done].
  rewrite Forall_forall in Hl |- *. intros [k v] Hin.
  destruct (Hl _ Hin) as [Hk Hv]. apply (emits_entry k v); [done|]. by apply emits_fv.
Qed.

End Encode.

(** ** Decoding *)

Section Decode.
Context `{Host} {Mem Pool : Type} `{MemLaws Mem Pool}.
Context (enc : list byte) (pool : Pool).
(** Below 2^30 bytes [allocated_entries] does not overflow an [int]; the frame
    size is at most the negotiated [frame_max], 131072 by default. *)
Hypothesis Henc : zlen enc <= 2 ^ 30.

Section Loop.
Context {A : Type} (esize : Z) (Hesize : 0 < esize < 2 ^ 16).
Context (w : A -> list byte) (Hw : forall x, 1 <= zlen (w x)).

(** [num_entries] entries have been read and the scratch array holds them. *)
Definition loop_inv (num alloc o : Z) : Prop := 0 <= num <= o /\ num <= alloc /\ 16 <= alloc.

Lemma grow_step num alloc p (acc : list A) o m :
  loop_inv num alloc o -> num < 2 ^ 30 ->
  (exists alloc' p' m',
     grow (Pool := Pool) esize (mk_loop num alloc p acc (mk_dec o m))
     = (Ret tt, mk_loop num alloc' p' acc (mk_dec o m')) /\
     loop_inv num alloc' o /\ num + 1 <= alloc' /\ (forall k, plenty pool k m -> plenty pool k m'))
  \/ ((forall k, ~ plenty pool k m) /\ exists s',
        grow (Pool := Pool) esize (mk_loop num alloc p acc (mk_dec o m)) = (Err AMQP_STATUS_NO_MEMORY, s')).
Proof.
  unfold loop_inv. intros Hinv Hnum. unfold grow. simpl.
  destruct (Z.leb_spec alloc num); [|left; exists alloc, p, m; repeat split; auto; lia].
  destruct (Z.ltb_spec INT_MAX (alloc * 2)); [unfold INT_MAX, INT32_MAX in *; lia|].
  assert (Hre : forall k, plenty pool k m -> exists b' m',
            c_realloc p (alloc * 2 * esize) m = (Some b', m') /\ plenty pool k m').
  { intros k Hp. apply plenty_realloc; [done|nia]. }
  destruct (c_realloc p (alloc * 2 * esize) m) as [[p'|] m'] eqn:E.
  - left. exists (alloc * 2), p', m'. repeat split; try lia. intros k Hp.
    destruct (Hre k Hp) as (? & ? & [=] & ?). by subst.
  - right. split; [|eauto]. intros k Hp. by destruct (Hre k Hp) as (? & ? & [=] & ?).
Qed.

(** One turn of the loop where the wire format of [x] stands. *)
Definition StepParses (body : eff (loop_state Mem A) unit) (x : A) : Prop :=
  forall num alloc p acc o m,
  loop_inv num alloc o -> at_off enc o (w x) ->
  (exists alloc' p' m',
     body (mk_loop num alloc p acc (mk_dec o m))
     = (Ret tt, mk_loop (num + 1) alloc' p' (acc ++ [x]) (mk_dec (o + zlen (w x)) m')) /\
     loop_inv (num + 1) alloc' (o + zlen (w x)) /\
     forall k, 0 <= k -> plenty pool (k + zlen (w x)) m -> plenty pool k m')
  \/ (~ plenty pool (zlen (w x)) m /\ exists s',
        body (mk_loop num alloc p acc (mk_dec o m)) = (Err AMQP_STATUS_NO_MEMORY, s')).

(** One turn of the loop over arbitrary bytes. *)
Definition StepSafe (ok : A -> Prop) (lo : Z) (body : eff (loop_state Mem A) unit) : Prop :=
  forall num alloc p acc o m,
  loop_inv num alloc o -> 0 <= o -> lo <= o < zlen enc ->
  match body (mk_loop num alloc p acc (mk_dec o m)) with
  | (Ret _, ls) => exists x alloc' p' m', ok x /\
      ls = mk_loop (num + 1) alloc' p' (acc ++ [x]) (mk_dec (o + zlen (w x)) m') /\
      loop_inv (num + 1) alloc' (o + zlen (w x)) /\ o + zlen (w x) <= zlen enc
  | (Err st, _) => dec_err st
  | (Undef, _) | (NoFuel, _) => False
  end.

Lemma loop_parses body l fuel limit num alloc p acc o m :
  Forall (StepParses body) l -> (length l < fuel)%nat ->
  loop_inv num alloc o -> at_off enc o (concat (map w l)) ->
  limit = o + zlen (concat (map w l)) ->
  (exists alloc' p' m',
     decode_loop fuel body limit (mk_loop num alloc p acc (mk_dec o m))
     = (Ret tt, mk_loop (num + zlen l) alloc' p' (acc ++ l) (mk_dec limit m')) /\
     loop_inv (num + zlen l) alloc' limit /\
     forall k, 0 <= k -> plenty pool (k + zlen (concat (map w l))) m -> plenty pool k m')
  \/ (~ plenty pool (zlen (concat (map w l))) m /\ exists s',
        decode_loop fuel body limit (mk_loop num alloc p acc (mk_dec o m))
        = (Err AMQP_STATUS_NO_MEMORY, s')).
Proof.
  intros Hl. revert fuel num alloc p acc o m.
  induction Hl as [|x l Hx _ IH]; intros fuel num alloc p acc o m Hfuel Hinv Hat ->;
    (destruct fuel as [|fuel]; [simpl in *; lia|]); cbn [decode_loop l_dec d_off map concat] in *.
  - rewrite zlen_nil, !Z.add_0_r. destruct (Z.ltb_spec o o); [lia|].
    left. exists alloc, p, m. rewrite app_nil_r. repeat split; try done; try apply Hinv.
    intros k _. by rewrite Z.add_0_r.
  - apply at_off_app in Hat as [Hatx Hatl]. pose proof (Hw x).
    rewrite zlen_app, zlen_cons. zlen_pos.
    destruct (Z.ltb_spec o (o + (zlen (w x) + zlen (concat (map w l))))); [|lia].
    destruct (Hx num alloc p acc o m Hinv Hatx) as [(alloc' & p' & m' & E & Hinv' & Hp)|(Hp & s' & E)].
    + rewrite (bind_step _ _ _ _ _ E).
      destruct (IH fuel (num + 1) alloc' p' (acc ++ [x]) (o + zlen (w x)) m')
        as [(alloc2 & p2 & m2 & E2 & Hinv2 & Hp2)|(Hp2 & s2 & E2)]; [simpl in *; lia|done|done|autorewrite with zlen; lia|..].
      * left. exists alloc2, p2, m2. rewrite <- app_assoc in E2.
        rewrite zlen_app in E2, Hinv2. rewrite (Z.add_assoc num). repeat split; try done.
        1-4: apply Hinv2.
        intros k Hk Hpl. apply Hp2, Hp; [done|lia|].
        by replace (k + _ + _) with (k + (zlen (w x) + zlen (concat (map w l)))) by lia.
      * right. rewrite zlen_app in E2. split; [|eauto]. intros Hpl. apply Hp2, Hp; [lia|].
        by rewrite Z.add_comm.
    + right. split; [|exists s'; by apply bind_err].
      intros Hpl. apply Hp. apply (plenty_mono _ _ _ _ Hpl). lia.
Qed.

Lemma loop_safe ok lo body limit fuel num alloc p acc o m :
  StepSafe ok lo body -> limit <= zlen enc -> 0 <= o -> lo <= o <= zlen enc ->
  zlen enc - o < Z.of_nat fuel -> loop_inv num alloc o ->
  match decode_loop fuel body limit (mk_loop num alloc p acc (mk_dec o m)) with
  | (Ret _, ls) => exists l alloc' p' m', Forall ok l /\
      ls = mk_loop (num + zlen l) alloc' p' (acc ++ l)
             (mk_dec (o + zlen (concat (map w l))) m') /\
      o + zlen (concat (map w l)) <= zlen enc
  | (Err st, _) => dec_err st
  | (Undef, _) | (NoFuel, _) => False
  end.
Proof.
  intros Hbody Hlim. revert num alloc p acc o m.
  induction fuel as [|fuel IH]; intros num alloc p acc o m Ho0 Ho Hfuel Hinv; [lia|].
  cbn [decode_loop l_dec d_off].
  destruct (Z.ltb_spec o limit).
  2:{ exists [], alloc, p, m. rewrite app_nil_r. simpl concat. rewrite !zlen_nil, !Z.add_0_r.
      repeat split; [constructor|lia]. }
  specialize (Hbody num alloc p acc o m Hinv Ho0 ltac:(lia)). unfold bind.
  destruct (body _) as [[[]| | |] ls]; try done.
  destruct Hbody as (x & alloc' & p' & m' & Hx & -> & Hinv' & Hle).
  pose proof (Hw x).
  specialize (IH (num + 1) alloc' p' (acc ++ [x]) (o + zlen (w x)) m' ltac:(lia) ltac:(lia) ltac:(lia) Hinv').
  destruct (decode_loop _ _ _ _) as [[[]| | |] ls]; try done.
  destruct IH as (l & a2 & p2 & m2 & Hl & -> & Hle2).
  exists (x :: l), a2, p2, m2. rewrite <- app_assoc. cbn [map concat].
  rewrite zlen_app, zlen_cons, !Z.add_assoc. repeat split; [by constructor|lia].
Qed.

Lemma alloc_size n : 0 < n < 2 ^ 32 -> 0 < n * esize < 2 ^ 63.
Proof. intros. nia. Qed.

Lemma plenty_pool_null n m m' :
  0 < n < 2 ^ 63 -> pool_alloc pool n m = (None, m') -> ~ plenty pool 1 m.
Proof.
  intros Hn E Hp. destruct (plenty_pool_alloc pool m 0 n Hp ltac:(done) Hn) as (? & ? & ? & ?). congruence.
Qed.

Lemma entries_parse body fuel l :
  Forall (StepParses body) l -> (length l < fuel)%nat ->
  zlen (concat (map w l)) < 2 ^ 32 ->
  Parses pool enc (decode_entries enc pool esize fuel 16 body) (wire_sized (concat (map w l)))
    (bool_decide (length l = 0%nat), l).
Proof.
  intros Hl Hfuel Hsz. set (pl := concat (map w l)) in *. zlen_pos.
  assert (Hnum : zlen l <= zlen pl).
  { subst pl. clear -Hw. induction l as [|x l IH]; cbn [map concat]; [done|].
    rewrite zlen_cons, zlen_app. specialize (Hw x). lia. }
  intros o m Hat. pose proof (at_off_bound _ _ _ Hat). unfold wire_sized in Hat.
  apply at_off_app in Hat as [Hat4 Hat]. rewrite zlen_be_bytes in Hat.
  rewrite zlen_wire_sized in *.
  unfold decode_entries. rewrite (bind_step _ _ _ (zlen pl) (mk_dec (o + 4) m))
    by (apply read_32; [lia|unfold in_u; lia|done]).
  change (Z.of_nat 4) with 4 in Hat.
  unfold bind, d_get_offset, fail. cbn [d_off d_mem]. rewrite size_add_small by lia.
  destruct (Z.ltb_spec (zlen enc) (zlen pl + (o + 4))); [lia|]. cbn [d_off d_mem].
  assert (Hm : forall k, plenty pool k m -> exists b m', c_malloc (16 * esize) m = (Some b, m') /\ plenty pool k m').
  { intros k Hp. apply plenty_malloc; [done|lia]. }
  destruct (c_malloc (16 * esize) m) as [[p|] m1].
  2:{ right. split; [|by eexists]. intros Hp. by destruct (Hm _ Hp) as (? & ? & [=] & ?). }
  rewrite size_add_small by lia.
  assert (Hm1 : forall k, plenty pool k m -> plenty pool k m1).
  { intros k Hp. destruct (Hm _ Hp) as (? & ? & [=] & ?). by subst. }
  destruct (loop_parses body l fuel (o + 4 + zlen pl) 0 16 p [] (o + 4) m1 Hl Hfuel)
    as [(al & p' & m2 & E & Hinv & Hp2)|(Hp2 & s' & E)]; [unfold loop_inv; lia|done|done|..]; rewrite E.
  2:{ right. split; [|eauto]. intros Hp. apply Hp2, Hm1. apply (plenty_mono _ _ _ _ Hp). fold pl. lia. }
  cbn [l_num l_acc l_dec l_entries d_off d_mem]. rewrite Z.add_0_l, app_nil_l, Z.add_assoc.
  fold pl in Hp2.
  assert (Hm2 : forall k, 0 <= k -> plenty pool (k + (4 + zlen pl)) m -> plenty pool (k + 1) m2).
  { intros k Hk Hp. apply Hp2, Hm1; [lia|]. apply (plenty_mono _ _ _ _ Hp). lia. }
  destruct (pool_alloc pool (zlen l * esize) m2) as [[a|] m3] eqn:Ea; cbn [d_off].
  - left. destruct (decide (length l = 0%nat)) as [E0|E0].
    { unfold zlen in Ea. by rewrite E0, Z.mul_0_l, pool_alloc_zero in Ea. }
    rewrite bool_decide_eq_false_2 by done. eexists. split; [done|].
    intros k Hk Hp. assert (0 < zlen l) by (unfold zlen; lia). apply plenty_free.
    destruct (plenty_pool_alloc pool m2 k (zlen l * esize)) as (? & ? & ? & ?);
      [auto|done|apply alloc_size; lia|congruence].
  - destruct (Z.eqb_spec (zlen l) 0) as [E0|E0].
    + left. destruct l; [|zlia]. rewrite bool_decide_eq_true_2 by done.
      eexists. split; [done|]. rewrite Z.mul_0_l, pool_alloc_zero in Ea. simplify_eq.
      intros k Hk Hp. apply plenty_free. apply (plenty_mono _ _ _ _ (Hm2 k Hk Hp)). lia.
    + right. split; [|eauto]. intros Hp.
      apply (plenty_pool_null (zlen l * esize) m2 m3) in Ea; [|apply alloc_size; zlen_pos; lia].
      by apply Ea, (Hm2 0).
Qed.

Lemma entries_safe ok lo body fuel :
  StepSafe ok (lo + 4) body -> zlen enc - lo < Z.of_nat fuel ->
  DecSafe lo enc (decode_entries enc pool esize fuel 16 body)
    (fun r c => Forall ok r.2 /\ r.1 = bool_decide (length r.2 = 0%nat) /\
                c = zlen (wire_sized (concat (map w r.2)))).
Proof.
  intros Hbody Hfuel. eapply safe_bind; [apply safe_32; [lia|by left]|].
  intros size c _ [Hsize ->] o m Ho0 Ho. unfold in_u in Hsize.
  unfold bind, d_get_offset, fail. cbn [d_off d_mem]. rewrite size_add_small by lia.
  destruct (Z.ltb_spec (zlen enc) (size + o)); [by left|]. cbn [d_off d_mem].
  destruct (c_malloc (16 * esize) m) as [[p|] m1] eqn:Em; [|by right].
  rewrite size_add_small by lia.
  pose proof (loop_safe _ _ body (o + size) fuel 0 16 p [] o m1 Hbody ltac:(lia) Ho0 Ho ltac:(lia)
                ltac:(unfold loop_inv; lia)) as Hloop.
  destruct (decode_loop _ _ _ _) as [[[]| | |] ls]; try done.
  destruct Hloop as (l & al & p' & m2 & Hl & -> & Hle).
  cbn [l_num l_acc l_dec l_entries d_off d_mem]. rewrite Z.add_0_l, app_nil_l. zlen_pos.
  assert (Hout : forall b, b = bool_decide (length l = 0%nat) ->
    exists n, 0 <= n /\ o + zlen (concat (map w l)) = o + n /\ o + n <= zlen enc /\
      Forall ok l /\ b = bool_decide (length l = 0%nat) /\
      4 + n = zlen (wire_sized (concat (map w l)))).
  { intros b Hb. exists (zlen (concat (map w l))). rewrite zlen_wire_sized. repeat split; auto; lia. }
  destruct (pool_alloc pool (zlen l * esize) m2) as [[a|] m3] eqn:Ea; simpl.
  - apply Hout. rewrite bool_decide_eq_false_2; [done|]. intros E0.
    unfold zlen in Ea. by rewrite E0, Z.mul_0_l, pool_alloc_zero in Ea.
  - destruct (Z.eqb_spec (zlen l) 0) as [E0|E0]; [|by right].
    destruct l; [|zlia]. by apply Hout.
Qed.

(** Reading one entry inside the loop. *)
Lemma lift_eq {B} (d : eff (dec_state Mem) B) num alloc p (acc : list A) s r s' :
  d s = (r, s') -> lift d (mk_loop num alloc p acc s) = (r, mk_loop num alloc p acc s').
Proof. unfold lift. simpl. by intros ->. Qed.
End Loop.

Lemma array_step_parses dfv v :
  Parses pool enc dfv (wire_fv v) v -> StepParses wire_fv (array_body dfv) v.
Proof.
  intros Hd num alloc p acc o m Hinv Hat.
  pose proof (at_off_bound _ _ _ Hat). pose proof (wire_fv_pos v).
  unfold array_body. set (es := sizeof _).
  destruct (grow_step es ltac:(done) num alloc p acc o m Hinv ltac:(unfold loop_inv in *; lia))
    as [(al & p' & m1 & E & Hinv' & Hal & Hp)|(Hp & s' & E)].
  2:{ right. split; [done|]. exists s'. by apply bind_err. }
  rewrite (bind_step _ _ _ _ _ E).
  destruct (Hd o m1 Hat) as [(m2 & E2 & Hp2)|(Hp2 & s2 & E2)];
    apply (lift_eq _ num al p' acc) in E2.
  - rewrite (bind_step _ _ _ _ _ E2). left. exists al, p', m2. split; [done|].
    unfold loop_inv in *. split; [lia|]. auto.
  - right. split; [auto|]. eexists. by apply bind_err.
Qed.

Lemma array_step_safe lo dfv :
  DecSafe lo enc dfv (fun v c => fv_ok v /\ c = zlen (wire_fv v)) ->
  StepSafe wire_fv fv_ok lo (array_body dfv).
Proof.
  intros Hd num alloc p acc o m Hinv Ho0 Ho.
  unfold array_body. set (es := sizeof _).
  destruct (grow_step es ltac:(done) num alloc p acc o m Hinv ltac:(unfold loop_inv in *; lia))
    as [(al & p' & m1 & E & Hinv' & Hal & Hp)|(Hp & s' & E)].
  2:{ rewrite (bind_err _ _ _ _ _ E). by right. }
  rewrite (bind_step _ _ _ _ _ E). specialize (Hd o m1 Ho0 ltac:(lia)).
  destruct (dfv (mk_dec o m1)) as [r [o2 m2]] eqn:E2. pose proof E2 as E3.
  apply (lift_eq _ num al p' acc) in E3. unfold bind. rewrite E3.
  destruct r as [v| | |]; try done. destruct Hd as (c & Hc & Ho2 & Hle & Hv & ->).
  simpl in Ho2. subst o2. exists v, al, p', m2. unfold loop_inv in *.
  pose proof (wire_fv_pos v).
  repeat split; auto; lia.
Qed.


(** The part of a table entry behind its length byte. *)
Definition entry_rest (dfv : eff (dec_state Mem) amqp_field_value_t) (keylen : Z)
    : eff (dec_state Mem) amqp_table_entry_t :=
  let! key := require (amqp_decode_bytes enc keylen) AMQP_STATUS_BAD_AMQP_DATA in
  let! value := dfv in ret (key, value).

Definition entry_push (dfv : eff (dec_state Mem) amqp_field_value_t) (keylen : Z)
    : eff (loop_state Mem amqp_table_entry_t) unit :=
  do! grow (Pool := Pool) (sizeof layout_amqp_table_entry_t) in
  let! e := lift (entry_rest dfv keylen) in push e.

Lemma table_body_eq dfv ls :
  table_body enc (Pool := Pool) dfv ls
  = (let! keylen := lift (require (amqp_decode_8 enc) AMQP_STATUS_BAD_AMQP_DATA) in
     entry_push dfv keylen) ls.
Proof.
  unfold table_body, entry_push, entry_rest, bind. set (es := sizeof _).
  unfold amqp_table_entry_t in *.
  destruct (lift (require (amqp_decode_8 enc) _) ls) as [[keylen| | |] ls']; try done.
  destruct (grow _ ls') as [[[]| | |] ls2]; try done.
  unfold lift.
  destruct (require (amqp_decode_bytes enc keylen) _ (l_dec ls2)) as [[key| | |] s2]; try done.
  cbn [l_dec l_num l_allocated l_entries l_acc].
  destruct (dfv s2) as [[v| | |] s3]; done.
Qed.

Lemma entry_push_parses dfv k v num alloc p acc o m :
  zlen k < 256 -> Parses pool enc dfv (wire_fv v) v ->
  loop_inv num alloc o -> num < 2 ^ 30 -> at_off enc o (k ++ wire_fv v) ->
  (exists alloc' p' m',
     entry_push dfv (zlen k) (mk_loop num alloc p acc (mk_dec o m))
     = (Ret tt, mk_loop (num + 1) alloc' p' (acc ++ [(k, v)]) (mk_dec (o + zlen (k ++ wire_fv v)) m')) /\
     loop_inv (num + 1) alloc' (o + zlen (k ++ wire_fv v)) /\
     forall j, 0 <= j -> plenty pool (j + zlen (k ++ wire_fv v)) m -> plenty pool j m')
  \/ (~ plenty pool (zlen (k ++ wire_fv v)) m /\ exists s',
        entry_push dfv (zlen k) (mk_loop num alloc p acc (mk_dec o m)) = (Err AMQP_STATUS_NO_MEMORY, s')).
Proof.
  intros Hk Hd Hinv Hnum Hat. pose proof (at_off_bound _ _ _ Hat). pose proof (wire_fv_pos v).
  unfold entry_push. set (es := sizeof _).
  destruct (grow_step es ltac:(done) num alloc p acc o m Hinv Hnum)
    as [(al & p' & m1 & E & Hinv' & Hal & Hp)|(Hp & s' & E)].
  2:{ right. split; [done|]. exists s'. by apply bind_err. }
  rewrite (bind_step _ _ _ _ _ E).
  assert (Parses pool enc (entry_rest dfv (zlen k)) (k ++ wire_fv v) (k, v)) as Hrest.
  { apply parses_bind with (a := k); [apply parses_bytes; [lia|done]|].
    rewrite <- (app_nil_r (wire_fv v)). apply parses_bind with (a := v); [done|apply parses_ret]. }
  destruct (Hrest o m1 Hat) as [(m2 & E2 & Hp2)|(Hp2 & s2 & E2)];
    apply (lift_eq _ num al p' acc) in E2.
  - rewrite (bind_step _ _ _ _ _ E2). left. exists al, p', m2. split; [done|].
    split; [rewrite zlen_app; zlen_pos; unfold loop_inv in *; lia|]. auto.
  - right. split; [auto|]. eexists. by apply bind_err.
Qed.

Lemma table_step_parses dfv k v :
  zlen k < 256 -> Parses pool enc dfv (wire_fv v) v ->
  StepParses wire_entry (table_body enc dfv) (k, v).
Proof.
  intros Hk Hd num alloc p acc o m Hinv Hat. rewrite table_body_eq.
  pose proof (at_off_bound _ _ _ Hat). pose proof (wire_entry_pos (k, v)).
  assert (zlen (wire_entry (k, v)) = 1 + zlen (k ++ wire_fv v)) as Hlen
    by (unfold wire_entry, wire_entry_with; autorewrite with zlen; lia).
  unfold wire_entry, wire_entry_with in Hat. apply at_off_app in Hat as [Hk8 Hat].
  destruct (parses_8 pool enc (zlen k) AMQP_STATUS_BAD_AMQP_DATA ltac:(lia)
              ltac:(unfold in_u; zlen_pos; lia) o m Hk8)
    as [(m1 & E1 & Hp1)|(Hp1 & s1 & E1)]; apply (lift_eq _ num alloc p acc) in E1.
  2:{ right. split; [|eexists; by apply bind_err]. intros Hpl. apply Hp1.
      apply (plenty_mono _ _ _ _ Hpl). rewrite zlen_be_bytes. lia. }
  rewrite (bind_step _ _ _ _ _ E1). rewrite zlen_be_bytes in Hat |- *.
  rewrite zlen_be_bytes in Hp1. change (Z.of_nat 1) with 1 in *.
  destruct (entry_push_parses dfv k v num alloc p acc (o + 1) m1 Hk Hd) as
    [(al & p' & m2 & E2 & Hinv2 & Hp2)|(Hp2 & E2)];
    [unfold loop_inv in *; lia|unfold loop_inv in *; lia|done|..].
  - left. exists al, p', m2. rewrite Hlen, Z.add_assoc. split; [done|]. split; [done|].
    intros j Hj Hpl. apply Hp2, Hp1; [done|zlen_pos; lia|].
    by replace (j + zlen (k ++ wire_fv v) + 1) with (j + (1 + zlen (k ++ wire_fv v))) by lia.
  - right. rewrite Hlen. split; [|done]. intros Hpl. apply Hp2, Hp1; [zlen_pos; lia|].
    by rewrite Z.add_comm.
Qed.

Lemma table_step_safe lo dfv :
  DecSafe lo enc dfv (fun v c => fv_ok v /\ c = zlen (wire_fv v)) ->
  StepSafe wire_entry entry_ok lo (table_body enc dfv).
Proof.
  intros Hd num alloc p acc o m Hinv Ho0 Ho. rewrite table_body_eq. unfold bind at 1.
  pose proof (safe_8 lo enc AMQP_STATUS_BAD_AMQP_DATA ltac:(lia) ltac:(by left) o m Ho0 ltac:(lia)) as H8.
  destruct (require (amqp_decode_8 enc) _ (mk_dec o m)) as [r [o1 m1]] eqn:E1.
  apply (lift_eq _ num alloc p acc) in E1. rewrite E1.
  destruct r as [keylen| | |]; try done.
  destruct H8 as (c & _ & Ho1 & Hle1 & Hkl & ->). simpl in Ho1. subst o1.
  unfold in_u in Hkl. unfold entry_push. set (es := sizeof _).
  destruct (grow_step es ltac:(done) num alloc p acc (o + 1) m1)
    as [(al & p' & m2 & E2 & Hinv' & Hal & Hp)|(Hp & s' & E2)];
    [unfold loop_inv in *; lia|unfold loop_inv in *; lia|..].
  2:{ rewrite (bind_err _ _ _ _ _ E2). by right. }
  rewrite (bind_step _ _ _ _ _ E2).
  assert (DecSafe lo enc (entry_rest dfv keylen)
            (fun e c => entry_ok e /\ 1 + c = zlen (wire_entry e))) as Hrest.
  { eapply safe_bind; [apply safe_bytes; [lia|by left|lia]|]. intros key c ? [Hkey ->].
    eapply safe_bind; [intros o' m' ??; apply Hd; lia|]. intros v c ? [Hv ->].
    apply safe_ret. split; [split; [lia|done]|].
    unfold wire_entry, wire_entry_with. autorewrite with zlen. lia. }
  specialize (Hrest (o + 1) m2 ltac:(lia) ltac:(lia)). unfold bind.
  destruct (entry_rest dfv keylen (mk_dec (o + 1) m2)) as [r [o3 m3]] eqn:E3.
  apply (lift_eq _ num al p' acc) in E3. rewrite E3.
  destruct r as [e| | |]; try done. destruct Hrest as (c & Hc & Ho3 & Hle & He & Hc').
  simpl in Ho3. subst o3. exists e, al, p', m3. unfold loop_inv in *.
  rewrite <- Hc', Z.add_assoc. repeat split; auto; lia.
Qed.

Lemma array_parses dfv fuel l :
  Forall (fun v => Parses pool enc dfv (wire_fv v) v) l ->
  zlen (concat (map wire_fv l)) < 2 ^ 32 -> zlen (concat (map wire_fv l)) < Z.of_nat fuel ->
  Parses pool enc (amqp_decode_array_with enc pool dfv fuel) (wire_sized (concat (map wire_fv l)))
    (bool_decide (length l = 0%nat), l).
Proof.
  intros Hl Hsz Hfuel. apply entries_parse; [done|apply wire_fv_pos|..|done].
  - rewrite Forall_forall in Hl |- *. auto using array_step_parses.
  - pose proof (length_concat_le wire_fv l wire_fv_pos). unfold zlen in *. lia.
Qed.

Lemma table_parses_with dfv fuel t :
  Forall (fun e => zlen e.1 < 256 /\ Parses pool enc dfv (wire_fv e.2) e.2) t ->
  zlen (concat (map wire_entry t)) < 2 ^ 32 -> zlen (concat (map wire_entry t)) < Z.of_nat fuel ->
  Parses pool enc (amqp_decode_table_with enc pool dfv fuel) (wire_table t) t.
Proof.
  intros Hl Hsz Hfuel. unfold wire_table, amqp_decode_table_with.
  rewrite <- (app_nil_r (wire_sized _)).
  apply parses_bind with (a := (bool_decide (length t = 0%nat), t)); [|apply parses_ret].
  apply entries_parse; [done|apply wire_entry_pos|..|done].
  - rewrite Forall_forall in Hl |- *. intros [k v] Hin. destruct (Hl _ Hin).
    by apply table_step_parses.
  - pose proof (length_concat_le wire_entry t wire_entry_pos). unfold zlen in *. lia.
Qed.

Lemma parses_map {A B} (d : eff (dec_state Mem) A) (f : A -> B) bs a b :
  Parses pool enc d bs a -> f a = b -> Parses pool enc (let! x := d in ret (f x)) bs b.
Proof.
  intros Hd <-. rewrite <- (app_nil_r bs).
  apply parses_bind with (a := a); [done|apply parses_ret].
Qed.

Lemma in_u_wrap bits z : 0 <= bits -> in_u bits (wrap bits z).
Proof. apply wrap_range. Qed.

(** Selects the case of a constant kind. *)
Ltac eval_kind :=
  cbv beta iota delta [switch fv_kind Z.eqb Pos.eqb
    AMQP_FIELD_KIND_BOOLEAN AMQP_FIELD_KIND_I8 AMQP_FIELD_KIND_U8 AMQP_FIELD_KIND_I16
    AMQP_FIELD_KIND_U16 AMQP_FIELD_KIND_I32 AMQP_FIELD_KIND_U32 AMQP_FIELD_KIND_I64
    AMQP_FIELD_KIND_U64 AMQP_FIELD_KIND_F32 AMQP_FIELD_KIND_F64 AMQP_FIELD_KIND_DECIMAL
    AMQP_FIELD_KIND_UTF8 AMQP_FIELD_KIND_ARRAY AMQP_FIELD_KIND_TIMESTAMP
    AMQP_FIELD_KIND_TABLE AMQP_FIELD_KIND_VOID AMQP_FIELD_KIND_BYTES].

(** One scalar read back, through the cast of its case. *)
Ltac parse_scalar :=
  eapply parses_map;
  [first [apply parses_8 | apply parses_16 | apply parses_32 | apply parses_64];
   [lia|first [assumption | apply in_u_wrap; lia | done]]
  |first [done | rewrite swrap_wrap by (done || lia); done]].

Lemma sized_bytes_parses bs (f : list byte -> amqp_field_value_t) :
  zlen bs < 2 ^ 32 ->
  Parses pool enc (let! len := dec_u32 enc in let! b := dec_bytes enc len in ret (f b))
    (wire_sized bs) (f bs).
Proof.
  intros Hbs. apply parses_bind with (a := zlen bs).
  - apply parses_32; [lia|unfold in_u; zlen_pos; lia].
  - apply (parses_map _ f _ bs); [apply parses_bytes; [lia|done]|done].
Qed.

(** Reading a value where its wire format stands. *)
Lemma fv_parses v fuel :
  fv_ok v -> zlen (wire_fv v) < Z.of_nat fuel ->
  Parses pool enc (amqp_decode_field_value enc pool fuel) (wire_fv v) v.
Proof.
  revert v fuel. apply (fv_ind (fun v => forall fuel, fv_ok v -> zlen (wire_fv v) < Z.of_nat fuel ->
    Parses pool enc (amqp_decode_field_value enc pool fuel) (wire_fv v) v)).
  - intros []; try exact I; intros fuel Hok Hfuel; (destruct fuel as [|fuel]; [zlia|]);
      cbn [amqp_decode_field_value wire_fv fv_ok] in *;
      try (eapply parses_bind; [apply parses_8; [lia|done]|eval_kind; try parse_scalar]).
    + destruct Hok as [-> | ->]; parse_scalar.
    + eapply parses_bind; [by apply parses_8; [lia|apply Hok]|].
      eapply parses_map; [by apply parses_32; [lia|apply Hok]|done].
    + by apply (sized_bytes_parses _ FV_UTF8).
    + by apply (sized_bytes_parses _ FV_BYTES).
    + apply parses_ret.
    + done.
  - intros b l IH fuel (-> & Hl & Hsz) Hfuel. apply allP_Forall in Hl.
    destruct fuel as [|fuel]; [zlia|]. cbn [amqp_decode_field_value wire_fv] in *.
    eapply parses_bind; [by apply parses_8; [lia|]|eval_kind].
    eapply parses_map; [apply array_parses; [|done|zlia]|done].
    rewrite Forall_forall in IH, Hl |- *. intros v Hin. apply IH; [done|auto|].
    pose proof (zlen_concat_le wire_fv v l Hin). zlia.
  - intros l IH fuel (Hl & Hsz) Hfuel. apply allP_Forall in Hl.
    destruct fuel as [|fuel]; [zlia|]. cbn [amqp_decode_field_value wire_fv] in *.
    eapply parses_bind; [by apply parses_8; [lia|]|eval_kind].
    eapply parses_map; [apply table_parses_with; [|done|unfold wire_entry, amqp_table_entry_t; zlia]|done].
    rewrite Forall_forall in IH, Hl |- *. intros [k v] Hin. destruct (Hl _ Hin) as [Hk Hv].
    split; [done|]. apply (IH (k, v)); [done|done|].
    pose proof (zlen_concat_le (wire_entry_with wire_fv) (k, v) l Hin) as Hle.
    cbn [wire_entry_with snd] in *. zlia.
Qed.


(** *** Arbitrary bytes *)

Definition fv_read (v : amqp_field_value_t) (c : Z) : Prop := fv_ok v /\ c = zlen (wire_fv v).

Lemma safe_map {A B} lo (d : eff (dec_state Mem) A) (f : A -> B) (Q : A -> Z -> Prop) (R : B -> Z -> Prop) :
  DecSafe lo enc d Q -> (forall a c, 0 <= c <= zlen enc -> Q a c -> R (f a) c) ->
  DecSafe lo enc (let! x := d in ret (f x)) R.
Proof.
  intros Hd HR o m Ho0 Ho. specialize (Hd o m Ho0 Ho). unfold bind, ret.
  destruct (d _) as [[a| | |] s']; try done.
  destruct Hd as (c & ? & ? & ? & HQ). exists c. repeat split; try done. apply HR; [lia|done].
Qed.

Lemma array_safe lo dfv fuel :
  DecSafe (lo + 4) enc dfv fv_read -> zlen enc - lo < Z.of_nat fuel ->
  DecSafe lo enc (amqp_decode_array_with enc pool dfv fuel)
    (fun r c => Forall fv_ok r.2 /\ r.1 = bool_decide (length r.2 = 0%nat) /\
                c = zlen (wire_sized (concat (map wire_fv r.2)))).
Proof.
  intros Hd Hfuel. apply entries_safe; [apply wire_fv_pos|by apply array_step_safe|done].
Qed.

Lemma table_safe_with lo dfv fuel :
  DecSafe (lo + 4) enc dfv fv_read -> zlen enc - lo < Z.of_nat fuel ->
  DecSafe lo enc (amqp_decode_table_with enc pool dfv fuel)
    (fun t c => Forall entry_ok t /\ c = zlen (wire_table t)).
Proof.
  intros Hd Hfuel. eapply safe_map.
  - eapply (entries_safe _ wire_entry wire_entry_pos entry_ok lo);
      [by apply table_step_safe|done].
  - intros [b t] c _ (Ht & _ & ->). done.
Qed.

Ltac safe_scalar :=
  eapply safe_map;
  [first [apply safe_8 | apply safe_16 | apply safe_32 | apply safe_64]; [lia|by left]
  |cbv beta; intros ? ? _ [? ->]; split; cbn [fv_ok wire_fv];
   [first [assumption | apply swrap_range; lia | idtac] | zlia]].

Lemma sized_bytes_safe lo (f : list byte -> amqp_field_value_t) (R : amqp_field_value_t -> Z -> Prop) :
  (forall bs, zlen bs < 2 ^ 32 -> R (f bs) (zlen (wire_sized bs))) ->
  DecSafe (Mem := Mem) lo enc (let! len := dec_u32 enc in let! b := dec_bytes enc len in ret (f b)) R.
Proof.
  intros HR. eapply safe_bind; [apply safe_32; [lia|by left]|]. intros len c _ [Hlen ->].
  unfold in_u in Hlen. eapply safe_map; [apply safe_bytes; [lia|by left|lia]|].
  intros bs c Hc [<- ->]. rewrite <- zlen_wire_sized. apply HR. lia.
Qed.

Lemma fv_safe fuel lo :
  zlen enc - lo < Z.of_nat fuel -> DecSafe lo enc (amqp_decode_field_value enc pool fuel) fv_read.
Proof.
  revert lo. induction fuel as [|fuel IH]; intros lo Hfuel.
  { intros o m ? ?. zlen_pos. lia. }
  cbn [amqp_decode_field_value].
  eapply safe_bind; [apply safe_8; [lia|by left]|]. intros kind c _ [Hkind ->].
  apply switch_ind; [|apply safe_fail; by left].
  repeat (apply Forall_cons; split; cbn [snd]); [..|by apply Forall_nil].
  all: try safe_scalar.
  - destruct (_ =? 0); auto.
  - eapply safe_bind; [apply safe_8; [lia|by left]|]. intros d c _ [Hd ->].
    safe_scalar. done.
  - apply (sized_bytes_safe _ FV_UTF8). intros. split; [done|]. cbn [wire_fv]. zlia.
  - apply (sized_bytes_safe _ FV_BYTES). intros. split; [done|]. cbn [wire_fv]. zlia.
  - eapply safe_map; [apply array_safe; [apply IH|]; lia|].
    intros [b l] c Hc (Hl & Hb & ->). cbn [fst snd] in *. split; cbn [fv_ok wire_fv]; [|zlia].
    split; [done|]. split; [by apply allP_Forall|]. zlia.
  - eapply safe_map; [apply table_safe_with; [apply IH|]; lia|].
    intros t c Hc (Ht & ->). unfold wire_table, wire_entry, amqp_table_entry_t in *.
    split; cbn [fv_ok wire_fv]; [|zlia].
    split; [by apply allP_Forall|]. zlia.
  - apply safe_ret. done.
Qed.

Lemma decode_table_safe :
  DecSafe 0 enc (amqp_decode_table enc pool) (fun t c => table_ok t /\ c = zlen (wire_table t)).
Proof.
  intros o m Ho0 Ho.
  assert (Hf : zlen enc - 0 < Z.of_nat (decode_fuel enc)) by (unfold decode_fuel, zlen; lia).
  pose proof (table_safe_with 0 _ (decode_fuel enc)
                (fv_safe (decode_fuel enc) (0 + 4) ltac:(lia)) Hf o m Ho0 Ho) as Hd.
  unfold amqp_decode_table. destruct (amqp_decode_table_with _ _ _ _ _) as [[t| | |] s']; try done.
  destruct Hd as (c & ? & ? & ? & Ht & ->). eexists. repeat split; eauto.
  - by apply allP_Forall.
  - unfold wire_table in *. zlia.
Qed.

Lemma decode_table_parses t :
  table_ok t -> Parses pool enc (amqp_decode_table enc pool) (wire_table t) t.
Proof.
  intros [Ht Hsz] o m Hat. apply allP_Forall in Ht.
  pose proof (at_off_bound _ _ _ Hat) as [Ho Hle].
  assert (Hf : zlen (wire_table t) < Z.of_nat (decode_fuel enc)) by (unfold decode_fuel, zlen in *; lia).
  revert o m Hat Ho Hle. intros o m Hat _ _. revert o m Hat. apply table_parses_with; [|done|].
  - rewrite Forall_forall in Ht |- *. intros [k v] Hin. destruct (Ht _ Hin) as [Hk Hv].
    split; [done|]. apply fv_parses; [done|].
    pose proof (zlen_concat_le wire_entry (k, v) t Hin) as Hle'.
    unfold wire_table in *. cbn [wire_entry wire_entry_with snd] in *. zlia.
  - unfold wire_table in *. zlia.
Qed.

End Decode.

(** ** Properties *)

Section Properties.
Context `{Host} {Mem Pool : Type} `{MemLaws Mem Pool}.

(** C15: What [amqp_encode_table] writes, [amqp_decode_table] reads back: for every
    table the C types can hold, nested to any depth, the encoder succeeds when the
    buffer has room, and decoding at the same offset returns the table, consumes
    exactly the bytes written, and fails for no reason but memory. *)
Theorem table_roundtrip t buf o pool m :
  table_ok t -> zlen buf <= 2 ^ 30 -> 0 <= o -> o + zlen (wire_table t) <= zlen buf ->
  plenty pool (zlen (wire_table t)) m ->
  exists buf' m',
    amqp_encode_table t (mk_enc buf o) = (Ret tt, mk_enc buf' (o + zlen (wire_table t))) /\
    amqp_decode_table buf' pool (mk_dec o m) = (Ret t, mk_dec (o + zlen (wire_table t)) m').
Proof.
  intros Ht Hbuf Ho Hfit Hp. zlen_pos.
  pose proof (emits_table t Ht buf o ltac:(lia) ltac:(lia)) as He. rewrite decide_True in He by lia.
  destruct (decode_table_parses (splice buf o (wire_table t)) pool
              ltac:(rewrite zlen_splice; lia) t Ht o m) as [(m' & E & _)|(Hn & _)]; [|eauto|done].
  by apply at_off_splice.
Qed.

(** C39: [amqp_encode_table] writes the AMQP wire format of the table at the offset
    when it fits.  When it does not, it returns an error and has changed no byte
    before the offset. *)
Theorem table_encode_wire t buf o :
  table_ok t -> zlen buf < 2 ^ 63 -> 0 <= o <= zlen buf ->
  if decide (o + zlen (wire_table t) <= zlen buf)
  then amqp_encode_table t (mk_enc buf o)
       = (Ret tt, mk_enc (splice buf o (wire_table t)) (o + zlen (wire_table t)))
  else exists st buf' o', amqp_encode_table t (mk_enc buf o) = (Err st, mk_enc buf' o') /\
         enc_err st /\ zlen buf' = zlen buf /\ ztake o buf' = ztake o buf.
Proof. intros Ht. by apply emits_table. Qed.

(** C17: On any bytes of up to 2^30, at any offset, [amqp_decode_table] terminates,
    reads only inside its buffer, overflows no counter, and returns [BAD_AMQP_DATA],
    [NO_MEMORY], or a table whose every integer, key and size is in range and whose
    wire format has the length of what was consumed. *)
Theorem table_decode_safe enc pool o m :
  zlen enc <= 2 ^ 30 -> 0 <= o <= zlen enc ->
  match amqp_decode_table enc pool (mk_dec o m) with
  | (Ret t, s) => table_ok t /\ d_off s = o + zlen (wire_table t) /\ d_off s <= zlen enc
  | (Err st, _) => st = AMQP_STATUS_BAD_AMQP_DATA \/ st = AMQP_STATUS_NO_MEMORY
  | (Undef, _) | (NoFuel, _) => False
  end.
Proof.
  intros Henc Ho. pose proof (decode_table_safe enc pool Henc o m ltac:(lia) Ho) as Hd.
  destruct (amqp_decode_table enc pool (mk_dec o m)) as [[t| | |] s]; try done.
  destruct Hd as (c & ? & Hs & ? & Ht & ->). rewrite Hs. done.
Qed.

End Properties.

(** A table with a nested array and table, and a memory to decode it in. *)
Definition demo_table : amqp_table_t :=
  [([x61], FV_ARRAY false [FV_I8 (-2); FV_BOOLEAN 1; FV_VOID]);
   ([x62; x63], FV_TABLE [([x64], FV_UTF8 [x65; x66]); ([x67], FV_ARRAY true [])])].
Definition demo_memory : memory := mk_memory heap0 {[1 := init_amqp_pool 4096]} ∅ 0.

Lemma demo_table_ok : table_ok demo_table.
Proof. repeat split; try done; vm_compute; intuition congruence. Qed.

Lemma demo_plenty k : 0 <= k < 2 ^ 20 -> mem_plenty 1 k demo_memory.
Proof.
  intros Hk. split; [done|]. exists (init_amqp_pool 4096). split; [done|].
  assert (Hh : heap_ok heap0) by (intros b s; simpl; by rewrite lookup_empty).
  destruct (pool_inv_init 4096 heap0 Hh ltac:(lia)) as (Hp & _).
  split; [exact Hp|]. unfold INT_MAX, INT32_MAX. simpl. lia.
Qed.

Example table_roundtrip_witness :
  exists buf' m',
    amqp_encode_table (H := little_endian) demo_table (mk_enc (replicate 64 x00) 3) = (Ret tt, mk_enc buf' (3 + zlen (wire_table demo_table))) /\
    amqp_decode_table (H := little_endian) buf' 1 (mk_dec 3 demo_memory) = (Ret demo_table, mk_dec (3 + zlen (wire_table demo_table)) m').
Proof.
  apply (table_roundtrip (H := little_endian) demo_table (replicate 64 x00) 3 1 demo_memory);
    [apply demo_table_ok|done|done|by vm_compute|]. by apply demo_plenty.
Defined.

Example table_encode_wire_witness :
  amqp_encode_table (H := little_endian) demo_table (mk_enc (replicate 64 x00) 0)
  = (Ret tt, mk_enc (splice (replicate 64 x00) 0 (wire_table demo_table)) (0 + zlen (wire_table demo_table))).
Proof.
  pose proof (table_encode_wire (H := little_endian) demo_table (replicate 64 x00) 0
                demo_table_ok ltac:(done) ltac:(done)) as Hw.
  rewrite decide_True in Hw by (by vm_compute). exact Hw.
Defined.

(** A truncated table is refused, a complete one is read. *)
Example table_decode_safe_witness :
  match amqp_decode_table (H := little_endian) (wire_table demo_table) 1 (mk_dec 0 demo_memory) with
  | (Ret t, s) => table_ok t /\ d_off s = 0 + zlen (wire_table t) /\ d_off s <= zlen (wire_table demo_table)
  | (Err st, _) => st = AMQP_STATUS_BAD_AMQP_DATA \/ st = AMQP_STATUS_NO_MEMORY
  | (Undef, _) | (NoFuel, _) => False
  end.
Proof. apply (table_decode_safe (H := little_endian)); by vm_compute. Defined.

(** A key of 256 bytes is encoded with the length byte 0 and no error: what is
    written is not the table, and decoding it fails. *)
Theorem table_long_key_corrupted :
  let t := [(replicate 256 x61, FV_VOID)] in
  let '(r, s) := amqp_encode_table (H := little_endian) t (mk_enc (replicate 262 x00) 0) in
  r = Ret tt /\ e_buf s !! 4%nat = Some x00 /\
  fst (amqp_decode_table (H := little_endian) (e_buf s) 1 (mk_dec 0 demo_memory))
  = Err AMQP_STATUS_BAD_AMQP_DATA.
Proof. vm_compute. done. Qed.

(** The last entry of a table is bounded by the buffer, not by the table's
    declared size: a table that declares 1 byte is accepted with an entry of 3. *)
Theorem table_decode_past_size :
  fst (amqp_decode_table (H := little_endian) [x00; x00; x00; x01; x01; x61; x56] 1 (mk_dec 0 demo_memory))
  = Ret [([x61], FV_VOID)].
Proof. vm_compute. done. Qed.
