(* ===== verification/TableOps.v ===== *)
(** * Tables and byte strings in memory: the rest of [librabbitmq/amqp_table.c] and the
    [amqp_bytes_t] helpers of [librabbitmq/amqp_mem.c]

    Comparing, looking up, constructing and cloning entries.  A clone is a deep copy
    into a pool; the model keeps the contents of the copy and every allocation. *)

From S2P Require Import Prelude Status Memory Codec Layout Pool PoolMem Table TableSpec.

(** ** Byte strings *)

(** The sign of the first difference, 0 when the first [n] bytes agree; [None] when it
    would read past the end of either. *)
Fixpoint memcmp (r l : list byte) (n : nat) : option Z :=
  match n with
  | O => Some 0
  | S n' =>
      match r, l with
      | b :: r', c :: l' =>
          if (Z.of_N (Byte.to_N b) =? Z.of_N (Byte.to_N c)) then memcmp r' l' n'
          else Some (if Z.of_N (Byte.to_N b) <? Z.of_N (Byte.to_N c) then -1 else 1)
      | _, _ => None
      end
  end.

(** [cstr] up to its terminating NUL; [None] when there is none. *)
Fixpoint amqp_cstring_bytes (cstr : list byte) : option amqp_bytes_t :=
  match cstr with
  | [] => None
  | b :: rest => if bool_decide (b = x00) then Some []
                 else match amqp_cstring_bytes rest with Some bs => Some (b :: bs) | None => None end
  end.

Definition amqp_bytes_equal (r l : amqp_bytes_t) : res bool :=
  if zlen r =? zlen l then
    match memcmp r l (Z.to_nat (zlen r)) with
    | Some d => Ret (d =? 0)
    | None => Undef
    end
  else Ret false.

(** ** Entries *)

Definition amqp_table_entry_cmp (p1 p2 : amqp_table_entry_t) : res Z :=
  let minlen := if zlen p2.1 <? zlen p1.1 then zlen p2.1 else zlen p1.1 in
  match memcmp p1.1 p2.1 (Z.to_nat minlen) with
  | None => Undef
  | Some d =>
      if negb (d =? 0) then Ret d
      else
        let diff := swrap 32 (zlen p1.1) - swrap 32 (zlen p2.1) in
        if bool_decide (swrap 32 diff = diff) then Ret diff else Undef   (* int overflow *)
  end.

(** The constructors take C strings; an unterminated one is read past its end. *)
Definition cstring (cstr : list byte) : res amqp_bytes_t :=
  match amqp_cstring_bytes cstr with Some bs => Ret bs | None => Undef end.

Definition amqp_table_construct_utf8_entry (key value : list byte) : res amqp_table_entry_t :=
  match cstring key, cstring value with
  | Ret k, Ret v => Ret (k, FV_UTF8 v)
  | _, _ => Undef
  end.
Definition amqp_table_construct_table_entry (key : list byte) (value : amqp_table_t) : res amqp_table_entry_t :=
  match cstring key with Ret k => Ret (k, FV_TABLE value) | _ => Undef end.
Definition amqp_table_construct_bool_entry (key : list byte) (value : Z) : res amqp_table_entry_t :=
  match cstring key with Ret k => Ret (k, FV_BOOLEAN value) | _ => Undef end.

(** The entry found, [None] for [NULL]. *)
Fixpoint amqp_table_get_entry_by_key (table : amqp_table_t) (key : amqp_bytes_t)
    : res (option amqp_table_entry_t) :=
  match table with
  | [] => Ret None
  | e :: rest =>
      match amqp_bytes_equal e.1 key with
      | Ret true => Ret (Some e)
      | Ret false => amqp_table_get_entry_by_key rest key
      | _ => Undef
      end
  end.

(** ** Cloning *)

Section Clone.
Context {Mem Pool : Type} `{MemOps Mem Pool}.
Context (pool : Pool).

(** [NULL == (p = amqp_pool_alloc(pool, n))] is [NO_MEMORY]. *)
Definition pool_bytes (n : Z) : eff Mem unit := fun m =>
  match pool_alloc pool n m with
  | (Some _, m') => (Ret tt, m')
  | (None, m') => (Err AMQP_STATUS_NO_MEMORY, m')
  end.

(** [for (i = 0; i < n; ++i)] cloning into the new array. *)
Section MapEff.
Context {A : Type} (f : A -> eff Mem A).
Fixpoint clone_each (l : list A) : eff Mem (list A) :=
  match l with
  | [] => ret []
  | x :: l' => let! y := f x in let! ys := clone_each l' in ret (y :: ys)
  end.
End MapEff.

Definition clone_bytes (bs : list byte) : eff Mem (list byte) :=
  if zlen bs =? 0 then ret [] else do! pool_bytes (zlen bs) in ret bs.

Definition amqp_table_entry_clone_with (value_clone : amqp_field_value_t -> eff Mem amqp_field_value_t)
    (original : list byte * amqp_field_value_t) : eff Mem (list byte * amqp_field_value_t) :=
  match original with
  | (key, value) =>
    if zlen key =? 0 then fail AMQP_STATUS_INVALID_PARAMETER
    else
      do! pool_bytes (zlen key) in
      let! value' := value_clone value in
      ret (key, value')
  end.

Definition amqp_table_clone_with (value_clone : amqp_field_value_t -> eff Mem amqp_field_value_t)
    (original : list (list byte * amqp_field_value_t)) : eff Mem (list (list byte * amqp_field_value_t)) :=
  if zlen original =? 0 then ret []
  else
    do! pool_bytes (wrap 64 (zlen original * sizeof layout_amqp_table_entry_t)) in
    clone_each (amqp_table_entry_clone_with value_clone) original.

Fixpoint amqp_field_value_clone (original : amqp_field_value_t) : eff Mem amqp_field_value_t :=
  match original with
  | FV_UTF8 bytes => let! bs := clone_bytes bytes in ret (FV_UTF8 bs)
  | FV_BYTES bytes => let! bs := clone_bytes bytes in ret (FV_BYTES bs)
  | FV_ARRAY entries_null entries =>
      if entries_null then ret (FV_ARRAY true [])
      else
        do! pool_bytes (wrap 64 (zlen entries * sizeof layout_amqp_field_value_t)) in
        let! entries' := clone_each amqp_field_value_clone entries in
        ret (FV_ARRAY false entries')
  | FV_TABLE entries =>
      let! entries' := amqp_table_clone_with amqp_field_value_clone entries in
      ret (FV_TABLE entries')
  | FV_OTHER _ => fail AMQP_STATUS_INVALID_PARAMETER
  | v => ret v
  end.

Definition amqp_table_entry_clone : amqp_table_entry_t -> eff Mem amqp_table_entry_t :=
  amqp_table_entry_clone_with amqp_field_value_clone.
Definition amqp_table_clone : amqp_table_t -> eff Mem amqp_table_t :=
  amqp_table_clone_with amqp_field_value_clone.

End Clone.

(** * Theorems *)

(** ** Comparison *)

Definition byte_val (b : byte) : Z := Z.of_N (Byte.to_N b).

Lemma byte_val_inj b c : byte_val b = byte_val c -> b = c.
Proof.
  unfold byte_val. intros E. apply N2Z.inj in E. apply (f_equal Byte.of_N) in E. rewrite !Byte.of_to_N in E. by injection E.
Qed.

(** The order the comparison is meant to have: lexicographic, a prefix first. *)
Fixpoint key_cmp (r l : list byte) : comparison :=
  match r, l with
  | [], [] => Eq
  | [], _ => Lt
  | _, [] => Gt
  | b :: r', c :: l' => match byte_val b ?= byte_val c with Eq => key_cmp r' l' | o => o end
  end.

Lemma key_cmp_eq r : forall l, key_cmp r l = Eq <-> r = l.
Proof.
  induction r as [|b r IH]; intros [|c l]; simpl; try done.
  destruct (Z.compare_spec (byte_val b) (byte_val c)) as [E|E|E].
  - apply byte_val_inj in E as ->. rewrite IH. split; [by intros ->|by intros [= ->]].
  - split; [done|]. intros [= -> ->]. lia.
  - split; [done|]. intros [= -> ->]. lia.
Qed.

Lemma key_cmp_antisym r : forall l, key_cmp l r = CompOpp (key_cmp r l).
Proof.
  induction r as [|b r IH]; intros [|c l]; simpl; try done.
  rewrite (Z.compare_antisym (byte_val b) (byte_val c)). destruct (byte_val b ?= byte_val c); simpl; [apply IH|done|done].
Qed.

Lemma key_cmp_trans r : forall l k, key_cmp r l = Lt -> key_cmp l k = Lt -> key_cmp r k = Lt.
Proof.
  induction r as [|b r IH]; intros [|c l] [|d k]; simpl; try done.
  destruct (Z.compare_spec (byte_val b) (byte_val c)), (Z.compare_spec (byte_val c) (byte_val d)),
    (Z.compare_spec (byte_val b) (byte_val d)); try done; try lia. apply IH.
Qed.

Lemma memcmp_key_cmp r : forall l,
  exists d, memcmp r l (Z.to_nat (Z.min (zlen r) (zlen l))) = Some d /\
    (if d =? 0 then key_cmp r l = (zlen r ?= zlen l) else key_cmp r l = (d ?= 0)).
Proof.
  induction r as [|b r IH]; intros l.
  { exists 0. rewrite zlen_nil. rewrite Z.min_l by apply zlen_nonneg. split; [done|]. by destruct l. }
  destruct l as [|c l].
  { exists 0. change (zlen []) with 0. rewrite Z.min_r by apply zlen_nonneg. done. }
  rewrite !zlen_cons. zlen_pos.
  replace (Z.to_nat (Z.min (1 + zlen r) (1 + zlen l))) with (S (Z.to_nat (Z.min (zlen r) (zlen l)))) by lia.
  simpl. fold (byte_val b) (byte_val c). destruct (Z.eqb_spec (byte_val b) (byte_val c)) as [->|Hne].
  - destruct (IH l) as (d & -> & Hd). exists d. split; [done|]. rewrite Z.compare_refl.
    destruct (d =? 0); [|done]. rewrite Hd. symmetry. apply Z.add_compare_mono_l.
  - destruct (Z.ltb_spec (byte_val b) (byte_val c)); eexists; (split; [done|]); simpl.
    + by rewrite (proj2 (Z.compare_lt_iff _ _)).
    + by rewrite (proj2 (Z.compare_gt_iff _ _)) by lia.
Qed.

Lemma entry_cmp_spec p1 p2 :
  zlen p1.1 < 2 ^ 31 -> zlen p2.1 < 2 ^ 31 ->
  exists d, amqp_table_entry_cmp p1 p2 = Ret d /\ (d ?= 0) = key_cmp p1.1 p2.1.
Proof.
  intros H1 H2. unfold amqp_table_entry_cmp. zlen_pos. destruct (memcmp_key_cmp p1.1 p2.1) as (d & E & Hd).
  assert ((if zlen p2.1 <? zlen p1.1 then zlen p2.1 else zlen p1.1) = Z.min (zlen p1.1) (zlen p2.1)) as ->.
  { destruct (Z.ltb_spec (zlen p2.1) (zlen p1.1)); lia. }
  pose proof (zlen_nonneg p1.1). pose proof (zlen_nonneg p2.1).
  rewrite E. destruct (Z.eqb_spec d 0) as [->|Hne]; simpl; [|by exists d].
  rewrite (swrap_small 32 (zlen p1.1)), (swrap_small 32 (zlen p2.1)) by (unfold in_s; lia).
  rewrite bool_decide_true by (apply swrap_small; unfold in_s; lia).
  eexists. split; [done|]. rewrite Hd. rewrite <- (Z.add_compare_mono_l (zlen p2.1) (_ - _)).
  f_equal; lia.
Qed.

(** [amqp_table_entry_cmp] is what [qsort] needs: on keys of fewer than 2^31
    bytes it is defined, zero exactly on equal keys, changes sign when its arguments
    are swapped, and is transitive. *)
Theorem table_entry_cmp_order p1 p2 p3 :
  zlen p1.1 < 2 ^ 31 -> zlen p2.1 < 2 ^ 31 -> zlen p3.1 < 2 ^ 31 ->
  exists d12 d21 d23 d13,
    amqp_table_entry_cmp p1 p2 = Ret d12 /\ amqp_table_entry_cmp p2 p1 = Ret d21 /\
    amqp_table_entry_cmp p2 p3 = Ret d23 /\ amqp_table_entry_cmp p1 p3 = Ret d13 /\
    (d12 = 0 <-> p1.1 = p2.1) /\ (d12 < 0 <-> 0 < d21) /\ (d12 < 0 -> d23 < 0 -> d13 < 0).
Proof.
  intros H1 H2 H3.
  destruct (entry_cmp_spec p1 p2 H1 H2) as (d12 & E12 & C12), (entry_cmp_spec p2 p1 H2 H1) as (d21 & E21 & C21),
    (entry_cmp_spec p2 p3 H2 H3) as (d23 & E23 & C23), (entry_cmp_spec p1 p3 H1 H3) as (d13 & E13 & C13).
  exists d12, d21, d23, d13. repeat (split; [done|]). split; [|split].
  - rewrite <- key_cmp_eq, <- C12. symmetry. apply Z.compare_eq_iff.
  - rewrite (key_cmp_antisym p1.1 p2.1), <- C12 in C21. rewrite <- Z.compare_lt_iff, <- Z.compare_gt_iff.
    rewrite C21. by destruct (d12 ?= 0).
  - rewrite <- !Z.compare_lt_iff, C12, C23, C13. apply key_cmp_trans.
Qed.

Example table_entry_cmp_order_witness :
  exists d12 d21 d23 d13,
    amqp_table_entry_cmp ([x61], FV_VOID) ([x61; x62], FV_VOID) = Ret d12 /\
    amqp_table_entry_cmp ([x61; x62], FV_VOID) ([x61], FV_VOID) = Ret d21 /\
    amqp_table_entry_cmp ([x61; x62], FV_VOID) ([xff], FV_VOID) = Ret d23 /\
    amqp_table_entry_cmp ([x61], FV_VOID) ([xff], FV_VOID) = Ret d13 /\
    (d12 = 0 <-> [x61] = [x61; x62]) /\ (d12 < 0 <-> 0 < d21) /\ (d12 < 0 -> d23 < 0 -> d13 < 0).
Proof. by apply (table_entry_cmp_order ([x61], FV_VOID) ([x61; x62], FV_VOID) ([xff], FV_VOID)). Defined.

(** ** Lookup *)

Lemma bytes_equal_spec r l : amqp_bytes_equal r l = Ret (bool_decide (r = l)).
Proof.
  unfold amqp_bytes_equal. destruct (Z.eqb_spec (zlen r) (zlen l)) as [E|E].
  - destruct (memcmp_key_cmp r l) as (d & Em & Hd). rewrite E, Z.min_id in Em. rewrite E, Em.
    f_equal. destruct (Z.eqb_spec d 0) as [->|Hne].
    + rewrite bool_decide_true; [done|]. apply key_cmp_eq. rewrite Hd. by apply Z.compare_eq_iff.
    + rewrite bool_decide_false; [done|]. rewrite <- key_cmp_eq, Hd. by rewrite Z.compare_eq_iff.
  - rewrite bool_decide_false; [done|]. congruence.
Qed.

(** Looking up a key returns the first entry with exactly that key, and [NULL]
    only if there is none. *)
Theorem table_get_entry_first table key :
  exists r, amqp_table_get_entry_by_key table key = Ret r /\
  match r with
  | Some e => exists before after, table = before ++ e :: after /\ e.1 = key /\ Forall (fun e' => e'.1 <> key) before
  | None => Forall (fun e' => e'.1 <> key) table
  end.
Proof.
  induction table as [|e table (r & E & IH)]; simpl.
  { exists None. split; [done|]. by apply Forall_nil. }
  rewrite bytes_equal_spec. case_bool_decide as He.
  - exists (Some e). split; [done|]. exists [], table. split; [done|]. split; [done|by apply Forall_nil].
  - exists r. split; [exact E|]. destruct r as [e'|].
    + destruct IH as (before & after & -> & Hk & Hb). exists (e :: before), after.
      split; [done|]. split; [done|]. by apply Forall_cons.
    + by apply Forall_cons.
Qed.

(** ** Cloning *)

(** Every key, at every depth, is non-empty. *)
Fixpoint named (v : amqp_field_value_t) : Prop :=
  match v with
  | FV_ARRAY _ l => allP named l
  | FV_TABLE l => allP (fun e => match e with (k, v) => k <> [] /\ named v end) l
  | _ => True
  end.
Definition named_table (t : amqp_table_t) : Prop := named (FV_TABLE t).

Section CloneFacts.
Context {Mem Pool : Type} `{MemLaws Mem Pool}.
Context (pool : Pool).

(** [Clones m n a]: with room for [n] pool allocations, [m] returns [a]. *)
Definition Clones {A} (m : eff Mem A) (n : Z) (a : A) : Prop :=
  forall k mem, 0 <= k -> plenty pool (k + n) mem -> exists mem', m mem = (Ret a, mem') /\ plenty pool k mem'.

Lemma clones_ret {A} (a : A) n : 0 <= n -> Clones (ret a) n a.
Proof. intros Hn k mem Hk Hp. exists mem. split; [done|]. apply (plenty_mono _ _ _ _ Hp). lia. Qed.

Lemma clones_bind {A B} (m : eff Mem A) (f : A -> eff Mem B) n1 n2 n a b :
  Clones m n1 a -> Clones (f a) n2 b -> 0 <= n2 -> n1 + n2 = n -> Clones (bind m f) n b.
Proof.
  intros Hm Hf Hn <- k mem Hk Hp. destruct (Hm (k + n2) mem) as (mem' & E & Hp'); [lia| |].
  { by replace (k + n2 + n1) with (k + (n1 + n2)) by lia. }
  rewrite (bind_step _ _ _ _ _ E). by apply Hf.
Qed.

Lemma clones_mono {A} (m : eff Mem A) n n' a : Clones m n a -> 0 <= n <= n' -> Clones m n' a.
Proof. intros Hm Hn k mem Hk Hp. apply Hm; [done|]. apply (plenty_mono _ _ _ _ Hp). lia. Qed.

Lemma clones_pool_bytes n : 0 < n < 2 ^ 63 -> Clones (pool_bytes pool n) 1 tt.
Proof.
  intros Hn k mem Hk Hp. destruct (plenty_pool_alloc pool mem k n Hp Hk Hn) as (a & mem' & E & Hp').
  exists mem'. unfold pool_bytes. by rewrite E.
Qed.

Lemma clones_bytes bs : zlen bs < 2 ^ 63 -> Clones (clone_bytes pool bs) 1 bs.
Proof.
  intros Hl. unfold clone_bytes. zlen_pos. destruct (Z.eqb_spec (zlen bs) 0) as [E|E].
  - destruct bs; [|zlia]. by apply clones_ret.
  - eapply clones_bind; [apply clones_pool_bytes; lia|by apply (clones_ret _ 0)|lia|lia].
Qed.

Lemma clones_each {A} (f : A -> eff Mem A) (cost : A -> Z) l :
  (forall x, 0 <= cost x) -> Forall (fun x => Clones (f x) (cost x) x) l ->
  Clones (clone_each f l) (foldr (fun x n => cost x + n) 0 l) l.
Proof.
  intros Hc. induction 1 as [|x l Hx Hl IH]; simpl; [by apply clones_ret|].
  assert (0 <= foldr (fun x n => cost x + n) 0 l) by (clear -Hc; induction l as [|y l IH]; simpl; [done|]; specialize (Hc y); lia).
  eapply clones_bind; [exact Hx| |done|done].
  eapply clones_bind; [exact IH|by apply (clones_ret _ 0)|lia|lia].
Qed.

End CloneFacts.

Lemma zlen_concat_map {A} (w : A -> list byte) l : zlen (concat (map w l)) = foldr (fun x n => zlen (w x) + n) 0 l.
Proof. induction l as [|x l IH]; simpl; [done|]. by rewrite zlen_app, IH. Qed.

Section CloneTheorems.
Context {Mem Pool : Type} `{MemLaws Mem Pool}.
Context (pool : Pool).

Lemma clones_table_with value_clone t :
  Forall (fun e => e.1 <> [] /\ zlen e.1 < 256 /\ Clones pool (value_clone e.2) (zlen (wire_fv e.2)) e.2) t ->
  zlen (concat (map wire_entry t)) < 2 ^ 32 ->
  Clones pool (amqp_table_clone_with pool value_clone t) (zlen (wire_table t)) t.
Proof.
  intros Ht Hsz. unfold amqp_table_clone_with, wire_table. rewrite zlen_wire_sized. zlen_pos.
  destruct (Z.eqb_spec (zlen t) 0) as [E|E].
  { destruct t; [apply clones_ret; lia|zlia]. }
  pose proof (length_concat_le wire_entry t wire_entry_pos) as Hle. unfold amqp_table_t, amqp_table_entry_t in *.
  eapply clones_mono; [eapply (clones_bind _ _ _ 1)|]; [apply clones_pool_bytes| | |reflexivity|].
  - assert (sizeof layout_amqp_table_entry_t = 40) as -> by reflexivity. pose proof (zlen_nonneg t).
    rewrite wrap_small by (unfold in_u; lia). lia.
  - apply (clones_each pool _ (fun e => zlen (wire_entry e))); [intros; apply zlen_nonneg|].
    eapply Forall_impl; [exact Ht|]. intros [k v] (Hk & Hkl & Hv). cbn [fst snd] in *.
    assert (Hkp : 0 < zlen k) by (destruct k; [by destruct Hk|zlia]). unfold amqp_table_entry_clone_with.
    assert (zlen k =? 0 = false) as -> by (apply Z.eqb_neq; lia).
    eapply (clones_bind _ _ _ 1); [apply clones_pool_bytes; lia| | |].
    + eapply clones_bind; [exact Hv|apply (clones_ret _ _ (zlen k)); lia|lia|reflexivity].
    + zlia.
    + unfold wire_entry, wire_entry_with. zlia.
  - rewrite <- (zlen_concat_map wire_entry). apply zlen_nonneg.
  - rewrite <- (zlen_concat_map wire_entry). unfold amqp_table_entry_t in *.
    pose proof (zlen_nonneg (concat (map wire_entry t))). lia.
Qed.

Lemma clones_fv v : fv_ok v -> named v -> Clones pool (amqp_field_value_clone pool v) (zlen (wire_fv v)) v.
Proof.
  revert v. apply (fv_ind (fun v => fv_ok v -> named v -> Clones pool (amqp_field_value_clone pool v) (zlen (wire_fv v)) v));
    [intros v|intros b l IH|intros l IH].
  - destruct v; try done; intros Hok _; cbn [amqp_field_value_clone];
      try (apply clones_ret; apply zlen_nonneg);
      (eapply clones_bind; [apply clones_bytes; simpl in Hok; lia|apply (clones_ret _ _ (zlen (wire_fv (FV_UTF8 bytes)) - 1)); simpl wire_fv; zlia|..]).
    all: simpl wire_fv; zlia.
  - intros (Hb & Hl & Hsz) Hn. simpl in Hn. rewrite allP_Forall in Hl, Hn. cbn [amqp_field_value_clone].
    destruct l as [|x l']; [subst b; simpl; apply clones_ret, zlen_nonneg|].
    set (l := x :: l') in *. assert (b = false) as -> by (subst b; done).
    pose proof (length_concat_le wire_fv l wire_fv_pos) as Hle.
    assert (0 < zlen l) by (unfold l; zlia).
    assert (Hw : zlen (wire_fv (FV_ARRAY false l)) = 5 + zlen (concat (map wire_fv l))).
    { change (wire_fv (FV_ARRAY false l)) with (be_bytes 1 AMQP_FIELD_KIND_ARRAY ++ wire_sized (concat (map wire_fv l))).
      rewrite zlen_app, zlen_be_bytes, zlen_wire_sized. lia. }
    rewrite Hw. zlen_pos.
    eapply (clones_bind _ _ _ 1); [apply clones_pool_bytes| |..].
    + assert (sizeof layout_amqp_field_value_t = 24) as -> by reflexivity.
      rewrite wrap_small by (unfold in_u; lia). lia.
    + eapply (clones_bind _ _ _ (zlen (concat (map wire_fv l)))); [|by apply (clones_ret _ _ 4)|done|reflexivity].
      rewrite zlen_concat_map. apply (clones_each pool _ (fun x => zlen (wire_fv x))); [intros; apply zlen_nonneg|].
      rewrite Forall_forall in *. intros y Hy. apply IH; auto.
    + lia.
    + lia.
  - intros (Hl & Hsz) Hn. simpl in Hn. rewrite allP_Forall in Hl, Hn. cbn [amqp_field_value_clone].
    eapply (clones_bind _ _ _ (zlen (wire_table l)));
      [apply clones_table_with; [|exact Hsz]|by apply (clones_ret _ _ 1)|done|].
    + rewrite Forall_forall in *. intros [k v] Hin. specialize (Hl _ Hin). specialize (Hn _ Hin). simpl in *.
      destruct Hl, Hn. split; [done|]. split; [done|]. apply (IH _ Hin); done.
    + change (wire_fv (FV_TABLE l)) with (be_bytes 1 AMQP_FIELD_KIND_TABLE ++ wire_table l).
      rewrite zlen_app, zlen_be_bytes. lia.
Qed.

Lemma clones_table t :
  table_ok t -> named_table t -> Clones pool (amqp_table_clone pool t) (zlen (wire_table t)) t.
Proof.
  intros [Hok Hsz] Hn. unfold named_table in Hn. simpl in Hn. rewrite allP_Forall in Hok, Hn.
  apply (clones_table_with (amqp_field_value_clone pool) t); [|done].
  rewrite Forall_forall in *. intros [k v] Hin. specialize (Hok _ Hin). specialize (Hn _ Hin). simpl in *.
  destruct Hok, Hn. split; [done|]. split; [done|]. by apply clones_fv.
Qed.


End CloneTheorems.

(** *** Witnesses and exceptions *)


(** An array with an [entries] pointer and no entries cannot be cloned: the
    allocation of zero bytes is [NULL] and is reported as [NO_MEMORY], whatever the
    memory. *)
Theorem clone_empty_array_refused {Mem Pool : Type} `{MemLaws Mem Pool} pool m :
  exists m', amqp_field_value_clone pool (FV_ARRAY false []) m = (Err AMQP_STATUS_NO_MEMORY, m').
Proof. exists m. simpl. unfold bind, pool_bytes. change (wrap 64 _) with 0. by rewrite pool_alloc_zero. Qed.
