(* ===== verification/Clone.v ===== *)
(** * Cloning through pointers: [amqp_table_clone] of [librabbitmq/amqp_table.c] with its stores

    [TableOps.v] has the cloners as functions on values: what they return and what they
    ask the pool for.  A value cannot tell a deep copy from a shallow one, so this file
    has the same functions again on a store of C objects: every field of
    [amqp_field_value_t], [amqp_bytes_t], [amqp_array_t] and [amqp_table_t] is a cell at
    its address, pointers are addresses, and a store to a field destroys what it
    overlaps.  The theorem says that the two levels agree, and that the copy is made of
    new memory and leaves the original as it was. *)

From S2P Require Import Prelude Status Memory Codec Layout Pool PoolMem Table TableSpec TableOps.

(** ** The store *)

(** The fields the cloners read and write: [kind], an [int], a [size_t], a pointer,
    another member of [value] (they share its eight bytes), and the bytes a string points
    to. *)
Inductive cell : Type :=
| C_KIND (kind : Z)
| C_INT (n : Z)
| C_SIZE (n : Z)
| C_PTR (p : option addr)
| C_MEMBER (v : amqp_field_value_t)
| C_DATA (bs : list byte).

Definition csize (c : cell) : Z :=
  match c with
  | C_KIND _ => sizeof t_uint8
  | C_INT _ => sizeof t_int
  | C_SIZE _ => sizeof t_size
  | C_PTR _ => sizeof t_ptr
  | C_MEMBER _ => sizeof t_uint64
  | C_DATA bs => zlen bs
  end.

Notation store_t := (@gmap (Z * Z) prod_eq_dec prod_countable cell).

#[export] Instance apart_dec r r' : Decision (apart r r').
Proof. destruct r as [[b off] len], r' as [[b' off'] len']. unfold apart. apply _. Defined.

(** Writing a field destroys the fields it overlaps. *)
Definition put (a : addr) (c : cell) (st : store_t) : store_t :=
  <[a := c]> (filter (fun x => apart (x.1, csize x.2) (a, csize c)) st).

(** [&p->field], for a field at offset [n]. *)
Definition field (a : addr) (n : Z) : addr := (a.1, a.2 + n).

(** ** The code *)

Section Code.
Context {Mem Pool : Type} `{MemOps Mem Pool}.
Context (pool : Pool).

Definition clone_state : Type := (Mem * store_t)%type.

(** Reading a field that was not written, or as another type, is undefined. *)
Definition read {A} (as_ : cell -> option A) (a : addr) : eff clone_state A := fun '(m, st) =>
  match st !! a with
  | Some c => match as_ c with Some x => (Ret x, (m, st)) | None => (Undef, (m, st)) end
  | None => (Undef, (m, st))
  end.
Definition write (a : addr) (c : cell) : eff clone_state unit := fun '(m, st) => (Ret tt, (m, put a c st)).

Definition as_kind (c : cell) : option Z := match c with C_KIND k => Some k | _ => None end.
Definition as_int (c : cell) : option Z := match c with C_INT n => Some n | _ => None end.
Definition as_size (c : cell) : option Z := match c with C_SIZE n => Some n | _ => None end.
Definition as_addr (c : cell) : option addr := match c with C_PTR p => p | _ => None end.
Definition as_ptr (c : cell) : option (option addr) := match c with C_PTR p => Some p | _ => None end.
Definition as_member (kind : Z) (c : cell) : option amqp_field_value_t :=
  match c with C_MEMBER v => if fv_kind v =? kind then Some v else None | _ => None end.
Definition as_data (n : Z) (c : cell) : option (list byte) :=
  match c with C_DATA bs => if zlen bs =? n then Some bs else None | _ => None end.

Definition alloc (n : Z) : eff clone_state (option addr) := fun '(m, st) =>
  let '(r, m') := pool_alloc pool n m in (Ret r, (m', st)).

(** [memcpy(dst, src, n)] *)
Definition memcpy (dst src : addr) (n : Z) : eff clone_state unit :=
  let! bs := read (as_data n) src in write dst (C_DATA bs).

(** [amqp_pool_alloc_bytes(pool, amount, output)] *)
Definition pool_alloc_bytes_at (amount : Z) (output : addr) : eff clone_state unit :=
  do! write output (C_SIZE amount) in
  let! r := alloc amount in
  write (field output 8) (C_PTR r).

(** The new block's address is in [ptr]; [NULL] is [NO_MEMORY]. *)
Definition check_memory (ptr : addr) : eff clone_state addr :=
  let! r := read as_ptr ptr in
  match r with Some a => ret a | None => fail AMQP_STATUS_NO_MEMORY end.

(** A string that is not empty: its memory, and its bytes. *)
Definition copy_bytes (len : Z) (original clone : addr) : eff clone_state unit :=
  do! pool_alloc_bytes_at len clone in
  let! d := check_memory (field clone 8) in
  let! s := read as_addr (field original 8) in
  let! n := read as_size clone in
  memcpy d s n.

(** [for (i = 0; i < clone->num_entries; ++i)] over the two [entries] arrays; nothing in
    the loop writes the bound. *)
Definition clone_entries (elem : addr -> addr -> eff clone_state unit) (size : Z) (original clone : addr)
    : eff clone_state unit :=
  let! num := read as_int clone in
  for_each (fun i =>
    let! o := read as_addr (field original 8) in
    let! c := read as_addr (field clone 8) in
    elem (field o (size * i)) (field c (size * i))) (seqZ 0 num).

Definition table_entry_clone_with_at (value_clone : addr -> addr -> eff clone_state unit) (original clone : addr)
    : eff clone_state unit :=
  let! len := read as_size original in
  if len =? 0 then fail AMQP_STATUS_INVALID_PARAMETER
  else
    do! copy_bytes len original clone in
    value_clone (field original 16) (field clone 16).

Definition table_clone_with_at (value_clone : addr -> addr -> eff clone_state unit) (original clone : addr)
    : eff clone_state unit :=
  let! num := read as_int original in
  do! write clone (C_INT num) in
  let! n := read as_int clone in
  if n =? 0 then do! write clone (C_INT 0) in write (field clone 8) (C_PTR None)
  else
    let! r := alloc (wrap 64 (n * sizeof layout_amqp_table_entry_t)) in
    do! write (field clone 8) (C_PTR r) in
    let! _ := check_memory (field clone 8) in
    clone_entries (table_entry_clone_with_at value_clone) (sizeof layout_amqp_table_entry_t) original clone.

(** [clone->value.m = original->value.m] *)
Definition copy_member (kind : Z) (original clone : addr) : eff clone_state unit :=
  let! v := read (as_member kind) (field original 8) in write (field clone 8) (C_MEMBER v).

Definition bytes_clone_at (original clone : addr) : eff clone_state unit :=
  let! len := read as_size original in
  if len =? 0 then do! write clone (C_SIZE 0) in write (field clone 8) (C_PTR None)
  else copy_bytes len original clone.

Definition array_clone_at (value_clone : addr -> addr -> eff clone_state unit) (original clone : addr)
    : eff clone_state unit :=
  let! entries := read as_ptr (field original 8) in
  match entries with
  | None => do! write clone (C_INT 0) in write (field clone 8) (C_PTR None)
  | Some _ =>
      let! num := read as_int original in
      do! write clone (C_INT num) in
      let! n := read as_int clone in
      let! r := alloc (wrap 64 (n * sizeof layout_amqp_field_value_t)) in
      do! write (field clone 8) (C_PTR r) in
      let! _ := check_memory (field clone 8) in
      clone_entries value_clone (sizeof layout_amqp_field_value_t) original clone
  end.

(** The kinds whose member of the union is copied by assignment. *)
Definition plain_kinds : list Z :=
  [AMQP_FIELD_KIND_BOOLEAN; AMQP_FIELD_KIND_I8; AMQP_FIELD_KIND_U8; AMQP_FIELD_KIND_I16; AMQP_FIELD_KIND_U16;
   AMQP_FIELD_KIND_I32; AMQP_FIELD_KIND_U32; AMQP_FIELD_KIND_I64; AMQP_FIELD_KIND_U64; AMQP_FIELD_KIND_TIMESTAMP;
   AMQP_FIELD_KIND_F32; AMQP_FIELD_KIND_F64; AMQP_FIELD_KIND_DECIMAL].

(** The recursion follows pointers: the fuel bounds its depth. *)
Fixpoint field_value_clone_at (fuel : nat) (original clone : addr) : eff clone_state unit :=
  match fuel with
  | O => nofuel
  | S fuel =>
      let! k := read as_kind original in
      do! write clone (C_KIND k) in
      let! kind := read as_kind clone in
      switch kind
        (map (fun k => (k, copy_member k original clone)) plain_kinds ++
         [(AMQP_FIELD_KIND_UTF8, bytes_clone_at (field original 8) (field clone 8));
          (AMQP_FIELD_KIND_BYTES, bytes_clone_at (field original 8) (field clone 8));
          (AMQP_FIELD_KIND_ARRAY, array_clone_at (field_value_clone_at fuel) (field original 8) (field clone 8));
          (AMQP_FIELD_KIND_TABLE, table_clone_with_at (field_value_clone_at fuel) (field original 8) (field clone 8));
          (AMQP_FIELD_KIND_VOID, ret tt)])
        (fail AMQP_STATUS_INVALID_PARAMETER)
  end.

Definition table_clone_at (fuel : nat) : addr -> addr -> eff clone_state unit :=
  table_clone_with_at (field_value_clone_at fuel).
End Code.

(** * Theorems *)

(** ** What a store says *)

Section EachAt.
Context {A : Type} (den : A -> addr -> Prop) (size : Z).
Fixpoint each_at (l : list A) (a : addr) : Prop :=
  match l with
  | [] => True
  | x :: l' => den x a /\ each_at l' (field a size)
  end.
End EachAt.

Definition bytes_at (st : store_t) (bs : list byte) (a : addr) : Prop :=
  st !! a = Some (C_SIZE (zlen bs)) /\
  exists p, st !! field a 8 = Some (C_PTR p) /\ (bs = [] \/ exists d, p = Some d /\ st !! d = Some (C_DATA bs)).

Definition list_at {A} (den : A -> addr -> Prop) (size : Z) (st : store_t) (l : list A) (a : addr) : Prop :=
  st !! a = Some (C_INT (zlen l)) /\
  exists p, st !! field a 8 = Some (C_PTR p) /\ (l = [] \/ exists e, p = Some e /\ each_at den size l e).

(** The value [v] is stored at [a]: the whole of it, through every pointer. *)
Fixpoint denotes (st : store_t) (v : amqp_field_value_t) (a : addr) : Prop :=
  st !! a = Some (C_KIND (fv_kind v)) /\
  match v with
  | FV_UTF8 bs | FV_BYTES bs => bytes_at st bs (field a 8)
  | FV_ARRAY null l =>
      list_at (denotes st) 24 st l (field a 8) /\ exists p, st !! field (field a 8) 8 = Some (C_PTR p) /\ (null = true <-> p = None)
  | FV_TABLE l => list_at (fun e a => match e with (k, v) => bytes_at st k a /\ denotes st v (field a 16) end) 40 st l (field a 8)
  | FV_VOID | FV_OTHER _ => True
  | _ => st !! field a 8 = Some (C_MEMBER v)
  end.

Definition entry_at (st : store_t) (e : amqp_table_entry_t) (a : addr) : Prop :=
  match e with (k, v) => bytes_at st k a /\ denotes st v (field a 16) end.

(** The table [t] is stored at [a]. *)
Definition table_at (st : store_t) (t : amqp_table_t) (a : addr) : Prop := list_at (entry_at st) 40 st t a.

(** What holds of a store holds of a larger one. *)
Definition stable (P : store_t -> Prop) : Prop := forall st st', st ⊆ st' -> P st -> P st'.

Lemma stable_at a c : stable (fun st => st !! a = Some c).
Proof. intros st st' Hs E. by eapply lookup_weaken. Qed.

Lemma each_at_impl {A} (den den' : A -> addr -> Prop) size l :
  Forall (fun x => forall a, den x a -> den' x a) l -> forall a, each_at den size l a -> each_at den' size l a.
Proof. induction 1 as [|x l Hx _ IH]; intros a; cbn; [done|]. intros [? ?]. split; auto. Qed.

Lemma stable_bytes_at bs a : stable (fun st => bytes_at st bs a).
Proof.
  intros st st' Hs (E & p & Ep & Hd). split; [by eapply lookup_weaken|]. exists p. split; [by eapply lookup_weaken|].
  destruct Hd as [->|(d & -> & Ed)]; [by left|right]. exists d. split; [done|]. by eapply lookup_weaken.
Qed.

Lemma stable_list_at {A} (den : store_t -> A -> addr -> Prop) size l a :
  Forall (fun x => forall a, stable (fun st => den st x a)) l -> stable (fun st => list_at (den st) size st l a).
Proof.
  intros Hd st st' Hs (E & p & Ep & Hl). split; [by eapply lookup_weaken|]. exists p. split; [by eapply lookup_weaken|].
  destruct Hl as [->|(e & -> & He)]; [by left|right]. exists e. split; [done|]. eapply each_at_impl; [|exact He].
  eapply Forall_impl; [exact Hd|]. intros x Hx b. exact (Hx b st st' Hs).
Qed.

Lemma stable_denotes v : forall a, stable (fun st => denotes st v a).
Proof.
  revert v. apply (fv_ind (fun v => forall a, stable (fun st => denotes st v a))).
  - intros v. destruct v; try done; intros a st st' Hs; cbn [denotes]; intros [E1 E2]; split; try (by eapply lookup_weaken); try done;
      by eapply stable_bytes_at.
  - intros b l IH a st st' Hs. cbn [denotes]. intros (E & Hl & p & Ep & Hp). split; [by eapply lookup_weaken|]. split.
    + by eapply (stable_list_at denotes).
    + exists p. split; [by eapply lookup_weaken|done].
  - intros l IH a st st' Hs. cbn [denotes]. intros (E & Hl). split; [by eapply lookup_weaken|].
    eapply (stable_list_at (fun st e a => match e with (k, v) => bytes_at st k a /\ denotes st v (field a 16) end)); [|exact Hs|exact Hl].
    eapply Forall_impl; [exact IH|]. intros [k v] Hv b st1 st2 Hs' [H1 H2]. split; [by eapply stable_bytes_at|]. by eapply Hv.
Qed.

Lemma stable_and P Q : stable P -> stable Q -> stable (fun st => P st /\ Q st).
Proof. intros HP HQ st st' Hs [? ?]. split; eauto. Qed.

Lemma stable_ex {A} (P : A -> store_t -> Prop) : (forall x, stable (P x)) -> stable (fun st => exists x, P x st).
Proof. intros HP st st' Hs [x Hx]. exists x. by eapply HP. Qed.

Lemma stable_const (P : Prop) : stable (fun _ => P).
Proof. by intros st st' _. Qed.

(** Conjunctions and existentials of what [stable] holds of. *)
Ltac stab := repeat first [assumption | apply stable_at | apply stable_bytes_at | apply stable_denotes | apply stable_const
  | apply stable_and | apply stable_ex; intros ?].

(** ** What cloning needs of a value, and what it makes *)

Fixpoint clonable (v : amqp_field_value_t) : Prop :=
  match v with
  | FV_UTF8 bs | FV_BYTES bs => zlen bs < 2 ^ 63
  | FV_ARRAY null l => (null = true <-> l = []) /\ zlen l <= INT_MAX /\ allP clonable l
  | FV_TABLE l => zlen l <= INT_MAX /\ allP (fun e => match e with (k, v) => k <> [] /\ zlen k < 2 ^ 63 /\ clonable v end) l
  | FV_OTHER _ => False
  | _ => True
  end.

(** The depth of the nesting. *)
Fixpoint height (v : amqp_field_value_t) : nat :=
  match v with
  | FV_ARRAY _ l => S (foldr (fun v n => Nat.max (height v) n) O l)
  | FV_TABLE l => S (foldr (fun e n => match e with (_, v) => Nat.max (height v) n end) O l)
  | _ => O
  end.

(** The sizes of the blocks a value consists of, in the order they are allocated: one for
    each string that is not empty, one for each array of entries. *)
Fixpoint blocks (v : amqp_field_value_t) : list Z :=
  match v with
  | FV_UTF8 bs | FV_BYTES bs => if zlen bs =? 0 then [] else [zlen bs]
  | FV_ARRAY null l => if null then [] else (24 * zlen l) :: concat (map blocks l)
  | FV_TABLE l =>
      if zlen l =? 0 then [] else (40 * zlen l) :: concat (map (fun e => match e with (k, v) => zlen k :: blocks v end) l)
  | _ => []
  end.

(** ** Regions *)

Definition inside (r r' : region) : Prop :=
  let '((b, off), len) := r in let '((b', off'), len') := r' in b = b' /\ off' <= off /\ off + len <= off' + len'.

Lemma inside_trans r1 r2 r3 : inside r1 r2 -> inside r2 r3 -> inside r1 r3.
Proof. destruct r1 as [[]], r2 as [[]], r3 as [[]]. unfold inside. intros (-> & ? & ?) (-> & ? & ?). lia. Qed.

Lemma inside_refl r : inside r r.
Proof. destruct r as [[]]. unfold inside. lia. Qed.

Lemma apart_inside r1 r2 r1' r2' : apart r1 r2 -> inside r1' r1 -> inside r2' r2 -> apart r1' r2'.
Proof.
  destruct r1 as [[]], r2 as [[]], r1' as [[]], r2' as [[]]. unfold apart, inside.
  intros [?|[?|?]] (-> & ? & ?) (-> & ? & ?); [by left|right; left; lia|right; right; lia].
Qed.

Lemma apart_sym r1 r2 : apart r1 r2 -> apart r2 r1.
Proof. destruct r1 as [[]], r2 as [[]]. unfold apart. intros [?|[?|?]]; [left; congruence|right; right; lia|right; left; lia]. Qed.

(** The cell lies in one of the regions. *)
Definition cell_in (rs : list region) (a : addr) (c : cell) : Prop := 0 < csize c /\ exists r, r ∈ rs /\ inside (a, csize c) r.

(** The cells lie in the regions [rs], and not in [dst]. *)
Definition framed (rs : list region) (dst : region) (st : store_t) : Prop :=
  forall a c, st !! a = Some c -> cell_in rs a c /\ apart (a, csize c) dst.

Lemma cell_in_mono rs rs' a c : (forall r, r ∈ rs -> exists r', r' ∈ rs' /\ inside r r') -> cell_in rs a c -> cell_in rs' a c.
Proof.
  intros Hrs (H0 & r & Hr & Hin). split; [done|]. destruct (Hrs r Hr) as (r' & Hr' & Hin'). exists r'.
  split; [done|]. by eapply inside_trans.
Qed.

Lemma framed_sub rs dst dst' st : framed rs dst st -> inside dst' dst -> framed rs dst' st.
Proof.
  intros Hf Hin a c E. destruct (Hf a c E) as [Hc Ha]. split; [done|]. eapply apart_inside; [exact Ha|apply inside_refl|done].
Qed.

Lemma put_frame rs dst st0 st a c : framed rs dst st0 -> st0 ⊆ st -> inside (a, csize c) dst -> 0 < csize c -> st0 ⊆ put a c st.
Proof.
  intros Hf Hs Hin Hc. apply map_subseteq_spec. intros a' c' E. destruct (Hf a' c' E) as [_ Ha].
  assert (Ha' : apart (a', csize c') (a, csize c)) by (eapply apart_inside; [exact Ha|apply inside_refl|done]).
  assert (Hne : a' <> a).
  { intros ->. destruct (Hf a c' E) as [[H0 _] _]. destruct a. unfold apart in Ha'. destruct Ha' as [?|[?|?]]; [done|lia|lia]. }
  unfold put. rewrite lookup_insert_ne by done. apply map_lookup_filter_Some. split; [by eapply lookup_weaken|done].
Qed.

(** No framed cell is where the code writes. *)
Lemma framed_fresh rs dst st a c : framed rs dst st -> inside (a, csize c) dst -> 0 < csize c -> st !! a = None.
Proof.
  intros Hf Hin Hc. destruct (st !! a) as [c'|] eqn:E; [|done]. destruct (Hf a c' E) as [[H0 _] Ha]. exfalso.
  assert (Ha' : apart (a, csize c') (a, csize c)) by (eapply apart_inside; [exact Ha|apply inside_refl|done]).
  destruct a. unfold apart in Ha'. destruct Ha' as [?|[?|?]]; [done|lia|lia].
Qed.

Lemma put_other a c st a' c' : put a c st !! a' = Some c' -> st !! a' = Some c' \/ (a', c') = (a, c).
Proof.
  unfold put. rewrite lookup_insert_Some. intros [[-> ->]|[_ E]]; [by right|left]. by apply map_lookup_filter_Some in E as [? _].
Qed.

Lemma ordpairs_app {A} (R : A -> A -> Prop) l k x y : ForallOrdPairs R (l ++ k) -> x ∈ l -> y ∈ k -> R x y.
Proof.
  intros H Hx Hy. induction Hx as [x l|x z l Hx IH]; cbn in H; inversion H; subst.
  - rewrite Forall_forall in *. apply H2. apply elem_of_app. by right.
  - by apply IH.
Qed.

(** ** The rules of the code *)

Definition room (pl : amqp_pool_t) (k : Z) : Prop :=
  num_blocks (pages pl) + k <= INT_MAX /\ num_blocks (large_blocks pl) + k <= INT_MAX.

Definition pool_at (q : Z) (m : memory) (pl : amqp_pool_t) : Prop := m_pools m !! q = Some pl /\ pool_ok pl (m_heap m).

Section Rules.
Context (q : Z).

Notation run_t := (eff (memory * store_t) unit).

(** What a piece of code that fills [dst] did, when it returns: it made the blocks
    [news] of the sizes [need], the new cells [st1] are in them and in [dst], and
    nothing else was written. *)
Definition filled (dst : region) (den : store_t -> Prop) (need : list Z) (k : Z) (rs : list region) (st0 : store_t)
    (m : memory) (st : store_t) (m' : memory) (st' : store_t) : Prop :=
  exists st1 news pl, pool_at q m' pl /\ room pl k /\ regions_ok pl (m_heap m') (news ++ rs) /\ map snd news = reverse need /\
    st0 ##ₘ st1 /\ st0 ∪ st1 ⊆ st' /\ (forall a c, st1 !! a = Some c -> cell_in (dst :: news) a c) /\ den st1 /\
    (forall a c, st' !! a = Some c -> st !! a = Some c \/ cell_in (dst :: news) a c) /\
    (h_refuse (m_heap m) = [] -> h_refuse (m_heap m') = []).

(** [run] fills [dst] as [den] says, given [src] of the cells [st0] that are in use; it
    does what [value] does to the pool, which returns [x].  It fails only when [malloc]
    refused, and leaves [st0] alone. *)
Definition fills {A : Type} (run : run_t) (value : eff memory A) (x : A) (dst : region) (src den : store_t -> Prop) (need : list Z) : Prop :=
  forall m st st0 rs pl k,
    pool_at q m pl -> room pl (zlen need + k) -> 0 <= k -> regions_ok pl (m_heap m) rs ->
    (exists r, r ∈ rs /\ inside dst r) -> framed rs dst st0 -> st0 ⊆ st -> src st0 ->
    match run (m, st) with
    | (Ret _, (m', st')) => value m = (Ret x, m') /\ filled dst den need k rs st0 m st m' st'
    | (Err s, (m', st')) =>
        value m = (Err s, m') /\ s = AMQP_STATUS_NO_MEMORY /\ h_refuse (m_heap m) <> [] /\ st0 ⊆ st'
    | _ => False
    end.

Lemma fills_ext {A : Type} run run' (value value' : eff memory A) x dst src den need :
  (forall s, run s = run' s) -> (forall m, value m = value' m) -> fills run value x dst src den need -> fills run' value' x dst src den need.
Proof. intros Hr Hv Hf m st st0 rs pl k. rewrite <- Hr, <- Hv. apply Hf. Qed.

Lemma fills_weaken {A : Type} run (value : eff memory A) x dst src src' den den' need :
  (forall st, src' st -> src st) -> (forall st, den st -> den' st) -> fills run value x dst src den need -> fills run value x dst src' den' need.
Proof.
  intros Hs Hd Hf m st st0 rs pl k H1 H2 H3 H4 H5 H6 H7 H8. specialize (Hf m st st0 rs pl k H1 H2 H3 H4 H5 H6 H7 (Hs _ H8)).
  destruct (run _) as [[[]|s| |] [m' st']]; try done. destruct Hf as [E Hf]. split; [done|].
  destruct Hf as (st1 & news & pl' & Hf). exists st1, news, pl'. naive_solver.
Qed.

Lemma fills_ret dst src : fills (ret tt) (ret tt) tt dst src (fun _ => True) [].
Proof.
  intros m st st0 rs pl k H1 H2 H3 H4 H5 H6 H7 H8. split; [done|]. exists ∅, [], pl. split; [done|]. split; [done|]. split; [done|].
  split; [done|]. split; [apply map_disjoint_empty_r|]. rewrite map_union_empty. split; [done|].
  split; [intros a c E; by rewrite lookup_empty in E|]. split; [done|]. split; [by left|done].
Qed.

Lemma fills_map {A B : Type} (f : A -> B) run (value : eff memory A) (x : A) dst src den need :
  fills run value x dst src den need -> fills run (bind value (fun a => ret (f a))) (f x) dst src den need.
Proof.
  intros Hf m st st0 rs pl k H1 H2 H3 H4 H5 H6 H7 H8. specialize (Hf m st st0 rs pl k H1 H2 H3 H4 H5 H6 H7 H8).
  destruct (run _) as [[[]|s| |] [m' st']]; try done; destruct Hf as [E Hf]; (split; [|done]).
  - by rewrite (bind_step _ _ _ _ _ E).
  - by rewrite (bind_err _ _ _ _ _ E).
Qed.

Lemma fills_write a c dst src : 0 < csize c -> inside (a, csize c) dst ->
  fills (write a c) (ret tt) tt dst src (fun st => st !! a = Some c) [].
Proof.
  intros Hc Hin m st st0 rs pl k H1 H2 H3 H4 H5 H6 H7 H8. split; [done|].
  assert (Hn : cell_in [dst] a c) by (split; [done|exists dst; split; [by left|done]]).
  pose proof (put_frame rs dst st0 st a c H6 H7 Hin Hc) as Hs.
  exists {[a := c]}, [], pl. split; [done|]. split; [done|]. split; [done|]. split; [done|].
  assert (Hd : st0 !! a = None) by (by eapply framed_fresh).
  split; [by apply map_disjoint_singleton_r|]. split.
  - apply map_union_least; [done|]. apply map_singleton_subseteq_l. unfold put. apply lookup_insert_eq.
  - split; [intros a' c' E; apply lookup_singleton_Some in E as [<- <-]; done|]. split; [apply lookup_singleton_eq|]. split; [|done].
    intros a' c' [E|[= -> ->]]%put_other; [by left|by right].
Qed.

Lemma fills_read {A B : Type} (as_ : cell -> option B) (a : addr) (y : B) (k : B -> run_t) (value : eff memory A) (x : A) dst src den need :
  (forall st, src st -> exists c, st !! a = Some c /\ as_ c = Some y) ->
  fills (k y) value x dst src den need -> fills (bind (read as_ a) k) value x dst src den need.
Proof.
  intros Hs Hf m st st0 rs pl n H1 H2 H3 H4 H5 H6 H7 H8. destruct (Hs st0 H8) as (c & E & Ec).
  rewrite (bind_step _ _ _ y (m, st)); [by eapply Hf|]. unfold read. rewrite (lookup_weaken _ _ _ _ E H7). by rewrite Ec.
Qed.

(** One piece after the other, the second beside the first. *)
Lemma fills_seq {A B : Type} run1 (v1 : eff memory A) (x1 : A) dst1 den1 need1 run2 (k : A -> eff memory B) (y : B) dst2 den2 need2
    dst src den :
  stable src -> stable den1 -> stable den2 -> apart dst1 dst2 -> inside dst1 dst -> inside dst2 dst ->
  (forall st, den1 st -> den2 st -> den st) ->
  fills run1 v1 x1 dst1 src den1 need1 -> fills run2 (k x1) y dst2 (fun st => src st /\ den1 st) den2 need2 ->
  fills (do! run1 in run2) (bind v1 k) y dst src den (need1 ++ need2).
Proof.
  intros Hss Hs1 Hs2 Hap Hi1 Hi2 Hden Hf1 Hf2 m st st0 rs pl n Hpl Hroom Hn Hrs (r & Hr & Hin) Hfr Hsub Hsrc.
  pose proof (zlen_nonneg need1) as Hn1. pose proof (zlen_nonneg need2) as Hn2. rewrite zlen_app, <- Z.add_assoc in Hroom.
  specialize (Hf1 m st st0 rs pl (zlen need2 + n) Hpl Hroom ltac:(lia) Hrs).
  specialize (Hf1 (ex_intro _ r (conj Hr (inside_trans _ _ _ Hi1 Hin))) (framed_sub _ _ _ _ Hfr Hi1) Hsub Hsrc).
  unfold bind at 1. destruct (run1 (m, st)) as [[[]|s| |] [m1 sta]]; [|by destruct Hf1 as [E ?]; rewrite (bind_err _ _ _ _ _ E)|done..].
  destruct Hf1 as (E1 & st1 & news1 & pl1 & Hpl1 & Hroom1 & Hrs1 & Hsz1 & Hd1 & Hu1 & Hc1 & Hden1 & Ho1 & Hr1).
  assert (Hfr1 : framed (news1 ++ rs) dst2 (st0 ∪ st1)).
  { intros a c [E|E]%lookup_union_Some; [| |done].
    - destruct (Hfr a c E) as [Hc Ha]. split; [|by eapply apart_inside; [exact Ha|apply inside_refl|done]].
      eapply cell_in_mono; [|exact Hc]. intros r' Hr'. exists r'. split; [apply elem_of_app; by right|apply inside_refl].
    - destruct (Hc1 a c E) as (Hc & r' & Hr' & Hin'). split; [split; [done|]|].
      + apply elem_of_cons in Hr' as [->|Hr']; [exists r|exists r']; rewrite elem_of_app; split; [by right| |by left|done].
        eapply inside_trans; [exact Hin'|]. by eapply inside_trans.
      + apply elem_of_cons in Hr' as [->|Hr']; [by eapply apart_inside; [exact Hap|done|apply inside_refl]|].
        eapply apart_inside; [exact (ordpairs_app _ _ _ r' r (proj2 Hrs1) Hr' Hr)|done|by eapply inside_trans]. }
  assert (Hnews : exists r', r' ∈ news1 ++ rs /\ inside dst2 r').
  { exists r. split; [apply elem_of_app; by right|by eapply inside_trans]. }
  assert (Hsub1 : st0 ⊆ st0 ∪ st1) by apply map_union_subseteq_l.
  assert (Hsub2 : st1 ⊆ st0 ∪ st1) by (by apply map_union_subseteq_r).
  specialize (Hf2 m1 sta (st0 ∪ st1) (news1 ++ rs) pl1 n Hpl1 Hroom1 Hn Hrs1 Hnews Hfr1 Hu1 (conj (Hss _ _ Hsub1 Hsrc) (Hs1 _ _ Hsub2 Hden1))).
  rewrite (bind_step _ _ _ _ _ E1). destruct (run2 (m1, sta)) as [[[]|s| |] [m2 stb]]; try done.
  2:{ destruct Hf2 as (E & Es & Hr2 & Hs). repeat (split; [done|]). split; [auto|]. by etransitivity. }
  destruct Hf2 as (E2 & st2 & news2 & pl2 & Hpl2 & Hroom2 & Hrs2 & Hsz2 & Hd2 & Hu2 & Hc2 & Hden2 & Ho2 & Hr2). split; [done|].
  apply map_disjoint_union_l in Hd2 as [Hd2 Hd12].
  assert (Hcell : forall a c news news' d, cell_in (d :: news) a c -> inside d dst -> news ⊆ news' -> cell_in (dst :: news') a c).
  { intros a c news news' d Hc Hd Hnn. eapply cell_in_mono; [|exact Hc]. intros r' [->|Hr']%elem_of_cons; [exists dst|exists r'].
    - split; [by left|done].
    - split; [right; by apply Hnn|apply inside_refl]. }
  exists (st1 ∪ st2), (news2 ++ news1), pl2. split; [done|]. split; [done|]. split; [by rewrite <- app_assoc|].
  split; [rewrite map_app, reverse_app; by f_equal|]. split; [by apply map_disjoint_union_r|]. split; [by rewrite map_union_assoc|].
  split; [|split; [|split; [|auto]]].
  - intros a c [E|E]%lookup_union_Some; [| |done].
    + eapply Hcell; [by apply Hc1|done|set_solver].
    + eapply Hcell; [by apply Hc2|done|set_solver].
  - apply Hden; [eapply Hs1; [|done]; apply map_union_subseteq_l|eapply Hs2; [|done]; by apply map_union_subseteq_r].
  - intros a c E. destruct (Ho2 a c E) as [E'|Hc]; [destruct (Ho1 a c E') as [?|Hc]|]; [by left|right..].
    + eapply Hcell; [exact Hc|done|set_solver].
    + eapply Hcell; [exact Hc|done|set_solver].
Qed.

Lemma alloc_step n m pl rs k : pool_at q m pl -> room pl (1 + k) -> 0 <= k -> regions_ok pl (m_heap m) rs -> 0 < n <= 2 ^ 64 - 8 ->
  exists r m' pl', mem_pool_alloc q n m = (r, m') /\ pool_at q m' pl' /\ room pl' k /\
    regions_ok pl' (m_heap m') (match r with Some a => (a, n) :: rs | None => rs end) /\
    (h_refuse (m_heap m) = [] -> is_Some r /\ h_refuse (m_heap m') = []).
Proof.
  intros [E Hok] [Hr1 Hr2] Hk Hrs Hn. unfold mem_pool_alloc. rewrite E.
  pose proof (amqp_pool_alloc_post pl (m_heap m) n Hok ltac:(lia) ltac:(lia) Hn) as Hpost.
  destruct (amqp_pool_alloc n _) as [[r| | |] [pl' h']]; try done. destruct Hpost as (Hok' & _ & Hregs & Href & Hp1 & Hp2).
  do 3 eexists. split; [done|]. split; [split; [apply lookup_insert_eq|done]|]. split; [unfold room; lia|]. split; [by apply Hregs|].
  intros Hr. by destruct (Href Hr) as (? & ? & _).
Qed.

(** A new block, its address stored at [ptr], and what fills it. *)
Lemma fills_alloc {A : Type} (n : Z) (ptr : addr) (body : addr -> run_t) (value : eff memory A) (x : A) dst src den need :
  0 < n <= 2 ^ 64 - 8 -> inside (ptr, 8) dst -> stable src -> (forall a, stable (den a)) ->
  (forall a, fills (body a) value x (a, n) (fun st => src st /\ st !! ptr = Some (C_PTR (Some a))) (den a) need) ->
  fills (let! r := alloc q n in do! write ptr (C_PTR r) in let! a := check_memory ptr in body a)
    (do! pool_bytes q n in value) x dst src (fun st => exists a, st !! ptr = Some (C_PTR (Some a)) /\ den a st) (n :: need).
Proof.
  intros Hn Hin Hss Hsd Hf m st st0 rs pl k Hpl Hroom Hk Hrs (r & Hr & Hdr) Hfr Hsub Hsrc.
  pose proof (zlen_nonneg need) as Hn1. rewrite zlen_cons, <- Z.add_assoc in Hroom.
  destruct (alloc_step n m pl rs (zlen need + k) Hpl Hroom ltac:(lia) Hrs Hn) as (ra & m1 & pl1 & E1 & Hpl1 & Hroom1 & Hrs1 & Hr1).
  assert (Ea : alloc q n (m, st) = (Ret ra, (m1, st))) by (unfold alloc; simpl; by rewrite E1).
  rewrite (bind_step _ _ _ _ _ Ea). set (c := C_PTR ra). assert (Hc : csize c = 8) by done.
  rewrite (bind_step _ _ _ tt (m1, put ptr c st)) by done.
  pose proof (put_frame rs dst st0 st ptr c Hfr Hsub Hin ltac:(lia)) as Hput.
  assert (Eb : read as_ptr ptr (m1, put ptr c st) = (Ret ra, (m1, put ptr c st))) by (unfold read, put; by rewrite lookup_insert_eq).
  unfold check_memory. rewrite bind_assoc, (bind_step _ _ _ _ _ Eb).
  assert (Ev : (do! pool_bytes q n in value) m = match ra with Some _ => value m1 | None => (Err AMQP_STATUS_NO_MEMORY, m1) end).
  { unfold bind, pool_bytes. simpl. rewrite E1. by destruct ra. }
  rewrite Ev. destruct ra as [a|].
  2:{ split; [done|]. split; [done|]. split; [|done]. intros Hr'. by destruct (Hr1 Hr') as [[? ?] _]. }
  rewrite bind_ret_l. pose proof (framed_fresh _ _ _ _ c Hfr Hin ltac:(lia)) as Hnew.
  assert (Hptr : cell_in (dst :: []) ptr c) by (split; [lia|exists dst; split; [by left|done]]).
  assert (Hap : forall r', r' ∈ rs -> apart r' (a, n)).
  { intros r' Hr'. apply apart_sym. exact (ordpairs_app _ [(a, n)] rs _ _ (proj2 Hrs1) ltac:(by left) Hr'). }
  assert (Hfr1 : framed ((a, n) :: rs) (a, n) (st0 ∪ {[ptr := c]})).
  { intros a' c' [E|E]%lookup_union_Some; [| |by apply map_disjoint_singleton_r].
    - destruct (Hfr a' c' E) as [(H0 & r' & Hr' & Hin') _]. split; [split; [done|exists r'; split; [by right|done]]|].
      eapply apart_inside; [by apply Hap|done|apply inside_refl].
    - apply lookup_singleton_Some in E as [<- <-]. split; [split; [lia|exists r; split; [by right|by eapply inside_trans]]|].
      eapply apart_inside; [by apply (Hap r)|by eapply inside_trans|apply inside_refl]. }
  assert (Hsub1 : st0 ∪ {[ptr := c]} ⊆ put ptr c st).
  { apply map_union_least; [done|]. apply map_singleton_subseteq_l. unfold put. apply lookup_insert_eq. }
  assert (Hd0 : st0 ##ₘ {[ptr := c]}) by (by apply map_disjoint_singleton_r).
  specialize (Hf a m1 (put ptr c st) (st0 ∪ {[ptr := c]}) ((a, n) :: rs) pl1 k Hpl1 Hroom1 Hk Hrs1).
  specialize (Hf ltac:(exists (a, n); split; [by left|apply inside_refl]) Hfr1 Hsub1).
  specialize (Hf ltac:(split; [eapply Hss; [apply map_union_subseteq_l|done]|apply lookup_union_Some; [done|right; apply lookup_singleton_eq]])).
  destruct (body a _) as [[[]|s| |] [m2 stb]]; try done.
  2:{ destruct Hf as (E & Es & Hr2 & Hs). split; [done|]. split; [done|]. split; [intros Hr'; apply Hr2; by apply Hr1|].
      etransitivity; [apply map_union_subseteq_l|done]. }
  destruct Hf as (E2 & st2 & news & pl2 & Hpl2 & Hroom2 & Hrs2 & Hsz & Hd2 & Hu2 & Hc2 & Hden & Ho2 & Hr2). split; [done|].
  apply map_disjoint_union_l in Hd2 as [Hd2 Hd12].
  assert (Hcell : forall a' c', cell_in ((a, n) :: news) a' c' -> cell_in (dst :: news ++ [(a, n)]) a' c').
  { intros a' c'. apply cell_in_mono. intros r' Hr'. exists r'. split; [set_solver|apply inside_refl]. }
  assert (Hptr' : cell_in (dst :: news ++ [(a, n)]) ptr c).
  { eapply cell_in_mono; [|exact Hptr]. intros r' ->%list_elem_of_singleton. exists dst. split; [by left|apply inside_refl]. }
  exists ({[ptr := c]} ∪ st2), (news ++ [(a, n)]), pl2. split; [done|]. split; [done|]. split; [by rewrite <- app_assoc|].
  split; [rewrite map_app, reverse_cons; by f_equal|]. split; [by apply map_disjoint_union_r|]. split; [by rewrite map_union_assoc|].
  split; [|split; [|split; [|intros Hr'; apply Hr2; by apply Hr1]]].
  - intros a' c' [E|E]%lookup_union_Some; [| |done]; [by apply lookup_singleton_Some in E as [<- <-]|by apply Hcell, Hc2].
  - exists a. split; [apply lookup_union_Some_l, lookup_singleton_eq|]. eapply Hsd; [|done]. by apply map_union_subseteq_r.
  - intros a' c' E. destruct (Ho2 a' c' E) as [E'|Hc']; [|right; by apply Hcell].
    apply put_other in E' as [E'|[= -> ->]]; [by left|by right].
Qed.

(** What [src] promises to exist. *)
Lemma fills_ex {A B : Type} run (value : eff memory A) (x : A) dst (src : B -> store_t -> Prop) den need :
  (forall y, fills run value x dst (src y) den need) -> fills run value x dst (fun st => exists y, src y st) den need.
Proof. intros Hf m st st0 rs pl k H1 H2 H3 H4 H5 H6 H7 [y H8]. by apply (Hf y m st st0 rs pl k). Qed.

Lemma fills_prop {A : Type} run (value : eff memory A) (x : A) dst (P : Prop) src den need :
  (P -> fills run value x dst src den need) -> fills run value x dst (fun st => P /\ src st) den need.
Proof. intros Hf m st st0 rs pl k H1 H2 H3 H4 H5 H6 H7 [HP H8]. by apply (Hf HP m st st0 rs pl k). Qed.

(** A value that does less to the pool. *)
Lemma fills_unit {A : Type} run (value : eff memory A) (x : A) dst src den need :
  fills run (bind (ret tt) (fun _ => value)) x dst src den need -> fills run value x dst src den need.
Proof. by apply fills_ext. Qed.

Lemma inside_field a n len len' : 0 <= n -> n + len <= len' -> inside (field a n, len) (a, len').
Proof. destruct a. unfold inside, field. cbn. lia. Qed.

Lemma inside_start a len len' : len <= len' -> inside (a, len) (a, len').
Proof. destruct a. unfold inside. lia. Qed.

Lemma apart_fields a n len : apart (a, n) (field a n, len).
Proof. destruct a. unfold apart, field. cbn. lia. Qed.

Lemma field_0 a : field a 0 = a.
Proof. unfold field. rewrite Z.add_0_r. by destruct a. Qed.

Lemma field_field a n m : field (field a n) m = field a (n + m).
Proof. unfold field. cbn. f_equal. lia. Qed.

(** A struct of two fields of 8 bytes. *)
Lemma fills_pair {B : Type} a run1 den1 run2 (value : eff memory B) (y : B) src den2 need2 den :
  stable src -> stable den1 -> stable den2 -> (forall st, den1 st -> den2 st -> den st) ->
  fills run1 (ret tt) tt (a, 8) src den1 [] -> fills run2 value y (field a 8, 8) (fun st => src st /\ den1 st) den2 need2 ->
  fills (do! run1 in run2) value y (a, 16) src den need2.
Proof.
  intros Hss Hs1 Hs2 Hd Hf1 Hf2. apply fills_unit. apply (fills_seq run1 (ret tt) tt (a, 8) den1 [] run2 (fun _ => value) y (field a 8, 8) den2);
    [done..|apply apart_fields|by apply inside_start|by apply inside_field|done|done|done].
Qed.

Lemma fills_copy_bytes bs o c src : stable src -> bs <> [] -> zlen bs < 2 ^ 63 -> (forall st, src st -> bytes_at st bs o) ->
  fills (copy_bytes q (zlen bs) o c) (pool_bytes q (zlen bs)) tt (c, 16) src (fun st => bytes_at st bs c) [zlen bs].
Proof.
  intros Hss Hne Hlen Hsrc. assert (Hpos : 0 < zlen bs) by (destruct bs; [done|zlia]).
  apply (fills_ext (do! write c (C_SIZE (zlen bs)) in
      let! r := alloc q (zlen bs) in do! write (field c 8) (C_PTR r) in let! d := check_memory (field c 8) in
      (let! s := read as_addr (field o 8) in let! n := read as_size c in memcpy d s n)) _
    (do! pool_bytes q (zlen bs) in ret tt)).
  { intros [m st]. unfold copy_bytes, pool_alloc_bytes_at, bind, alloc, write. by destruct (pool_alloc _ _ _). }
  { intros m. unfold bind, ret. by destruct (pool_bytes q _ m) as [[[]| | |] ?]. }
  eapply (fills_pair c _ (fun st => st !! c = Some (C_SIZE (zlen bs))) _ _ _ _
    (fun st => exists d, st !! field c 8 = Some (C_PTR (Some d)) /\ st !! d = Some (C_DATA bs))); [done|stab..| | |].
  - intros st E (d & Ed & Eb). split; [done|]. eexists. split; [done|]. right. by exists d.
  - apply fills_write; [done|by apply inside_start].
  - apply (fills_alloc _ _ _ _ _ _ _ (fun a st => st !! a = Some (C_DATA bs))); [lia|apply inside_refl|stab|intros; stab|].
    intros d. apply (fills_weaken _ _ _ _ (fun st => exists s, bs <> [] /\ (st !! field o 8 = Some (C_PTR (Some s)) /\
      st !! s = Some (C_DATA bs) /\ st !! c = Some (C_SIZE (zlen bs)))) _ (fun st => st !! d = Some (C_DATA bs))); [|done|].
    { intros st ((Hs & Ec) & _). destruct (Hsrc _ Hs) as (_ & p & Ep & [->|(s & -> & Es)]); [done|by exists s]. }
    apply fills_ex. intros s. apply fills_prop. intros _.
    eapply (fills_read _ _ s); [intros st (E & _); by eexists|].
    eapply (fills_read _ _ (zlen bs)); [intros st (_ & _ & E); by eexists|].
    eapply (fills_read _ _ bs); [intros st (_ & E & _); eexists; split; [done|cbn; by rewrite Z.eqb_refl]|].
    apply fills_write; [done|]. apply inside_refl.
Qed.

(** ** Arrays of entries *)

Lemma each_at_lookup {A : Type} (den : A -> addr -> Prop) size l : forall a n x,
  each_at den size l a -> l !! n = Some x -> den x (field a (size * Z.of_nat n)).
Proof.
  induction l as [|y l IH]; intros a [|n] x; cbn; [done..| |].
  - intros [Hy _] [= <-]. by rewrite Z.mul_0_r, field_0.
  - intros [_ Hl] E. specialize (IH _ _ _ Hl E). rewrite field_field in IH.
    by replace (size * Z.of_nat (S n)) with (size + size * Z.of_nat n) by lia.
Qed.

Lemma stable_each_at {A : Type} (den : A -> addr -> store_t -> Prop) size l :
  (forall x a, stable (den x a)) -> forall a, stable (fun st => each_at (fun x a => den x a st) size l a).
Proof.
  intros Hd a st st' Hs. apply each_at_impl. apply Forall_forall. intros x _ b. by apply Hd.
Qed.

Lemma fills_each {A : Type} (f : Z -> run_t) (vf : A -> eff memory A) (den : A -> addr -> store_t -> Prop) (cost : A -> list Z) size l src :
  0 <= size -> stable src -> (forall x a, stable (den x a)) -> forall i base,
  (forall j x, l !! j = Some x ->
     fills (f (i + Z.of_nat j)) (vf x) x (field base (size * Z.of_nat j), size) src (den x (field base (size * Z.of_nat j))) (cost x)) ->
  fills (for_each f (seqZ i (zlen l))) (clone_each vf l) l (base, size * zlen l) src
    (fun st => each_at (fun x a => den x a st) size l base) (concat (map cost l)).
Proof.
  intros H0 Hss Hsd. induction l as [|x l IH]; intros i base Hf.
  { apply (fills_map (fun _ => []) (ret tt) (ret tt) tt). apply fills_ret. }
  rewrite zlen_cons. pose proof (zlen_nonneg l). rewrite seqZ_cons by lia. replace (Z.pred (1 + zlen l)) with (zlen l) by lia.
  specialize (IH (Z.succ i) (field base size)).
  eapply (fills_seq _ _ x (base, size) (den x base) (cost x) _ (fun y => let! ys := clone_each vf l in ret (y :: ys)) _
    (field base size, size * zlen l) (fun st => each_at (fun x a => den x a st) size l (field base size)));
    [done..|by apply stable_each_at|apply apart_fields|apply inside_start; nia|apply inside_field; nia|done| |].
  - specialize (Hf O x eq_refl). by rewrite Z.mul_0_r, Z.add_0_r, field_0 in Hf.
  - apply (fills_map (cons x)). apply (fills_weaken _ _ _ _ src _ (fun st => each_at (fun x a => den x a st) size l (field base size)));
      [by intros st [? _]|done|].
    apply IH. intros j y Ej. specialize (Hf (S j) y Ej). rewrite field_field.
    replace (Z.succ i + Z.of_nat j) with (i + Z.of_nat (S j)) by lia.
    by replace (size + size * Z.of_nat j) with (size * Z.of_nat (S j)) by lia.
Qed.

(** The entries of an array of the original. *)
Definition entries_of {A : Type} (den : store_t -> A -> addr -> Prop) (size : Z) (l : list A) (o : addr) (st : store_t) : Prop :=
  exists e, st !! field o 8 = Some (C_PTR (Some e)) /\ each_at (den st) size l e.

Lemma fills_entries {A : Type} (elem : addr -> addr -> run_t) vf (den : store_t -> A -> addr -> Prop) cost size l o c d src :
  0 <= size -> stable src -> (forall x a, stable (fun st => den st x a)) ->
  (forall st, src st -> entries_of den size l o st) ->
  Forall (fun x => forall o c, fills (elem o c) (vf x) x (c, size) (fun st => den st x o) (fun st => den st x c) (cost x)) l ->
  fills (clone_entries elem size o c) (clone_each vf l) l (d, size * zlen l)
    (fun st => (src st /\ st !! c = Some (C_INT (zlen l))) /\ st !! field c 8 = Some (C_PTR (Some d)))
    (fun st => each_at (den st) size l d) (concat (map cost l)).
Proof.
  intros H0 Hss Hsd Hsrc Hel. unfold clone_entries.
  apply (fills_weaken _ _ _ _ (fun st => exists e, (st !! c = Some (C_INT (zlen l)) /\ st !! field c 8 = Some (C_PTR (Some d)) /\
    st !! field o 8 = Some (C_PTR (Some e)) /\ each_at (den st) size l e)) _ (fun st => each_at (den st) size l d)); [|done|].
  { intros st ((Hs & E1) & E2). destruct (Hsrc _ Hs) as (e & Ee & He). by exists e. }
  apply fills_ex. intros e. eapply (fills_read _ _ (zlen l)); [intros st (E & _); by eexists|].
  apply (fills_each _ vf (fun x a st => den st x a) cost); [done| |intros; apply Hsd|].
  { stab. apply (stable_each_at (fun x a st => den st x a)). intros; apply Hsd. }
  intros j x Ej. cbn [Z.add]. eapply (fills_read _ _ e); [intros st (_ & _ & E & _); by eexists|].
  eapply (fills_read _ _ d); [intros st (_ & E & _); by eexists|].
  rewrite Forall_forall in Hel. eapply fills_weaken; [| |apply Hel; by eapply list_elem_of_lookup_2]; [|done].
  intros st (_ & _ & _ & He). by eapply each_at_lookup in He.
Qed.

(** Allocating an array of entries and filling it. *)
Lemma fills_array {A : Type} (elem : addr -> addr -> run_t) vf (den : store_t -> A -> addr -> Prop) cost size l o c src :
  0 < size <= 40 -> zlen l <= INT_MAX -> l <> [] -> stable src -> (forall x a, stable (fun st => den st x a)) ->
  (forall st, src st -> entries_of den size l o st) ->
  Forall (fun x => forall o c, fills (elem o c) (vf x) x (c, size) (fun st => den st x o) (fun st => den st x c) (cost x)) l ->
  fills (let! r := alloc q (wrap 64 (zlen l * size)) in do! write (field c 8) (C_PTR r) in
         let! _ := check_memory (field c 8) in clone_entries elem size o c)
    (do! pool_bytes q (wrap 64 (zlen l * size)) in clone_each vf l) l (field c 8, 8)
    (fun st => src st /\ st !! c = Some (C_INT (zlen l)))
    (fun st => exists d, st !! field c 8 = Some (C_PTR (Some d)) /\ each_at (den st) size l d)
    ((size * zlen l) :: concat (map cost l)).
Proof.
  intros Hsize Hlen Hne Hss Hsd Hsrc Hel. assert (Hpos : 0 < zlen l) by (destruct l; [done|zlia]).
  assert (Hmax : INT_MAX = 2 ^ 31 - 1) by done. rewrite wrap_small by (unfold in_u; nia). rewrite (Z.mul_comm (zlen l)).
  apply (fills_alloc _ _ (fun _ => clone_entries elem size o c) _ _ _ _ (fun d st => each_at (den st) size l d));
    [nia|apply inside_refl|stab| |].
  - intros d. apply (stable_each_at (fun x a st => den st x a)). intros; apply Hsd.
  - intros d. by apply fills_entries; [lia|..].
Qed.

(** ** Strings, entries, tables and values *)

(** A field that is written, read back, and written again by [k]. *)
Lemma fills_overwrite {A B : Type} (as_ : cell -> option B) a c0 (y : B) (k : B -> run_t) (value : eff memory A) (x : A) dst src den need :
  as_ c0 = Some y -> 0 < csize c0 -> inside (a, csize c0) dst -> fills (k y) value x dst src den need ->
  fills (do! write a c0 in let! z := read as_ a in k z) value x dst src den need.
Proof.
  intros Hy Hc Hin Hf m st st0 rs pl n H1 H2 H3 H4 H5 H6 H7 H8. rewrite (bind_step _ _ _ tt (m, put a c0 st)) by done.
  rewrite (bind_step _ _ _ y (m, put a c0 st)); [|unfold read, put; by rewrite lookup_insert_eq, Hy].
  specialize (Hf m (put a c0 st) st0 rs pl n H1 H2 H3 H4 H5 H6 (put_frame _ _ _ _ _ _ H6 H7 Hin Hc) H8).
  destruct (k y _) as [[[]|s| |] [m' st']]; try done. destruct Hf as [E (st1 & news & pl' & Hf)]. split; [done|].
  exists st1, news, pl'. destruct Hf as (? & ? & ? & ? & ? & ? & ? & ? & Ho & ?). do 8 (split; [done|]). split; [|done].
  intros a' c' E'. destruct (Ho a' c' E') as [E1|?]; [|by right]. apply put_other in E1 as [E1|[= -> ->]]; [by left|right].
  split; [done|]. exists dst. split; [by left|done].
Qed.

(** [amqp_empty_bytes], [amqp_empty_array] and [amqp_empty_table]. *)
Lemma fills_empty c c0 src den : stable src -> c0 = C_SIZE 0 \/ c0 = C_INT 0 ->
  (forall st, st !! c = Some c0 -> st !! field c 8 = Some (C_PTR None) -> den st) ->
  fills (do! write c c0 in write (field c 8) (C_PTR None)) (ret tt) tt (c, 16) src den [].
Proof.
  intros Hss Hc Hd. assert (0 < csize c0 <= 8) by (by destruct Hc as [-> | ->]).
  eapply (fills_pair c _ (fun st => st !! c = Some c0) _ _ _ _ (fun st => st !! field c 8 = Some (C_PTR None)));
    [done|stab..|exact Hd| |].
  - apply fills_write; [lia|]. apply inside_start. lia.
  - apply fills_write; [done|]. apply inside_refl.
Qed.

Lemma fills_bytes bs o c src : zlen bs < 2 ^ 63 -> stable src -> (forall st, src st -> bytes_at st bs o) ->
  fills (bytes_clone_at q o c) (clone_bytes q bs) bs (c, 16) src (fun st => bytes_at st bs c) (if zlen bs =? 0 then [] else [zlen bs]).
Proof.
  intros Hlen Hss Hsrc. eapply (fills_read _ _ (zlen bs)); [intros st Hs; eexists; split; [apply (Hsrc _ Hs)|done]|]. unfold clone_bytes.
  destruct (Z.eqb_spec (zlen bs) 0) as [E|E].
  - assert (bs = []) as -> by (destruct bs; [done|zlia]).
    apply (fills_map (fun _ => []) _ (ret tt) tt). apply fills_empty; [done|by left|].
    intros st E1 E2. split; [done|]. exists None. split; [done|by left].
  - apply (fills_map (fun _ : unit => bs) _ (pool_bytes q (zlen bs)) tt). by apply fills_copy_bytes; [|intros ->|..].
Qed.

Definition entry_blocks (vblocks : amqp_field_value_t -> list Z) (e : amqp_table_entry_t) : list Z :=
  match e with (k, v) => zlen k :: vblocks v end.

(** The cloner [f] of values clones [v]. *)
Definition clones_value (f : addr -> addr -> run_t) (vf : amqp_field_value_t -> eff memory amqp_field_value_t)
    (v : amqp_field_value_t) : Prop :=
  forall o c, fills (f o c) (vf v) v (c, 24) (fun st => denotes st v o) (fun st => denotes st v c) (blocks v).

Lemma fills_entry f vf k v o c : k <> [] -> zlen k < 2 ^ 63 -> clones_value f vf v ->
  fills (table_entry_clone_with_at q f o c) (amqp_table_entry_clone_with q vf (k, v)) (k, v) (c, 40)
    (fun st => entry_at st (k, v) o) (fun st => entry_at st (k, v) c) (entry_blocks blocks (k, v)).
Proof.
  intros Hne Hlen Hv. eapply (fills_read _ _ (zlen k)); [intros st [[E _] _]; by eexists|]. cbn [amqp_table_entry_clone_with].
  assert (zlen k =? 0 = false) as -> by (apply Z.eqb_neq; destruct k; [done|zlia]).
  eapply (fills_seq _ _ tt (c, 16) (fun st => bytes_at st k c) [zlen k] _ (fun _ => let! v' := vf v in ret (k, v')) _ (field c 16, 24)
    (fun st => denotes st v (field c 16)));
    [unfold entry_at; stab|stab..|apply apart_fields|by apply inside_start|by apply inside_field|by split| |].
  - apply fills_copy_bytes; [unfold entry_at; stab|done|done|by intros st []].
  - apply (fills_map (pair k)). eapply fills_weaken; [| |apply Hv]; [by intros st [[_ H] _]|done].
Qed.

Lemma entry_stable e a : stable (fun st => entry_at st e a).
Proof. destruct e. unfold entry_at. stab. Qed.

Lemma fills_table f vf t o c src : zlen t <= INT_MAX -> stable src -> (forall st, src st -> table_at st t o) ->
  Forall (fun e => match e with (k, v) => k <> [] /\ zlen k < 2 ^ 63 /\ clones_value f vf v end) t ->
  fills (table_clone_with_at q f o c) (amqp_table_clone_with q vf t) t (c, 16) src (fun st => table_at st t c)
    (if zlen t =? 0 then [] else (40 * zlen t) :: concat (map (entry_blocks blocks) t)).
Proof.
  intros Hlen Hss Hsrc Ht. eapply (fills_read _ _ (zlen t)); [intros st Hs; eexists; split; [apply (Hsrc _ Hs)|done]|].
  unfold amqp_table_clone_with. destruct (Z.eqb_spec (zlen t) 0) as [E|E].
  - assert (t = []) as -> by (destruct t; [done|zlia]). apply (fills_overwrite _ _ _ 0); [done..|by apply inside_start|].
    apply (fills_map (fun _ => []) _ (ret tt) tt). apply fills_empty; [done|by right|].
    intros st E1 E2. split; [done|]. exists None. split; [done|by left].
  - assert (Hne : t <> []) by (by intros ->).
    eapply (fills_pair c _ (fun st => st !! c = Some (C_INT (zlen t))) _ _ _ _
      (fun st => exists d, st !! field c 8 = Some (C_PTR (Some d)) /\ each_at (entry_at st) 40 t d)); [done|stab| | | |].
    + stab. apply (stable_each_at (fun x a st => entry_at st x a)). apply entry_stable.
    + intros st E1 (d & E2 & Hd). split; [done|]. eexists. split; [done|]. right. by exists d.
    + apply fills_write; [done|]. by apply inside_start.
    + eapply (fills_read _ _ (zlen t)); [intros st [_ E1]; by eexists|].
      assert (zlen t =? 0 = false) as -> by (by apply Z.eqb_neq).
      apply (fills_array _ _ (fun st e a => entry_at st e a)); [done..|apply entry_stable| |].
      * intros st Hs. destruct (Hsrc _ Hs) as (_ & p & Ep & [?|(e & -> & He)]); [done|by exists e].
      * eapply Forall_impl; [exact Ht|]. intros [k v] (Hk1 & Hk2 & Hv) o' c'. by apply fills_entry.
Qed.

Lemma fills_fv_array f vf b l o c src : (b = true <-> l = []) -> zlen l <= INT_MAX -> stable src ->
  (forall st, src st -> list_at (denotes st) 24 st l o /\ exists p, st !! field o 8 = Some (C_PTR p) /\ (b = true <-> p = None)) ->
  Forall (clones_value f vf) l ->
  fills (array_clone_at q f o c)
    (if b then ret (FV_ARRAY true []) else
     do! pool_bytes q (wrap 64 (zlen l * sizeof layout_amqp_field_value_t)) in
     let! entries' := clone_each vf l in ret (FV_ARRAY false entries')) (FV_ARRAY b l) (c, 16) src
    (fun st => list_at (denotes st) 24 st l c /\ exists p, st !! field c 8 = Some (C_PTR p) /\ (b = true <-> p = None))
    (if b then [] else (24 * zlen l) :: concat (map blocks l)).
Proof.
  intros Hb Hlen Hss Hsrc Hl. unfold array_clone_at.
  eapply (fills_weaken _ _ _ _ (fun st => exists e, src st /\ (st !! field o 8 = Some (C_PTR e) /\ (b = true <-> e = None)))); [|intros st Hd; exact Hd|].
  { intros st Hs. destruct (Hsrc _ Hs) as (_ & e & He). by exists e. }
  apply fills_ex. intros e. eapply (fills_read _ _ e); [intros st (_ & E & _); by eexists|].
  apply (fills_weaken _ _ _ _ (fun st => (b = true <-> e = None) /\ src st) _ (fun st => list_at (denotes st) 24 st l c /\
    exists p, st !! field c 8 = Some (C_PTR p) /\ (b = true <-> p = None))); [by intros st (? & _ & ?)|done|].
  apply fills_prop. intros He. destruct b, e as [e|]; try (by destruct He as [He1 He2]; discriminate (He1 eq_refl) || discriminate (He2 eq_refl)).
  - pose proof (proj1 Hb eq_refl) as ->. apply (fills_map (fun _ => FV_ARRAY true []) _ (ret tt) tt). apply fills_empty; [done|by right|].
    intros st E1 E2. split; [|by exists None]. split; [done|]. exists None. split; [done|by left].
  - assert (Hne : l <> []) by (intros Hn; by apply Hb in Hn).
    eapply (fills_read _ _ (zlen l)); [intros st Hs; destruct (Hsrc _ Hs) as [[E _] _]; by eexists|].
    eapply (fills_pair c _ (fun st => st !! c = Some (C_INT (zlen l))) _ _ _ _
      (fun st => exists d, st !! field c 8 = Some (C_PTR (Some d)) /\ each_at (denotes st) 24 l d)); [done|stab| | | |].
    + stab. apply (stable_each_at (fun x a st => denotes st x a)). intros; stab.
    + intros st E1 (d & E2 & Hd). split; [|by exists (Some d)]. split; [done|]. eexists. split; [done|]. right. by exists d.
    + apply fills_write; [done|]. by apply inside_start.
    + eapply (fills_read _ _ (zlen l)); [intros st [_ E1]; by eexists|].
      eapply fills_ext; [reflexivity| |apply (fills_map (FV_ARRAY false)), (fills_array f vf denotes blocks)]; [|done..|intros; stab| |].
      * intros m. unfold bind. destruct (pool_bytes _ _ _) as [[[]| | |] ?]; [|done..]. by destruct (clone_each _ _ _) as [[]?].
      * intros st Hs. destruct (Hsrc _ Hs) as ((_ & p & Ep & [?|(a & -> & Ha)]) & _); [done|by exists a].
      * exact Hl.
Qed.

(** [kind], and then the union. *)
Lemma fills_value n o c run (value : eff memory amqp_field_value_t) v (den : store_t -> addr -> Prop) need :
  let cases :=
    map (fun k => (k, copy_member k o c)) plain_kinds ++
    [(AMQP_FIELD_KIND_UTF8, bytes_clone_at q (field o 8) (field c 8));
     (AMQP_FIELD_KIND_BYTES, bytes_clone_at q (field o 8) (field c 8));
     (AMQP_FIELD_KIND_ARRAY, array_clone_at q (field_value_clone_at q n) (field o 8) (field c 8));
     (AMQP_FIELD_KIND_TABLE, table_clone_with_at q (field_value_clone_at q n) (field o 8) (field c 8));
     (AMQP_FIELD_KIND_VOID, ret tt)] in
  switch (fv_kind v) cases (fail AMQP_STATUS_INVALID_PARAMETER) = run ->
  (forall a, stable (fun st => den st a)) ->
  (forall st a, denotes st v a <-> st !! a = Some (C_KIND (fv_kind v)) /\ den st a) ->
  fills run value v (field c 8, 16) (fun st => den st o) (fun st => den st c) need ->
  fills (field_value_clone_at q (S n) o c) value v (c, 24) (fun st => denotes st v o) (fun st => denotes st v c) need.
Proof.
  intros cases Hrun Hsd Hden Hf. cbn [field_value_clone_at]. fold cases.
  eapply (fills_read _ _ (fv_kind v)); [intros st Hs%Hden; eexists; split; [apply Hs|done]|].
  apply fills_unit. apply (fills_seq _ (ret tt) tt (c, 1) (fun st => st !! c = Some (C_KIND (fv_kind v))) [] _ (fun _ => value) v
    (field c 8, 16) (fun st => den st c)); [stab..|apply Hsd| | | | | |].
  - destruct c. unfold apart, field. cbn. lia.
  - by apply inside_start.
  - by apply inside_field.
  - intros st E1 E2. by apply Hden.
  - apply fills_write; [done|]. by apply inside_start.
  - eapply (fills_read _ _ (fv_kind v)); [intros st [_ E]; by eexists|]. rewrite Hrun.
    eapply fills_weaken; [|intros st H; exact H|exact Hf]. by intros st [[_ ?]%Hden _].
Qed.

Lemma fills_plain n v o c :
  match v with
  | FV_UTF8 _ | FV_BYTES _ | FV_ARRAY _ _ | FV_TABLE _ | FV_VOID | FV_OTHER _ => False
  | _ => True
  end ->
  fills (field_value_clone_at q (S n) o c) (ret v) v (c, 24) (fun st => denotes st v o) (fun st => denotes st v c) [].
Proof.
  intros Hv. assert (Hm : fills (copy_member (fv_kind v) o c) (ret v) v (field c 8, 16)
    (fun st => st !! field o 8 = Some (C_MEMBER v)) (fun st => st !! field c 8 = Some (C_MEMBER v)) []).
  { eapply (fills_read _ _ v); [intros st E; eexists; split; [exact E|unfold as_member; by rewrite Z.eqb_refl]|].
    apply (fills_map (fun _ => v) _ (ret tt) tt). apply fills_write; [done|]. by apply inside_start. }
  apply (fills_value n o c (copy_member (fv_kind v) o c) _ v (fun st a => st !! field a 8 = Some (C_MEMBER v)));
    [by destruct v|intros; stab|by destruct v|exact Hm].
Qed.

Lemma foldr_max_lt {A : Type} (h : A -> nat) l x n : (foldr (fun x n => Nat.max (h x) n) O l < n)%nat -> x ∈ l -> (h x < n)%nat.
Proof. induction l as [|y l IH]; cbn; intros Hn Hx; [by apply elem_of_nil in Hx|]. apply elem_of_cons in Hx as [->|Hx]; [lia|]. apply IH; [lia|done]. Qed.

Lemma clones_values v : forall n, clonable v -> (height v < n)%nat -> clones_value (field_value_clone_at q n) (amqp_field_value_clone q) v.
Proof.
  revert v. apply (fv_ind (fun v => forall n, clonable v -> (height v < n)%nat -> clones_value (field_value_clone_at q n) (amqp_field_value_clone q) v)).
  - intros v. destruct v; try done; intros [|n] Hc Hn; try lia; intros o c; try (by apply fills_plain).
    + eapply (fills_value n o c _ _ _ (fun st a => bytes_at st bytes (field a 8))); [reflexivity|intros; stab|done|].
      apply (fills_map FV_UTF8). apply fills_bytes; [exact Hc|stab|intros st H; exact H].
    + eapply (fills_value n o c _ _ _ (fun st a => bytes_at st bytes (field a 8))); [reflexivity|intros; stab|done|].
      apply (fills_map FV_BYTES). apply fills_bytes; [exact Hc|stab|intros st H; exact H].
    + eapply (fills_value n o c _ _ _ (fun st a => True)); [reflexivity|intros; stab|done|].
      apply (fills_map (fun _ => FV_VOID) _ (ret tt) tt). apply fills_ret.
  - intros b l IH [|n] (Hb & Hlen & Hl) Hn o c; [lia|]. rewrite allP_Forall in Hl. cbn [height] in Hn.
    assert (Hst : forall a, stable (fun st => list_at (denotes st) 24 st l (field a 8) /\
      exists p, st !! field (field a 8) 8 = Some (C_PTR p) /\ (b = true <-> p = None))).
    { intros a. apply stable_and; [|stab]. apply (stable_list_at denotes). apply Forall_forall. intros x _. apply stable_denotes. }
    eapply (fills_value n o c _ _ _ (fun st a => list_at (denotes st) 24 st l (field a 8) /\
      exists p, st !! field (field a 8) 8 = Some (C_PTR p) /\ (b = true <-> p = None))); [reflexivity|exact Hst|done|].
    apply fills_fv_array; [done|done|apply Hst|done|]. rewrite Forall_forall in *. intros v Hv. apply IH; [done|by apply Hl|].
    apply (foldr_max_lt height l); [lia|done].
  - intros l IH [|n] (Hlen & Hl) Hn o c; [lia|]. rewrite allP_Forall in Hl. cbn [height] in Hn.
    eapply (fills_value n o c _ _ _ (fun st a => table_at st l (field a 8))); [reflexivity| |done|].
    { intros a. apply (stable_list_at entry_at). apply Forall_forall. intros x _. apply entry_stable. }
    apply (fills_map FV_TABLE). apply fills_table; [done| |done|].
    { apply (stable_list_at entry_at). apply Forall_forall. intros x _. apply entry_stable. }
    rewrite Forall_forall in *. intros [k v] Hin. destruct (Hl _ Hin) as (Hk1 & Hk2 & Hv). split; [done|]. split; [done|].
    apply (IH _ Hin); [done|]. apply (foldr_max_lt (fun e => match e with (_, v) => height v end) l (k, v)); [|done].
    apply Nat.succ_lt_mono in Hn. eapply Nat.le_lt_trans; [|exact Hn]. apply Nat.eq_le_incl. apply foldr_ext; [|done..]. by intros [] ?.
Qed.

End Rules.

(** ** The clone *)

(** The blocks of a table. *)
Definition table_blocks (t : amqp_table_t) : list Z := blocks (FV_TABLE t).

(** C0: [amqp_table_clone] makes a deep copy.  The caller holds the regions [rs]; the
    cells [used] in them, apart from [dest], hold the table [t] at [original].  Then the
    call returns and the copy holds [t] at [dest] in cells of its own: they are in [dest]
    and in new blocks, one for each block of [t] and of its size, apart from each other
    and from everything in [rs]; nothing else is written, so the original is still there.
    The pool, the result and the error are those of [amqp_table_clone] on values.  The
    call fails only when [malloc] refuses, with [NO_MEMORY], and then leaves [used] alone.
    The fuel it takes is the depth of the table. *)
Theorem table_clone_deep q t fuel original dest m st used rs pl :
  pool_at q m pl -> room pl (zlen (table_blocks t)) -> regions_ok pl (m_heap m) rs ->
  (exists r, r ∈ rs /\ inside (dest, 16) r) -> framed rs (dest, 16) used -> used ⊆ st ->
  table_at used t original -> clonable (FV_TABLE t) -> (height (FV_TABLE t) <= fuel)%nat ->
  match table_clone_at q fuel original dest (m, st) with
  | (Ret _, (m', st')) =>
      amqp_table_clone q t m = (Ret t, m') /\
      exists copy news pl',
        pool_at q m' pl' /\ regions_ok pl' (m_heap m') (news ++ rs) /\ map snd news = reverse (table_blocks t) /\
        table_at copy t dest /\ (forall a c, copy !! a = Some c -> cell_in ((dest, 16) :: news) a c) /\
        used ##ₘ copy /\ used ∪ copy ⊆ st' /\
        (forall a c, st' !! a = Some c -> st !! a = Some c \/ cell_in ((dest, 16) :: news) a c)
  | (Err s, (m', st')) =>
      amqp_table_clone q t m = (Err s, m') /\ s = AMQP_STATUS_NO_MEMORY /\ h_refuse (m_heap m) <> [] /\ used ⊆ st'
  | _ => False
  end.
Proof.
  intros Hpl Hroom Hrs Hdest Hfr Hsub Ht [Hlen Hc] Hfuel. rewrite allP_Forall in Hc.
  assert (Hf : fills q (table_clone_at q fuel original dest) (amqp_table_clone q t) t (dest, 16) (fun st => table_at st t original)
    (fun st => table_at st t dest) (table_blocks t)).
  { apply fills_table; [done| |done|].
    - apply (stable_list_at entry_at). apply Forall_forall. intros x _. apply entry_stable.
    - rewrite Forall_forall in *. intros [k v] Hin. destruct (Hc _ Hin) as (Hk1 & Hk2 & Hv). split; [done|]. split; [done|].
      apply clones_values; [done|]. apply (foldr_max_lt (fun e => match e with (_, v) => height v end) t (k, v)); [|done].
      cbn [height] in Hfuel. eapply Nat.lt_le_trans; [|exact Hfuel]. apply Nat.lt_succ_r, Nat.eq_le_incl.
      apply foldr_ext; [|done..]. by intros [] ?. }
  rewrite <- (Z.add_0_r (zlen _)) in Hroom. specialize (Hf m st used rs pl 0 Hpl Hroom ltac:(done) Hrs Hdest Hfr Hsub Ht).
  destruct (table_clone_at _ _ _ _ _) as [[[]|s| |] [m' st']]; try done. destruct Hf as [E Hf]. split; [done|].
  destruct Hf as (copy & news & pl' & H1 & _ & H2 & H3 & H4 & H5 & H6 & H7 & H8 & _). by exists copy, news, pl'.
Qed.

(** *** A table of one entry, in a block of the caller's *)

Definition demo_entry : amqp_table_t := [([x61], FV_UTF8 [x62])].
Definition demo_cells : list (Z * Z * cell) :=
  [((0, 0), C_INT 1); ((0, 8), C_PTR (Some (0, 16)));
   ((0, 16), C_SIZE 1); ((0, 24), C_PTR (Some (0, 56))); ((0, 32), C_KIND AMQP_FIELD_KIND_UTF8);
   ((0, 40), C_SIZE 1); ((0, 48), C_PTR (Some (0, 57))); ((0, 56), C_DATA [x61]); ((0, 57), C_DATA [x62])].
Definition demo_used : store_t := list_to_map demo_cells.
Definition demo_caller : memory := mk_memory (mk_heap {[0 := 80]} 1 [false; false; false; true]) {[7 := init_amqp_pool 4096]} ∅ 0.

Example demo_table_clone :
  fst (table_clone_at 7 2 (0, 0) (0, 64) (demo_caller, demo_used)) = Ret tt /\
  fst (table_clone_at 7 2 (0, 0) (0, 64) (mk_memory (mk_heap {[0 := 80]} 1 [false; true]) {[7 := init_amqp_pool 4096]} ∅ 0, demo_used))
    = Err AMQP_STATUS_NO_MEMORY.
Proof. split; vm_compute; reflexivity. Qed.

Example table_clone_deep_witness :
  match table_clone_at 7 2 (0, 0) (0, 64) (demo_caller, demo_used) with
  | (Ret _, (m', st')) =>
      amqp_table_clone 7 demo_entry demo_caller = (Ret demo_entry, m') /\
      exists copy news pl',
        pool_at 7 m' pl' /\ regions_ok pl' (m_heap m') (news ++ [((0, 0), 80)]) /\ map snd news = reverse (table_blocks demo_entry) /\
        table_at copy demo_entry (0, 64) /\ (forall a c, copy !! a = Some c -> cell_in (((0, 64), 16) :: news) a c) /\
        demo_used ##ₘ copy /\ demo_used ∪ copy ⊆ st' /\
        (forall a c, st' !! a = Some c -> demo_used !! a = Some c \/ cell_in (((0, 64), 16) :: news) a c)
  | (Err s, (m', st')) =>
      amqp_table_clone 7 demo_entry demo_caller = (Err s, m') /\ s = AMQP_STATUS_NO_MEMORY /\
      h_refuse (m_heap demo_caller) <> [] /\ demo_used ⊆ st'
  | _ => False
  end.
Proof.
  assert (Hin : forall a n, 0 <= a -> a + n <= 80 -> inside ((0, a), n) ((0, 0), 80)) by (intros a n ? ?; unfold inside; lia).
  apply (table_clone_deep 7 demo_entry 2 (0, 0) (0, 64) demo_caller demo_used demo_used [((0, 0), 80)] (init_amqp_pool 4096)).
  - split; [done|]. apply (pool_inv_init 4096); [|lia]. intros b s. cbn. rewrite lookup_singleton_Some. lia.
  - by vm_compute.
  - split; [|repeat constructor]. apply Forall_singleton. split; [by exists 80|]. split; [by exists 0|]. split; [set_solver|]. split; [set_solver|done].
  - exists ((0, 0), 80). split; [by left|by apply Hin].
  - intros a c E. apply elem_of_list_to_map_2 in E. unfold demo_cells in E. unfold cell_in.
    repeat (apply elem_of_cons in E as [[= -> ->]|E];
      [split; [split; [done|exists ((0, 0), 80); split; [by left|by apply Hin]]|right; left; done]|]).
    by apply elem_of_nil in E.
  - done.
  - split; [done|]. exists (Some (0, 16)). split; [done|]. right. exists (0, 16). split; [done|]. split; [|done].
    split; [split; [done|]; exists (Some (0, 56)); split; [done|right; by exists (0, 56)]|].
    split; [done|]. split; [done|]. exists (Some (0, 57)). split; [done|]. right. by exists (0, 57).
  - split; [by vm_compute|]. by repeat split.
  - by apply Nat.leb_le.
Defined.
