(* ===== verification/MethodCodec.v ===== *)
(** * The steps method and property codecs are made of

    [librabbitmq/amqp_framing.c] is generated code: every case is a sequence of the
    few steps below, each with its own early return.  [field] is the AMQP argument
    a step carries; its lemmas are what the cases of [amqp_encode_method],
    [amqp_decode_method] and the property codecs are proved from. *)

From S2P Require Import Prelude Status Memory Codec Layout Table Pool PoolMem TableSpec.

(** ** Steps *)

Section Steps.
Context `{Host}.

Definition enc_u8 (v : Z) : eff enc_state unit := guard (amqp_encode_8 v) AMQP_STATUS_BAD_AMQP_DATA.
Definition enc_u16 (v : Z) : eff enc_state unit := guard (amqp_encode_16 v) AMQP_STATUS_BAD_AMQP_DATA.
Definition enc_u32 (v : Z) : eff enc_state unit := guard (amqp_encode_32 v) AMQP_STATUS_BAD_AMQP_DATA.
Definition enc_u64 (v : Z) : eff enc_state unit := guard (amqp_encode_64 v) AMQP_STATUS_BAD_AMQP_DATA.

(** [if (UINT8_MAX < s.len || !amqp_encode_8(.., (uint8_t)s.len) ||
    !amqp_encode_bytes(.., s)) return AMQP_STATUS_BAD_AMQP_DATA;] *)
Definition enc_shortstr (s : list byte) : eff enc_state unit :=
  if UINT8_MAX <? zlen s then fail AMQP_STATUS_BAD_AMQP_DATA
  else do! enc_u8 (wrap 8 (zlen s)) in
       guard (amqp_encode_bytes s) AMQP_STATUS_BAD_AMQP_DATA.
Definition enc_longstr (s : list byte) : eff enc_state unit :=
  if UINT32_MAX <? zlen s then fail AMQP_STATUS_BAD_AMQP_DATA
  else do! enc_u32 (wrap 32 (zlen s)) in
       guard (amqp_encode_bytes s) AMQP_STATUS_BAD_AMQP_DATA.

(** [if (v) bit_buffer |= (1 << i);] *)
Definition or_bit (v i bit_buffer : Z) : Z :=
  if v =? 0 then bit_buffer else wrap 8 (Z.lor bit_buffer (Z.shiftl 1 i)).
(** [(bit_buffer & (1 << i)) ? 1 : 0] *)
Definition get_bit (bit_buffer i : Z) : Z :=
  if Z.land bit_buffer (Z.shiftl 1 i) =? 0 then 0 else 1.

Context {Mem Pool : Type} `{MemOps Mem Pool}.

Definition dec_shortstr (encoded : list byte) : eff (dec_state Mem) (list byte) :=
  let! len := dec_u8 encoded in dec_bytes encoded len.
Definition dec_longstr (encoded : list byte) : eff (dec_state Mem) (list byte) :=
  let! len := dec_u32 encoded in dec_bytes encoded len.

(** [m = amqp_pool_alloc(pool, sizeof( *m )); if (m == NULL) return AMQP_STATUS_NO_MEMORY;] *)
Definition alloc_struct (pool : Pool) (l : layout) : eff (dec_state Mem) unit :=
  fun s => match pool_alloc pool (sizeof l) (d_mem s) with
           | (Some _, m) => (Ret tt, mk_dec (d_off s) m)
           | (None, m) => (Err AMQP_STATUS_NO_MEMORY, mk_dec (d_off s) m)
           end.

End Steps.

(** ** Arguments and their wire format *)

Inductive field : Type :=
| F8 (v : Z) | F16 (v : Z) | F32 (v : Z) | F64 (v : Z)
| FShort (s : list byte) | FLong (s : list byte)
| FTable (t : amqp_table_t)
| FBits (bits : list Z).

(** Consecutive bit arguments share a byte, the first in the lowest bit. *)
Fixpoint bits_val (bits : list Z) : Z :=
  match bits with [] => 0 | b :: bits' => b + 2 * bits_val bits' end.

Definition wire_field (f : field) : list byte :=
  match f with
  | F8 v => be_bytes 1 v
  | F16 v => be_bytes 2 v
  | F32 v => be_bytes 4 v
  | F64 v => be_bytes 8 v
  | FShort s => be_bytes 1 (zlen s) ++ s
  | FLong s => wire_sized s
  | FTable t => wire_table t
  | FBits bits => be_bytes 1 (bits_val bits)
  end.

Definition bit (b : Z) : Prop := b = 0 \/ b = 1.

Definition field_ok (f : field) : Prop :=
  match f with
  | F8 v => in_u 8 v
  | F16 v => in_u 16 v
  | F32 v => in_u 32 v
  | F64 v => in_u 64 v
  | FShort s => zlen s < 2 ^ 8
  | FLong s => zlen s < 2 ^ 32
  | FTable t => table_ok t
  | FBits bits => Forall bit bits /\ (length bits <= 8)%nat
  end.

Definition wire_fields (fs : list field) : list byte := concat (map wire_field fs).
Definition fields_ok (fs : list field) : Prop := Forall field_ok fs.

(** ** Bits *)

Lemma bits_val_range bits : Forall bit bits -> 0 <= bits_val bits < 2 ^ zlen bits.
Proof.
  induction 1 as [|b bits Hb _ IH]; [done|]. rewrite zlen_cons, Z.pow_add_r by (zlen_pos; lia).
  simpl bits_val. destruct Hb; lia.
Qed.

Lemma bits_val_u8 bits : Forall bit bits -> (length bits <= 8)%nat -> in_u 8 (bits_val bits).
Proof.
  intros Hb Hl. pose proof (bits_val_range bits Hb). split; [lia|].
  apply Z.lt_le_trans with (2 ^ zlen bits); [lia|]. apply Z.pow_le_mono_r; unfold zlen; lia.
Qed.

Lemma get_bit_testbit v i : 0 <= i -> get_bit v i = if Z.testbit v i then 1 else 0.
Proof.
  intros Hi. unfold get_bit. rewrite Z.shiftl_1_l.
  destruct (Z.testbit v i) eqn:E.
  - destruct (Z.eqb_spec (Z.land v (2 ^ i)) 0) as [E0|]; [|done].
    apply (f_equal (fun x => Z.testbit x i)) in E0.
    rewrite Z.land_spec, Z.pow2_bits_true, E, Z.bits_0 in E0 by lia. done.
  - destruct (Z.eqb_spec (Z.land v (2 ^ i)) 0) as [|E0]; [done|]. destruct E0.
    apply Z.bits_inj'. intros j Hj. rewrite Z.land_spec, Z.bits_0.
    destruct (decide (i = j)) as [->|]; [by rewrite E|].
    rewrite Z.pow2_bits_false by done. apply andb_false_r.
Qed.

Lemma get_bit_bit v i : bit (get_bit v i).
Proof. unfold get_bit. destruct (_ =? 0); [by left|by right]. Qed.

Lemma testbit_bits b r i : bit b -> 0 <= i ->
  Z.testbit (b + 2 * r) i = if i =? 0 then (b =? 1) else Z.testbit r (i - 1).
Proof.
  intros Hb Hi. destruct (Z.eqb_spec i 0) as [->|].
  - destruct Hb as [-> | ->]; [rewrite Z.add_0_l|rewrite Z.add_comm];
      [apply Z.testbit_even_0|apply Z.testbit_odd_0].
  - replace i with (Z.succ (i - 1)) at 1 by lia. destruct Hb as [-> | ->].
    + rewrite Z.add_0_l. apply Z.testbit_even_succ. lia.
    + rewrite Z.add_comm. apply Z.testbit_odd_succ. lia.
Qed.

(** Unpacking gives back what was packed. *)
Lemma get_bit_bits bits i b :
  Forall bit bits -> bits !! Z.to_nat i = Some b -> 0 <= i -> get_bit (bits_val bits) i = b.
Proof.
  intros Hb. revert i. induction Hb as [|c bits Hc Hb IH]; intros i E Hi; [by rewrite lookup_nil in E|].
  rewrite get_bit_testbit by done. simpl bits_val. rewrite testbit_bits by done.
  destruct (Z.eqb_spec i 0) as [->|].
  - simpl in E. simplify_eq. by destruct Hc as [-> | ->].
  - replace (Z.to_nat i) with (S (Z.to_nat (i - 1))) in E by lia. simpl in E.
    rewrite <- (IH (i - 1)) by (done || lia). symmetry. apply get_bit_testbit. lia.
Qed.

(** [bit_buffer = 0; if (b0) bit_buffer |= (1 << 0); if (b1) bit_buffer |= (1 << 1); ..] *)
Definition pack (bits : list Z) : Z :=
  foldl (fun acc '(i, b) => or_bit b i acc) 0 (zip [0; 1; 2; 3; 4] bits).

(** Packing gives the byte the wire carries. *)
Lemma pack_bits bits :
  Forall bit bits -> (length bits <= 5)%nat ->
  pack bits = bits_val bits.
Proof.
  intros Hb Hl. do 6 (destruct bits as [|? bits]; [repeat (apply Forall_cons in Hb as [[-> | ->] Hb]); reflexivity|]).
  simpl in Hl. lia.
Qed.

(** ** Writing an argument *)

Section EmitFields.
Context `{Host}.

(** The table-driven encoder: one step per argument. *)
Definition enc_field (f : field) : eff enc_state unit :=
  match f with
  | F8 v => enc_u8 v
  | F16 v => enc_u16 v
  | F32 v => enc_u32 v
  | F64 v => enc_u64 v
  | FShort s => enc_shortstr s
  | FLong s => enc_longstr s
  | FTable t => amqp_encode_table t
  | FBits bits => enc_u8 (pack bits)
  end.

Lemma emits_u8 v : Emits (enc_u8 v) (wire_field (F8 v)).
Proof. apply emits_guard_8, enc_err_bad. Qed.
Lemma emits_u16 v : Emits (enc_u16 v) (wire_field (F16 v)).
Proof. apply emits_guard_16, enc_err_bad. Qed.
Lemma emits_u32 v : Emits (enc_u32 v) (wire_field (F32 v)).
Proof. apply emits_guard_32, enc_err_bad. Qed.
Lemma emits_u64 v : Emits (enc_u64 v) (wire_field (F64 v)).
Proof. apply emits_guard_64, enc_err_bad. Qed.

Lemma emits_short s : field_ok (FShort s) -> Emits (enc_shortstr s) (wire_field (FShort s)).
Proof.
  intros Hs. simpl in Hs. zlen_pos. unfold enc_shortstr.
  destruct (Z.ltb_spec UINT8_MAX (zlen s)); [unfold UINT8_MAX in *; lia|].
  rewrite wrap_small by (unfold in_u; lia).
  apply emits_bind; [apply emits_u8|apply emits_guard_bytes; [apply enc_err_bad|lia]].
Qed.

Lemma emits_long s : field_ok (FLong s) -> Emits (enc_longstr s) (wire_field (FLong s)).
Proof.
  intros Hs. simpl in Hs. zlen_pos. unfold enc_longstr.
  destruct (Z.ltb_spec UINT32_MAX (zlen s)); [unfold UINT32_MAX in *; lia|].
  rewrite wrap_small by (unfold in_u; lia).
  apply emits_bind; [apply emits_u32|apply emits_guard_bytes; [apply enc_err_bad|lia]].
Qed.

Lemma emits_tbl t : field_ok (FTable t) -> Emits (amqp_encode_table t) (wire_field (FTable t)).
Proof. apply emits_table. Qed.

(** The byte of up to five bit arguments. *)
Lemma emits_bits v bits :
  field_ok (FBits bits) -> (length bits <= 5)%nat ->
  v = pack bits -> Emits (enc_u8 v) (wire_field (FBits bits)).
Proof. intros [Hb _] Hl ->. rewrite pack_bits by done. apply emits_u8. Qed.

(** A string too long for its length prefix is refused before anything is written. *)
Lemma enc_shortstr_too_long s st : 2 ^ 8 <= zlen s ->
  enc_shortstr s st = (Err AMQP_STATUS_BAD_AMQP_DATA, st).
Proof.
  intros. unfold enc_shortstr. by destruct (Z.ltb_spec UINT8_MAX (zlen s)); [|unfold UINT8_MAX in *; lia].
Qed.

End EmitFields.

(** ** Reading an argument *)

Section ParseFields.
Context `{Host} {Mem Pool : Type} `{MemLaws Mem Pool}.
Context (enc : list byte) (pool : Pool).
Hypothesis Henc : zlen enc <= 2 ^ 30.

Lemma parses_u8 v : field_ok (F8 v) -> Parses pool enc (dec_u8 enc) (wire_field (F8 v)) v.
Proof. apply parses_8. lia. Qed.
Lemma parses_u16 v : field_ok (F16 v) -> Parses pool enc (dec_u16 enc) (wire_field (F16 v)) v.
Proof. apply parses_16. lia. Qed.
Lemma parses_u32 v : field_ok (F32 v) -> Parses pool enc (dec_u32 enc) (wire_field (F32 v)) v.
Proof. apply parses_32. lia. Qed.
Lemma parses_u64 v : field_ok (F64 v) -> Parses pool enc (dec_u64 enc) (wire_field (F64 v)) v.
Proof. apply parses_64. lia. Qed.

Lemma parses_short s : field_ok (FShort s) -> Parses pool enc (dec_shortstr enc) (wire_field (FShort s)) s.
Proof.
  intros Hs. simpl in Hs. zlen_pos.
  eapply parses_bind; [apply parses_8; [lia|unfold in_u; lia]|apply parses_bytes; [lia|done]].
Qed.

Lemma parses_long s : field_ok (FLong s) -> Parses pool enc (dec_longstr enc) (wire_field (FLong s)) s.
Proof.
  intros Hs. simpl in Hs. zlen_pos.
  eapply parses_bind; [apply parses_32; [lia|unfold in_u; lia]|apply parses_bytes; [lia|done]].
Qed.

Lemma parses_tbl t : field_ok (FTable t) -> Parses pool enc (amqp_decode_table enc pool) (wire_field (FTable t)) t.
Proof. by apply decode_table_parses. Qed.

Lemma parses_bits bits :
  field_ok (FBits bits) -> Parses pool enc (dec_u8 enc) (wire_field (FBits bits)) (bits_val bits).
Proof. intros [Hb Hl]. apply parses_8; [lia|by apply bits_val_u8]. Qed.

Lemma parses_field {A B} f (d : eff (dec_state Mem) A) a (k : A -> eff (dec_state Mem) B) fs b :
  Parses pool enc d (wire_field f) a -> Parses pool enc (k a) (wire_fields fs) b ->
  Parses pool enc (bind d k) (wire_fields (f :: fs)) b.
Proof. apply parses_bind. Qed.

(** A decoder that first allocates its structure. *)
Definition ParsesNew {A} (d : eff (dec_state Mem) A) (bs : list byte) (a : A) : Prop :=
  forall o m, at_off enc o bs ->
  (exists m', d (mk_dec o m) = (Ret a, mk_dec (o + zlen bs) m') /\
     forall k, 0 <= k -> plenty pool (k + zlen bs + 1) m -> plenty pool k m')
  \/ (~ plenty pool (zlen bs + 1) m /\ exists s', d (mk_dec o m) = (Err AMQP_STATUS_NO_MEMORY, s')).

Lemma parses_new {A} l (d : eff (dec_state Mem) A) bs a :
  0 < sizeof l < 2 ^ 63 -> Parses pool enc d bs a ->
  ParsesNew (bind (alloc_struct pool l) (fun _ => d)) bs a.
Proof.
  intros Hl Hd o m Hat. unfold bind, alloc_struct. cbn [d_mem d_off].
  destruct (pool_alloc pool (sizeof l) m) as [r m1] eqn:E.
  assert (Hm : forall k, 0 <= k -> plenty pool (k + 1) m -> is_Some r /\ plenty pool k m1).
  { intros k Hk Hp. destruct (plenty_pool_alloc pool m k (sizeof l) Hp Hk Hl) as (x & m' & E' & Hp').
    rewrite E in E'. simplify_eq. by split. }
  zlen_pos. destruct r as [x|].
  - destruct (Hd o m1 Hat) as [(m' & E' & Hp)|(Hp & s' & E')]; rewrite E'.
    + left. exists m'. split; [done|]. intros k Hk Hpl. apply Hp; [done|]. by apply Hm; [lia|].
    + right. split; [|eauto]. intros Hpl. apply Hp. by apply Hm; [lia|].
  - right. split; [|eauto]. intros Hpl. by destruct (Hm (zlen bs) ltac:(lia) Hpl) as [[? [=]] _].
Qed.

Lemma parses_new_map {A B} (d : eff (dec_state Mem) A) (f : A -> B) bs a :
  ParsesNew d bs a -> ParsesNew (let! x := d in ret (f x)) bs (f a).
Proof.
  intros Hd o m Hat. unfold bind. destruct (Hd o m Hat) as [(m' & -> & Hp)|(Hp & s' & ->)]; eauto 10.
Qed.

(** *** Arbitrary bytes *)

Definition field_read (f : field) (c : Z) : Prop := field_ok f /\ c = zlen (wire_field f).

Lemma safe_u8 lo : DecSafe (Mem := Mem) lo enc (dec_u8 enc) (fun v => field_read (F8 v)).
Proof. eapply safe_mono; [apply safe_8; [lia|by left]|]. by intros v c _ [? ->]. Qed.
Lemma safe_u16 lo : DecSafe (Mem := Mem) lo enc (dec_u16 enc) (fun v => field_read (F16 v)).
Proof. eapply safe_mono; [apply safe_16; [lia|by left]|]. by intros v c _ [? ->]. Qed.
Lemma safe_u32 lo : DecSafe (Mem := Mem) lo enc (dec_u32 enc) (fun v => field_read (F32 v)).
Proof. eapply safe_mono; [apply safe_32; [lia|by left]|]. by intros v c _ [? ->]. Qed.
Lemma safe_u64 lo : DecSafe (Mem := Mem) lo enc (dec_u64 enc) (fun v => field_read (F64 v)).
Proof. eapply safe_mono; [apply safe_64; [lia|by left]|]. by intros v c _ [? ->]. Qed.

Lemma safe_short lo : DecSafe (Mem := Mem) lo enc (dec_shortstr enc) (fun s => field_read (FShort s)).
Proof.
  eapply safe_bind; [apply safe_8; [lia|by left]|]. intros n c _ [Hn ->]. unfold in_u in Hn.
  eapply safe_mono; [apply safe_bytes; [lia|by left|lia]|].
  intros s c _ [<- ->]. split; [simpl; lia|]. simpl wire_field. by autorewrite with zlen.
Qed.

Lemma safe_long lo : DecSafe (Mem := Mem) lo enc (dec_longstr enc) (fun s => field_read (FLong s)).
Proof.
  eapply safe_bind; [apply safe_32; [lia|by left]|]. intros n c _ [Hn ->]. unfold in_u in Hn.
  eapply safe_mono; [apply safe_bytes; [lia|by left|lia]|].
  intros s c _ [<- ->]. split; [simpl; lia|]. simpl wire_field. by autorewrite with zlen.
Qed.

Lemma safe_tbl lo : DecSafe lo enc (amqp_decode_table enc pool) (fun t => field_read (FTable t)).
Proof. intros o m Ho0 Ho. apply (decode_table_safe enc pool Henc o m Ho0). lia. Qed.

Lemma safe_new {A} lo l (d : eff (dec_state Mem) A) Q :
  DecSafe lo enc d Q -> DecSafe lo enc (bind (alloc_struct pool l) (fun _ => d)) Q.
Proof.
  intros Hd o m Ho0 Ho. unfold bind, alloc_struct. cbn [d_mem d_off].
  destruct (pool_alloc pool (sizeof l) m) as [[x|] m1]; [by apply Hd|by right].
Qed.

End ParseFields.
