(* ===== verification/MethodTypes.v ===== *)
(** * Methods: ids, field records and sizes ([include/rabbitmq-c/framing.h])

    One record per method, its fields in the order of the C structure; a structure
    that only has a dummy member is the record without fields.  [method_t] is the
    decoded method a [void *] points to, tagged by the structure it really is. *)

From S2P Require Import Prelude Status Layout Table.

(** ** Method ids *)

Definition AMQP_CONNECTION_START_METHOD : Z := 0x000A000A.
Definition AMQP_CONNECTION_START_OK_METHOD : Z := 0x000A000B.
Definition AMQP_CONNECTION_SECURE_METHOD : Z := 0x000A0014.
Definition AMQP_CONNECTION_SECURE_OK_METHOD : Z := 0x000A0015.
Definition AMQP_CONNECTION_TUNE_METHOD : Z := 0x000A001E.
Definition AMQP_CONNECTION_TUNE_OK_METHOD : Z := 0x000A001F.
Definition AMQP_CONNECTION_OPEN_METHOD : Z := 0x000A0028.
Definition AMQP_CONNECTION_OPEN_OK_METHOD : Z := 0x000A0029.
Definition AMQP_CONNECTION_CLOSE_METHOD : Z := 0x000A0032.
Definition AMQP_CONNECTION_CLOSE_OK_METHOD : Z := 0x000A0033.
Definition AMQP_CONNECTION_BLOCKED_METHOD : Z := 0x000A003C.
Definition AMQP_CONNECTION_UNBLOCKED_METHOD : Z := 0x000A003D.
Definition AMQP_CONNECTION_UPDATE_SECRET_METHOD : Z := 0x000A0046.
Definition AMQP_CONNECTION_UPDATE_SECRET_OK_METHOD : Z := 0x000A0047.
Definition AMQP_CHANNEL_OPEN_METHOD : Z := 0x0014000A.
Definition AMQP_CHANNEL_OPEN_OK_METHOD : Z := 0x0014000B.
Definition AMQP_CHANNEL_FLOW_METHOD : Z := 0x00140014.
Definition AMQP_CHANNEL_FLOW_OK_METHOD : Z := 0x00140015.
Definition AMQP_CHANNEL_CLOSE_METHOD : Z := 0x00140028.
Definition AMQP_CHANNEL_CLOSE_OK_METHOD : Z := 0x00140029.
Definition AMQP_ACCESS_REQUEST_METHOD : Z := 0x001E000A.
Definition AMQP_ACCESS_REQUEST_OK_METHOD : Z := 0x001E000B.
Definition AMQP_EXCHANGE_DECLARE_METHOD : Z := 0x0028000A.
Definition AMQP_EXCHANGE_DECLARE_OK_METHOD : Z := 0x0028000B.
Definition AMQP_EXCHANGE_DELETE_METHOD : Z := 0x00280014.
Definition AMQP_EXCHANGE_DELETE_OK_METHOD : Z := 0x00280015.
Definition AMQP_EXCHANGE_BIND_METHOD : Z := 0x0028001E.
Definition AMQP_EXCHANGE_BIND_OK_METHOD : Z := 0x0028001F.
Definition AMQP_EXCHANGE_UNBIND_METHOD : Z := 0x00280028.
Definition AMQP_EXCHANGE_UNBIND_OK_METHOD : Z := 0x00280033.
Definition AMQP_QUEUE_DECLARE_METHOD : Z := 0x0032000A.
Definition AMQP_QUEUE_DECLARE_OK_METHOD : Z := 0x0032000B.
Definition AMQP_QUEUE_BIND_METHOD : Z := 0x00320014.
Definition AMQP_QUEUE_BIND_OK_METHOD : Z := 0x00320015.
Definition AMQP_QUEUE_PURGE_METHOD : Z := 0x0032001E.
Definition AMQP_QUEUE_PURGE_OK_METHOD : Z := 0x0032001F.
Definition AMQP_QUEUE_DELETE_METHOD : Z := 0x00320028.
Definition AMQP_QUEUE_DELETE_OK_METHOD : Z := 0x00320029.
Definition AMQP_QUEUE_UNBIND_METHOD : Z := 0x00320032.
Definition AMQP_QUEUE_UNBIND_OK_METHOD : Z := 0x00320033.
Definition AMQP_BASIC_QOS_METHOD : Z := 0x003C000A.
Definition AMQP_BASIC_QOS_OK_METHOD : Z := 0x003C000B.
Definition AMQP_BASIC_CONSUME_METHOD : Z := 0x003C0014.
Definition AMQP_BASIC_CONSUME_OK_METHOD : Z := 0x003C0015.
Definition AMQP_BASIC_CANCEL_METHOD : Z := 0x003C001E.
Definition AMQP_BASIC_CANCEL_OK_METHOD : Z := 0x003C001F.
Definition AMQP_BASIC_PUBLISH_METHOD : Z := 0x003C0028.
Definition AMQP_BASIC_RETURN_METHOD : Z := 0x003C0032.
Definition AMQP_BASIC_DELIVER_METHOD : Z := 0x003C003C.
Definition AMQP_BASIC_GET_METHOD : Z := 0x003C0046.
Definition AMQP_BASIC_GET_OK_METHOD : Z := 0x003C0047.
Definition AMQP_BASIC_GET_EMPTY_METHOD : Z := 0x003C0048.
Definition AMQP_BASIC_ACK_METHOD : Z := 0x003C0050.
Definition AMQP_BASIC_REJECT_METHOD : Z := 0x003C005A.
Definition AMQP_BASIC_RECOVER_ASYNC_METHOD : Z := 0x003C0064.
Definition AMQP_BASIC_RECOVER_METHOD : Z := 0x003C006E.
Definition AMQP_BASIC_RECOVER_OK_METHOD : Z := 0x003C006F.
Definition AMQP_BASIC_NACK_METHOD : Z := 0x003C0078.
Definition AMQP_TX_SELECT_METHOD : Z := 0x005A000A.
Definition AMQP_TX_SELECT_OK_METHOD : Z := 0x005A000B.
Definition AMQP_TX_COMMIT_METHOD : Z := 0x005A0014.
Definition AMQP_TX_COMMIT_OK_METHOD : Z := 0x005A0015.
Definition AMQP_TX_ROLLBACK_METHOD : Z := 0x005A001E.
Definition AMQP_TX_ROLLBACK_OK_METHOD : Z := 0x005A001F.
Definition AMQP_CONFIRM_SELECT_METHOD : Z := 0x0055000A.
Definition AMQP_CONFIRM_SELECT_OK_METHOD : Z := 0x0055000B.

(** ** Field records *)

Record amqp_connection_start_t := mk_connection_start {
  connection_start_version_major : Z;
  connection_start_version_minor : Z;
  connection_start_server_properties : amqp_table_t;
  connection_start_mechanisms : amqp_bytes_t;
  connection_start_locales : amqp_bytes_t;
}.
Definition layout_connection_start : layout := c_struct [t_uint8; t_uint8; layout_amqp_table_t; layout_amqp_bytes_t; layout_amqp_bytes_t].

Record amqp_connection_start_ok_t := mk_connection_start_ok {
  connection_start_ok_client_properties : amqp_table_t;
  connection_start_ok_mechanism : amqp_bytes_t;
  connection_start_ok_response : amqp_bytes_t;
  connection_start_ok_locale : amqp_bytes_t;
}.
Definition layout_connection_start_ok : layout := c_struct [layout_amqp_table_t; layout_amqp_bytes_t; layout_amqp_bytes_t; layout_amqp_bytes_t].

Record amqp_connection_secure_t := mk_connection_secure {
  connection_secure_challenge : amqp_bytes_t;
}.
Definition layout_connection_secure : layout := c_struct [layout_amqp_bytes_t].

Record amqp_connection_secure_ok_t := mk_connection_secure_ok {
  connection_secure_ok_response : amqp_bytes_t;
}.
Definition layout_connection_secure_ok : layout := c_struct [layout_amqp_bytes_t].

Record amqp_connection_tune_t := mk_connection_tune {
  connection_tune_channel_max : Z;
  connection_tune_frame_max : Z;
  connection_tune_heartbeat : Z;
}.
Definition layout_connection_tune : layout := c_struct [t_uint16; t_uint32; t_uint16].

Record amqp_connection_tune_ok_t := mk_connection_tune_ok {
  connection_tune_ok_channel_max : Z;
  connection_tune_ok_frame_max : Z;
  connection_tune_ok_heartbeat : Z;
}.
Definition layout_connection_tune_ok : layout := c_struct [t_uint16; t_uint32; t_uint16].

Record amqp_connection_open_t := mk_connection_open {
  connection_open_virtual_host : amqp_bytes_t;
  connection_open_capabilities : amqp_bytes_t;
  connection_open_insist : Z;
}.
Definition layout_connection_open : layout := c_struct [layout_amqp_bytes_t; layout_amqp_bytes_t; t_int].

Record amqp_connection_open_ok_t := mk_connection_open_ok {
  connection_open_ok_known_hosts : amqp_bytes_t;
}.
Definition layout_connection_open_ok : layout := c_struct [layout_amqp_bytes_t].

Record amqp_connection_close_t := mk_connection_close {
  connection_close_reply_code : Z;
  connection_close_reply_text : amqp_bytes_t;
  connection_close_class_id : Z;
  connection_close_method_id : Z;
}.
Definition layout_connection_close : layout := c_struct [t_uint16; layout_amqp_bytes_t; t_uint16; t_uint16].

Record amqp_connection_close_ok_t := mk_connection_close_ok {}.
Definition layout_connection_close_ok : layout := c_struct [t_uint8].

Record amqp_connection_blocked_t := mk_connection_blocked {
  connection_blocked_reason : amqp_bytes_t;
}.
Definition layout_connection_blocked : layout := c_struct [layout_amqp_bytes_t].

Record amqp_connection_unblocked_t := mk_connection_unblocked {}.
Definition layout_connection_unblocked : layout := c_struct [t_uint8].

Record amqp_connection_update_secret_t := mk_connection_update_secret {
  connection_update_secret_new_secret : amqp_bytes_t;
  connection_update_secret_reason : amqp_bytes_t;
}.
Definition layout_connection_update_secret : layout := c_struct [layout_amqp_bytes_t; layout_amqp_bytes_t].

Record amqp_connection_update_secret_ok_t := mk_connection_update_secret_ok {}.
Definition layout_connection_update_secret_ok : layout := c_struct [t_uint8].

Record amqp_channel_open_t := mk_channel_open {
  channel_open_out_of_band : amqp_bytes_t;
}.
Definition layout_channel_open : layout := c_struct [layout_amqp_bytes_t].

Record amqp_channel_open_ok_t := mk_channel_open_ok {
  channel_open_ok_channel_id : amqp_bytes_t;
}.
Definition layout_channel_open_ok : layout := c_struct [layout_amqp_bytes_t].

Record amqp_channel_flow_t := mk_channel_flow {
  channel_flow_active : Z;
}.
Definition layout_channel_flow : layout := c_struct [t_int].

Record amqp_channel_flow_ok_t := mk_channel_flow_ok {
  channel_flow_ok_active : Z;
}.
Definition layout_channel_flow_ok : layout := c_struct [t_int].

Record amqp_channel_close_t := mk_channel_close {
  channel_close_reply_code : Z;
  channel_close_reply_text : amqp_bytes_t;
  channel_close_class_id : Z;
  channel_close_method_id : Z;
}.
Definition layout_channel_close : layout := c_struct [t_uint16; layout_amqp_bytes_t; t_uint16; t_uint16].

Record amqp_channel_close_ok_t := mk_channel_close_ok {}.
Definition layout_channel_close_ok : layout := c_struct [t_uint8].

Record amqp_access_request_t := mk_access_request {
  access_request_realm : amqp_bytes_t;
  access_request_exclusive : Z;
  access_request_passive : Z;
  access_request_active : Z;
  access_request_write : Z;
  access_request_read : Z;
}.
Definition layout_access_request : layout := c_struct [layout_amqp_bytes_t; t_int; t_int; t_int; t_int; t_int].

Record amqp_access_request_ok_t := mk_access_request_ok {
  access_request_ok_ticket : Z;
}.
Definition layout_access_request_ok : layout := c_struct [t_uint16].

Record amqp_exchange_declare_t := mk_exchange_declare {
  exchange_declare_ticket : Z;
  exchange_declare_exchange : amqp_bytes_t;
  exchange_declare_type : amqp_bytes_t;
  exchange_declare_passive : Z;
  exchange_declare_durable : Z;
  exchange_declare_auto_delete : Z;
  exchange_declare_internal : Z;
  exchange_declare_nowait : Z;
  exchange_declare_arguments : amqp_table_t;
}.
Definition layout_exchange_declare : layout := c_struct [t_uint16; layout_amqp_bytes_t; layout_amqp_bytes_t; t_int; t_int; t_int; t_int; t_int; layout_amqp_table_t].

Record amqp_exchange_declare_ok_t := mk_exchange_declare_ok {}.
Definition layout_exchange_declare_ok : layout := c_struct [t_uint8].

Record amqp_exchange_delete_t := mk_exchange_delete {
  exchange_delete_ticket : Z;
  exchange_delete_exchange : amqp_bytes_t;
  exchange_delete_if_unused : Z;
  exchange_delete_nowait : Z;
}.
Definition layout_exchange_delete : layout := c_struct [t_uint16; layout_amqp_bytes_t; t_int; t_int].

Record amqp_exchange_delete_ok_t := mk_exchange_delete_ok {}.
Definition layout_exchange_delete_ok : layout := c_struct [t_uint8].

Record amqp_exchange_bind_t := mk_exchange_bind {
  exchange_bind_ticket : Z;
  exchange_bind_destination : amqp_bytes_t;
  exchange_bind_source : amqp_bytes_t;
  exchange_bind_routing_key : amqp_bytes_t;
  exchange_bind_nowait : Z;
  exchange_bind_arguments : amqp_table_t;
}.
Definition layout_exchange_bind : layout := c_struct [t_uint16; layout_amqp_bytes_t; layout_amqp_bytes_t; layout_amqp_bytes_t; t_int; layout_amqp_table_t].

Record amqp_exchange_bind_ok_t := mk_exchange_bind_ok {}.
Definition layout_exchange_bind_ok : layout := c_struct [t_uint8].

Record amqp_exchange_unbind_t := mk_exchange_unbind {
  exchange_unbind_ticket : Z;
  exchange_unbind_destination : amqp_bytes_t;
  exchange_unbind_source : amqp_bytes_t;
  exchange_unbind_routing_key : amqp_bytes_t;
  exchange_unbind_nowait : Z;
  exchange_unbind_arguments : amqp_table_t;
}.
Definition layout_exchange_unbind : layout := c_struct [t_uint16; layout_amqp_bytes_t; layout_amqp_bytes_t; layout_amqp_bytes_t; t_int; layout_amqp_table_t].

Record amqp_exchange_unbind_ok_t := mk_exchange_unbind_ok {}.
Definition layout_exchange_unbind_ok : layout := c_struct [t_uint8].

Record amqp_queue_declare_t := mk_queue_declare {
  queue_declare_ticket : Z;
  queue_declare_queue : amqp_bytes_t;
  queue_declare_passive : Z;
  queue_declare_durable : Z;
  queue_declare_exclusive : Z;
  queue_declare_auto_delete : Z;
  queue_declare_nowait : Z;
  queue_declare_arguments : amqp_table_t;
}.
Definition layout_queue_declare : layout := c_struct [t_uint16; layout_amqp_bytes_t; t_int; t_int; t_int; t_int; t_int; layout_amqp_table_t].

Record amqp_queue_declare_ok_t := mk_queue_declare_ok {
  queue_declare_ok_queue : amqp_bytes_t;
  queue_declare_ok_message_count : Z;
  queue_declare_ok_consumer_count : Z;
}.
Definition layout_queue_declare_ok : layout := c_struct [layout_amqp_bytes_t; t_uint32; t_uint32].

Record amqp_queue_bind_t := mk_queue_bind {
  queue_bind_ticket : Z;
  queue_bind_queue : amqp_bytes_t;
  queue_bind_exchange : amqp_bytes_t;
  queue_bind_routing_key : amqp_bytes_t;
  queue_bind_nowait : Z;
  queue_bind_arguments : amqp_table_t;
}.
Definition layout_queue_bind : layout := c_struct [t_uint16; layout_amqp_bytes_t; layout_amqp_bytes_t; layout_amqp_bytes_t; t_int; layout_amqp_table_t].

Record amqp_queue_bind_ok_t := mk_queue_bind_ok {}.
Definition layout_queue_bind_ok : layout := c_struct [t_uint8].

Record amqp_queue_purge_t := mk_queue_purge {
  queue_purge_ticket : Z;
  queue_purge_queue : amqp_bytes_t;
  queue_purge_nowait : Z;
}.
Definition layout_queue_purge : layout := c_struct [t_uint16; layout_amqp_bytes_t; t_int].

Record amqp_queue_purge_ok_t := mk_queue_purge_ok {
  queue_purge_ok_message_count : Z;
}.
Definition layout_queue_purge_ok : layout := c_struct [t_uint32].

Record amqp_queue_delete_t := mk_queue_delete {
  queue_delete_ticket : Z;
  queue_delete_queue : amqp_bytes_t;
  queue_delete_if_unused : Z;
  queue_delete_if_empty : Z;
  queue_delete_nowait : Z;
}.
Definition layout_queue_delete : layout := c_struct [t_uint16; layout_amqp_bytes_t; t_int; t_int; t_int].

Record amqp_queue_delete_ok_t := mk_queue_delete_ok {
  queue_delete_ok_message_count : Z;
}.
Definition layout_queue_delete_ok : layout := c_struct [t_uint32].

Record amqp_queue_unbind_t := mk_queue_unbind {
  queue_unbind_ticket : Z;
  queue_unbind_queue : amqp_bytes_t;
  queue_unbind_exchange : amqp_bytes_t;
  queue_unbind_routing_key : amqp_bytes_t;
  queue_unbind_arguments : amqp_table_t;
}.
Definition layout_queue_unbind : layout := c_struct [t_uint16; layout_amqp_bytes_t; layout_amqp_bytes_t; layout_amqp_bytes_t; layout_amqp_table_t].

Record amqp_queue_unbind_ok_t := mk_queue_unbind_ok {}.
Definition layout_queue_unbind_ok : layout := c_struct [t_uint8].

Record amqp_basic_qos_t := mk_basic_qos {
  basic_qos_prefetch_size : Z;
  basic_qos_prefetch_count : Z;
  basic_qos_global : Z;
}.
Definition layout_basic_qos : layout := c_struct [t_uint32; t_uint16; t_int].

Record amqp_basic_qos_ok_t := mk_basic_qos_ok {}.
Definition layout_basic_qos_ok : layout := c_struct [t_uint8].

Record amqp_basic_consume_t := mk_basic_consume {
  basic_consume_ticket : Z;
  basic_consume_queue : amqp_bytes_t;
  basic_consume_consumer_tag : amqp_bytes_t;
  basic_consume_no_local : Z;
  basic_consume_no_ack : Z;
  basic_consume_exclusive : Z;
  basic_consume_nowait : Z;
  basic_consume_arguments : amqp_table_t;
}.
Definition layout_basic_consume : layout := c_struct [t_uint16; layout_amqp_bytes_t; layout_amqp_bytes_t; t_int; t_int; t_int; t_int; layout_amqp_table_t].

Record amqp_basic_consume_ok_t := mk_basic_consume_ok {
  basic_consume_ok_consumer_tag : amqp_bytes_t;
}.
Definition layout_basic_consume_ok : layout := c_struct [layout_amqp_bytes_t].

Record amqp_basic_cancel_t := mk_basic_cancel {
  basic_cancel_consumer_tag : amqp_bytes_t;
  basic_cancel_nowait : Z;
}.
Definition layout_basic_cancel : layout := c_struct [layout_amqp_bytes_t; t_int].

Record amqp_basic_cancel_ok_t := mk_basic_cancel_ok {
  basic_cancel_ok_consumer_tag : amqp_bytes_t;
}.
Definition layout_basic_cancel_ok : layout := c_struct [layout_amqp_bytes_t].

Record amqp_basic_publish_t := mk_basic_publish {
  basic_publish_ticket : Z;
  basic_publish_exchange : amqp_bytes_t;
  basic_publish_routing_key : amqp_bytes_t;
  basic_publish_mandatory : Z;
  basic_publish_immediate : Z;
}.
Definition layout_basic_publish : layout := c_struct [t_uint16; layout_amqp_bytes_t; layout_amqp_bytes_t; t_int; t_int].

Record amqp_basic_return_t := mk_basic_return {
  basic_return_reply_code : Z;
  basic_return_reply_text : amqp_bytes_t;
  basic_return_exchange : amqp_bytes_t;
  basic_return_routing_key : amqp_bytes_t;
}.
Definition layout_basic_return : layout := c_struct [t_uint16; layout_amqp_bytes_t; layout_amqp_bytes_t; layout_amqp_bytes_t].

Record amqp_basic_deliver_t := mk_basic_deliver {
  basic_deliver_consumer_tag : amqp_bytes_t;
  basic_deliver_delivery_tag : Z;
  basic_deliver_redelivered : Z;
  basic_deliver_exchange : amqp_bytes_t;
  basic_deliver_routing_key : amqp_bytes_t;
}.
Definition layout_basic_deliver : layout := c_struct [layout_amqp_bytes_t; t_uint64; t_int; layout_amqp_bytes_t; layout_amqp_bytes_t].

Record amqp_basic_get_t := mk_basic_get {
  basic_get_ticket : Z;
  basic_get_queue : amqp_bytes_t;
  basic_get_no_ack : Z;
}.
Definition layout_basic_get : layout := c_struct [t_uint16; layout_amqp_bytes_t; t_int].

Record amqp_basic_get_ok_t := mk_basic_get_ok {
  basic_get_ok_delivery_tag : Z;
  basic_get_ok_redelivered : Z;
  basic_get_ok_exchange : amqp_bytes_t;
  basic_get_ok_routing_key : amqp_bytes_t;
  basic_get_ok_message_count : Z;
}.
Definition layout_basic_get_ok : layout := c_struct [t_uint64; t_int; layout_amqp_bytes_t; layout_amqp_bytes_t; t_uint32].

Record amqp_basic_get_empty_t := mk_basic_get_empty {
  basic_get_empty_cluster_id : amqp_bytes_t;
}.
Definition layout_basic_get_empty : layout := c_struct [layout_amqp_bytes_t].

Record amqp_basic_ack_t := mk_basic_ack {
  basic_ack_delivery_tag : Z;
  basic_ack_multiple : Z;
}.
Definition layout_basic_ack : layout := c_struct [t_uint64; t_int].

Record amqp_basic_reject_t := mk_basic_reject {
  basic_reject_delivery_tag : Z;
  basic_reject_requeue : Z;
}.
Definition layout_basic_reject : layout := c_struct [t_uint64; t_int].

Record amqp_basic_recover_async_t := mk_basic_recover_async {
  basic_recover_async_requeue : Z;
}.
Definition layout_basic_recover_async : layout := c_struct [t_int].

Record amqp_basic_recover_t := mk_basic_recover {
  basic_recover_requeue : Z;
}.
Definition layout_basic_recover : layout := c_struct [t_int].

Record amqp_basic_recover_ok_t := mk_basic_recover_ok {}.
Definition layout_basic_recover_ok : layout := c_struct [t_uint8].

Record amqp_basic_nack_t := mk_basic_nack {
  basic_nack_delivery_tag : Z;
  basic_nack_multiple : Z;
  basic_nack_requeue : Z;
}.
Definition layout_basic_nack : layout := c_struct [t_uint64; t_int; t_int].

Record amqp_tx_select_t := mk_tx_select {}.
Definition layout_tx_select : layout := c_struct [t_uint8].

Record amqp_tx_select_ok_t := mk_tx_select_ok {}.
Definition layout_tx_select_ok : layout := c_struct [t_uint8].

Record amqp_tx_commit_t := mk_tx_commit {}.
Definition layout_tx_commit : layout := c_struct [t_uint8].

Record amqp_tx_commit_ok_t := mk_tx_commit_ok {}.
Definition layout_tx_commit_ok : layout := c_struct [t_uint8].

Record amqp_tx_rollback_t := mk_tx_rollback {}.
Definition layout_tx_rollback : layout := c_struct [t_uint8].

Record amqp_tx_rollback_ok_t := mk_tx_rollback_ok {}.
Definition layout_tx_rollback_ok : layout := c_struct [t_uint8].

Record amqp_confirm_select_t := mk_confirm_select {
  confirm_select_nowait : Z;
}.
Definition layout_confirm_select : layout := c_struct [t_int].

Record amqp_confirm_select_ok_t := mk_confirm_select_ok {}.
Definition layout_confirm_select_ok : layout := c_struct [t_uint8].

(** ** The method a frame carries *)

Inductive method_t : Type :=
| M_connection_start (m : amqp_connection_start_t)
| M_connection_start_ok (m : amqp_connection_start_ok_t)
| M_connection_secure (m : amqp_connection_secure_t)
| M_connection_secure_ok (m : amqp_connection_secure_ok_t)
| M_connection_tune (m : amqp_connection_tune_t)
| M_connection_tune_ok (m : amqp_connection_tune_ok_t)
| M_connection_open (m : amqp_connection_open_t)
| M_connection_open_ok (m : amqp_connection_open_ok_t)
| M_connection_close (m : amqp_connection_close_t)
| M_connection_close_ok (m : amqp_connection_close_ok_t)
| M_connection_blocked (m : amqp_connection_blocked_t)
| M_connection_unblocked (m : amqp_connection_unblocked_t)
| M_connection_update_secret (m : amqp_connection_update_secret_t)
| M_connection_update_secret_ok (m : amqp_connection_update_secret_ok_t)
| M_channel_open (m : amqp_channel_open_t)
| M_channel_open_ok (m : amqp_channel_open_ok_t)
| M_channel_flow (m : amqp_channel_flow_t)
| M_channel_flow_ok (m : amqp_channel_flow_ok_t)
| M_channel_close (m : amqp_channel_close_t)
| M_channel_close_ok (m : amqp_channel_close_ok_t)
| M_access_request (m : amqp_access_request_t)
| M_access_request_ok (m : amqp_access_request_ok_t)
| M_exchange_declare (m : amqp_exchange_declare_t)
| M_exchange_declare_ok (m : amqp_exchange_declare_ok_t)
| M_exchange_delete (m : amqp_exchange_delete_t)
| M_exchange_delete_ok (m : amqp_exchange_delete_ok_t)
| M_exchange_bind (m : amqp_exchange_bind_t)
| M_exchange_bind_ok (m : amqp_exchange_bind_ok_t)
| M_exchange_unbind (m : amqp_exchange_unbind_t)
| M_exchange_unbind_ok (m : amqp_exchange_unbind_ok_t)
| M_queue_declare (m : amqp_queue_declare_t)
| M_queue_declare_ok (m : amqp_queue_declare_ok_t)
| M_queue_bind (m : amqp_queue_bind_t)
| M_queue_bind_ok (m : amqp_queue_bind_ok_t)
| M_queue_purge (m : amqp_queue_purge_t)
| M_queue_purge_ok (m : amqp_queue_purge_ok_t)
| M_queue_delete (m : amqp_queue_delete_t)
| M_queue_delete_ok (m : amqp_queue_delete_ok_t)
| M_queue_unbind (m : amqp_queue_unbind_t)
| M_queue_unbind_ok (m : amqp_queue_unbind_ok_t)
| M_basic_qos (m : amqp_basic_qos_t)
| M_basic_qos_ok (m : amqp_basic_qos_ok_t)
| M_basic_consume (m : amqp_basic_consume_t)
| M_basic_consume_ok (m : amqp_basic_consume_ok_t)
| M_basic_cancel (m : amqp_basic_cancel_t)
| M_basic_cancel_ok (m : amqp_basic_cancel_ok_t)
| M_basic_publish (m : amqp_basic_publish_t)
| M_basic_return (m : amqp_basic_return_t)
| M_basic_deliver (m : amqp_basic_deliver_t)
| M_basic_get (m : amqp_basic_get_t)
| M_basic_get_ok (m : amqp_basic_get_ok_t)
| M_basic_get_empty (m : amqp_basic_get_empty_t)
| M_basic_ack (m : amqp_basic_ack_t)
| M_basic_reject (m : amqp_basic_reject_t)
| M_basic_recover_async (m : amqp_basic_recover_async_t)
| M_basic_recover (m : amqp_basic_recover_t)
| M_basic_recover_ok (m : amqp_basic_recover_ok_t)
| M_basic_nack (m : amqp_basic_nack_t)
| M_tx_select (m : amqp_tx_select_t)
| M_tx_select_ok (m : amqp_tx_select_ok_t)
| M_tx_commit (m : amqp_tx_commit_t)
| M_tx_commit_ok (m : amqp_tx_commit_ok_t)
| M_tx_rollback (m : amqp_tx_rollback_t)
| M_tx_rollback_ok (m : amqp_tx_rollback_ok_t)
| M_confirm_select (m : amqp_confirm_select_t)
| M_confirm_select_ok (m : amqp_confirm_select_ok_t).

(** The id under which a structure travels. *)
Definition method_id (m : method_t) : Z :=
  match m with
  | M_connection_start _ => AMQP_CONNECTION_START_METHOD
  | M_connection_start_ok _ => AMQP_CONNECTION_START_OK_METHOD
  | M_connection_secure _ => AMQP_CONNECTION_SECURE_METHOD
  | M_connection_secure_ok _ => AMQP_CONNECTION_SECURE_OK_METHOD
  | M_connection_tune _ => AMQP_CONNECTION_TUNE_METHOD
  | M_connection_tune_ok _ => AMQP_CONNECTION_TUNE_OK_METHOD
  | M_connection_open _ => AMQP_CONNECTION_OPEN_METHOD
  | M_connection_open_ok _ => AMQP_CONNECTION_OPEN_OK_METHOD
  | M_connection_close _ => AMQP_CONNECTION_CLOSE_METHOD
  | M_connection_close_ok _ => AMQP_CONNECTION_CLOSE_OK_METHOD
  | M_connection_blocked _ => AMQP_CONNECTION_BLOCKED_METHOD
  | M_connection_unblocked _ => AMQP_CONNECTION_UNBLOCKED_METHOD
  | M_connection_update_secret _ => AMQP_CONNECTION_UPDATE_SECRET_METHOD
  | M_connection_update_secret_ok _ => AMQP_CONNECTION_UPDATE_SECRET_OK_METHOD
  | M_channel_open _ => AMQP_CHANNEL_OPEN_METHOD
  | M_channel_open_ok _ => AMQP_CHANNEL_OPEN_OK_METHOD
  | M_channel_flow _ => AMQP_CHANNEL_FLOW_METHOD
  | M_channel_flow_ok _ => AMQP_CHANNEL_FLOW_OK_METHOD
  | M_channel_close _ => AMQP_CHANNEL_CLOSE_METHOD
  | M_channel_close_ok _ => AMQP_CHANNEL_CLOSE_OK_METHOD
  | M_access_request _ => AMQP_ACCESS_REQUEST_METHOD
  | M_access_request_ok _ => AMQP_ACCESS_REQUEST_OK_METHOD
  | M_exchange_declare _ => AMQP_EXCHANGE_DECLARE_METHOD
  | M_exchange_declare_ok _ => AMQP_EXCHANGE_DECLARE_OK_METHOD
  | M_exchange_delete _ => AMQP_EXCHANGE_DELETE_METHOD
  | M_exchange_delete_ok _ => AMQP_EXCHANGE_DELETE_OK_METHOD
  | M_exchange_bind _ => AMQP_EXCHANGE_BIND_METHOD
  | M_exchange_bind_ok _ => AMQP_EXCHANGE_BIND_OK_METHOD
  | M_exchange_unbind _ => AMQP_EXCHANGE_UNBIND_METHOD
  | M_exchange_unbind_ok _ => AMQP_EXCHANGE_UNBIND_OK_METHOD
  | M_queue_declare _ => AMQP_QUEUE_DECLARE_METHOD
  | M_queue_declare_ok _ => AMQP_QUEUE_DECLARE_OK_METHOD
  | M_queue_bind _ => AMQP_QUEUE_BIND_METHOD
  | M_queue_bind_ok _ => AMQP_QUEUE_BIND_OK_METHOD
  | M_queue_purge _ => AMQP_QUEUE_PURGE_METHOD
  | M_queue_purge_ok _ => AMQP_QUEUE_PURGE_OK_METHOD
  | M_queue_delete _ => AMQP_QUEUE_DELETE_METHOD
  | M_queue_delete_ok _ => AMQP_QUEUE_DELETE_OK_METHOD
  | M_queue_unbind _ => AMQP_QUEUE_UNBIND_METHOD
  | M_queue_unbind_ok _ => AMQP_QUEUE_UNBIND_OK_METHOD
  | M_basic_qos _ => AMQP_BASIC_QOS_METHOD
  | M_basic_qos_ok _ => AMQP_BASIC_QOS_OK_METHOD
  | M_basic_consume _ => AMQP_BASIC_CONSUME_METHOD
  | M_basic_consume_ok _ => AMQP_BASIC_CONSUME_OK_METHOD
  | M_basic_cancel _ => AMQP_BASIC_CANCEL_METHOD
  | M_basic_cancel_ok _ => AMQP_BASIC_CANCEL_OK_METHOD
  | M_basic_publish _ => AMQP_BASIC_PUBLISH_METHOD
  | M_basic_return _ => AMQP_BASIC_RETURN_METHOD
  | M_basic_deliver _ => AMQP_BASIC_DELIVER_METHOD
  | M_basic_get _ => AMQP_BASIC_GET_METHOD
  | M_basic_get_ok _ => AMQP_BASIC_GET_OK_METHOD
  | M_basic_get_empty _ => AMQP_BASIC_GET_EMPTY_METHOD
  | M_basic_ack _ => AMQP_BASIC_ACK_METHOD
  | M_basic_reject _ => AMQP_BASIC_REJECT_METHOD
  | M_basic_recover_async _ => AMQP_BASIC_RECOVER_ASYNC_METHOD
  | M_basic_recover _ => AMQP_BASIC_RECOVER_METHOD
  | M_basic_recover_ok _ => AMQP_BASIC_RECOVER_OK_METHOD
  | M_basic_nack _ => AMQP_BASIC_NACK_METHOD
  | M_tx_select _ => AMQP_TX_SELECT_METHOD
  | M_tx_select_ok _ => AMQP_TX_SELECT_OK_METHOD
  | M_tx_commit _ => AMQP_TX_COMMIT_METHOD
  | M_tx_commit_ok _ => AMQP_TX_COMMIT_OK_METHOD
  | M_tx_rollback _ => AMQP_TX_ROLLBACK_METHOD
  | M_tx_rollback_ok _ => AMQP_TX_ROLLBACK_OK_METHOD
  | M_confirm_select _ => AMQP_CONFIRM_SELECT_METHOD
  | M_confirm_select_ok _ => AMQP_CONFIRM_SELECT_OK_METHOD
  end.
