(* ===== verification/MethodDecode.v ===== *)
(** * [amqp_decode_method] ([librabbitmq/amqp_framing.c])

    One definition per [case]: the structure is allocated from the pool, then the
    fields are read in order; the first failing read returns its status. *)

From S2P Require Import Prelude Status Memory Codec Layout Table MethodTypes MethodCodec.

Section Decode.
Context `{Host} {Mem Pool : Type} `{MemOps Mem Pool}.
Context (encoded : list byte) (pool : Pool).

Definition decode_connection_start : eff (dec_state Mem) amqp_connection_start_t :=
  do! alloc_struct pool layout_connection_start in
  let! version_major := dec_u8 encoded in
  let! version_minor := dec_u8 encoded in
  let! server_properties := amqp_decode_table encoded pool in
  let! mechanisms := dec_longstr encoded in
  let! locales := dec_longstr encoded in
  ret (mk_connection_start version_major version_minor server_properties mechanisms locales).

Definition decode_connection_start_ok : eff (dec_state Mem) amqp_connection_start_ok_t :=
  do! alloc_struct pool layout_connection_start_ok in
  let! client_properties := amqp_decode_table encoded pool in
  let! mechanism := dec_shortstr encoded in
  let! response := dec_longstr encoded in
  let! locale := dec_shortstr encoded in
  ret (mk_connection_start_ok client_properties mechanism response locale).

Definition decode_connection_secure : eff (dec_state Mem) amqp_connection_secure_t :=
  do! alloc_struct pool layout_connection_secure in
  let! challenge := dec_longstr encoded in
  ret (mk_connection_secure challenge).

Definition decode_connection_secure_ok : eff (dec_state Mem) amqp_connection_secure_ok_t :=
  do! alloc_struct pool layout_connection_secure_ok in
  let! response := dec_longstr encoded in
  ret (mk_connection_secure_ok response).

Definition decode_connection_tune : eff (dec_state Mem) amqp_connection_tune_t :=
  do! alloc_struct pool layout_connection_tune in
  let! channel_max := dec_u16 encoded in
  let! frame_max := dec_u32 encoded in
  let! heartbeat := dec_u16 encoded in
  ret (mk_connection_tune channel_max frame_max heartbeat).

Definition decode_connection_tune_ok : eff (dec_state Mem) amqp_connection_tune_ok_t :=
  do! alloc_struct pool layout_connection_tune_ok in
  let! channel_max := dec_u16 encoded in
  let! frame_max := dec_u32 encoded in
  let! heartbeat := dec_u16 encoded in
  ret (mk_connection_tune_ok channel_max frame_max heartbeat).

Definition decode_connection_open : eff (dec_state Mem) amqp_connection_open_t :=
  do! alloc_struct pool layout_connection_open in
  let! virtual_host := dec_shortstr encoded in
  let! capabilities := dec_shortstr encoded in
  let! bit_buffer := dec_u8 encoded in
  ret (mk_connection_open virtual_host capabilities (get_bit bit_buffer 0)).

Definition decode_connection_open_ok : eff (dec_state Mem) amqp_connection_open_ok_t :=
  do! alloc_struct pool layout_connection_open_ok in
  let! known_hosts := dec_shortstr encoded in
  ret (mk_connection_open_ok known_hosts).

Definition decode_connection_close : eff (dec_state Mem) amqp_connection_close_t :=
  do! alloc_struct pool layout_connection_close in
  let! reply_code := dec_u16 encoded in
  let! reply_text := dec_shortstr encoded in
  let! class_id := dec_u16 encoded in
  let! method_id := dec_u16 encoded in
  ret (mk_connection_close reply_code reply_text class_id method_id).

Definition decode_connection_close_ok : eff (dec_state Mem) amqp_connection_close_ok_t :=
  do! alloc_struct pool layout_connection_close_ok in
  ret (mk_connection_close_ok).

Definition decode_connection_blocked : eff (dec_state Mem) amqp_connection_blocked_t :=
  do! alloc_struct pool layout_connection_blocked in
  let! reason := dec_shortstr encoded in
  ret (mk_connection_blocked reason).

Definition decode_connection_unblocked : eff (dec_state Mem) amqp_connection_unblocked_t :=
  do! alloc_struct pool layout_connection_unblocked in
  ret (mk_connection_unblocked).

Definition decode_connection_update_secret : eff (dec_state Mem) amqp_connection_update_secret_t :=
  do! alloc_struct pool layout_connection_update_secret in
  let! new_secret := dec_longstr encoded in
  let! reason := dec_shortstr encoded in
  ret (mk_connection_update_secret new_secret reason).

Definition decode_connection_update_secret_ok : eff (dec_state Mem) amqp_connection_update_secret_ok_t :=
  do! alloc_struct pool layout_connection_update_secret_ok in
  ret (mk_connection_update_secret_ok).

Definition decode_channel_open : eff (dec_state Mem) amqp_channel_open_t :=
  do! alloc_struct pool layout_channel_open in
  let! out_of_band := dec_shortstr encoded in
  ret (mk_channel_open out_of_band).

Definition decode_channel_open_ok : eff (dec_state Mem) amqp_channel_open_ok_t :=
  do! alloc_struct pool layout_channel_open_ok in
  let! channel_id := dec_longstr encoded in
  ret (mk_channel_open_ok channel_id).

Definition decode_channel_flow : eff (dec_state Mem) amqp_channel_flow_t :=
  do! alloc_struct pool layout_channel_flow in
  let! bit_buffer := dec_u8 encoded in
  ret (mk_channel_flow (get_bit bit_buffer 0)).

Definition decode_channel_flow_ok : eff (dec_state Mem) amqp_channel_flow_ok_t :=
  do! alloc_struct pool layout_channel_flow_ok in
  let! bit_buffer := dec_u8 encoded in
  ret (mk_channel_flow_ok (get_bit bit_buffer 0)).

Definition decode_channel_close : eff (dec_state Mem) amqp_channel_close_t :=
  do! alloc_struct pool layout_channel_close in
  let! reply_code := dec_u16 encoded in
  let! reply_text := dec_shortstr encoded in
  let! class_id := dec_u16 encoded in
  let! method_id := dec_u16 encoded in
  ret (mk_channel_close reply_code reply_text class_id method_id).

Definition decode_channel_close_ok : eff (dec_state Mem) amqp_channel_close_ok_t :=
  do! alloc_struct pool layout_channel_close_ok in
  ret (mk_channel_close_ok).

Definition decode_access_request : eff (dec_state Mem) amqp_access_request_t :=
  do! alloc_struct pool layout_access_request in
  let! realm := dec_shortstr encoded in
  let! bit_buffer := dec_u8 encoded in
  ret (mk_access_request realm (get_bit bit_buffer 0) (get_bit bit_buffer 1) (get_bit bit_buffer 2) (get_bit bit_buffer 3) (get_bit bit_buffer 4)).

Definition decode_access_request_ok : eff (dec_state Mem) amqp_access_request_ok_t :=
  do! alloc_struct pool layout_access_request_ok in
  let! ticket := dec_u16 encoded in
  ret (mk_access_request_ok ticket).

Definition decode_exchange_declare : eff (dec_state Mem) amqp_exchange_declare_t :=
  do! alloc_struct pool layout_exchange_declare in
  let! ticket := dec_u16 encoded in
  let! exchange := dec_shortstr encoded in
  let! type := dec_shortstr encoded in
  let! bit_buffer := dec_u8 encoded in
  let! arguments := amqp_decode_table encoded pool in
  ret (mk_exchange_declare ticket exchange type (get_bit bit_buffer 0) (get_bit bit_buffer 1) (get_bit bit_buffer 2) (get_bit bit_buffer 3) (get_bit bit_buffer 4) arguments).

Definition decode_exchange_declare_ok : eff (dec_state Mem) amqp_exchange_declare_ok_t :=
  do! alloc_struct pool layout_exchange_declare_ok in
  ret (mk_exchange_declare_ok).

Definition decode_exchange_delete : eff (dec_state Mem) amqp_exchange_delete_t :=
  do! alloc_struct pool layout_exchange_delete in
  let! ticket := dec_u16 encoded in
  let! exchange := dec_shortstr encoded in
  let! bit_buffer := dec_u8 encoded in
  ret (mk_exchange_delete ticket exchange (get_bit bit_buffer 0) (get_bit bit_buffer 1)).

Definition decode_exchange_delete_ok : eff (dec_state Mem) amqp_exchange_delete_ok_t :=
  do! alloc_struct pool layout_exchange_delete_ok in
  ret (mk_exchange_delete_ok).

Definition decode_exchange_bind : eff (dec_state Mem) amqp_exchange_bind_t :=
  do! alloc_struct pool layout_exchange_bind in
  let! ticket := dec_u16 encoded in
  let! destination := dec_shortstr encoded in
  let! source := dec_shortstr encoded in
  let! routing_key := dec_shortstr encoded in
  let! bit_buffer := dec_u8 encoded in
  let! arguments := amqp_decode_table encoded pool in
  ret (mk_exchange_bind ticket destination source routing_key (get_bit bit_buffer 0) arguments).

Definition decode_exchange_bind_ok : eff (dec_state Mem) amqp_exchange_bind_ok_t :=
  do! alloc_struct pool layout_exchange_bind_ok in
  ret (mk_exchange_bind_ok).

Definition decode_exchange_unbind : eff (dec_state Mem) amqp_exchange_unbind_t :=
  do! alloc_struct pool layout_exchange_unbind in
  let! ticket := dec_u16 encoded in
  let! destination := dec_shortstr encoded in
  let! source := dec_shortstr encoded in
  let! routing_key := dec_shortstr encoded in
  let! bit_buffer := dec_u8 encoded in
  let! arguments := amqp_decode_table encoded pool in
  ret (mk_exchange_unbind ticket destination source routing_key (get_bit bit_buffer 0) arguments).

Definition decode_exchange_unbind_ok : eff (dec_state Mem) amqp_exchange_unbind_ok_t :=
  do! alloc_struct pool layout_exchange_unbind_ok in
  ret (mk_exchange_unbind_ok).

Definition decode_queue_declare : eff (dec_state Mem) amqp_queue_declare_t :=
  do! alloc_struct pool layout_queue_declare in
  let! ticket := dec_u16 encoded in
  let! queue := dec_shortstr encoded in
  let! bit_buffer := dec_u8 encoded in
  let! arguments := amqp_decode_table encoded pool in
  ret (mk_queue_declare ticket queue (get_bit bit_buffer 0) (get_bit bit_buffer 1) (get_bit bit_buffer 2) (get_bit bit_buffer 3) (get_bit bit_buffer 4) arguments).

Definition decode_queue_declare_ok : eff (dec_state Mem) amqp_queue_declare_ok_t :=
  do! alloc_struct pool layout_queue_declare_ok in
  let! queue := dec_shortstr encoded in
  let! message_count := dec_u32 encoded in
  let! consumer_count := dec_u32 encoded in
  ret (mk_queue_declare_ok queue message_count consumer_count).

Definition decode_queue_bind : eff (dec_state Mem) amqp_queue_bind_t :=
  do! alloc_struct pool layout_queue_bind in
  let! ticket := dec_u16 encoded in
  let! queue := dec_shortstr encoded in
  let! exchange := dec_shortstr encoded in
  let! routing_key := dec_shortstr encoded in
  let! bit_buffer := dec_u8 encoded in
  let! arguments := amqp_decode_table encoded pool in
  ret (mk_queue_bind ticket queue exchange routing_key (get_bit bit_buffer 0) arguments).

Definition decode_queue_bind_ok : eff (dec_state Mem) amqp_queue_bind_ok_t :=
  do! alloc_struct pool layout_queue_bind_ok in
  ret (mk_queue_bind_ok).

Definition decode_queue_purge : eff (dec_state Mem) amqp_queue_purge_t :=
  do! alloc_struct pool layout_queue_purge in
  let! ticket := dec_u16 encoded in
  let! queue := dec_shortstr encoded in
  let! bit_buffer := dec_u8 encoded in
  ret (mk_queue_purge ticket queue (get_bit bit_buffer 0)).

Definition decode_queue_purge_ok : eff (dec_state Mem) amqp_queue_purge_ok_t :=
  do! alloc_struct pool layout_queue_purge_ok in
  let! message_count := dec_u32 encoded in
  ret (mk_queue_purge_ok message_count).

Definition decode_queue_delete : eff (dec_state Mem) amqp_queue_delete_t :=
  do! alloc_struct pool layout_queue_delete in
  let! ticket := dec_u16 encoded in
  let! queue := dec_shortstr encoded in
  let! bit_buffer := dec_u8 encoded in
  ret (mk_queue_delete ticket queue (get_bit bit_buffer 0) (get_bit bit_buffer 1) (get_bit bit_buffer 2)).

Definition decode_queue_delete_ok : eff (dec_state Mem) amqp_queue_delete_ok_t :=
  do! alloc_struct pool layout_queue_delete_ok in
  let! message_count := dec_u32 encoded in
  ret (mk_queue_delete_ok message_count).

Definition decode_queue_unbind : eff (dec_state Mem) amqp_queue_unbind_t :=
  do! alloc_struct pool layout_queue_unbind in
  let! ticket := dec_u16 encoded in
  let! queue := dec_shortstr encoded in
  let! exchange := dec_shortstr encoded in
  let! routing_key := dec_shortstr encoded in
  let! arguments := amqp_decode_table encoded pool in
  ret (mk_queue_unbind ticket queue exchange routing_key arguments).

Definition decode_queue_unbind_ok : eff (dec_state Mem) amqp_queue_unbind_ok_t :=
  do! alloc_struct pool layout_queue_unbind_ok in
  ret (mk_queue_unbind_ok).

Definition decode_basic_qos : eff (dec_state Mem) amqp_basic_qos_t :=
  do! alloc_struct pool layout_basic_qos in
  let! prefetch_size := dec_u32 encoded in
  let! prefetch_count := dec_u16 encoded in
  let! bit_buffer := dec_u8 encoded in
  ret (mk_basic_qos prefetch_size prefetch_count (get_bit bit_buffer 0)).

Definition decode_basic_qos_ok : eff (dec_state Mem) amqp_basic_qos_ok_t :=
  do! alloc_struct pool layout_basic_qos_ok in
  ret (mk_basic_qos_ok).

Definition decode_basic_consume : eff (dec_state Mem) amqp_basic_consume_t :=
  do! alloc_struct pool layout_basic_consume in
  let! ticket := dec_u16 encoded in
  let! queue := dec_shortstr encoded in
  let! consumer_tag := dec_shortstr encoded in
  let! bit_buffer := dec_u8 encoded in
  let! arguments := amqp_decode_table encoded pool in
  ret (mk_basic_consume ticket queue consumer_tag (get_bit bit_buffer 0) (get_bit bit_buffer 1) (get_bit bit_buffer 2) (get_bit bit_buffer 3) arguments).

Definition decode_basic_consume_ok : eff (dec_state Mem) amqp_basic_consume_ok_t :=
  do! alloc_struct pool layout_basic_consume_ok in
  let! consumer_tag := dec_shortstr encoded in
  ret (mk_basic_consume_ok consumer_tag).

Definition decode_basic_cancel : eff (dec_state Mem) amqp_basic_cancel_t :=
  do! alloc_struct pool layout_basic_cancel in
  let! consumer_tag := dec_shortstr encoded in
  let! bit_buffer := dec_u8 encoded in
  ret (mk_basic_cancel consumer_tag (get_bit bit_buffer 0)).

Definition decode_basic_cancel_ok : eff (dec_state Mem) amqp_basic_cancel_ok_t :=
  do! alloc_struct pool layout_basic_cancel_ok in
  let! consumer_tag := dec_shortstr encoded in
  ret (mk_basic_cancel_ok consumer_tag).

Definition decode_basic_publish : eff (dec_state Mem) amqp_basic_publish_t :=
  do! alloc_struct pool layout_basic_publish in
  let! ticket := dec_u16 encoded in
  let! exchange := dec_shortstr encoded in
  let! routing_key := dec_shortstr encoded in
  let! bit_buffer := dec_u8 encoded in
  ret (mk_basic_publish ticket exchange routing_key (get_bit bit_buffer 0) (get_bit bit_buffer 1)).

Definition decode_basic_return : eff (dec_state Mem) amqp_basic_return_t :=
  do! alloc_struct pool layout_basic_return in
  let! reply_code := dec_u16 encoded in
  let! reply_text := dec_shortstr encoded in
  let! exchange := dec_shortstr encoded in
  let! routing_key := dec_shortstr encoded in
  ret (mk_basic_return reply_code reply_text exchange routing_key).

Definition decode_basic_deliver : eff (dec_state Mem) amqp_basic_deliver_t :=
  do! alloc_struct pool layout_basic_deliver in
  let! consumer_tag := dec_shortstr encoded in
  let! delivery_tag := dec_u64 encoded in
  let! bit_buffer := dec_u8 encoded in
  let! exchange := dec_shortstr encoded in
  let! routing_key := dec_shortstr encoded in
  ret (mk_basic_deliver consumer_tag delivery_tag (get_bit bit_buffer 0) exchange routing_key).

Definition decode_basic_get : eff (dec_state Mem) amqp_basic_get_t :=
  do! alloc_struct pool layout_basic_get in
  let! ticket := dec_u16 encoded in
  let! queue := dec_shortstr encoded in
  let! bit_buffer := dec_u8 encoded in
  ret (mk_basic_get ticket queue (get_bit bit_buffer 0)).

Definition decode_basic_get_ok : eff (dec_state Mem) amqp_basic_get_ok_t :=
  do! alloc_struct pool layout_basic_get_ok in
  let! delivery_tag := dec_u64 encoded in
  let! bit_buffer := dec_u8 encoded in
  let! exchange := dec_shortstr encoded in
  let! routing_key := dec_shortstr encoded in
  let! message_count := dec_u32 encoded in
  ret (mk_basic_get_ok delivery_tag (get_bit bit_buffer 0) exchange routing_key message_count).

Definition decode_basic_get_empty : eff (dec_state Mem) amqp_basic_get_empty_t :=
  do! alloc_struct pool layout_basic_get_empty in
  let! cluster_id := dec_shortstr encoded in
  ret (mk_basic_get_empty cluster_id).

Definition decode_basic_ack : eff (dec_state Mem) amqp_basic_ack_t :=
  do! alloc_struct pool layout_basic_ack in
  let! delivery_tag := dec_u64 encoded in
  let! bit_buffer := dec_u8 encoded in
  ret (mk_basic_ack delivery_tag (get_bit bit_buffer 0)).

Definition decode_basic_reject : eff (dec_state Mem) amqp_basic_reject_t :=
  do! alloc_struct pool layout_basic_reject in
  let! delivery_tag := dec_u64 encoded in
  let! bit_buffer := dec_u8 encoded in
  ret (mk_basic_reject delivery_tag (get_bit bit_buffer 0)).

Definition decode_basic_recover_async : eff (dec_state Mem) amqp_basic_recover_async_t :=
  do! alloc_struct pool layout_basic_recover_async in
  let! bit_buffer := dec_u8 encoded in
  ret (mk_basic_recover_async (get_bit bit_buffer 0)).

Definition decode_basic_recover : eff (dec_state Mem) amqp_basic_recover_t :=
  do! alloc_struct pool layout_basic_recover in
  let! bit_buffer := dec_u8 encoded in
  ret (mk_basic_recover (get_bit bit_buffer 0)).

Definition decode_basic_recover_ok : eff (dec_state Mem) amqp_basic_recover_ok_t :=
  do! alloc_struct pool layout_basic_recover_ok in
  ret (mk_basic_recover_ok).

Definition decode_basic_nack : eff (dec_state Mem) amqp_basic_nack_t :=
  do! alloc_struct pool layout_basic_nack in
  let! delivery_tag := dec_u64 encoded in
  let! bit_buffer := dec_u8 encoded in
  ret (mk_basic_nack delivery_tag (get_bit bit_buffer 0) (get_bit bit_buffer 1)).

Definition decode_tx_select : eff (dec_state Mem) amqp_tx_select_t :=
  do! alloc_struct pool layout_tx_select in
  ret (mk_tx_select).

Definition decode_tx_select_ok : eff (dec_state Mem) amqp_tx_select_ok_t :=
  do! alloc_struct pool layout_tx_select_ok in
  ret (mk_tx_select_ok).

Definition decode_tx_commit : eff (dec_state Mem) amqp_tx_commit_t :=
  do! alloc_struct pool layout_tx_commit in
  ret (mk_tx_commit).

Definition decode_tx_commit_ok : eff (dec_state Mem) amqp_tx_commit_ok_t :=
  do! alloc_struct pool layout_tx_commit_ok in
  ret (mk_tx_commit_ok).

Definition decode_tx_rollback : eff (dec_state Mem) amqp_tx_rollback_t :=
  do! alloc_struct pool layout_tx_rollback in
  ret (mk_tx_rollback).

Definition decode_tx_rollback_ok : eff (dec_state Mem) amqp_tx_rollback_ok_t :=
  do! alloc_struct pool layout_tx_rollback_ok in
  ret (mk_tx_rollback_ok).

Definition decode_confirm_select : eff (dec_state Mem) amqp_confirm_select_t :=
  do! alloc_struct pool layout_confirm_select in
  let! bit_buffer := dec_u8 encoded in
  ret (mk_confirm_select (get_bit bit_buffer 0)).

Definition decode_confirm_select_ok : eff (dec_state Mem) amqp_confirm_select_ok_t :=
  do! alloc_struct pool layout_confirm_select_ok in
  ret (mk_confirm_select_ok).

(** The whole [switch]. *)
Definition amqp_decode_method (methodNumber : Z) : eff (dec_state Mem) method_t :=
  switch methodNumber
    [(AMQP_CONNECTION_START_METHOD, let! m := decode_connection_start in ret (M_connection_start m));
     (AMQP_CONNECTION_START_OK_METHOD, let! m := decode_connection_start_ok in ret (M_connection_start_ok m));
     (AMQP_CONNECTION_SECURE_METHOD, let! m := decode_connection_secure in ret (M_connection_secure m));
     (AMQP_CONNECTION_SECURE_OK_METHOD, let! m := decode_connection_secure_ok in ret (M_connection_secure_ok m));
     (AMQP_CONNECTION_TUNE_METHOD, let! m := decode_connection_tune in ret (M_connection_tune m));
     (AMQP_CONNECTION_TUNE_OK_METHOD, let! m := decode_connection_tune_ok in ret (M_connection_tune_ok m));
     (AMQP_CONNECTION_OPEN_METHOD, let! m := decode_connection_open in ret (M_connection_open m));
     (AMQP_CONNECTION_OPEN_OK_METHOD, let! m := decode_connection_open_ok in ret (M_connection_open_ok m));
     (AMQP_CONNECTION_CLOSE_METHOD, let! m := decode_connection_close in ret (M_connection_close m));
     (AMQP_CONNECTION_CLOSE_OK_METHOD, let! m := decode_connection_close_ok in ret (M_connection_close_ok m));
     (AMQP_CONNECTION_BLOCKED_METHOD, let! m := decode_connection_blocked in ret (M_connection_blocked m));
     (AMQP_CONNECTION_UNBLOCKED_METHOD, let! m := decode_connection_unblocked in ret (M_connection_unblocked m));
     (AMQP_CONNECTION_UPDATE_SECRET_METHOD, let! m := decode_connection_update_secret in ret (M_connection_update_secret m));
     (AMQP_CONNECTION_UPDATE_SECRET_OK_METHOD, let! m := decode_connection_update_secret_ok in ret (M_connection_update_secret_ok m));
     (AMQP_CHANNEL_OPEN_METHOD, let! m := decode_channel_open in ret (M_channel_open m));
     (AMQP_CHANNEL_OPEN_OK_METHOD, let! m := decode_channel_open_ok in ret (M_channel_open_ok m));
     (AMQP_CHANNEL_FLOW_METHOD, let! m := decode_channel_flow in ret (M_channel_flow m));
     (AMQP_CHANNEL_FLOW_OK_METHOD, let! m := decode_channel_flow_ok in ret (M_channel_flow_ok m));
     (AMQP_CHANNEL_CLOSE_METHOD, let! m := decode_channel_close in ret (M_channel_close m));
     (AMQP_CHANNEL_CLOSE_OK_METHOD, let! m := decode_channel_close_ok in ret (M_channel_close_ok m));
     (AMQP_ACCESS_REQUEST_METHOD, let! m := decode_access_request in ret (M_access_request m));
     (AMQP_ACCESS_REQUEST_OK_METHOD, let! m := decode_access_request_ok in ret (M_access_request_ok m));
     (AMQP_EXCHANGE_DECLARE_METHOD, let! m := decode_exchange_declare in ret (M_exchange_declare m));
     (AMQP_EXCHANGE_DECLARE_OK_METHOD, let! m := decode_exchange_declare_ok in ret (M_exchange_declare_ok m));
     (AMQP_EXCHANGE_DELETE_METHOD, let! m := decode_exchange_delete in ret (M_exchange_delete m));
     (AMQP_EXCHANGE_DELETE_OK_METHOD, let! m := decode_exchange_delete_ok in ret (M_exchange_delete_ok m));
     (AMQP_EXCHANGE_BIND_METHOD, let! m := decode_exchange_bind in ret (M_exchange_bind m));
     (AMQP_EXCHANGE_BIND_OK_METHOD, let! m := decode_exchange_bind_ok in ret (M_exchange_bind_ok m));
     (AMQP_EXCHANGE_UNBIND_METHOD, let! m := decode_exchange_unbind in ret (M_exchange_unbind m));
     (AMQP_EXCHANGE_UNBIND_OK_METHOD, let! m := decode_exchange_unbind_ok in ret (M_exchange_unbind_ok m));
     (AMQP_QUEUE_DECLARE_METHOD, let! m := decode_queue_declare in ret (M_queue_declare m));
     (AMQP_QUEUE_DECLARE_OK_METHOD, let! m := decode_queue_declare_ok in ret (M_queue_declare_ok m));
     (AMQP_QUEUE_BIND_METHOD, let! m := decode_queue_bind in ret (M_queue_bind m));
     (AMQP_QUEUE_BIND_OK_METHOD, let! m := decode_queue_bind_ok in ret (M_queue_bind_ok m));
     (AMQP_QUEUE_PURGE_METHOD, let! m := decode_queue_purge in ret (M_queue_purge m));
     (AMQP_QUEUE_PURGE_OK_METHOD, let! m := decode_queue_purge_ok in ret (M_queue_purge_ok m));
     (AMQP_QUEUE_DELETE_METHOD, let! m := decode_queue_delete in ret (M_queue_delete m));
     (AMQP_QUEUE_DELETE_OK_METHOD, let! m := decode_queue_delete_ok in ret (M_queue_delete_ok m));
     (AMQP_QUEUE_UNBIND_METHOD, let! m := decode_queue_unbind in ret (M_queue_unbind m));
     (AMQP_QUEUE_UNBIND_OK_METHOD, let! m := decode_queue_unbind_ok in ret (M_queue_unbind_ok m));
     (AMQP_BASIC_QOS_METHOD, let! m := decode_basic_qos in ret (M_basic_qos m));
     (AMQP_BASIC_QOS_OK_METHOD, let! m := decode_basic_qos_ok in ret (M_basic_qos_ok m));
     (AMQP_BASIC_CONSUME_METHOD, let! m := decode_basic_consume in ret (M_basic_consume m));
     (AMQP_BASIC_CONSUME_OK_METHOD, let! m := decode_basic_consume_ok in ret (M_basic_consume_ok m));
     (AMQP_BASIC_CANCEL_METHOD, let! m := decode_basic_cancel in ret (M_basic_cancel m));
     (AMQP_BASIC_CANCEL_OK_METHOD, let! m := decode_basic_cancel_ok in ret (M_basic_cancel_ok m));
     (AMQP_BASIC_PUBLISH_METHOD, let! m := decode_basic_publish in ret (M_basic_publish m));
     (AMQP_BASIC_RETURN_METHOD, let! m := decode_basic_return in ret (M_basic_return m));
     (AMQP_BASIC_DELIVER_METHOD, let! m := decode_basic_deliver in ret (M_basic_deliver m));
     (AMQP_BASIC_GET_METHOD, let! m := decode_basic_get in ret (M_basic_get m));
     (AMQP_BASIC_GET_OK_METHOD, let! m := decode_basic_get_ok in ret (M_basic_get_ok m));
     (AMQP_BASIC_GET_EMPTY_METHOD, let! m := decode_basic_get_empty in ret (M_basic_get_empty m));
     (AMQP_BASIC_ACK_METHOD, let! m := decode_basic_ack in ret (M_basic_ack m));
     (AMQP_BASIC_REJECT_METHOD, let! m := decode_basic_reject in ret (M_basic_reject m));
     (AMQP_BASIC_RECOVER_ASYNC_METHOD, let! m := decode_basic_recover_async in ret (M_basic_recover_async m));
     (AMQP_BASIC_RECOVER_METHOD, let! m := decode_basic_recover in ret (M_basic_recover m));
     (AMQP_BASIC_RECOVER_OK_METHOD, let! m := decode_basic_recover_ok in ret (M_basic_recover_ok m));
     (AMQP_BASIC_NACK_METHOD, let! m := decode_basic_nack in ret (M_basic_nack m));
     (AMQP_TX_SELECT_METHOD, let! m := decode_tx_select in ret (M_tx_select m));
     (AMQP_TX_SELECT_OK_METHOD, let! m := decode_tx_select_ok in ret (M_tx_select_ok m));
     (AMQP_TX_COMMIT_METHOD, let! m := decode_tx_commit in ret (M_tx_commit m));
     (AMQP_TX_COMMIT_OK_METHOD, let! m := decode_tx_commit_ok in ret (M_tx_commit_ok m));
     (AMQP_TX_ROLLBACK_METHOD, let! m := decode_tx_rollback in ret (M_tx_rollback m));
     (AMQP_TX_ROLLBACK_OK_METHOD, let! m := decode_tx_rollback_ok in ret (M_tx_rollback_ok m));
     (AMQP_CONFIRM_SELECT_METHOD, let! m := decode_confirm_select in ret (M_confirm_select m));
     (AMQP_CONFIRM_SELECT_OK_METHOD, let! m := decode_confirm_select_ok in ret (M_confirm_select_ok m))]
    (fail AMQP_STATUS_UNKNOWN_METHOD).

End Decode.
