(* ===== verification/MethodEncode.v ===== *)
(** * [amqp_encode_method] ([librabbitmq/amqp_framing.c])

    One definition per [case]: the fields are written in order; the first write
    that does not fit, or string too long for its length prefix, returns its
    status. *)

From S2P Require Import Prelude Status Codec Layout Table MethodTypes MethodCodec.

Section Encode.
Context `{Host}.

Definition encode_connection_start (m : amqp_connection_start_t) : eff enc_state unit :=
  do! enc_u8 (connection_start_version_major m) in
  do! enc_u8 (connection_start_version_minor m) in
  do! amqp_encode_table (connection_start_server_properties m) in
  do! enc_longstr (connection_start_mechanisms m) in
  do! enc_longstr (connection_start_locales m) in
  ret tt.

Definition encode_connection_start_ok (m : amqp_connection_start_ok_t) : eff enc_state unit :=
  do! amqp_encode_table (connection_start_ok_client_properties m) in
  do! enc_shortstr (connection_start_ok_mechanism m) in
  do! enc_longstr (connection_start_ok_response m) in
  do! enc_shortstr (connection_start_ok_locale m) in
  ret tt.

Definition encode_connection_secure (m : amqp_connection_secure_t) : eff enc_state unit :=
  do! enc_longstr (connection_secure_challenge m) in
  ret tt.

Definition encode_connection_secure_ok (m : amqp_connection_secure_ok_t) : eff enc_state unit :=
  do! enc_longstr (connection_secure_ok_response m) in
  ret tt.

Definition encode_connection_tune (m : amqp_connection_tune_t) : eff enc_state unit :=
  do! enc_u16 (connection_tune_channel_max m) in
  do! enc_u32 (connection_tune_frame_max m) in
  do! enc_u16 (connection_tune_heartbeat m) in
  ret tt.

Definition encode_connection_tune_ok (m : amqp_connection_tune_ok_t) : eff enc_state unit :=
  do! enc_u16 (connection_tune_ok_channel_max m) in
  do! enc_u32 (connection_tune_ok_frame_max m) in
  do! enc_u16 (connection_tune_ok_heartbeat m) in
  ret tt.

Definition encode_connection_open (m : amqp_connection_open_t) : eff enc_state unit :=
  do! enc_shortstr (connection_open_virtual_host m) in
  do! enc_shortstr (connection_open_capabilities m) in
  let bit_buffer := 0 in
  let bit_buffer := or_bit (connection_open_insist m) 0 bit_buffer in
  do! enc_u8 bit_buffer in
  ret tt.

Definition encode_connection_open_ok (m : amqp_connection_open_ok_t) : eff enc_state unit :=
  do! enc_shortstr (connection_open_ok_known_hosts m) in
  ret tt.

Definition encode_connection_close (m : amqp_connection_close_t) : eff enc_state unit :=
  do! enc_u16 (connection_close_reply_code m) in
  do! enc_shortstr (connection_close_reply_text m) in
  do! enc_u16 (connection_close_class_id m) in
  do! enc_u16 (connection_close_method_id m) in
  ret tt.

Definition encode_connection_close_ok : eff enc_state unit :=
  ret tt.

Definition encode_connection_blocked (m : amqp_connection_blocked_t) : eff enc_state unit :=
  do! enc_shortstr (connection_blocked_reason m) in
  ret tt.

Definition encode_connection_unblocked : eff enc_state unit :=
  ret tt.

Definition encode_connection_update_secret (m : amqp_connection_update_secret_t) : eff enc_state unit :=
  do! enc_longstr (connection_update_secret_new_secret m) in
  do! enc_shortstr (connection_update_secret_reason m) in
  ret tt.

Definition encode_connection_update_secret_ok : eff enc_state unit :=
  ret tt.

Definition encode_channel_open (m : amqp_channel_open_t) : eff enc_state unit :=
  do! enc_shortstr (channel_open_out_of_band m) in
  ret tt.

Definition encode_channel_open_ok (m : amqp_channel_open_ok_t) : eff enc_state unit :=
  do! enc_longstr (channel_open_ok_channel_id m) in
  ret tt.

Definition encode_channel_flow (m : amqp_channel_flow_t) : eff enc_state unit :=
  let bit_buffer := 0 in
  let bit_buffer := or_bit (channel_flow_active m) 0 bit_buffer in
  do! enc_u8 bit_buffer in
  ret tt.

Definition encode_channel_flow_ok (m : amqp_channel_flow_ok_t) : eff enc_state unit :=
  let bit_buffer := 0 in
  let bit_buffer := or_bit (channel_flow_ok_active m) 0 bit_buffer in
  do! enc_u8 bit_buffer in
  ret tt.

Definition encode_channel_close (m : amqp_channel_close_t) : eff enc_state unit :=
  do! enc_u16 (channel_close_reply_code m) in
  do! enc_shortstr (channel_close_reply_text m) in
  do! enc_u16 (channel_close_class_id m) in
  do! enc_u16 (channel_close_method_id m) in
  ret tt.

Definition encode_channel_close_ok : eff enc_state unit :=
  ret tt.

Definition encode_access_request (m : amqp_access_request_t) : eff enc_state unit :=
  do! enc_shortstr (access_request_realm m) in
  let bit_buffer := 0 in
  let bit_buffer := or_bit (access_request_exclusive m) 0 bit_buffer in
  let bit_buffer := or_bit (access_request_passive m) 1 bit_buffer in
  let bit_buffer := or_bit (access_request_active m) 2 bit_buffer in
  let bit_buffer := or_bit (access_request_write m) 3 bit_buffer in
  let bit_buffer := or_bit (access_request_read m) 4 bit_buffer in
  do! enc_u8 bit_buffer in
  ret tt.

Definition encode_access_request_ok (m : amqp_access_request_ok_t) : eff enc_state unit :=
  do! enc_u16 (access_request_ok_ticket m) in
  ret tt.

Definition encode_exchange_declare (m : amqp_exchange_declare_t) : eff enc_state unit :=
  do! enc_u16 (exchange_declare_ticket m) in
  do! enc_shortstr (exchange_declare_exchange m) in
  do! enc_shortstr (exchange_declare_type m) in
  let bit_buffer := 0 in
  let bit_buffer := or_bit (exchange_declare_passive m) 0 bit_buffer in
  let bit_buffer := or_bit (exchange_declare_durable m) 1 bit_buffer in
  let bit_buffer := or_bit (exchange_declare_auto_delete m) 2 bit_buffer in
  let bit_buffer := or_bit (exchange_declare_internal m) 3 bit_buffer in
  let bit_buffer := or_bit (exchange_declare_nowait m) 4 bit_buffer in
  do! enc_u8 bit_buffer in
  do! amqp_encode_table (exchange_declare_arguments m) in
  ret tt.

Definition encode_exchange_declare_ok : eff enc_state unit :=
  ret tt.

Definition encode_exchange_delete (m : amqp_exchange_delete_t) : eff enc_state unit :=
  do! enc_u16 (exchange_delete_ticket m) in
  do! enc_shortstr (exchange_delete_exchange m) in
  let bit_buffer := 0 in
  let bit_buffer := or_bit (exchange_delete_if_unused m) 0 bit_buffer in
  let bit_buffer := or_bit (exchange_delete_nowait m) 1 bit_buffer in
  do! enc_u8 bit_buffer in
  ret tt.

Definition encode_exchange_delete_ok : eff enc_state unit :=
  ret tt.

Definition encode_exchange_bind (m : amqp_exchange_bind_t) : eff enc_state unit :=
  do! enc_u16 (exchange_bind_ticket m) in
  do! enc_shortstr (exchange_bind_destination m) in
  do! enc_shortstr (exchange_bind_source m) in
  do! enc_shortstr (exchange_bind_routing_key m) in
  let bit_buffer := 0 in
  let bit_buffer := or_bit (exchange_bind_nowait m) 0 bit_buffer in
  do! enc_u8 bit_buffer in
  do! amqp_encode_table (exchange_bind_arguments m) in
  ret tt.

Definition encode_exchange_bind_ok : eff enc_state unit :=
  ret tt.

Definition encode_exchange_unbind (m : amqp_exchange_unbind_t) : eff enc_state unit :=
  do! enc_u16 (exchange_unbind_ticket m) in
  do! enc_shortstr (exchange_unbind_destination m) in
  do! enc_shortstr (exchange_unbind_source m) in
  do! enc_shortstr (exchange_unbind_routing_key m) in
  let bit_buffer := 0 in
  let bit_buffer := or_bit (exchange_unbind_nowait m) 0 bit_buffer in
  do! enc_u8 bit_buffer in
  do! amqp_encode_table (exchange_unbind_arguments m) in
  ret tt.

Definition encode_exchange_unbind_ok : eff enc_state unit :=
  ret tt.

Definition encode_queue_declare (m : amqp_queue_declare_t) : eff enc_state unit :=
  do! enc_u16 (queue_declare_ticket m) in
  do! enc_shortstr (queue_declare_queue m) in
  let bit_buffer := 0 in
  let bit_buffer := or_bit (queue_declare_passive m) 0 bit_buffer in
  let bit_buffer := or_bit (queue_declare_durable m) 1 bit_buffer in
  let bit_buffer := or_bit (queue_declare_exclusive m) 2 bit_buffer in
  let bit_buffer := or_bit (queue_declare_auto_delete m) 3 bit_buffer in
  let bit_buffer := or_bit (queue_declare_nowait m) 4 bit_buffer in
  do! enc_u8 bit_buffer in
  do! amqp_encode_table (queue_declare_arguments m) in
  ret tt.

Definition encode_queue_declare_ok (m : amqp_queue_declare_ok_t) : eff enc_state unit :=
  do! enc_shortstr (queue_declare_ok_queue m) in
  do! enc_u32 (queue_declare_ok_message_count m) in
  do! enc_u32 (queue_declare_ok_consumer_count m) in
  ret tt.

Definition encode_queue_bind (m : amqp_queue_bind_t) : eff enc_state unit :=
  do! enc_u16 (queue_bind_ticket m) in
  do! enc_shortstr (queue_bind_queue m) in
  do! enc_shortstr (queue_bind_exchange m) in
  do! enc_shortstr (queue_bind_routing_key m) in
  let bit_buffer := 0 in
  let bit_buffer := or_bit (queue_bind_nowait m) 0 bit_buffer in
  do! enc_u8 bit_buffer in
  do! amqp_encode_table (queue_bind_arguments m) in
  ret tt.

Definition encode_queue_bind_ok : eff enc_state unit :=
  ret tt.

Definition encode_queue_purge (m : amqp_queue_purge_t) : eff enc_state unit :=
  do! enc_u16 (queue_purge_ticket m) in
  do! enc_shortstr (queue_purge_queue m) in
  let bit_buffer := 0 in
  let bit_buffer := or_bit (queue_purge_nowait m) 0 bit_buffer in
  do! enc_u8 bit_buffer in
  ret tt.

Definition encode_queue_purge_ok (m : amqp_queue_purge_ok_t) : eff enc_state unit :=
  do! enc_u32 (queue_purge_ok_message_count m) in
  ret tt.

Definition encode_queue_delete (m : amqp_queue_delete_t) : eff enc_state unit :=
  do! enc_u16 (queue_delete_ticket m) in
  do! enc_shortstr (queue_delete_queue m) in
  let bit_buffer := 0 in
  let bit_buffer := or_bit (queue_delete_if_unused m) 0 bit_buffer in
  let bit_buffer := or_bit (queue_delete_if_empty m) 1 bit_buffer in
  let bit_buffer := or_bit (queue_delete_nowait m) 2 bit_buffer in
  do! enc_u8 bit_buffer in
  ret tt.

Definition encode_queue_delete_ok (m : amqp_queue_delete_ok_t) : eff enc_state unit :=
  do! enc_u32 (queue_delete_ok_message_count m) in
  ret tt.

Definition encode_queue_unbind (m : amqp_queue_unbind_t) : eff enc_state unit :=
  do! enc_u16 (queue_unbind_ticket m) in
  do! enc_shortstr (queue_unbind_queue m) in
  do! enc_shortstr (queue_unbind_exchange m) in
  do! enc_shortstr (queue_unbind_routing_key m) in
  do! amqp_encode_table (queue_unbind_arguments m) in
  ret tt.

Definition encode_queue_unbind_ok : eff enc_state unit :=
  ret tt.

Definition encode_basic_qos (m : amqp_basic_qos_t) : eff enc_state unit :=
  do! enc_u32 (basic_qos_prefetch_size m) in
  do! enc_u16 (basic_qos_prefetch_count m) in
  let bit_buffer := 0 in
  let bit_buffer := or_bit (basic_qos_global m) 0 bit_buffer in
  do! enc_u8 bit_buffer in
  ret tt.

Definition encode_basic_qos_ok : eff enc_state unit :=
  ret tt.

Definition encode_basic_consume (m : amqp_basic_consume_t) : eff enc_state unit :=
  do! enc_u16 (basic_consume_ticket m) in
  do! enc_shortstr (basic_consume_queue m) in
  do! enc_shortstr (basic_consume_consumer_tag m) in
  let bit_buffer := 0 in
  let bit_buffer := or_bit (basic_consume_no_local m) 0 bit_buffer in
  let bit_buffer := or_bit (basic_consume_no_ack m) 1 bit_buffer in
  let bit_buffer := or_bit (basic_consume_exclusive m) 2 bit_buffer in
  let bit_buffer := or_bit (basic_consume_nowait m) 3 bit_buffer in
  do! enc_u8 bit_buffer in
  do! amqp_encode_table (basic_consume_arguments m) in
  ret tt.

Definition encode_basic_consume_ok (m : amqp_basic_consume_ok_t) : eff enc_state unit :=
  do! enc_shortstr (basic_consume_ok_consumer_tag m) in
  ret tt.

Definition encode_basic_cancel (m : amqp_basic_cancel_t) : eff enc_state unit :=
  do! enc_shortstr (basic_cancel_consumer_tag m) in
  let bit_buffer := 0 in
  let bit_buffer := or_bit (basic_cancel_nowait m) 0 bit_buffer in
  do! enc_u8 bit_buffer in
  ret tt.

Definition encode_basic_cancel_ok (m : amqp_basic_cancel_ok_t) : eff enc_state unit :=
  do! enc_shortstr (basic_cancel_ok_consumer_tag m) in
  ret tt.

Definition encode_basic_publish (m : amqp_basic_publish_t) : eff enc_state unit :=
  do! enc_u16 (basic_publish_ticket m) in
  do! enc_shortstr (basic_publish_exchange m) in
  do! enc_shortstr (basic_publish_routing_key m) in
  let bit_buffer := 0 in
  let bit_buffer := or_bit (basic_publish_mandatory m) 0 bit_buffer in
  let bit_buffer := or_bit (basic_publish_immediate m) 1 bit_buffer in
  do! enc_u8 bit_buffer in
  ret tt.

Definition encode_basic_return (m : amqp_basic_return_t) : eff enc_state unit :=
  do! enc_u16 (basic_return_reply_code m) in
  do! enc_shortstr (basic_return_reply_text m) in
  do! enc_shortstr (basic_return_exchange m) in
  do! enc_shortstr (basic_return_routing_key m) in
  ret tt.

Definition encode_basic_deliver (m : amqp_basic_deliver_t) : eff enc_state unit :=
  do! enc_shortstr (basic_deliver_consumer_tag m) in
  do! enc_u64 (basic_deliver_delivery_tag m) in
  let bit_buffer := 0 in
  let bit_buffer := or_bit (basic_deliver_redelivered m) 0 bit_buffer in
  do! enc_u8 bit_buffer in
  do! enc_shortstr (basic_deliver_exchange m) in
  do! enc_shortstr (basic_deliver_routing_key m) in
  ret tt.

Definition encode_basic_get (m : amqp_basic_get_t) : eff enc_state unit :=
  do! enc_u16 (basic_get_ticket m) in
  do! enc_shortstr (basic_get_queue m) in
  let bit_buffer := 0 in
  let bit_buffer := or_bit (basic_get_no_ack m) 0 bit_buffer in
  do! enc_u8 bit_buffer in
  ret tt.

Definition encode_basic_get_ok (m : amqp_basic_get_ok_t) : eff enc_state unit :=
  do! enc_u64 (basic_get_ok_delivery_tag m) in
  let bit_buffer := 0 in
  let bit_buffer := or_bit (basic_get_ok_redelivered m) 0 bit_buffer in
  do! enc_u8 bit_buffer in
  do! enc_shortstr (basic_get_ok_exchange m) in
  do! enc_shortstr (basic_get_ok_routing_key m) in
  do! enc_u32 (basic_get_ok_message_count m) in
  ret tt.

Definition encode_basic_get_empty (m : amqp_basic_get_empty_t) : eff enc_state unit :=
  do! enc_shortstr (basic_get_empty_cluster_id m) in
  ret tt.

Definition encode_basic_ack (m : amqp_basic_ack_t) : eff enc_state unit :=
  do! enc_u64 (basic_ack_delivery_tag m) in
  let bit_buffer := 0 in
  let bit_buffer := or_bit (basic_ack_multiple m) 0 bit_buffer in
  do! enc_u8 bit_buffer in
  ret tt.

Definition encode_basic_reject (m : amqp_basic_reject_t) : eff enc_state unit :=
  do! enc_u64 (basic_reject_delivery_tag m) in
  let bit_buffer := 0 in
  let bit_buffer := or_bit (basic_reject_requeue m) 0 bit_buffer in
  do! enc_u8 bit_buffer in
  ret tt.

Definition encode_basic_recover_async (m : amqp_basic_recover_async_t) : eff enc_state unit :=
  let bit_buffer := 0 in
  let bit_buffer := or_bit (basic_recover_async_requeue m) 0 bit_buffer in
  do! enc_u8 bit_buffer in
  ret tt.

Definition encode_basic_recover (m : amqp_basic_recover_t) : eff enc_state unit :=
  let bit_buffer := 0 in
  let bit_buffer := or_bit (basic_recover_requeue m) 0 bit_buffer in
  do! enc_u8 bit_buffer in
  ret tt.

Definition encode_basic_recover_ok : eff enc_state unit :=
  ret tt.

Definition encode_basic_nack (m : amqp_basic_nack_t) : eff enc_state unit :=
  do! enc_u64 (basic_nack_delivery_tag m) in
  let bit_buffer := 0 in
  let bit_buffer := or_bit (basic_nack_multiple m) 0 bit_buffer in
  let bit_buffer := or_bit (basic_nack_requeue m) 1 bit_buffer in
  do! enc_u8 bit_buffer in
  ret tt.

Definition encode_tx_select : eff enc_state unit :=
  ret tt.

Definition encode_tx_select_ok : eff enc_state unit :=
  ret tt.

Definition encode_tx_commit : eff enc_state unit :=
  ret tt.

Definition encode_tx_commit_ok : eff enc_state unit :=
  ret tt.

Definition encode_tx_rollback : eff enc_state unit :=
  ret tt.

Definition encode_tx_rollback_ok : eff enc_state unit :=
  ret tt.

Definition encode_confirm_select (m : amqp_confirm_select_t) : eff enc_state unit :=
  let bit_buffer := 0 in
  let bit_buffer := or_bit (confirm_select_nowait m) 0 bit_buffer in
  do! enc_u8 bit_buffer in
  ret tt.

Definition encode_confirm_select_ok : eff enc_state unit :=
  ret tt.

(** The whole [switch]; a [void *] that is not the structure of its method is
    undefined, unless the case never looks at it.  The offset comes back as an [int]. *)
Definition amqp_encode_method (methodNumber : Z) (decoded : method_t) : eff enc_state Z :=
  do! switch methodNumber
      [(AMQP_CONNECTION_START_METHOD, match decoded with M_connection_start m => encode_connection_start m | _ => undef end);
       (AMQP_CONNECTION_START_OK_METHOD, match decoded with M_connection_start_ok m => encode_connection_start_ok m | _ => undef end);
       (AMQP_CONNECTION_SECURE_METHOD, match decoded with M_connection_secure m => encode_connection_secure m | _ => undef end);
       (AMQP_CONNECTION_SECURE_OK_METHOD, match decoded with M_connection_secure_ok m => encode_connection_secure_ok m | _ => undef end);
       (AMQP_CONNECTION_TUNE_METHOD, match decoded with M_connection_tune m => encode_connection_tune m | _ => undef end);
       (AMQP_CONNECTION_TUNE_OK_METHOD, match decoded with M_connection_tune_ok m => encode_connection_tune_ok m | _ => undef end);
       (AMQP_CONNECTION_OPEN_METHOD, match decoded with M_connection_open m => encode_connection_open m | _ => undef end);
       (AMQP_CONNECTION_OPEN_OK_METHOD, match decoded with M_connection_open_ok m => encode_connection_open_ok m | _ => undef end);
       (AMQP_CONNECTION_CLOSE_METHOD, match decoded with M_connection_close m => encode_connection_close m | _ => undef end);
       (AMQP_CONNECTION_CLOSE_OK_METHOD, encode_connection_close_ok);
       (AMQP_CONNECTION_BLOCKED_METHOD, match decoded with M_connection_blocked m => encode_connection_blocked m | _ => undef end);
       (AMQP_CONNECTION_UNBLOCKED_METHOD, encode_connection_unblocked);
       (AMQP_CONNECTION_UPDATE_SECRET_METHOD, match decoded with M_connection_update_secret m => encode_connection_update_secret m | _ => undef end);
       (AMQP_CONNECTION_UPDATE_SECRET_OK_METHOD, encode_connection_update_secret_ok);
       (AMQP_CHANNEL_OPEN_METHOD, match decoded with M_channel_open m => encode_channel_open m | _ => undef end);
       (AMQP_CHANNEL_OPEN_OK_METHOD, match decoded with M_channel_open_ok m => encode_channel_open_ok m | _ => undef end);
       (AMQP_CHANNEL_FLOW_METHOD, match decoded with M_channel_flow m => encode_channel_flow m | _ => undef end);
       (AMQP_CHANNEL_FLOW_OK_METHOD, match decoded with M_channel_flow_ok m => encode_channel_flow_ok m | _ => undef end);
       (AMQP_CHANNEL_CLOSE_METHOD, match decoded with M_channel_close m => encode_channel_close m | _ => undef end);
       (AMQP_CHANNEL_CLOSE_OK_METHOD, encode_channel_close_ok);
       (AMQP_ACCESS_REQUEST_METHOD, match decoded with M_access_request m => encode_access_request m | _ => undef end);
       (AMQP_ACCESS_REQUEST_OK_METHOD, match decoded with M_access_request_ok m => encode_access_request_ok m | _ => undef end);
       (AMQP_EXCHANGE_DECLARE_METHOD, match decoded with M_exchange_declare m => encode_exchange_declare m | _ => undef end);
       (AMQP_EXCHANGE_DECLARE_OK_METHOD, encode_exchange_declare_ok);
       (AMQP_EXCHANGE_DELETE_METHOD, match decoded with M_exchange_delete m => encode_exchange_delete m | _ => undef end);
       (AMQP_EXCHANGE_DELETE_OK_METHOD, encode_exchange_delete_ok);
       (AMQP_EXCHANGE_BIND_METHOD, match decoded with M_exchange_bind m => encode_exchange_bind m | _ => undef end);
       (AMQP_EXCHANGE_BIND_OK_METHOD, encode_exchange_bind_ok);
       (AMQP_EXCHANGE_UNBIND_METHOD, match decoded with M_exchange_unbind m => encode_exchange_unbind m | _ => undef end);
       (AMQP_EXCHANGE_UNBIND_OK_METHOD, encode_exchange_unbind_ok);
       (AMQP_QUEUE_DECLARE_METHOD, match decoded with M_queue_declare m => encode_queue_declare m | _ => undef end);
       (AMQP_QUEUE_DECLARE_OK_METHOD, match decoded with M_queue_declare_ok m => encode_queue_declare_ok m | _ => undef end);
       (AMQP_QUEUE_BIND_METHOD, match decoded with M_queue_bind m => encode_queue_bind m | _ => undef end);
       (AMQP_QUEUE_BIND_OK_METHOD, encode_queue_bind_ok);
       (AMQP_QUEUE_PURGE_METHOD, match decoded with M_queue_purge m => encode_queue_purge m | _ => undef end);
       (AMQP_QUEUE_PURGE_OK_METHOD, match decoded with M_queue_purge_ok m => encode_queue_purge_ok m | _ => undef end);
       (AMQP_QUEUE_DELETE_METHOD, match decoded with M_queue_delete m => encode_queue_delete m | _ => undef end);
       (AMQP_QUEUE_DELETE_OK_METHOD, match decoded with M_queue_delete_ok m => encode_queue_delete_ok m | _ => undef end);
       (AMQP_QUEUE_UNBIND_METHOD, match decoded with M_queue_unbind m => encode_queue_unbind m | _ => undef end);
       (AMQP_QUEUE_UNBIND_OK_METHOD, encode_queue_unbind_ok);
       (AMQP_BASIC_QOS_METHOD, match decoded with M_basic_qos m => encode_basic_qos m | _ => undef end);
       (AMQP_BASIC_QOS_OK_METHOD, encode_basic_qos_ok);
       (AMQP_BASIC_CONSUME_METHOD, match decoded with M_basic_consume m => encode_basic_consume m | _ => undef end);
       (AMQP_BASIC_CONSUME_OK_METHOD, match decoded with M_basic_consume_ok m => encode_basic_consume_ok m | _ => undef end);
       (AMQP_BASIC_CANCEL_METHOD, match decoded with M_basic_cancel m => encode_basic_cancel m | _ => undef end);
       (AMQP_BASIC_CANCEL_OK_METHOD, match decoded with M_basic_cancel_ok m => encode_basic_cancel_ok m | _ => undef end);
       (AMQP_BASIC_PUBLISH_METHOD, match decoded with M_basic_publish m => encode_basic_publish m | _ => undef end);
       (AMQP_BASIC_RETURN_METHOD, match decoded with M_basic_return m => encode_basic_return m | _ => undef end);
       (AMQP_BASIC_DELIVER_METHOD, match decoded with M_basic_deliver m => encode_basic_deliver m | _ => undef end);
       (AMQP_BASIC_GET_METHOD, match decoded with M_basic_get m => encode_basic_get m | _ => undef end);
       (AMQP_BASIC_GET_OK_METHOD, match decoded with M_basic_get_ok m => encode_basic_get_ok m | _ => undef end);
       (AMQP_BASIC_GET_EMPTY_METHOD, match decoded with M_basic_get_empty m => encode_basic_get_empty m | _ => undef end);
       (AMQP_BASIC_ACK_METHOD, match decoded with M_basic_ack m => encode_basic_ack m | _ => undef end);
       (AMQP_BASIC_REJECT_METHOD, match decoded with M_basic_reject m => encode_basic_reject m | _ => undef end);
       (AMQP_BASIC_RECOVER_ASYNC_METHOD, match decoded with M_basic_recover_async m => encode_basic_recover_async m | _ => undef end);
       (AMQP_BASIC_RECOVER_METHOD, match decoded with M_basic_recover m => encode_basic_recover m | _ => undef end);
       (AMQP_BASIC_RECOVER_OK_METHOD, encode_basic_recover_ok);
       (AMQP_BASIC_NACK_METHOD, match decoded with M_basic_nack m => encode_basic_nack m | _ => undef end);
       (AMQP_TX_SELECT_METHOD, encode_tx_select);
       (AMQP_TX_SELECT_OK_METHOD, encode_tx_select_ok);
       (AMQP_TX_COMMIT_METHOD, encode_tx_commit);
       (AMQP_TX_COMMIT_OK_METHOD, encode_tx_commit_ok);
       (AMQP_TX_ROLLBACK_METHOD, encode_tx_rollback);
       (AMQP_TX_ROLLBACK_OK_METHOD, encode_tx_rollback_ok);
       (AMQP_CONFIRM_SELECT_METHOD, match decoded with M_confirm_select m => encode_confirm_select m | _ => undef end);
       (AMQP_CONFIRM_SELECT_OK_METHOD, encode_confirm_select_ok)]
      (fail AMQP_STATUS_UNKNOWN_METHOD) in
  let! offset := get_offset in
  ret (swrap 32 offset).

End Encode.
