(* ===== verification/MethodSpec.v ===== *)
(** * Methods: the theorems about [amqp_encode_method] and [amqp_decode_method]

    The wire format of a method is the concatenation of its arguments.  All cases
    of both switches are proved by the same few tactics, from the lemmas of
    [MethodCodec.v]. *)

From S2P Require Import Prelude Status Memory Codec Layout Pool PoolMem Table TableSpec.
From S2P Require Import MethodCodec MethodTypes MethodDecode MethodEncode.

(** The arguments of each method as AMQP 0-9-1 lists them. *)
Definition method_fields (d : method_t) : list field :=
  match d with
  | M_connection_start m => [F8 (connection_start_version_major m); F8
      (connection_start_version_minor m); FTable (connection_start_server_properties m); FLong
      (connection_start_mechanisms m); FLong (connection_start_locales m)]
  | M_connection_start_ok m => [FTable (connection_start_ok_client_properties m); FShort
      (connection_start_ok_mechanism m); FLong (connection_start_ok_response m); FShort
      (connection_start_ok_locale m)]
  | M_connection_secure m => [FLong (connection_secure_challenge m)]
  | M_connection_secure_ok m => [FLong (connection_secure_ok_response m)]
  | M_connection_tune m => [F16 (connection_tune_channel_max m); F32 (connection_tune_frame_max m);
      F16 (connection_tune_heartbeat m)]
  | M_connection_tune_ok m => [F16 (connection_tune_ok_channel_max m); F32
      (connection_tune_ok_frame_max m); F16 (connection_tune_ok_heartbeat m)]
  | M_connection_open m => [FShort (connection_open_virtual_host m); FShort
      (connection_open_capabilities m); FBits [connection_open_insist m]]
  | M_connection_open_ok m => [FShort (connection_open_ok_known_hosts m)]
  | M_connection_close m => [F16 (connection_close_reply_code m); FShort
      (connection_close_reply_text m); F16 (connection_close_class_id m); F16
      (connection_close_method_id m)]
  | M_connection_close_ok _ => []
  | M_connection_blocked m => [FShort (connection_blocked_reason m)]
  | M_connection_unblocked _ => []
  | M_connection_update_secret m => [FLong (connection_update_secret_new_secret m); FShort
      (connection_update_secret_reason m)]
  | M_connection_update_secret_ok _ => []
  | M_channel_open m => [FShort (channel_open_out_of_band m)]
  | M_channel_open_ok m => [FLong (channel_open_ok_channel_id m)]
  | M_channel_flow m => [FBits [channel_flow_active m]]
  | M_channel_flow_ok m => [FBits [channel_flow_ok_active m]]
  | M_channel_close m => [F16 (channel_close_reply_code m); FShort (channel_close_reply_text m); F16
      (channel_close_class_id m); F16 (channel_close_method_id m)]
  | M_channel_close_ok _ => []
  | M_access_request m => [FShort (access_request_realm m); FBits [access_request_exclusive m;
      access_request_passive m; access_request_active m; access_request_write m; access_request_read
      m]]
  | M_access_request_ok m => [F16 (access_request_ok_ticket m)]
  | M_exchange_declare m => [F16 (exchange_declare_ticket m); FShort (exchange_declare_exchange m);
      FShort (exchange_declare_type m); FBits [exchange_declare_passive m; exchange_declare_durable
      m; exchange_declare_auto_delete m; exchange_declare_internal m; exchange_declare_nowait m];
      FTable (exchange_declare_arguments m)]
  | M_exchange_declare_ok _ => []
  | M_exchange_delete m => [F16 (exchange_delete_ticket m); FShort (exchange_delete_exchange m);
      FBits [exchange_delete_if_unused m; exchange_delete_nowait m]]
  | M_exchange_delete_ok _ => []
  | M_exchange_bind m => [F16 (exchange_bind_ticket m); FShort (exchange_bind_destination m); FShort
      (exchange_bind_source m); FShort (exchange_bind_routing_key m); FBits [exchange_bind_nowait
      m]; FTable (exchange_bind_arguments m)]
  | M_exchange_bind_ok _ => []
  | M_exchange_unbind m => [F16 (exchange_unbind_ticket m); FShort (exchange_unbind_destination m);
      FShort (exchange_unbind_source m); FShort (exchange_unbind_routing_key m); FBits
      [exchange_unbind_nowait m]; FTable (exchange_unbind_arguments m)]
  | M_exchange_unbind_ok _ => []
  | M_queue_declare m => [F16 (queue_declare_ticket m); FShort (queue_declare_queue m); FBits
      [queue_declare_passive m; queue_declare_durable m; queue_declare_exclusive m;
      queue_declare_auto_delete m; queue_declare_nowait m]; FTable (queue_declare_arguments m)]
  | M_queue_declare_ok m => [FShort (queue_declare_ok_queue m); F32 (queue_declare_ok_message_count
      m); F32 (queue_declare_ok_consumer_count m)]
  | M_queue_bind m => [F16 (queue_bind_ticket m); FShort (queue_bind_queue m); FShort
      (queue_bind_exchange m); FShort (queue_bind_routing_key m); FBits [queue_bind_nowait m];
      FTable (queue_bind_arguments m)]
  | M_queue_bind_ok _ => []
  | M_queue_purge m => [F16 (queue_purge_ticket m); FShort (queue_purge_queue m); FBits
      [queue_purge_nowait m]]
  | M_queue_purge_ok m => [F32 (queue_purge_ok_message_count m)]
  | M_queue_delete m => [F16 (queue_delete_ticket m); FShort (queue_delete_queue m); FBits
      [queue_delete_if_unused m; queue_delete_if_empty m; queue_delete_nowait m]]
  | M_queue_delete_ok m => [F32 (queue_delete_ok_message_count m)]
  | M_queue_unbind m => [F16 (queue_unbind_ticket m); FShort (queue_unbind_queue m); FShort
      (queue_unbind_exchange m); FShort (queue_unbind_routing_key m); FTable (queue_unbind_arguments
      m)]
  | M_queue_unbind_ok _ => []
  | M_basic_qos m => [F32 (basic_qos_prefetch_size m); F16 (basic_qos_prefetch_count m); FBits
      [basic_qos_global m]]
  | M_basic_qos_ok _ => []
  | M_basic_consume m => [F16 (basic_consume_ticket m); FShort (basic_consume_queue m); FShort
      (basic_consume_consumer_tag m); FBits [basic_consume_no_local m; basic_consume_no_ack m;
      basic_consume_exclusive m; basic_consume_nowait m]; FTable (basic_consume_arguments m)]
  | M_basic_consume_ok m => [FShort (basic_consume_ok_consumer_tag m)]
  | M_basic_cancel m => [FShort (basic_cancel_consumer_tag m); FBits [basic_cancel_nowait m]]
  | M_basic_cancel_ok m => [FShort (basic_cancel_ok_consumer_tag m)]
  | M_basic_publish m => [F16 (basic_publish_ticket m); FShort (basic_publish_exchange m); FShort
      (basic_publish_routing_key m); FBits [basic_publish_mandatory m; basic_publish_immediate m]]
  | M_basic_return m => [F16 (basic_return_reply_code m); FShort (basic_return_reply_text m); FShort
      (basic_return_exchange m); FShort (basic_return_routing_key m)]
  | M_basic_deliver m => [FShort (basic_deliver_consumer_tag m); F64 (basic_deliver_delivery_tag m);
      FBits [basic_deliver_redelivered m]; FShort (basic_deliver_exchange m); FShort
      (basic_deliver_routing_key m)]
  | M_basic_get m => [F16 (basic_get_ticket m); FShort (basic_get_queue m); FBits [basic_get_no_ack
      m]]
  | M_basic_get_ok m => [F64 (basic_get_ok_delivery_tag m); FBits [basic_get_ok_redelivered m];
      FShort (basic_get_ok_exchange m); FShort (basic_get_ok_routing_key m); F32
      (basic_get_ok_message_count m)]
  | M_basic_get_empty m => [FShort (basic_get_empty_cluster_id m)]
  | M_basic_ack m => [F64 (basic_ack_delivery_tag m); FBits [basic_ack_multiple m]]
  | M_basic_reject m => [F64 (basic_reject_delivery_tag m); FBits [basic_reject_requeue m]]
  | M_basic_recover_async m => [FBits [basic_recover_async_requeue m]]
  | M_basic_recover m => [FBits [basic_recover_requeue m]]
  | M_basic_recover_ok _ => []
  | M_basic_nack m => [F64 (basic_nack_delivery_tag m); FBits [basic_nack_multiple m;
      basic_nack_requeue m]]
  | M_tx_select _ => []
  | M_tx_select_ok _ => []
  | M_tx_commit _ => []
  | M_tx_commit_ok _ => []
  | M_tx_rollback _ => []
  | M_tx_rollback_ok _ => []
  | M_confirm_select m => [FBits [confirm_select_nowait m]]
  | M_confirm_select_ok _ => []
  end.

Definition method_ok (d : method_t) : Prop := fields_ok (method_fields d).
Definition wire_method (d : method_t) : list byte := wire_fields (method_fields d).

(** Selects the case of a constant method id. *)
Ltac eval_method :=
  cbv beta iota delta [switch method_id Z.eqb Pos.eqb
    AMQP_CONNECTION_START_METHOD AMQP_CONNECTION_START_OK_METHOD AMQP_CONNECTION_SECURE_METHOD
    AMQP_CONNECTION_SECURE_OK_METHOD AMQP_CONNECTION_TUNE_METHOD AMQP_CONNECTION_TUNE_OK_METHOD
    AMQP_CONNECTION_OPEN_METHOD AMQP_CONNECTION_OPEN_OK_METHOD AMQP_CONNECTION_CLOSE_METHOD
    AMQP_CONNECTION_CLOSE_OK_METHOD AMQP_CONNECTION_BLOCKED_METHOD
    AMQP_CONNECTION_UNBLOCKED_METHOD AMQP_CONNECTION_UPDATE_SECRET_METHOD
    AMQP_CONNECTION_UPDATE_SECRET_OK_METHOD AMQP_CHANNEL_OPEN_METHOD AMQP_CHANNEL_OPEN_OK_METHOD
    AMQP_CHANNEL_FLOW_METHOD AMQP_CHANNEL_FLOW_OK_METHOD AMQP_CHANNEL_CLOSE_METHOD
    AMQP_CHANNEL_CLOSE_OK_METHOD AMQP_ACCESS_REQUEST_METHOD AMQP_ACCESS_REQUEST_OK_METHOD
    AMQP_EXCHANGE_DECLARE_METHOD AMQP_EXCHANGE_DECLARE_OK_METHOD AMQP_EXCHANGE_DELETE_METHOD
    AMQP_EXCHANGE_DELETE_OK_METHOD AMQP_EXCHANGE_BIND_METHOD AMQP_EXCHANGE_BIND_OK_METHOD
    AMQP_EXCHANGE_UNBIND_METHOD AMQP_EXCHANGE_UNBIND_OK_METHOD AMQP_QUEUE_DECLARE_METHOD
    AMQP_QUEUE_DECLARE_OK_METHOD AMQP_QUEUE_BIND_METHOD AMQP_QUEUE_BIND_OK_METHOD
    AMQP_QUEUE_PURGE_METHOD AMQP_QUEUE_PURGE_OK_METHOD AMQP_QUEUE_DELETE_METHOD
    AMQP_QUEUE_DELETE_OK_METHOD AMQP_QUEUE_UNBIND_METHOD AMQP_QUEUE_UNBIND_OK_METHOD
    AMQP_BASIC_QOS_METHOD AMQP_BASIC_QOS_OK_METHOD AMQP_BASIC_CONSUME_METHOD
    AMQP_BASIC_CONSUME_OK_METHOD AMQP_BASIC_CANCEL_METHOD AMQP_BASIC_CANCEL_OK_METHOD
    AMQP_BASIC_PUBLISH_METHOD AMQP_BASIC_RETURN_METHOD AMQP_BASIC_DELIVER_METHOD
    AMQP_BASIC_GET_METHOD AMQP_BASIC_GET_OK_METHOD AMQP_BASIC_GET_EMPTY_METHOD
    AMQP_BASIC_ACK_METHOD AMQP_BASIC_REJECT_METHOD AMQP_BASIC_RECOVER_ASYNC_METHOD
    AMQP_BASIC_RECOVER_METHOD AMQP_BASIC_RECOVER_OK_METHOD AMQP_BASIC_NACK_METHOD
    AMQP_TX_SELECT_METHOD AMQP_TX_SELECT_OK_METHOD AMQP_TX_COMMIT_METHOD
    AMQP_TX_COMMIT_OK_METHOD AMQP_TX_ROLLBACK_METHOD AMQP_TX_ROLLBACK_OK_METHOD
    AMQP_CONFIRM_SELECT_METHOD AMQP_CONFIRM_SELECT_OK_METHOD].

Ltac head t := lazymatch t with ?f _ => head f | _ => t end.

(** One argument of [fields_ok] at a time. *)
Ltac next_ok :=
  match goal with
  | Hok : Forall field_ok (_ :: _) |- _ => apply Forall_cons in Hok as [? Hok]
  end.

(** ** Encoding *)

Section Encode.
Context `{Host}.

(** The generated case of every method is the table-driven encoder of its
    arguments. *)
Lemma encode_method_fields d :
  amqp_encode_method (method_id d) d
  = (do! for_each enc_field (method_fields d) in let! offset := get_offset in ret (swrap 32 offset)).
Proof. destruct d; unfold amqp_encode_method; eval_method; reflexivity. Qed.

(** Every method has at most five bits in a row. *)
Lemma method_bits_short d bits : FBits bits ∈ method_fields d -> (length bits <= 5)%nat.
Proof.
  intros Hin. apply list_elem_of_In in Hin.
  destruct d; cbn [method_fields In] in Hin;
    repeat match goal with
    | Hc : _ \/ _ |- _ => destruct Hc as [Hc|Hc]
    | Hc : FBits _ = FBits _ |- _ => injection Hc as <-; simpl; lia
    | Hc : _ |- _ => discriminate Hc
    | Hc : False |- _ => destruct Hc
    end.
Qed.

Lemma emits_fields fs :
  fields_ok fs -> (forall bits, FBits bits ∈ fs -> (length bits <= 5)%nat) ->
  Emits (for_each enc_field fs) (wire_fields fs).
Proof.
  intros Hok Hb. apply emits_for_each. unfold fields_ok in Hok. rewrite Forall_forall in Hok |- *.
  intros f Hf. specialize (Hok f Hf). destruct f; simpl enc_field.
  - apply emits_u8.
  - apply emits_u16.
  - apply emits_u32.
  - apply emits_u64.
  - by apply emits_short.
  - by apply emits_long.
  - by apply emits_tbl.
  - eapply emits_bits; [done|by apply Hb|done].
Qed.

Lemma emits_method d : method_ok d ->
  exists e, Emits e (wire_method d) /\
    amqp_encode_method (method_id d) d = (do! e in let! offset := get_offset in ret (swrap 32 offset)).
Proof.
  intros Hok. exists (for_each enc_field (method_fields d)). split; [|apply encode_method_fields].
  apply emits_fields; [done|]. intros bits. apply method_bits_short.
Qed.

(** The returned length is the offset as an [int]. *)
Lemma encode_method_fits d buf :
  method_ok d -> zlen buf < 2 ^ 31 -> zlen (wire_method d) <= zlen buf ->
  amqp_encode_method (method_id d) d (mk_enc buf 0)
  = (Ret (zlen (wire_method d)), mk_enc (splice buf 0 (wire_method d)) (zlen (wire_method d))).
Proof.
  intros Hok Hbuf Hfit. destruct (emits_method d Hok) as (e & He & ->). zlen_pos.
  specialize (He buf 0 ltac:(lia) ltac:(lia)). rewrite decide_True, Z.add_0_l in He by lia.
  rewrite (bind_step _ _ _ _ _ He). unfold bind, get_offset, ret. simpl e_off.
  rewrite swrap_small by (unfold in_s; simpl; lia). done.
Qed.

Lemma encode_method_no_room d buf :
  method_ok d -> zlen buf < 2 ^ 31 -> zlen buf < zlen (wire_method d) ->
  exists st s, amqp_encode_method (method_id d) d (mk_enc buf 0) = (Err st, s) /\
    enc_err st /\ zlen (e_buf s) = zlen buf.
Proof.
  intros Hok Hbuf Hfit. destruct (emits_method d Hok) as (e & He & ->). zlen_pos.
  specialize (He buf 0 ltac:(lia) ltac:(lia)). rewrite decide_False in He by lia.
  destruct He as (st & buf' & o' & E & Hst & Hl & _). exists st, (mk_enc buf' o').
  split; [by apply bind_err|done].
Qed.

End Encode.

(** ** Decoding *)

Section Decode.
Context `{Host} {Mem Pool : Type} `{MemLaws Mem Pool}.
Context (enc : list byte) (pool : Pool).
Hypothesis Henc : zlen enc <= 2 ^ 30.

Ltac parse_field :=
  next_ok; eapply parses_field;
  [lazymatch goal with
   | |- Parses _ _ _ (wire_field (F8 _)) _ => apply parses_u8
   | |- Parses _ _ _ (wire_field (F16 _)) _ => apply parses_u16
   | |- Parses _ _ _ (wire_field (F32 _)) _ => apply parses_u32
   | |- Parses _ _ _ (wire_field (F64 _)) _ => apply parses_u64
   | |- Parses _ _ _ (wire_field (FShort _)) _ => apply parses_short
   | |- Parses _ _ _ (wire_field (FLong _)) _ => apply parses_long
   | |- Parses _ _ _ (wire_field (FTable _)) _ => apply parses_tbl
   | |- Parses _ _ _ (wire_field (FBits _)) _ => apply parses_bits
   end; assumption|cbv beta].

(** The structure rebuilt from its bits is the structure. *)
Ltac unpack_bits :=
  repeat match goal with
  | Hb : field_ok (FBits ?l) |- context [get_bit (bits_val ?l) ?i] =>
      erewrite (get_bit_bits l i) by first [apply Hb | reflexivity | lia]
  end.

Lemma method_parses d :
  method_ok d -> ParsesNew enc pool (amqp_decode_method enc pool (method_id d)) (wire_method d) d.
Proof.
  unfold method_ok, fields_ok, wire_method, amqp_decode_method. intros Hok.
  destruct d; eval_method;
    cbn [method_fields] in *; (eapply parses_new_map; cycle 1).
  all: match goal with |- ParsesNew _ _ ?f _ _ => let h := head f in unfold h end.
  all: apply parses_new; [split; reflexivity|].
  all: repeat parse_field; unpack_bits; destruct m; apply parses_ret.
Qed.

Ltac safe_field :=
  eapply safe_bind;
  [lazymatch goal with
   | |- DecSafe _ _ (dec_u8 _) _ => apply safe_u8
   | |- DecSafe _ _ (dec_u16 _) _ => apply safe_u16
   | |- DecSafe _ _ (dec_u32 _) _ => apply safe_u32
   | |- DecSafe _ _ (dec_u64 _) _ => apply safe_u64
   | |- DecSafe _ _ (dec_shortstr _) _ => apply safe_short
   | |- DecSafe _ _ (dec_longstr _) _ => apply safe_long
   | |- DecSafe _ _ (amqp_decode_table _ _) _ => apply safe_tbl
   end; assumption
  |cbv beta; intros ? ? _ [? ->]].

(** Reading arbitrary bytes as the arguments of the method [n]. *)
Definition CaseSafe (n : Z) (d : eff (dec_state Mem) method_t) : Prop :=
  forall o m, 0 <= o <= zlen enc ->
  match d (mk_dec o m) with
  | (Ret x, s) => method_id x = n /\ method_ok x /\
                  d_off s = o + zlen (wire_method x) /\ d_off s <= zlen enc
  | (Err st, _) => dec_err st \/ st = AMQP_STATUS_UNKNOWN_METHOD
  | (Undef, _) | (NoFuel, _) => False
  end.

Lemma case_safe {A} n (d : eff (dec_state Mem) A) (f : A -> method_t) :
  (forall a, method_id (f a) = n) ->
  DecSafe 0 enc d (fun a c => method_ok (f a) /\ c = zlen (wire_method (f a))) ->
  CaseSafe n (let! a := d in ret (f a)).
Proof.
  intros Hid Hd o m Ho. specialize (Hd o m ltac:(lia) Ho). unfold bind, ret.
  destruct (d _) as [[a| | |] s]; try done; [|by left].
  destruct Hd as (c & _ & Hoff & Hle & Hok & ->). rewrite Hoff. split; [apply Hid|done].
Qed.

(** Packed bits are well formed whatever the byte was. *)
Lemma bits_read v l :
  Forall (fun b => exists i, b = get_bit v i) l -> (length l <= 8)%nat -> field_ok (FBits l).
Proof.
  intros Hl Hlen. split; [|done]. eapply Forall_impl; [exact Hl|].
  intros b [i ->]. apply get_bit_bit.
Qed.

Ltac read_bits :=
  eapply bits_read; [|simpl; lia];
  repeat (apply Forall_cons; split; [eexists; reflexivity|]); by apply Forall_nil.

Lemma method_safe methodNumber : CaseSafe methodNumber (amqp_decode_method enc pool methodNumber).
Proof.
  unfold amqp_decode_method. apply (switch_case (CaseSafe methodNumber)); [|intros o m Ho; by right].
  repeat (apply Forall_cons; split; cbn [fst snd]; [intros -> | ]); [..|by apply Forall_nil].
  all: apply case_safe; [reflexivity|].
  all: match goal with |- DecSafe _ _ ?f _ => let h := head f in unfold h end.
  all: apply safe_new.
  all: repeat safe_field; apply safe_ret.
  all: unfold method_ok, wire_method, fields_ok, wire_fields; cbn [method_fields map concat].
  all: split; [|rewrite ?zlen_app; reflexivity].
  all: repeat (apply Forall_cons; split; [first [assumption | read_bits]|]); by apply Forall_nil.
Qed.

End Decode.

(** ** Properties *)

Section Properties.
Context `{Host} {Mem Pool : Type} `{MemLaws Mem Pool}.

(** C1: Every method survives the wire: for any structure of any of the 66 methods
    whose integers, strings and tables are in range, [amqp_encode_method] succeeds
    when the buffer has room and returns the number of bytes written, and
    [amqp_decode_method] of those bytes under the same id returns the structure and
    consumes them all, unless memory runs out. *)
Theorem method_roundtrip d buf pool m :
  method_ok d -> zlen buf <= 2 ^ 30 -> zlen (wire_method d) <= zlen buf ->
  plenty pool (zlen (wire_method d) + 1) m ->
  exists n buf' m',
    amqp_encode_method (method_id d) d (mk_enc buf 0) = (Ret n, mk_enc buf' n) /\
    amqp_decode_method (ztake n buf') pool (method_id d) (mk_dec 0 m) = (Ret d, mk_dec n m').
Proof.
  intros Hok Hbuf Hfit Hp. zlen_pos.
  exists (zlen (wire_method d)), (splice buf 0 (wire_method d)).
  destruct (method_parses (wire_method d) pool ltac:(lia) d Hok 0 m (at_off_whole _))
    as [(m' & E & _)|(Hn & _)]; [|done].
  exists m'. split; [apply encode_method_fits; done || lia|]. by rewrite ztake_splice_0, E.
Qed.

(** C16: On any payload of up to 2^30 bytes and for any method id,
    [amqp_decode_method] terminates, reads only inside the payload, and returns
    [BAD_AMQP_DATA], [NO_MEMORY], [UNKNOWN_METHOD], or a structure of the method
    asked for with every argument in range and as long as the bytes consumed. *)
Theorem method_decode_safe enc pool methodNumber m :
  zlen enc <= 2 ^ 30 ->
  match amqp_decode_method enc pool methodNumber (mk_dec 0 m) with
  | (Ret d, s) => method_id d = methodNumber /\ method_ok d /\
                  d_off s = zlen (wire_method d) /\ d_off s <= zlen enc
  | (Err st, _) => dec_err st \/ st = AMQP_STATUS_UNKNOWN_METHOD
  | (Undef, _) | (NoFuel, _) => False
  end.
Proof. intros Henc. zlen_pos. by apply (method_safe enc pool Henc methodNumber 0 m ltac:(lia)). Qed.

(** The generated encoder of each method is the table-driven encoder of its
    argument list: same bytes, same errors, same order. *)
Theorem method_encode_table_driven d s :
  amqp_encode_method (method_id d) d s
  = (do! for_each enc_field (method_fields d) in
     let! offset := get_offset in ret (swrap 32 offset)) s.
Proof. by rewrite encode_method_fields. Qed.

(** When the arguments do not fit, [amqp_encode_method] returns
    [BAD_AMQP_DATA] or [TABLE_TOO_BIG] and has written nothing outside the buffer. *)
Theorem method_encode_no_room d buf :
  method_ok d -> zlen buf < 2 ^ 31 -> zlen buf < zlen (wire_method d) ->
  exists st s, amqp_encode_method (method_id d) d (mk_enc buf 0) = (Err st, s) /\
    enc_err st /\ zlen (e_buf s) = zlen buf.
Proof. apply encode_method_no_room. Qed.

(** A string argument longer than 255 bytes where AMQP has a short string is an
    error in every method, never a truncated length byte. *)
Theorem method_encode_too_long d fs s fs' buf :
  method_fields d = fs ++ FShort s :: fs' -> fields_ok fs -> 2 ^ 8 <= zlen s ->
  zlen buf < 2 ^ 31 ->
  exists st s', amqp_encode_method (method_id d) d (mk_enc buf 0) = (Err st, s') /\ enc_err st.
Proof.
  intros Hf Hok Hs Hbuf. rewrite encode_method_fields, Hf. zlen_pos.
  pose proof (emits_fields fs Hok) as He.
  assert (Hb : forall bits, FBits bits ∈ fs -> (length bits <= 5)%nat).
  { intros bits Hin. apply (method_bits_short d). rewrite Hf, elem_of_app. by left. }
  specialize (He Hb buf 0 ltac:(lia) ltac:(lia)).
  assert (Happ : forall st, for_each enc_field (fs ++ FShort s :: fs') st
                 = (do! for_each enc_field fs in for_each enc_field (FShort s :: fs')) st).
  { clear. induction fs as [|f fs IH]; intros st; [done|]. simpl. unfold bind.
    destruct (enc_field f st) as [[[]| | |] st']; first [done|apply IH]. }
  unfold bind at 1. rewrite Happ. case_decide.
  - rewrite (bind_step _ _ _ _ _ He). simpl for_each. unfold bind. cbn [enc_field].
    rewrite enc_shortstr_too_long by done. do 2 eexists. split; [done|by left].
  - destruct He as (st & buf' & o' & E & Hst & _). rewrite (bind_err _ _ _ _ _ E). eauto.
Qed.

End Properties.

(** *** Witnesses *)

Definition demo_publish : method_t :=
  M_basic_publish (mk_basic_publish 0 [x61; x62] [x63] 1 0).
Definition demo_declare : method_t :=
  M_queue_declare (mk_queue_declare 0 [x71] 0 1 0 1 0 demo_table).

Lemma demo_declare_ok : method_ok demo_declare.
Proof.
  repeat (apply Forall_cons; split); [..|by apply Forall_nil]; try done; [|apply demo_table_ok].
  split; [|simpl; lia]. unfold bit. repeat (apply Forall_cons; split); auto.
Qed.

Example method_roundtrip_witness :
  exists n buf' m',
    amqp_encode_method (H := little_endian) (method_id demo_declare) demo_declare (mk_enc (replicate 100 x00) 0)
    = (Ret n, mk_enc buf' n) /\
    amqp_decode_method (H := little_endian) (ztake n buf') 1 (method_id demo_declare) (mk_dec 0 demo_memory)
    = (Ret demo_declare, mk_dec n m').
Proof.
  apply (method_roundtrip (H := little_endian)); [apply demo_declare_ok|done|by vm_compute|].
  by apply demo_plenty.
Defined.

Example method_decode_safe_witness :
  match amqp_decode_method (H := little_endian) [x00; x00; x05; x61] 1 AMQP_QUEUE_PURGE_METHOD (mk_dec 0 demo_memory) with
  | (Ret d, s) => method_id d = AMQP_QUEUE_PURGE_METHOD /\ method_ok d /\
                  d_off s = zlen (wire_method d) /\ d_off s <= zlen [x00; x00; x05; x61]
  | (Err st, _) => dec_err st \/ st = AMQP_STATUS_UNKNOWN_METHOD
  | (Undef, _) | (NoFuel, _) => False
  end.
Proof. by apply (method_decode_safe (H := little_endian)). Defined.

Example method_encode_no_room_witness :
  exists st s,
    amqp_encode_method (H := little_endian) (method_id demo_declare) demo_declare (mk_enc (replicate 9 x00) 0)
    = (Err st, s) /\ enc_err st /\ zlen (e_buf s) = zlen (replicate 9 x00).
Proof. apply (method_encode_no_room (H := little_endian)); [apply demo_declare_ok|done|by vm_compute]. Defined.

Example method_encode_too_long_witness :
  exists st s',
    amqp_encode_method (H := little_endian) AMQP_BASIC_PUBLISH_METHOD
      (M_basic_publish (mk_basic_publish 0 (replicate 256 x61) [] 0 0)) (mk_enc (replicate 600 x00) 0)
    = (Err st, s') /\ enc_err st.
Proof.
  apply (method_encode_too_long (H := little_endian)
           (M_basic_publish (mk_basic_publish 0 (replicate 256 x61) [] 0 0))
           [F16 0] (replicate 256 x61) [FShort []; FBits [0; 0]]); [done| |by vm_compute|by vm_compute].
  repeat (apply Forall_cons; split); [done|by apply Forall_nil].
Defined.
