(* ===== verification/Properties.v ===== *)
(** * Content properties: [amqp_decode_properties] and [amqp_encode_properties]

    [librabbitmq/amqp_framing.c].  A property that is not flagged is not on the
    wire; the decoder leaves its member of the allocated structure as it was, so
    the contents of that memory are a parameter of the model. *)

From S2P Require Import Prelude Status Memory Codec Layout Table MethodCodec.

(** ** Data *)

Definition AMQP_BASIC_CONTENT_TYPE_FLAG : Z := Z.shiftl 1 15.
Definition AMQP_BASIC_CONTENT_ENCODING_FLAG : Z := Z.shiftl 1 14.
Definition AMQP_BASIC_HEADERS_FLAG : Z := Z.shiftl 1 13.
Definition AMQP_BASIC_DELIVERY_MODE_FLAG : Z := Z.shiftl 1 12.
Definition AMQP_BASIC_PRIORITY_FLAG : Z := Z.shiftl 1 11.
Definition AMQP_BASIC_CORRELATION_ID_FLAG : Z := Z.shiftl 1 10.
Definition AMQP_BASIC_REPLY_TO_FLAG : Z := Z.shiftl 1 9.
Definition AMQP_BASIC_EXPIRATION_FLAG : Z := Z.shiftl 1 8.
Definition AMQP_BASIC_MESSAGE_ID_FLAG : Z := Z.shiftl 1 7.
Definition AMQP_BASIC_TIMESTAMP_FLAG : Z := Z.shiftl 1 6.
Definition AMQP_BASIC_TYPE_FLAG : Z := Z.shiftl 1 5.
Definition AMQP_BASIC_USER_ID_FLAG : Z := Z.shiftl 1 4.
Definition AMQP_BASIC_APP_ID_FLAG : Z := Z.shiftl 1 3.
Definition AMQP_BASIC_CLUSTER_ID_FLAG : Z := Z.shiftl 1 2.

Record amqp_connection_properties_t := mk_connection_properties { connection_flags : Z }.
Record amqp_channel_properties_t := mk_channel_properties { channel_flags : Z }.
Record amqp_access_properties_t := mk_access_properties { access_flags : Z }.
Record amqp_exchange_properties_t := mk_exchange_properties { exchange_flags : Z }.
Record amqp_queue_properties_t := mk_queue_properties { queue_flags : Z }.
Record amqp_tx_properties_t := mk_tx_properties { tx_flags : Z }.
Record amqp_confirm_properties_t := mk_confirm_properties { confirm_flags : Z }.

Record amqp_basic_properties_t := mk_basic_properties {
  basic_flags : Z;
  basic_content_type : amqp_bytes_t;
  basic_content_encoding : amqp_bytes_t;
  basic_headers : amqp_table_t;
  basic_delivery_mode : Z;
  basic_priority : Z;
  basic_correlation_id : amqp_bytes_t;
  basic_reply_to : amqp_bytes_t;
  basic_expiration : amqp_bytes_t;
  basic_message_id : amqp_bytes_t;
  basic_timestamp : Z;
  basic_type : amqp_bytes_t;
  basic_user_id : amqp_bytes_t;
  basic_app_id : amqp_bytes_t;
  basic_cluster_id : amqp_bytes_t;
}.

(** Every structure but the basic one is its flags and a dummy [char]. *)
Definition layout_flags : layout := c_struct [t_uint32; t_uint8].
Definition layout_basic_properties : layout :=
  c_struct [t_uint32; layout_amqp_bytes_t; layout_amqp_bytes_t; layout_amqp_table_t; t_uint8; t_uint8; layout_amqp_bytes_t; layout_amqp_bytes_t; layout_amqp_bytes_t; layout_amqp_bytes_t; t_uint64; layout_amqp_bytes_t; layout_amqp_bytes_t; layout_amqp_bytes_t; layout_amqp_bytes_t].

(** What the [void *decoded] of a header frame points to. *)
Inductive properties_t : Type :=
| P_connection (p : amqp_connection_properties_t)
| P_channel (p : amqp_channel_properties_t)
| P_access (p : amqp_access_properties_t)
| P_exchange (p : amqp_exchange_properties_t)
| P_queue (p : amqp_queue_properties_t)
| P_basic (p : amqp_basic_properties_t)
| P_tx (p : amqp_tx_properties_t)
| P_confirm (p : amqp_confirm_properties_t).

Definition properties_class (d : properties_t) : Z :=
  match d with
  | P_connection _ => 10
  | P_channel _ => 20
  | P_access _ => 30
  | P_exchange _ => 40
  | P_queue _ => 50
  | P_basic _ => 60
  | P_tx _ => 90
  | P_confirm _ => 85
  end.

(** The cast of [decoded] to [amqp_flags_t *]: the first member of each structure. *)
Definition properties_flags (d : properties_t) : Z :=
  match d with
  | P_connection p => connection_flags p
  | P_channel p => channel_flags p
  | P_access p => access_flags p
  | P_exchange p => exchange_flags p
  | P_queue p => queue_flags p
  | P_basic p => basic_flags p
  | P_tx p => tx_flags p
  | P_confirm p => confirm_flags p
  end.

(** [flags & flag] *)
Definition flag_set (flags flag : Z) : bool := negb (Z.land flags flag =? 0).

(** ** Decoding *)

Section Decode.
Context `{Host} {Mem Pool : Type} `{MemOps Mem Pool}.
Context (encoded : list byte) (pool : Pool).
(** What the memory of the allocated basic structure holds. *)
Context (uninit : amqp_basic_properties_t).

(** The [do .. while] that gathers the flag words.  The shift is on an [int]: one
    by 32 or more, or one that leaves its range, is undefined. *)
Fixpoint decode_flags (fuel : nat) (flags flagword_index : Z) : eff (dec_state Mem) Z :=
  match fuel with
  | O => nofuel
  | S fuel' =>
      let! partial_flags := dec_u16 encoded in
      let shift := flagword_index * 16 in
      if (32 <=? shift) || (INT_MAX <? Z.shiftl partial_flags shift) then undef
      else
        let flags := Z.lor flags (Z.shiftl partial_flags shift) in
        if Z.land partial_flags 1 =? 0 then ret flags
        else decode_flags fuel' flags (flagword_index + 1)
  end.

(** [if (flags & flag) read the member] *)
Definition when_set {A} (flags flag : Z) (read : eff (dec_state Mem) A) (old : A) : eff (dec_state Mem) A :=
  if flag_set flags flag then read else ret old.

Definition decode_connection_properties (flags : Z) : eff (dec_state Mem) amqp_connection_properties_t :=
  do! alloc_struct pool layout_flags in
  ret (mk_connection_properties flags).
Definition decode_channel_properties (flags : Z) : eff (dec_state Mem) amqp_channel_properties_t :=
  do! alloc_struct pool layout_flags in
  ret (mk_channel_properties flags).
Definition decode_access_properties (flags : Z) : eff (dec_state Mem) amqp_access_properties_t :=
  do! alloc_struct pool layout_flags in
  ret (mk_access_properties flags).
Definition decode_exchange_properties (flags : Z) : eff (dec_state Mem) amqp_exchange_properties_t :=
  do! alloc_struct pool layout_flags in
  ret (mk_exchange_properties flags).
Definition decode_queue_properties (flags : Z) : eff (dec_state Mem) amqp_queue_properties_t :=
  do! alloc_struct pool layout_flags in
  ret (mk_queue_properties flags).
Definition decode_tx_properties (flags : Z) : eff (dec_state Mem) amqp_tx_properties_t :=
  do! alloc_struct pool layout_flags in
  ret (mk_tx_properties flags).
Definition decode_confirm_properties (flags : Z) : eff (dec_state Mem) amqp_confirm_properties_t :=
  do! alloc_struct pool layout_flags in
  ret (mk_confirm_properties flags).

Definition decode_basic_properties (flags : Z) : eff (dec_state Mem) amqp_basic_properties_t :=
  do! alloc_struct pool layout_basic_properties in
  let! content_type := when_set flags AMQP_BASIC_CONTENT_TYPE_FLAG (dec_shortstr encoded) (basic_content_type uninit) in
  let! content_encoding := when_set flags AMQP_BASIC_CONTENT_ENCODING_FLAG (dec_shortstr encoded) (basic_content_encoding uninit) in
  let! headers := when_set flags AMQP_BASIC_HEADERS_FLAG (amqp_decode_table encoded pool) (basic_headers uninit) in
  let! delivery_mode := when_set flags AMQP_BASIC_DELIVERY_MODE_FLAG (dec_u8 encoded) (basic_delivery_mode uninit) in
  let! priority := when_set flags AMQP_BASIC_PRIORITY_FLAG (dec_u8 encoded) (basic_priority uninit) in
  let! correlation_id := when_set flags AMQP_BASIC_CORRELATION_ID_FLAG (dec_shortstr encoded) (basic_correlation_id uninit) in
  let! reply_to := when_set flags AMQP_BASIC_REPLY_TO_FLAG (dec_shortstr encoded) (basic_reply_to uninit) in
  let! expiration := when_set flags AMQP_BASIC_EXPIRATION_FLAG (dec_shortstr encoded) (basic_expiration uninit) in
  let! message_id := when_set flags AMQP_BASIC_MESSAGE_ID_FLAG (dec_shortstr encoded) (basic_message_id uninit) in
  let! timestamp := when_set flags AMQP_BASIC_TIMESTAMP_FLAG (dec_u64 encoded) (basic_timestamp uninit) in
  let! type := when_set flags AMQP_BASIC_TYPE_FLAG (dec_shortstr encoded) (basic_type uninit) in
  let! user_id := when_set flags AMQP_BASIC_USER_ID_FLAG (dec_shortstr encoded) (basic_user_id uninit) in
  let! app_id := when_set flags AMQP_BASIC_APP_ID_FLAG (dec_shortstr encoded) (basic_app_id uninit) in
  let! cluster_id := when_set flags AMQP_BASIC_CLUSTER_ID_FLAG (dec_shortstr encoded) (basic_cluster_id uninit) in
  ret (mk_basic_properties flags content_type content_encoding headers delivery_mode priority correlation_id reply_to expiration message_id timestamp type user_id app_id cluster_id).

Definition amqp_decode_properties (class_id : Z) : eff (dec_state Mem) properties_t :=
  let! flags := decode_flags 3 0 0 in
  switch class_id
    [(10, let! p := decode_connection_properties flags in ret (P_connection p));
     (20, let! p := decode_channel_properties flags in ret (P_channel p));
     (30, let! p := decode_access_properties flags in ret (P_access p));
     (40, let! p := decode_exchange_properties flags in ret (P_exchange p));
     (50, let! p := decode_queue_properties flags in ret (P_queue p));
     (60, let! p := decode_basic_properties flags in ret (P_basic p));
     (90, let! p := decode_tx_properties flags in ret (P_tx p));
     (85, let! p := decode_confirm_properties flags in ret (P_confirm p))]
    (fail AMQP_STATUS_UNKNOWN_CLASS).

End Decode.

(** ** Encoding *)

Section Encode.
Context `{Host}.

(** The [do .. while] that writes the flag words. *)
Fixpoint encode_flags (fuel : nat) (remaining_flags : Z) : eff enc_state unit :=
  match fuel with
  | O => nofuel
  | S fuel' =>
      let remainder := Z.shiftr remaining_flags 16 in
      let partial_flags := Z.land remaining_flags 0xFFFE in
      let partial_flags := if remainder =? 0 then partial_flags else Z.lor partial_flags 1 in
      do! enc_u16 partial_flags in
      if remainder =? 0 then ret tt else encode_flags fuel' remainder
  end.

Definition put_if_set (flags flag : Z) (write : eff enc_state unit) : eff enc_state unit :=
  if flag_set flags flag then write else ret tt.

Definition encode_basic_properties (flags : Z) (p : amqp_basic_properties_t) : eff enc_state unit :=
  do! put_if_set flags AMQP_BASIC_CONTENT_TYPE_FLAG (enc_shortstr (basic_content_type p)) in
  do! put_if_set flags AMQP_BASIC_CONTENT_ENCODING_FLAG (enc_shortstr (basic_content_encoding p)) in
  do! put_if_set flags AMQP_BASIC_HEADERS_FLAG (amqp_encode_table (basic_headers p)) in
  do! put_if_set flags AMQP_BASIC_DELIVERY_MODE_FLAG (enc_u8 (basic_delivery_mode p)) in
  do! put_if_set flags AMQP_BASIC_PRIORITY_FLAG (enc_u8 (basic_priority p)) in
  do! put_if_set flags AMQP_BASIC_CORRELATION_ID_FLAG (enc_shortstr (basic_correlation_id p)) in
  do! put_if_set flags AMQP_BASIC_REPLY_TO_FLAG (enc_shortstr (basic_reply_to p)) in
  do! put_if_set flags AMQP_BASIC_EXPIRATION_FLAG (enc_shortstr (basic_expiration p)) in
  do! put_if_set flags AMQP_BASIC_MESSAGE_ID_FLAG (enc_shortstr (basic_message_id p)) in
  do! put_if_set flags AMQP_BASIC_TIMESTAMP_FLAG (enc_u64 (basic_timestamp p)) in
  do! put_if_set flags AMQP_BASIC_TYPE_FLAG (enc_shortstr (basic_type p)) in
  do! put_if_set flags AMQP_BASIC_USER_ID_FLAG (enc_shortstr (basic_user_id p)) in
  do! put_if_set flags AMQP_BASIC_APP_ID_FLAG (enc_shortstr (basic_app_id p)) in
  do! put_if_set flags AMQP_BASIC_CLUSTER_ID_FLAG (enc_shortstr (basic_cluster_id p)) in
  ret tt.

Definition amqp_encode_properties (class_id : Z) (decoded : properties_t) : eff enc_state Z :=
  let flags := properties_flags decoded in
  do! encode_flags 2 flags in
  do! switch class_id
      [(10, ret tt);
       (20, ret tt);
       (30, ret tt);
       (40, ret tt);
       (50, ret tt);
       (60, match decoded with P_basic p => encode_basic_properties flags p | _ => undef end);
       (90, ret tt);
       (85, ret tt)]
      (fail AMQP_STATUS_UNKNOWN_CLASS) in
  let! offset := get_offset in
  ret (swrap 32 offset).

End Encode.
