(* ===== verification/PropertiesSpec.v ===== *)
(** * Content properties: the theorems about [Properties.v] *)

From S2P Require Import Prelude Status Memory Codec Layout Pool PoolMem Table TableSpec.
From S2P Require Import MethodCodec Properties.

(** ** The wire format *)

Definition opt_field (flags flag : Z) (f : field) : list field :=
  if flag_set flags flag then [f] else [].
Definition pick {A} (flags flag : Z) (new old : A) : A := if flag_set flags flag then new else old.

Definition basic_fields (p : amqp_basic_properties_t) : list field :=
  let flags := basic_flags p in
  opt_field flags AMQP_BASIC_CONTENT_TYPE_FLAG (FShort (basic_content_type p)) ++
  opt_field flags AMQP_BASIC_CONTENT_ENCODING_FLAG (FShort (basic_content_encoding p)) ++
  opt_field flags AMQP_BASIC_HEADERS_FLAG (FTable (basic_headers p)) ++
  opt_field flags AMQP_BASIC_DELIVERY_MODE_FLAG (F8 (basic_delivery_mode p)) ++
  opt_field flags AMQP_BASIC_PRIORITY_FLAG (F8 (basic_priority p)) ++
  opt_field flags AMQP_BASIC_CORRELATION_ID_FLAG (FShort (basic_correlation_id p)) ++
  opt_field flags AMQP_BASIC_REPLY_TO_FLAG (FShort (basic_reply_to p)) ++
  opt_field flags AMQP_BASIC_EXPIRATION_FLAG (FShort (basic_expiration p)) ++
  opt_field flags AMQP_BASIC_MESSAGE_ID_FLAG (FShort (basic_message_id p)) ++
  opt_field flags AMQP_BASIC_TIMESTAMP_FLAG (F64 (basic_timestamp p)) ++
  opt_field flags AMQP_BASIC_TYPE_FLAG (FShort (basic_type p)) ++
  opt_field flags AMQP_BASIC_USER_ID_FLAG (FShort (basic_user_id p)) ++
  opt_field flags AMQP_BASIC_APP_ID_FLAG (FShort (basic_app_id p)) ++
  opt_field flags AMQP_BASIC_CLUSTER_ID_FLAG (FShort (basic_cluster_id p)) ++
  [].

(** The members a decoder sets, over what was in memory. *)
Definition merge_basic (old p : amqp_basic_properties_t) : amqp_basic_properties_t :=
  let flags := basic_flags p in
  mk_basic_properties flags
    (pick flags AMQP_BASIC_CONTENT_TYPE_FLAG (basic_content_type p) (basic_content_type old))
    (pick flags AMQP_BASIC_CONTENT_ENCODING_FLAG (basic_content_encoding p) (basic_content_encoding old))
    (pick flags AMQP_BASIC_HEADERS_FLAG (basic_headers p) (basic_headers old))
    (pick flags AMQP_BASIC_DELIVERY_MODE_FLAG (basic_delivery_mode p) (basic_delivery_mode old))
    (pick flags AMQP_BASIC_PRIORITY_FLAG (basic_priority p) (basic_priority old))
    (pick flags AMQP_BASIC_CORRELATION_ID_FLAG (basic_correlation_id p) (basic_correlation_id old))
    (pick flags AMQP_BASIC_REPLY_TO_FLAG (basic_reply_to p) (basic_reply_to old))
    (pick flags AMQP_BASIC_EXPIRATION_FLAG (basic_expiration p) (basic_expiration old))
    (pick flags AMQP_BASIC_MESSAGE_ID_FLAG (basic_message_id p) (basic_message_id old))
    (pick flags AMQP_BASIC_TIMESTAMP_FLAG (basic_timestamp p) (basic_timestamp old))
    (pick flags AMQP_BASIC_TYPE_FLAG (basic_type p) (basic_type old))
    (pick flags AMQP_BASIC_USER_ID_FLAG (basic_user_id p) (basic_user_id old))
    (pick flags AMQP_BASIC_APP_ID_FLAG (basic_app_id p) (basic_app_id old))
    (pick flags AMQP_BASIC_CLUSTER_ID_FLAG (basic_cluster_id p) (basic_cluster_id old)).

(** One flag word, its continuation bit clear, then the flagged properties. *)
Definition properties_fields (d : properties_t) : list field :=
  F16 (properties_flags d) :: match d with P_basic p => basic_fields p | _ => [] end.
Definition wire_properties (d : properties_t) : list byte := wire_fields (properties_fields d).

(** Flags of one word; what a decoder may be given back. *)
Definition one_word (flags : Z) : Prop := 0 <= flags < 2 ^ 16 /\ Z.land flags 1 = 0.
Definition properties_ok (d : properties_t) : Prop :=
  one_word (properties_flags d) /\ fields_ok (properties_fields d).

Definition merge_properties (old : amqp_basic_properties_t) (d : properties_t) : properties_t :=
  match d with P_basic p => P_basic (merge_basic old p) | _ => d end.

Lemma wire_fields_app fs gs : wire_fields (fs ++ gs) = wire_fields fs ++ wire_fields gs.
Proof. unfold wire_fields. by rewrite map_app, concat_app. Qed.

Lemma fields_ok_app fs gs : fields_ok (fs ++ gs) -> fields_ok fs /\ fields_ok gs.
Proof. apply Forall_app. Qed.

Lemma one_word_mask flags : one_word flags -> Z.land flags 0xFFFE = flags /\ Z.shiftr flags 16 = 0.
Proof.
  intros [Hr Hb]. split; [|rewrite Z.shiftr_div_pow2 by lia; apply Z.div_small; lia].
  apply Z.bits_inj'. intros i Hi. rewrite Z.land_spec.
  destruct (decide (i = 0)) as [->|].
  - apply (f_equal (fun x => Z.testbit x 0)) in Hb. rewrite Z.land_spec, Z.bits_0 in Hb.
    rewrite !Z.bit0_odd in *. simpl in Hb. rewrite andb_true_r in Hb. by rewrite Hb.
  - destruct (decide (i < 16)) as [Hi16|].
    + assert (Z.testbit 0xFFFE i = true) as ->; [|by rewrite andb_true_r].
      change 0xFFFE with (Z.shiftl (Z.ones 15) 1). rewrite Z.shiftl_spec by lia.
      apply Z.ones_spec_low. lia.
    + assert (Z.testbit flags i = false) as ->; [|done].
      destruct (decide (flags = 0)) as [->|]; [apply Z.bits_0|].
      apply Z.bits_above_log2; [lia|]. apply Z.log2_lt_pow2; [lia|].
      apply Z.lt_le_trans with (2 ^ 16); [lia|]. apply Z.pow_le_mono_r; lia.
Qed.

(** ** Encoding *)

Section Encode.
Context `{Host}.

Lemma emits_opt flags flag w f :
  (field_ok f -> Emits w (wire_field f)) -> fields_ok (opt_field flags flag f) ->
  Emits (put_if_set flags flag w) (wire_fields (opt_field flags flag f)).
Proof.
  intros Hw Hok. unfold put_if_set, opt_field in *. destruct (flag_set flags flag); [|apply emits_ret].
  apply Forall_cons in Hok as [Hok _]. unfold wire_fields. simpl. rewrite app_nil_r. auto.
Qed.

Lemma emits_basic p : fields_ok (basic_fields p) ->
  Emits (encode_basic_properties (basic_flags p) p) (wire_fields (basic_fields p)).
Proof.
  unfold basic_fields, encode_basic_properties. cbv zeta. intros Hok.
  repeat (apply fields_ok_app in Hok as [? Hok]; rewrite wire_fields_app; apply emits_bind;
          [apply emits_opt; [intros|assumption];
           first [by apply emits_short | by apply emits_tbl | apply emits_u64 | apply emits_u8]|]).
  apply emits_ret.
Qed.

Lemma emits_flags flags : one_word flags -> Emits (encode_flags 2 flags) (be_bytes 2 flags).
Proof.
  intros Hw. destruct (one_word_mask flags Hw) as [Hm Hr]. cbn [encode_flags]. rewrite Hm, Hr. simpl.
  rewrite <- (app_nil_r (be_bytes 2 flags)). apply emits_bind; [apply emits_u16|apply emits_ret].
Qed.

Lemma emits_properties d : properties_ok d ->
  exists e, Emits e (wire_properties d) /\
    forall s, amqp_encode_properties (properties_class d) d s
              = (do! e in let! offset := get_offset in ret (swrap 32 offset)) s.
Proof.
  intros [Hw Hok]. apply Forall_cons in Hok as [_ Hok].
  exists (do! encode_flags 2 (properties_flags d) in
          match d with P_basic p => encode_basic_properties (basic_flags p) p | _ => ret tt end).
  split.
  - apply emits_bind; [by apply emits_flags|].
    destruct d; try apply emits_ret. by apply emits_basic.
  - intros s. rewrite bind_assoc. by destruct d.
Qed.

Lemma encode_properties_fits d buf :
  properties_ok d -> zlen buf < 2 ^ 31 -> zlen (wire_properties d) <= zlen buf ->
  amqp_encode_properties (properties_class d) d (mk_enc buf 0)
  = (Ret (zlen (wire_properties d)), mk_enc (splice buf 0 (wire_properties d)) (zlen (wire_properties d))).
Proof.
  intros Hok Hbuf Hfit. destruct (emits_properties d Hok) as (e & He & ->). zlen_pos.
  specialize (He buf 0 ltac:(lia) ltac:(lia)). rewrite decide_True, Z.add_0_l in He by lia.
  rewrite (bind_step _ _ _ _ _ He). unfold bind, get_offset, ret. simpl e_off.
  rewrite swrap_small by (unfold in_s; simpl; lia). done.
Qed.

End Encode.

(** ** Decoding *)

Section Decode.
Context `{Host} {Mem Pool : Type} `{MemLaws Mem Pool}.
Context (enc : list byte) (pool : Pool) (old : amqp_basic_properties_t).
Hypothesis Henc : zlen enc <= 2 ^ 30.

Lemma parses_flags flags :
  one_word flags -> Parses pool enc (decode_flags enc 3 0 0) (be_bytes 2 flags) flags.
Proof.
  intros [Hr Hb]. cbn [decode_flags]. rewrite <- (app_nil_r (be_bytes 2 flags)).
  eapply parses_bind; [apply parses_16; [lia|exact Hr]|]. cbv beta.
  change (0 * 16) with 0. rewrite Z.shiftl_0_r, Z.lor_0_l, Hb. simpl orb.
  destruct (Z.ltb_spec INT_MAX flags); [unfold INT_MAX, INT32_MAX in *; lia|]. apply parses_ret.
Qed.

Lemma parses_opt {A} flags flag (rd : eff (dec_state Mem) A) o f a :
  (field_ok f -> Parses pool enc rd (wire_field f) a) -> fields_ok (opt_field flags flag f) ->
  Parses pool enc (when_set flags flag rd o) (wire_fields (opt_field flags flag f)) (pick flags flag a o).
Proof.
  intros Hrd Hok. unfold when_set, opt_field, pick in *. destruct (flag_set flags flag); [|apply parses_ret].
  apply Forall_cons in Hok as [Hok _]. unfold wire_fields. simpl. rewrite app_nil_r. auto.
Qed.

Lemma parses_bind_new {A B} (d : eff (dec_state Mem) A) (k : A -> eff (dec_state Mem) B) bs cs a b :
  Parses pool enc d bs a -> ParsesNew enc pool (k a) cs b -> ParsesNew enc pool (bind d k) (bs ++ cs) b.
Proof.
  intros Hd Hk o m Hat. apply at_off_app in Hat as [Ha Hc]. unfold bind. rewrite zlen_app. zlen_pos.
  destruct (Hd o m Ha) as [(m' & -> & Hp)|(Hp & s' & ->)].
  2:{ right. split; [|eauto]. intros Hpl. apply Hp. apply (plenty_mono _ _ _ _ Hpl). lia. }
  destruct (Hk _ m' Hc) as [(m'' & -> & Hp')|(Hp' & s' & ->)].
  - left. exists m''. rewrite Z.add_assoc. split; [done|]. intros j Hj Hpl.
    apply Hp'; [done|]. apply Hp; [lia|].
    by replace (j + zlen cs + 1 + zlen bs) with (j + (zlen bs + zlen cs) + 1) by lia.
  - right. split; [|eauto]. intros Hpl. apply Hp', Hp; [lia|].
    by replace (zlen cs + 1 + zlen bs) with (zlen bs + zlen cs + 1) by lia.
Qed.

Lemma basic_parses p : fields_ok (basic_fields p) ->
  ParsesNew enc pool (decode_basic_properties enc pool old (basic_flags p))
    (wire_fields (basic_fields p)) (merge_basic old p).
Proof.
  unfold basic_fields, decode_basic_properties, merge_basic. cbv zeta. intros Hok.
  apply parses_new; [split; reflexivity|].
  repeat (apply fields_ok_app in Hok as [? Hok]; rewrite wire_fields_app; eapply parses_bind;
          [apply parses_opt; [intros|assumption];
           first [by apply parses_short | by apply parses_tbl | by apply parses_u64 | by apply parses_u8]
          |cbv beta]).
  apply parses_ret.
Qed.

Lemma properties_parses d : properties_ok d ->
  ParsesNew enc pool (amqp_decode_properties enc pool old (properties_class d))
    (wire_properties d) (merge_properties old d).
Proof.
  intros [Hw Hok]. apply Forall_cons in Hok as [_ Hok].
  change (wire_properties d) with
    (be_bytes 2 (properties_flags d) ++
     wire_fields match d with P_basic p => basic_fields p | _ => [] end).
  eapply parses_bind_new; [by apply parses_flags|]. cbv beta.
  destruct d as [[]|[]|[]|[]|[]|p|[]|[]]; cbn [properties_class merge_properties switch Z.eqb Pos.eqb];
    apply parses_new_map; [..|by apply basic_parses| |];
    apply parses_new; (split; reflexivity) || apply parses_ret.
Qed.

(** *** Arbitrary bytes *)

(** The first flag word says that no other follows. *)
Definition one_flag_word (enc : list byte) : Prop :=
  forall bs, load enc 0 2 = Some bs -> Z.land (be_val bs) 1 = 0.

(** One flag word. *)
Lemma word_read o m : 0 <= o <= zlen enc ->
  (exists s, dec_u16 (Mem := Mem) enc (mk_dec o m) = (Err AMQP_STATUS_BAD_AMQP_DATA, s)) \/
  exists bs, load enc o 2 = Some bs /\ 0 <= be_val bs < 2 ^ 16 /\ o + 2 <= zlen enc /\
             dec_u16 (Mem := Mem) enc (mk_dec o m) = (Ret (be_val bs), mk_dec (o + 2) m).
Proof.
  intros Ho. unfold dec_u16, require, amqp_decode_16, amqp_decode_base. unfold bind.
  cbn [d_off d_mem]. change (16 / 8) with 2. rewrite size_add_small by lia.
  destruct (Z.leb_spec (o + 2) (zlen enc)); [right|left; by eexists].
  rewrite load_fits by lia. set (bs := ztake 2 (zdrop o enc)).
  assert (Hbs : length bs = 2%nat).
  { apply Nat2Z.inj. change (zlen bs = 2). unfold bs. rewrite zlen_ztake; rewrite ?zlen_zdrop; lia. }
  pose proof (be_val_range bs) as Hr. rewrite Hbs in Hr. exists bs. rewrite amqp_d16_network by done. done.
Qed.

Lemma flags_safe m :
  one_flag_word enc ->
  match decode_flags enc 3 0 0 (mk_dec (Mem := Mem) 0 m) with
  | (Ret flags, s) => one_word flags /\ d_off s = 2 /\ 2 <= zlen enc
  | (Err st, _) => st = AMQP_STATUS_BAD_AMQP_DATA
  | (Undef, _) | (NoFuel, _) => False
  end.
Proof.
  intros Hone. cbn [decode_flags]. pose proof (zlen_nonneg enc). unfold bind.
  destruct (word_read 0 m) as [[s ->]|(bs & El & Hr & Hle & ->)]; [lia|done|].
  specialize (Hone bs El). change (0 * 16) with 0. rewrite Z.shiftl_0_r, Z.lor_0_l, Hone. simpl orb.
  destruct (Z.ltb_spec INT_MAX (be_val bs)); [unfold INT_MAX, INT32_MAX in *; lia|]. done.
Qed.

(** The shifts of the flag words are defined: a second word is below 2^15 and the last. *)
Definition shifts_defined (enc : list byte) : Prop :=
  forall bs, load enc 0 2 = Some bs -> Z.land (be_val bs) 1 <> 0 ->
  forall cs, load enc 2 2 = Some cs -> be_val cs < 2 ^ 15 /\ Z.land (be_val cs) 1 = 0.

Lemma flags_total m :
  shifts_defined enc ->
  match decode_flags enc 3 0 0 (mk_dec (Mem := Mem) 0 m) with
  | (Ret flags, s) => 0 <= d_off s <= zlen enc
  | (Err st, _) => st = AMQP_STATUS_BAD_AMQP_DATA
  | (Undef, _) | (NoFuel, _) => False
  end.
Proof.
  intros Hok. cbn [decode_flags]. pose proof (zlen_nonneg enc). unfold bind.
  destruct (word_read 0 m) as [[s ->]|(bs & El & Hr & Hle & ->)]; [lia|done|].
  change (0 * 16) with 0. rewrite Z.shiftl_0_r. simpl orb.
  destruct (Z.ltb_spec INT_MAX (be_val bs)); [unfold INT_MAX, INT32_MAX in *; lia|].
  destruct (Z.eqb_spec (Z.land (be_val bs) 1) 0) as [|Hodd]; [simpl; lia|].
  change ((32 <=? 0) || false) with false. cbv iota beta. change (0 + 2) with 2. change (0 + 1) with 1.
  destruct (word_read 2 m) as [[s ->]|(cs & Ec & Hr' & Hle' & ->)]; [lia|done|].
  destruct (Hok bs El Hodd cs Ec) as [Hlow ->]. change (1 * 16) with 16. change (32 <=? 16) with false.
  rewrite Z.shiftl_mul_pow2 by lia. simpl orb.
  destruct (Z.ltb_spec INT_MAX (be_val cs * 2 ^ 16)); [unfold INT_MAX, INT32_MAX in *; lia|]. simpl. lia.
Qed.

Lemma safe_opt {A} lo flags flag (rd : eff (dec_state Mem) A) o (f : A -> field) :
  DecSafe lo enc rd (fun a => field_read (f a)) ->
  DecSafe lo enc (when_set flags flag rd o)
    (fun a c => fields_ok (opt_field flags flag (f a)) /\
                c = zlen (wire_fields (opt_field flags flag (f a)))).
Proof.
  intros Hrd. unfold when_set, opt_field. destruct (flag_set flags flag).
  - eapply safe_mono; [exact Hrd|]. intros a c _ [Hok ->].
    split; [apply Forall_cons; split; [done|by apply Forall_nil]|].
    unfold wire_fields. simpl. by rewrite app_nil_r.
  - apply safe_ret. split; [by apply Forall_nil|done].
Qed.

Lemma basic_safe lo flags :
  DecSafe lo enc (decode_basic_properties enc pool old flags)
    (fun p c => basic_flags p = flags /\ fields_ok (basic_fields p) /\
                c = zlen (wire_fields (basic_fields p))).
Proof.
  unfold decode_basic_properties. apply safe_new.
  repeat (eapply safe_bind;
          [lazymatch goal with
           | |- DecSafe _ _ (when_set _ _ (dec_shortstr _) _) _ => apply (safe_opt _ _ _ _ _ FShort), safe_short
           | |- DecSafe _ _ (when_set _ _ (dec_u8 _) _) _ => apply (safe_opt _ _ _ _ _ F8), safe_u8
           | |- DecSafe _ _ (when_set _ _ (dec_u64 _) _) _ => apply (safe_opt _ _ _ _ _ F64), safe_u64
           | |- DecSafe _ _ (when_set _ _ (amqp_decode_table _ _) _) _ =>
               apply (safe_opt _ _ _ _ _ FTable), safe_tbl
           end; assumption
          |cbv beta; intros ? ? _ [? ->]]).
  apply safe_ret. split; [reflexivity|]. unfold basic_fields. cbv zeta.
  rewrite !wire_fields_app, !zlen_app. split; [|reflexivity].
  repeat (apply Forall_app; split; [assumption|]). by apply Forall_nil.
Qed.

(** What decoding as class [c] promises. *)
Definition PropPost (c : Z) (out : res properties_t * dec_state Mem) : Prop :=
  match out with
  | (Ret d, s) => properties_class d = c /\ properties_ok d /\
                  d_off s = zlen (wire_properties d) /\ d_off s <= zlen enc
  | (Err st, _) => dec_err st \/ st = AMQP_STATUS_UNKNOWN_CLASS
  | (Undef, _) | (NoFuel, _) => False
  end.

Lemma prop_case {A} c flags (d : eff (dec_state Mem) A) (f : A -> properties_t) m :
  one_word flags -> 2 <= zlen enc -> (forall a, properties_class (f a) = c) ->
  DecSafe 2 enc d (fun a c' => properties_flags (f a) = flags /\ fields_ok (properties_fields (f a)) /\
                               2 + c' = zlen (wire_properties (f a))) ->
  PropPost c ((let! a := d in ret (f a)) (mk_dec 2 m)).
Proof.
  intros Hw Hle Hc Hd. specialize (Hd 2 m ltac:(lia) ltac:(lia)). unfold bind, ret, PropPost.
  destruct (d _) as [[a| | |] s]; try done; [|by left].
  destruct Hd as (c' & _ & Hoff & Hle' & Hfl & Hok & Hlen). rewrite Hoff, <- Hlen.
  split; [apply Hc|]. split; [split; [by rewrite Hfl|done]|]. split; [done|lia].
Qed.

(** The classes that have no properties. *)
Lemma prop_plain {A} c flags (f : A -> properties_t) a m :
  one_word flags -> 2 <= zlen enc -> (forall a, properties_class (f a) = c) ->
  properties_fields (f a) = [F16 flags] -> properties_flags (f a) = flags ->
  PropPost c ((let! a := (do! alloc_struct pool layout_flags in ret a) in ret (f a)) (mk_dec 2 m)).
Proof.
  intros Hw Hle Hc Hfs Hfl. apply (prop_case c flags); [done..|]. apply safe_new, safe_ret.
  unfold wire_properties. rewrite Hfs. split; [done|]. split; [|by vm_compute].
  apply Forall_cons. split; [apply Hw|by apply Forall_nil].
Qed.

Lemma properties_safe class_id m :
  one_flag_word enc -> PropPost class_id (amqp_decode_properties enc pool old class_id (mk_dec 0 m)).
Proof.
  intros Hone. pose proof (flags_safe m Hone) as Hf. unfold amqp_decode_properties. unfold bind at 1.
  destruct (decode_flags enc 3 0 0 _) as [[flags| | |] [o1 m1]]; try done; [|left; by left].
  destruct Hf as (Hw & Ho & Hle). simpl in Ho. subst o1.
  apply (switch_case (fun d => PropPost class_id (d (mk_dec 2 m1)))); [|by right].
  repeat (apply Forall_cons; split; cbn [fst snd]; [intros -> | ]); [..|by apply Forall_nil].
  6:{ apply (prop_case 60 flags); [done..|]. eapply safe_mono; [apply basic_safe|].
      intros p c Hc (<- & Hok & ->).
      split; [done|]. split; [apply Forall_cons; split; [apply Hw|done]|].
      unfold wire_properties, properties_fields. cbn [properties_flags].
      change (wire_fields (?f :: ?fs)) with (wire_field f ++ wire_fields fs). rewrite zlen_app.
      f_equal. }
  all: apply (prop_plain _ flags); done.
Qed.

(** With the shifts defined, nothing is undefined. *)
Lemma properties_total class_id m : shifts_defined enc ->
  match amqp_decode_properties enc pool old class_id (mk_dec 0 m) with
  | (Ret d, _) => True
  | (Err st, _) => dec_err st \/ st = AMQP_STATUS_UNKNOWN_CLASS
  | (Undef, _) | (NoFuel, _) => False
  end.
Proof.
  intros Hok. pose proof (flags_total m Hok) as Hf. unfold amqp_decode_properties. unfold bind at 1.
  destruct (decode_flags enc 3 0 0 _) as [[flags| | |] [o m1]]; try done; [|left; by left]. simpl in Hf.
  apply (switch_case (fun d => match d (mk_dec o m1) with
    | (Ret d, _) => True
    | (Err st, _) => dec_err st \/ st = AMQP_STATUS_UNKNOWN_CLASS
    | (Undef, _) | (NoFuel, _) => False
    end)); [|by right].
  repeat (apply Forall_cons; split; cbn [fst snd]; [intros -> | ]); [..|by apply Forall_nil].
  6:{ pose proof (basic_safe 0 flags o m1 ltac:(lia) ltac:(lia)) as Hb. unfold bind.
      destruct (decode_basic_properties _ _ _ _ _) as [[]]; try done. by left. }
  all: unfold decode_connection_properties, decode_channel_properties, decode_access_properties, decode_exchange_properties,
         decode_queue_properties, decode_tx_properties, decode_confirm_properties, bind, alloc_struct;
    cbn [d_mem d_off]; destruct (pool_alloc _ _ _) as [[?|] ?]; cbn; [done|left; by right].
Qed.

End Decode.

(** ** Properties *)

Section Properties.
Context `{Host} {Mem Pool : Type} `{MemLaws Mem Pool}.

(** C32: Content properties survive the wire: for every class, and for any choice of
    flagged properties in range, [amqp_encode_properties] writes them, returns
    their length, and [amqp_decode_properties] reads back the same flags and the
    same value for every flagged property; the others keep what the memory held. *)
Theorem properties_roundtrip d buf pool m old :
  properties_ok d -> zlen buf <= 2 ^ 30 -> zlen (wire_properties d) <= zlen buf ->
  plenty pool (zlen (wire_properties d) + 1) m ->
  exists n buf' m',
    amqp_encode_properties (properties_class d) d (mk_enc buf 0) = (Ret n, mk_enc buf' n) /\
    amqp_decode_properties (ztake n buf') pool old (properties_class d) (mk_dec 0 m)
    = (Ret (merge_properties old d), mk_dec n m').
Proof.
  intros Hok Hbuf Hfit Hp. zlen_pos.
  exists (zlen (wire_properties d)), (splice buf 0 (wire_properties d)).
  destruct (properties_parses (wire_properties d) pool old ltac:(lia) d Hok 0 m (at_off_whole _))
    as [(m' & E & _)|(Hn & _)]; [|done].
  exists m'. split; [apply encode_properties_fits; done || lia|]. by rewrite ztake_splice_0, E.
Qed.

(** C33: On any header payload whose first flag word is its last,
    [amqp_decode_properties] terminates, reads only inside the payload, and returns
    an error status or properties of the class asked for, every flagged one in
    range. *)
Theorem properties_decode_safe enc pool old class_id m :
  zlen enc <= 2 ^ 30 -> one_flag_word enc ->
  match amqp_decode_properties enc pool old class_id (mk_dec 0 m) with
  | (Ret d, s) => properties_class d = class_id /\ properties_ok d /\
                  d_off s = zlen (wire_properties d) /\ d_off s <= zlen enc
  | (Err st, _) => dec_err st \/ st = AMQP_STATUS_UNKNOWN_CLASS
  | (Undef, _) | (NoFuel, _) => False
  end.
Proof. intros Henc Hone. by apply (properties_safe enc pool old Henc). Qed.

End Properties.

Definition zero_basic : amqp_basic_properties_t :=
  mk_basic_properties 0 [] [] [] 0 0 [] [] [] [] 0 [] [] [] [].
(** Content type, delivery mode and headers. *)
Definition demo_basic : properties_t :=
  P_basic (mk_basic_properties 0xB000 [x61; x2f; x62] [] demo_table 2 0 [] [] [] [] 0 [] [] [] []).

Lemma demo_basic_ok : properties_ok demo_basic.
Proof.
  split; [by vm_compute|]. repeat (apply Forall_cons; split); [..|by apply Forall_nil];
    first [apply demo_table_ok|by vm_compute].
Qed.

Example properties_roundtrip_witness :
  exists n buf' m',
    amqp_encode_properties (H := little_endian) 60 demo_basic (mk_enc (replicate 100 x00) 0) = (Ret n, mk_enc buf' n) /\
    amqp_decode_properties (H := little_endian) (ztake n buf') 1 zero_basic 60 (mk_dec 0 demo_memory)
    = (Ret demo_basic, mk_dec n m').
Proof.
  apply (properties_roundtrip (H := little_endian) demo_basic); [apply demo_basic_ok|done|by vm_compute|].
  by apply demo_plenty.
Defined.

Example properties_decode_safe_witness :
  match amqp_decode_properties (H := little_endian) [x80; x00; x05; x61] 1 zero_basic 60 (mk_dec 0 demo_memory) with
  | (Ret d, s) => properties_class d = 60 /\ properties_ok d /\
                  d_off s = zlen (wire_properties d) /\ d_off s <= zlen [x80; x00; x05; x61]
  | (Err st, _) => dec_err st \/ st = AMQP_STATUS_UNKNOWN_CLASS
  | (Undef, _) | (NoFuel, _) => False
  end.
Proof.
  apply (properties_decode_safe (H := little_endian)); [done|].
  intros bs Hbs. vm_compute in Hbs. simplify_eq. by vm_compute.
Defined.

Definition second_word_high : list byte := [x00; x01; x80; x00].
Definition three_words : list byte := [x00; x01; x00; x01; x00; x00].

(** Flag words from the wire reach an undefined shift: a second word with its
    top bit set overflows the [int], and a third word is shifted by 32. *)
Theorem properties_flag_shift_undefined class_id old :
  fst (amqp_decode_properties (H := little_endian) second_word_high 1 old class_id (mk_dec 0 demo_memory))
    = Undef /\
  fst (amqp_decode_properties (H := little_endian) three_words 1 old class_id (mk_dec 0 demo_memory))
    = Undef.
Proof. by vm_compute. Qed.

(** A content header whose flags need a second word comes back with the
    continuation bit among its flags. *)
Theorem properties_wide_flags_altered :
  let d := P_queue (mk_queue_properties 0x20000) in
  let '(r, s) := amqp_encode_properties (H := little_endian) 50 d (mk_enc (replicate 4 x00) 0) in
  r = Ret 4 /\
  fst (amqp_decode_properties (H := little_endian) (e_buf s) 1 zero_basic 50 (mk_dec 0 demo_memory))
  = Ret (P_queue (mk_queue_properties 0x20001)).
Proof. by vm_compute. Qed.
