(* ===== verification/Names.v ===== *)
(** * Names and classifications of protocol constants

    [amqp_constant_name], [amqp_constant_is_hard_error], [amqp_method_name] and
    [amqp_method_has_content] of [librabbitmq/amqp_framing.c]. *)

From S2P Require Import Prelude Status Memory Codec Table TableSpec Pool PoolMem.
From S2P Require Import MethodCodec MethodTypes MethodDecode MethodEncode MethodSpec.

Local Open Scope string_scope.
Local Open Scope Z_scope.

Definition AMQP_FRAME_MIN_SIZE : Z := 4096.
Definition AMQP_REPLY_SUCCESS : Z := 200.
Definition AMQP_CONTENT_TOO_LARGE : Z := 311.
Definition AMQP_NO_ROUTE : Z := 312.
Definition AMQP_NO_CONSUMERS : Z := 313.
Definition AMQP_ACCESS_REFUSED : Z := 403.
Definition AMQP_NOT_FOUND : Z := 404.
Definition AMQP_RESOURCE_LOCKED : Z := 405.
Definition AMQP_PRECONDITION_FAILED : Z := 406.
Definition AMQP_CONNECTION_FORCED : Z := 320.
Definition AMQP_INVALID_PATH : Z := 402.
Definition AMQP_FRAME_ERROR : Z := 501.
Definition AMQP_SYNTAX_ERROR : Z := 502.
Definition AMQP_COMMAND_INVALID : Z := 503.
Definition AMQP_CHANNEL_ERROR : Z := 504.
Definition AMQP_UNEXPECTED_FRAME : Z := 505.
Definition AMQP_RESOURCE_ERROR : Z := 506.
Definition AMQP_NOT_ALLOWED : Z := 530.
Definition AMQP_NOT_IMPLEMENTED : Z := 540.
Definition AMQP_INTERNAL_ERROR : Z := 541.

Definition amqp_constant_name (constantNumber : Z) : string :=
  switch constantNumber
    [(AMQP_FRAME_METHOD, "AMQP_FRAME_METHOD");
     (AMQP_FRAME_HEADER, "AMQP_FRAME_HEADER");
     (AMQP_FRAME_BODY, "AMQP_FRAME_BODY");
     (AMQP_FRAME_HEARTBEAT, "AMQP_FRAME_HEARTBEAT");
     (AMQP_FRAME_MIN_SIZE, "AMQP_FRAME_MIN_SIZE");
     (AMQP_FRAME_END, "AMQP_FRAME_END");
     (AMQP_REPLY_SUCCESS, "AMQP_REPLY_SUCCESS");
     (AMQP_CONTENT_TOO_LARGE, "AMQP_CONTENT_TOO_LARGE");
     (AMQP_NO_ROUTE, "AMQP_NO_ROUTE");
     (AMQP_NO_CONSUMERS, "AMQP_NO_CONSUMERS");
     (AMQP_ACCESS_REFUSED, "AMQP_ACCESS_REFUSED");
     (AMQP_NOT_FOUND, "AMQP_NOT_FOUND");
     (AMQP_RESOURCE_LOCKED, "AMQP_RESOURCE_LOCKED");
     (AMQP_PRECONDITION_FAILED, "AMQP_PRECONDITION_FAILED");
     (AMQP_CONNECTION_FORCED, "AMQP_CONNECTION_FORCED");
     (AMQP_INVALID_PATH, "AMQP_INVALID_PATH");
     (AMQP_FRAME_ERROR, "AMQP_FRAME_ERROR");
     (AMQP_SYNTAX_ERROR, "AMQP_SYNTAX_ERROR");
     (AMQP_COMMAND_INVALID, "AMQP_COMMAND_INVALID");
     (AMQP_CHANNEL_ERROR, "AMQP_CHANNEL_ERROR");
     (AMQP_UNEXPECTED_FRAME, "AMQP_UNEXPECTED_FRAME");
     (AMQP_RESOURCE_ERROR, "AMQP_RESOURCE_ERROR");
     (AMQP_NOT_ALLOWED, "AMQP_NOT_ALLOWED");
     (AMQP_NOT_IMPLEMENTED, "AMQP_NOT_IMPLEMENTED");
     (AMQP_INTERNAL_ERROR, "AMQP_INTERNAL_ERROR")]
    "(unknown)".

Definition amqp_constant_is_hard_error (constantNumber : Z) : Z :=
  switch constantNumber
    [(AMQP_CONNECTION_FORCED, 1);
     (AMQP_INVALID_PATH, 1);
     (AMQP_FRAME_ERROR, 1);
     (AMQP_SYNTAX_ERROR, 1);
     (AMQP_COMMAND_INVALID, 1);
     (AMQP_CHANNEL_ERROR, 1);
     (AMQP_UNEXPECTED_FRAME, 1);
     (AMQP_RESOURCE_ERROR, 1);
     (AMQP_NOT_ALLOWED, 1);
     (AMQP_NOT_IMPLEMENTED, 1);
     (AMQP_INTERNAL_ERROR, 1)]
    0.

Definition amqp_method_name (methodNumber : Z) : option string :=
  switch methodNumber
    [(AMQP_CONNECTION_START_METHOD, Some "AMQP_CONNECTION_START_METHOD");
     (AMQP_CONNECTION_START_OK_METHOD, Some "AMQP_CONNECTION_START_OK_METHOD");
     (AMQP_CONNECTION_SECURE_METHOD, Some "AMQP_CONNECTION_SECURE_METHOD");
     (AMQP_CONNECTION_SECURE_OK_METHOD, Some "AMQP_CONNECTION_SECURE_OK_METHOD");
     (AMQP_CONNECTION_TUNE_METHOD, Some "AMQP_CONNECTION_TUNE_METHOD");
     (AMQP_CONNECTION_TUNE_OK_METHOD, Some "AMQP_CONNECTION_TUNE_OK_METHOD");
     (AMQP_CONNECTION_OPEN_METHOD, Some "AMQP_CONNECTION_OPEN_METHOD");
     (AMQP_CONNECTION_OPEN_OK_METHOD, Some "AMQP_CONNECTION_OPEN_OK_METHOD");
     (AMQP_CONNECTION_CLOSE_METHOD, Some "AMQP_CONNECTION_CLOSE_METHOD");
     (AMQP_CONNECTION_CLOSE_OK_METHOD, Some "AMQP_CONNECTION_CLOSE_OK_METHOD");
     (AMQP_CONNECTION_BLOCKED_METHOD, Some "AMQP_CONNECTION_BLOCKED_METHOD");
     (AMQP_CONNECTION_UNBLOCKED_METHOD, Some "AMQP_CONNECTION_UNBLOCKED_METHOD");
     (AMQP_CONNECTION_UPDATE_SECRET_METHOD, Some "AMQP_CONNECTION_UPDATE_SECRET_METHOD");
     (AMQP_CONNECTION_UPDATE_SECRET_OK_METHOD, Some "AMQP_CONNECTION_UPDATE_SECRET_OK_METHOD");
     (AMQP_CHANNEL_OPEN_METHOD, Some "AMQP_CHANNEL_OPEN_METHOD");
     (AMQP_CHANNEL_OPEN_OK_METHOD, Some "AMQP_CHANNEL_OPEN_OK_METHOD");
     (AMQP_CHANNEL_FLOW_METHOD, Some "AMQP_CHANNEL_FLOW_METHOD");
     (AMQP_CHANNEL_FLOW_OK_METHOD, Some "AMQP_CHANNEL_FLOW_OK_METHOD");
     (AMQP_CHANNEL_CLOSE_METHOD, Some "AMQP_CHANNEL_CLOSE_METHOD");
     (AMQP_CHANNEL_CLOSE_OK_METHOD, Some "AMQP_CHANNEL_CLOSE_OK_METHOD");
     (AMQP_ACCESS_REQUEST_METHOD, Some "AMQP_ACCESS_REQUEST_METHOD");
     (AMQP_ACCESS_REQUEST_OK_METHOD, Some "AMQP_ACCESS_REQUEST_OK_METHOD");
     (AMQP_EXCHANGE_DECLARE_METHOD, Some "AMQP_EXCHANGE_DECLARE_METHOD");
     (AMQP_EXCHANGE_DECLARE_OK_METHOD, Some "AMQP_EXCHANGE_DECLARE_OK_METHOD");
     (AMQP_EXCHANGE_DELETE_METHOD, Some "AMQP_EXCHANGE_DELETE_METHOD");
     (AMQP_EXCHANGE_DELETE_OK_METHOD, Some "AMQP_EXCHANGE_DELETE_OK_METHOD");
     (AMQP_EXCHANGE_BIND_METHOD, Some "AMQP_EXCHANGE_BIND_METHOD");
     (AMQP_EXCHANGE_BIND_OK_METHOD, Some "AMQP_EXCHANGE_BIND_OK_METHOD");
     (AMQP_EXCHANGE_UNBIND_METHOD, Some "AMQP_EXCHANGE_UNBIND_METHOD");
     (AMQP_EXCHANGE_UNBIND_OK_METHOD, Some "AMQP_EXCHANGE_UNBIND_OK_METHOD");
     (AMQP_QUEUE_DECLARE_METHOD, Some "AMQP_QUEUE_DECLARE_METHOD");
     (AMQP_QUEUE_DECLARE_OK_METHOD, Some "AMQP_QUEUE_DECLARE_OK_METHOD");
     (AMQP_QUEUE_BIND_METHOD, Some "AMQP_QUEUE_BIND_METHOD");
     (AMQP_QUEUE_BIND_OK_METHOD, Some "AMQP_QUEUE_BIND_OK_METHOD");
     (AMQP_QUEUE_PURGE_METHOD, Some "AMQP_QUEUE_PURGE_METHOD");
     (AMQP_QUEUE_PURGE_OK_METHOD, Some "AMQP_QUEUE_PURGE_OK_METHOD");
     (AMQP_QUEUE_DELETE_METHOD, Some "AMQP_QUEUE_DELETE_METHOD");
     (AMQP_QUEUE_DELETE_OK_METHOD, Some "AMQP_QUEUE_DELETE_OK_METHOD");
     (AMQP_QUEUE_UNBIND_METHOD, Some "AMQP_QUEUE_UNBIND_METHOD");
     (AMQP_QUEUE_UNBIND_OK_METHOD, Some "AMQP_QUEUE_UNBIND_OK_METHOD");
     (AMQP_BASIC_QOS_METHOD, Some "AMQP_BASIC_QOS_METHOD");
     (AMQP_BASIC_QOS_OK_METHOD, Some "AMQP_BASIC_QOS_OK_METHOD");
     (AMQP_BASIC_CONSUME_METHOD, Some "AMQP_BASIC_CONSUME_METHOD");
     (AMQP_BASIC_CONSUME_OK_METHOD, Some "AMQP_BASIC_CONSUME_OK_METHOD");
     (AMQP_BASIC_CANCEL_METHOD, Some "AMQP_BASIC_CANCEL_METHOD");
     (AMQP_BASIC_CANCEL_OK_METHOD, Some "AMQP_BASIC_CANCEL_OK_METHOD");
     (AMQP_BASIC_PUBLISH_METHOD, Some "AMQP_BASIC_PUBLISH_METHOD");
     (AMQP_BASIC_RETURN_METHOD, Some "AMQP_BASIC_RETURN_METHOD");
     (AMQP_BASIC_DELIVER_METHOD, Some "AMQP_BASIC_DELIVER_METHOD");
     (AMQP_BASIC_GET_METHOD, Some "AMQP_BASIC_GET_METHOD");
     (AMQP_BASIC_GET_OK_METHOD, Some "AMQP_BASIC_GET_OK_METHOD");
     (AMQP_BASIC_GET_EMPTY_METHOD, Some "AMQP_BASIC_GET_EMPTY_METHOD");
     (AMQP_BASIC_ACK_METHOD, Some "AMQP_BASIC_ACK_METHOD");
     (AMQP_BASIC_REJECT_METHOD, Some "AMQP_BASIC_REJECT_METHOD");
     (AMQP_BASIC_RECOVER_ASYNC_METHOD, Some "AMQP_BASIC_RECOVER_ASYNC_METHOD");
     (AMQP_BASIC_RECOVER_METHOD, Some "AMQP_BASIC_RECOVER_METHOD");
     (AMQP_BASIC_RECOVER_OK_METHOD, Some "AMQP_BASIC_RECOVER_OK_METHOD");
     (AMQP_BASIC_NACK_METHOD, Some "AMQP_BASIC_NACK_METHOD");
     (AMQP_TX_SELECT_METHOD, Some "AMQP_TX_SELECT_METHOD");
     (AMQP_TX_SELECT_OK_METHOD, Some "AMQP_TX_SELECT_OK_METHOD");
     (AMQP_TX_COMMIT_METHOD, Some "AMQP_TX_COMMIT_METHOD");
     (AMQP_TX_COMMIT_OK_METHOD, Some "AMQP_TX_COMMIT_OK_METHOD");
     (AMQP_TX_ROLLBACK_METHOD, Some "AMQP_TX_ROLLBACK_METHOD");
     (AMQP_TX_ROLLBACK_OK_METHOD, Some "AMQP_TX_ROLLBACK_OK_METHOD");
     (AMQP_CONFIRM_SELECT_METHOD, Some "AMQP_CONFIRM_SELECT_METHOD");
     (AMQP_CONFIRM_SELECT_OK_METHOD, Some "AMQP_CONFIRM_SELECT_OK_METHOD")]
    None.

Definition amqp_method_has_content (methodNumber : Z) : Z :=
  switch methodNumber
    [(AMQP_BASIC_PUBLISH_METHOD, 1);
     (AMQP_BASIC_RETURN_METHOD, 1);
     (AMQP_BASIC_DELIVER_METHOD, 1);
     (AMQP_BASIC_GET_OK_METHOD, 1)]
    0.

(** * Theorems *)

(** The ids of the methods the library knows. *)
Definition method_ids : list Z :=
  [AMQP_CONNECTION_START_METHOD; AMQP_CONNECTION_START_OK_METHOD; AMQP_CONNECTION_SECURE_METHOD;
   AMQP_CONNECTION_SECURE_OK_METHOD; AMQP_CONNECTION_TUNE_METHOD;
   AMQP_CONNECTION_TUNE_OK_METHOD; AMQP_CONNECTION_OPEN_METHOD; AMQP_CONNECTION_OPEN_OK_METHOD;
   AMQP_CONNECTION_CLOSE_METHOD; AMQP_CONNECTION_CLOSE_OK_METHOD;
   AMQP_CONNECTION_BLOCKED_METHOD; AMQP_CONNECTION_UNBLOCKED_METHOD;
   AMQP_CONNECTION_UPDATE_SECRET_METHOD; AMQP_CONNECTION_UPDATE_SECRET_OK_METHOD;
   AMQP_CHANNEL_OPEN_METHOD; AMQP_CHANNEL_OPEN_OK_METHOD; AMQP_CHANNEL_FLOW_METHOD;
   AMQP_CHANNEL_FLOW_OK_METHOD; AMQP_CHANNEL_CLOSE_METHOD; AMQP_CHANNEL_CLOSE_OK_METHOD;
   AMQP_ACCESS_REQUEST_METHOD; AMQP_ACCESS_REQUEST_OK_METHOD; AMQP_EXCHANGE_DECLARE_METHOD;
   AMQP_EXCHANGE_DECLARE_OK_METHOD; AMQP_EXCHANGE_DELETE_METHOD; AMQP_EXCHANGE_DELETE_OK_METHOD;
   AMQP_EXCHANGE_BIND_METHOD; AMQP_EXCHANGE_BIND_OK_METHOD; AMQP_EXCHANGE_UNBIND_METHOD;
   AMQP_EXCHANGE_UNBIND_OK_METHOD; AMQP_QUEUE_DECLARE_METHOD; AMQP_QUEUE_DECLARE_OK_METHOD;
   AMQP_QUEUE_BIND_METHOD; AMQP_QUEUE_BIND_OK_METHOD; AMQP_QUEUE_PURGE_METHOD;
   AMQP_QUEUE_PURGE_OK_METHOD; AMQP_QUEUE_DELETE_METHOD; AMQP_QUEUE_DELETE_OK_METHOD;
   AMQP_QUEUE_UNBIND_METHOD; AMQP_QUEUE_UNBIND_OK_METHOD; AMQP_BASIC_QOS_METHOD;
   AMQP_BASIC_QOS_OK_METHOD; AMQP_BASIC_CONSUME_METHOD; AMQP_BASIC_CONSUME_OK_METHOD;
   AMQP_BASIC_CANCEL_METHOD; AMQP_BASIC_CANCEL_OK_METHOD; AMQP_BASIC_PUBLISH_METHOD;
   AMQP_BASIC_RETURN_METHOD; AMQP_BASIC_DELIVER_METHOD; AMQP_BASIC_GET_METHOD;
   AMQP_BASIC_GET_OK_METHOD; AMQP_BASIC_GET_EMPTY_METHOD; AMQP_BASIC_ACK_METHOD;
   AMQP_BASIC_REJECT_METHOD; AMQP_BASIC_RECOVER_ASYNC_METHOD; AMQP_BASIC_RECOVER_METHOD;
   AMQP_BASIC_RECOVER_OK_METHOD; AMQP_BASIC_NACK_METHOD; AMQP_TX_SELECT_METHOD;
   AMQP_TX_SELECT_OK_METHOD; AMQP_TX_COMMIT_METHOD; AMQP_TX_COMMIT_OK_METHOD;
   AMQP_TX_ROLLBACK_METHOD; AMQP_TX_ROLLBACK_OK_METHOD; AMQP_CONFIRM_SELECT_METHOD;
   AMQP_CONFIRM_SELECT_OK_METHOD].

Lemma switch_miss {A} n (cases : list (Z * A)) d : n ∉ map fst cases -> switch n cases d = d.
Proof.
  induction cases as [|[c b] cases IH]; simpl; [done|]. intros Hn.
  destruct (Z.eqb_spec n c) as [->|]; [set_solver|]. apply IH. set_solver.
Qed.

Lemma switch_hit {A} n (cases : list (Z * A)) d :
  n ∈ map fst cases -> exists b, (n, b) ∈ cases /\ switch n cases d = b.
Proof.
  induction cases as [|[c b] cases IH]; cbn [map fst switch]; [set_solver|]. intros Hn.
  destruct (Z.eqb_spec n c) as [->|].
  - exists b. split; [left|done].
  - destruct IH as (b' & Hb & E); [set_solver|]. exists b'. split; [by right|done].
Qed.

Lemma method_id_known d : method_id d ∈ method_ids.
Proof. destruct d; apply (bool_decide_unpack _); vm_compute; exact I. Qed.

Lemma method_ids_nodup : NoDup method_ids.
Proof. apply (bool_decide_unpack _). vm_compute. exact I. Qed.

(** A switch whose cases return different values tells its cases apart. *)
Lemma switch_inj {A} n n' (cases : list (Z * A)) d :
  NoDup (map snd cases) -> n ∈ map fst cases -> n' ∈ map fst cases ->
  switch n cases d = switch n' cases d -> n = n'.
Proof.
  intros Hnd Hn Hn' E. destruct (switch_hit n cases d Hn) as (b & Hb & Eb).
  destruct (switch_hit n' cases d Hn') as (b' & Hb' & Eb').
  assert (b = b') as <- by congruence. clear - Hnd Hb Hb'.
  induction cases as [|[c x] cases IH]; [by apply elem_of_nil in Hb|].
  cbn [map snd] in Hnd. apply NoDup_cons in Hnd as [Hx Hnd].
  assert (Hmem : forall k, (k, b) ∈ cases -> b ∈ map snd cases).
  { intros k Hk. apply list_elem_of_fmap. by exists (k, b). }
  apply elem_of_cons in Hb as [[= -> ->]|Hb]; apply elem_of_cons in Hb' as [[= ->]|Hb']; auto.
  - by destruct Hx; eapply Hmem.
  - subst. by destruct Hx; eapply Hmem.
Qed.

(** ** Properties *)

(** The three generated tables agree: an id without a name is an
    [UNKNOWN_METHOD] to the decoder and to the encoder, which leave their state
    alone, and it is the id of no structure; two ids never share a name. *)
Theorem method_tables_agree `{Host} {Mem Pool} `{MemOps Mem Pool} n :
  (amqp_method_name n = None ->
     (forall enc pool m, amqp_decode_method enc pool n (mk_dec (Mem := Mem) 0 m)
        = (Err AMQP_STATUS_UNKNOWN_METHOD, mk_dec 0 m)) /\
     (forall d s, amqp_encode_method n d s = (Err AMQP_STATUS_UNKNOWN_METHOD, s)) /\
     (forall d, method_id d <> n)) /\
  (forall d, method_id d = n -> is_Some (amqp_method_name n)) /\
  (forall n', is_Some (amqp_method_name n) -> amqp_method_name n = amqp_method_name n' -> n = n').
Proof.
  assert (Hnamed : n ∈ method_ids -> is_Some (amqp_method_name n)).
  { intros Hn. unfold amqp_method_name.
    match goal with |- context [switch n ?cs ?d] => destruct (switch_hit n cs d Hn) as (b & Hb & ->) end.
    clear - Hb. revert Hb. repeat (rewrite elem_of_cons; intros [[= _ ->]|Hb]; [by eexists|revert Hb]).
    by intros ?%elem_of_nil. }
  assert (Hknown : forall k, is_Some (amqp_method_name k) -> k ∈ method_ids).
  { intros k [x E]. destruct (decide (k ∈ method_ids)) as [|Hk]; [done|].
    unfold amqp_method_name in E. rewrite switch_miss in E; [done|exact Hk]. }
  split; [|split].
  - intros E. assert (Hn : n ∉ method_ids).
    { intros Hn. destruct (Hnamed Hn) as [x Ex]. congruence. }
    split; [|split].
    + intros. unfold amqp_decode_method. rewrite switch_miss; [done|exact Hn].
    + intros. unfold amqp_encode_method. unfold bind at 1. rewrite switch_miss; [done|exact Hn].
    + intros d <-. apply Hn, method_id_known.
  - intros d <-. apply Hnamed, method_id_known.
  - intros n' Hs E. pose proof (Hknown n Hs) as Hn. rewrite E in Hs.
    pose proof (Hknown n' Hs) as Hn'.
    unfold amqp_method_name in E. apply switch_inj in E; [exact E| |exact Hn|exact Hn'].
    apply (bool_decide_unpack _). vm_compute. exact I.
Qed.

Example method_tables_agree_witness :
  amqp_method_name 0 = None /\
  amqp_encode_method (H := little_endian) 0 demo_publish (mk_enc [] 0)
  = (Err AMQP_STATUS_UNKNOWN_METHOD, mk_enc [] 0).
Proof.
  split; [reflexivity|].
  apply (proj1 (method_tables_agree (H := little_endian) (Mem := memory) (Pool := Z) 0)). reflexivity.
Defined.
