(* ===== verification/Time.v ===== *)
(** * Deadlines: [librabbitmq/amqp_time.c]

    The system clock is a parameter: what [clock_gettime(CLOCK_MONOTONIC)] answers,
    [None] when it fails.  All arithmetic is that of [uint64_t]. *)

From S2P Require Import Prelude Status.

Definition AMQP_NS_PER_S : Z := 1000000000.
Definition AMQP_NS_PER_MS : Z := 1000000.
Definition AMQP_NS_PER_US : Z := 1000.

Record amqp_time_t := mk_time { time_point_ns : Z }.
Record timeval := mk_timeval { tv_sec : Z; tv_usec : Z }.

#[global] Instance amqp_time_eq_dec : EqDecision amqp_time_t.
Proof. solve_decision. Defined.

Definition amqp_time_infinite : amqp_time_t := mk_time UINT64_MAX.

Definition u64_add (a b : Z) : Z := wrap 64 (a + b).
Definition u64_mul (a b : Z) : Z := wrap 64 (a * b).

Section Clock.
Context (clock_gettime : option (Z * Z)).

Definition amqp_get_monotonic_timestamp : Z :=
  match clock_gettime with
  | None => 0
  | Some (sec, nsec) => u64_add (u64_mul (wrap 64 sec) AMQP_NS_PER_S) (wrap 64 nsec)
  end.

(** The common tail of the two constructors: [*time = now + delta], with the check
    for a sum that wrapped around. *)
Definition set_deadline (now_ns delta_ns : Z) : eff amqp_time_t unit := fun _ =>
  let t := u64_add now_ns delta_ns in
  if (t <? now_ns) || (t <? delta_ns) then (Err AMQP_STATUS_INVALID_PARAMETER, mk_time t)
  else (Ret tt, mk_time t).

(** The state is [*time]; [None] is a [NULL] timeout. *)
Definition amqp_time_from_now (timeout : option timeval) : eff amqp_time_t unit :=
  match timeout with
  | None => fun _ => (Ret tt, amqp_time_infinite)
  | Some tv =>
      if (tv_sec tv <? 0) || (tv_usec tv <? 0) then fail AMQP_STATUS_INVALID_PARAMETER
      else
        let delta_ns := u64_add (u64_mul (wrap 64 (tv_sec tv)) AMQP_NS_PER_S)
                                (u64_mul (wrap 64 (tv_usec tv)) AMQP_NS_PER_US) in
        let now_ns := amqp_get_monotonic_timestamp in
        if now_ns =? 0 then fail AMQP_STATUS_TIMER_FAILURE else set_deadline now_ns delta_ns
  end.

Definition amqp_time_s_from_now (seconds : Z) : eff amqp_time_t unit :=
  if seconds <=? 0 then fun _ => (Ret tt, amqp_time_infinite)
  else
    let now_ns := amqp_get_monotonic_timestamp in
    if now_ns =? 0 then fail AMQP_STATUS_TIMER_FAILURE
    else set_deadline now_ns (u64_mul (wrap 64 seconds) AMQP_NS_PER_S).

(** The [int] it returns: -1, a status or a number of milliseconds. *)
Definition amqp_time_ms_until (time : amqp_time_t) : Z :=
  if time_point_ns time =? UINT64_MAX then -1
  else if time_point_ns time =? 0 then 0
  else
    let now_ns := amqp_get_monotonic_timestamp in
    if now_ns =? 0 then AMQP_STATUS_TIMER_FAILURE
    else if time_point_ns time <=? now_ns then 0
    else swrap 32 ((time_point_ns time - now_ns) / AMQP_NS_PER_MS).

(** [*out]: [None] for no timeout. *)
Definition amqp_time_tv_until (time : amqp_time_t) : res (option timeval) :=
  if time_point_ns time =? UINT64_MAX then Ret None
  else if time_point_ns time =? 0 then Ret (Some (mk_timeval 0 0))
  else
    let now_ns := amqp_get_monotonic_timestamp in
    if now_ns =? 0 then Err AMQP_STATUS_TIMER_FAILURE
    else if time_point_ns time <=? now_ns then Ret (Some (mk_timeval 0 0))
    else
      let delta_ns := time_point_ns time - now_ns in
      Ret (Some (mk_timeval (swrap 32 (delta_ns / AMQP_NS_PER_S))
                            (swrap 32 ((delta_ns mod AMQP_NS_PER_S) / AMQP_NS_PER_US)))).

Definition amqp_time_has_past (time : amqp_time_t) : Z :=
  if time_point_ns time =? UINT64_MAX then AMQP_STATUS_OK
  else
    let now_ns := amqp_get_monotonic_timestamp in
    if now_ns =? 0 then AMQP_STATUS_TIMER_FAILURE
    else if time_point_ns time <? now_ns then AMQP_STATUS_TIMEOUT
    else AMQP_STATUS_OK.

End Clock.

Definition amqp_time_first (l r : amqp_time_t) : amqp_time_t :=
  if time_point_ns l <? time_point_ns r then l else r.

Definition amqp_time_equal (l r : amqp_time_t) : bool := time_point_ns l =? time_point_ns r.

(** * Theorems *)

(** A clock that works: after the epoch, within 64 bits of nanoseconds. *)
Definition clock_ok (clock : option (Z * Z)) (now : Z) : Prop :=
  exists sec nsec, clock = Some (sec, nsec) /\ 0 <= sec /\ 0 <= nsec < AMQP_NS_PER_S /\
    now = sec * AMQP_NS_PER_S + nsec /\ 0 < now < 2 ^ 64.

Lemma clock_now clock now : clock_ok clock now -> amqp_get_monotonic_timestamp clock = now.
Proof.
  intros (sec & nsec & -> & Hs & Hn & -> & Hr). unfold amqp_get_monotonic_timestamp, u64_add, u64_mul, AMQP_NS_PER_S in *.
  rewrite !(wrap_small 64 sec), (wrap_small 64 nsec) by (unfold in_u; lia).
  rewrite (wrap_small 64 (sec * _)) by (unfold in_u; lia). apply wrap_small. unfold in_u. lia.
Qed.

(** A deadline is set, or the status is one of two. *)
Lemma time_from_now_status clock timeout t0 :
  match amqp_time_from_now clock timeout t0 with
  | (Ret _, _) => True
  | (Err st, _) => st < -1
  | _ => False
  end.
Proof.
  unfold amqp_time_from_now, set_deadline. destruct timeout as [tv|]; [|done]. destruct (_ || _); [done|].
  destruct (_ =? 0); [done|]. by destruct (_ || _).
Qed.

Lemma set_deadline_spec now delta t0 :
  0 < now < 2 ^ 64 -> 0 <= delta < 2 ^ 64 ->
  set_deadline now delta t0
  = (if now + delta <? 2 ^ 64 then Ret tt else Err AMQP_STATUS_INVALID_PARAMETER, mk_time (wrap 64 (now + delta))).
Proof.
  intros Hn Hd. unfold set_deadline, u64_add. destruct (Z.ltb_spec (now + delta) (2 ^ 64)) as [H|H].
  - rewrite wrap_small by (unfold in_u; lia).
    destruct (Z.ltb_spec (now + delta) now), (Z.ltb_spec (now + delta) delta); done || lia.
  - assert (wrap 64 (now + delta) = now + delta - 2 ^ 64) as ->.
    { unfold wrap. rewrite <- (Z_mod_plus_full _ (-1)). apply Z.mod_small. lia. }
    destruct (Z.ltb_spec (now + delta - 2 ^ 64) now); [done|lia].
Qed.

(** A timeout as it is meant, in nanoseconds. *)
Definition timeout_ns (tv : timeval) : Z := tv_sec tv * AMQP_NS_PER_S + tv_usec tv * AMQP_NS_PER_US.

Lemma from_now_spec clock now tv t0 :
  clock_ok clock now -> 0 <= tv_sec tv -> 0 <= tv_usec tv -> timeout_ns tv < 2 ^ 64 ->
  amqp_time_from_now clock (Some tv) t0
  = (if now + timeout_ns tv <? 2 ^ 64 then Ret tt else Err AMQP_STATUS_INVALID_PARAMETER,
     mk_time (wrap 64 (now + timeout_ns tv))).
Proof.
  intros Hc Hs Hu Ht. pose proof (clock_now _ _ Hc) as Hnow. destruct Hc as (_ & _ & _ & _ & _ & _ & Hr).
  unfold amqp_time_from_now, timeout_ns, u64_add, u64_mul, AMQP_NS_PER_S, AMQP_NS_PER_US in *.
  destruct (Z.ltb_spec (tv_sec tv) 0), (Z.ltb_spec (tv_usec tv) 0); try lia. simpl orb. cbv iota zeta. rewrite Hnow.
  destruct (Z.eqb_spec now 0); [lia|].
  rewrite (wrap_small 64 (tv_sec tv)), (wrap_small 64 (tv_usec tv)) by (unfold in_u; lia).
  rewrite (wrap_small 64 (tv_sec tv * _)), (wrap_small 64 (tv_usec tv * _)) by (unfold in_u; lia).
  rewrite (wrap_small 64 (_ + _)) by (unfold in_u; lia). apply set_deadline_spec; lia.
Qed.

Lemma ms_until_spec clock now t :
  clock_ok clock now -> 0 < time_point_ns t < UINT64_MAX -> time_point_ns t - now < 2 ^ 31 * AMQP_NS_PER_MS ->
  amqp_time_ms_until clock t = Z.max 0 (time_point_ns t - now) / AMQP_NS_PER_MS.
Proof.
  intros Hc Ht Hd. pose proof (clock_now _ _ Hc) as Hnow. destruct Hc as (_ & _ & _ & _ & _ & _ & Hr).
  unfold amqp_time_ms_until. rewrite Hnow. cbv zeta. unfold AMQP_NS_PER_MS in *.
  destruct (Z.eqb_spec (time_point_ns t) UINT64_MAX), (Z.eqb_spec (time_point_ns t) 0), (Z.eqb_spec now 0); try lia.
  destruct (Z.leb_spec (time_point_ns t) now); [by rewrite Z.max_l by lia|]. rewrite Z.max_r by lia.
  apply swrap_small; [lia|]. unfold in_s.
  pose proof (Z.div_pos (time_point_ns t - now) 1000000 ltac:(lia) ltac:(lia)).
  pose proof (Z.div_lt_upper_bound (time_point_ns t - now) 1000000 (2 ^ 31) ltac:(lia) ltac:(lia)). lia.
Qed.

Lemma tv_until_spec clock now t :
  clock_ok clock now -> 0 < time_point_ns t < UINT64_MAX -> time_point_ns t - now < 2 ^ 31 * AMQP_NS_PER_S ->
  let left := Z.max 0 (time_point_ns t - now) in
  amqp_time_tv_until clock t
  = Ret (Some (mk_timeval (left / AMQP_NS_PER_S) ((left mod AMQP_NS_PER_S) / AMQP_NS_PER_US))).
Proof.
  intros Hc Ht Hd left. pose proof (clock_now _ _ Hc) as Hnow. destruct Hc as (_ & _ & _ & _ & _ & _ & Hr).
  unfold amqp_time_tv_until. rewrite Hnow. cbv zeta. unfold AMQP_NS_PER_S, AMQP_NS_PER_US in *.
  destruct (Z.eqb_spec (time_point_ns t) UINT64_MAX), (Z.eqb_spec (time_point_ns t) 0), (Z.eqb_spec now 0); try lia.
  destruct (Z.leb_spec (time_point_ns t) now) as [Hle|Hle]; unfold left; [by rewrite Z.max_l by lia|].
  rewrite Z.max_r by lia. set (d := time_point_ns t - now) in *.
  pose proof (Z.div_pos d 1000000000 ltac:(lia) ltac:(lia)).
  pose proof (Z.div_lt_upper_bound d 1000000000 (2 ^ 31) ltac:(lia) ltac:(lia)).
  pose proof (Z.mod_pos_bound d 1000000000 ltac:(lia)) as Hm.
  pose proof (Z.div_pos (d mod 1000000000) 1000 ltac:(lia) ltac:(lia)).
  pose proof (Z.div_lt_upper_bound (d mod 1000000000) 1000 1000000 ltac:(lia) ltac:(lia)).
  rewrite !swrap_small by (unfold in_s; lia). done.
Qed.

(** A deadline set [tv] from now and looked at later: it has passed exactly when
    the clock is beyond it; the milliseconds and the [timeval] left, as given to
    [poll] and [select], never reach past it and fall short by less than one unit. *)
Theorem time_deadline clock0 clock1 now0 now1 tv t0 :
  clock_ok clock0 now0 -> clock_ok clock1 now1 -> now0 <= now1 ->
  0 <= tv_sec tv -> 0 <= tv_usec tv -> timeout_ns tv < 2 ^ 31 * AMQP_NS_PER_MS ->
  now0 + timeout_ns tv < UINT64_MAX ->
  exists t, amqp_time_from_now clock0 (Some tv) t0 = (Ret tt, t) /\
    amqp_time_has_past clock1 t
      = (if now0 + timeout_ns tv <? now1 then AMQP_STATUS_TIMEOUT else AMQP_STATUS_OK) /\
    (let ms := amqp_time_ms_until clock1 t in
     0 <= ms /\ now1 + ms * AMQP_NS_PER_MS <= Z.max now1 (now0 + timeout_ns tv) < now1 + (ms + 1) * AMQP_NS_PER_MS) /\
    exists tv', amqp_time_tv_until clock1 t = Ret (Some tv') /\ 0 <= tv_sec tv' /\ 0 <= tv_usec tv' < 1000000 /\
      now1 + timeout_ns tv' <= Z.max now1 (now0 + timeout_ns tv) < now1 + timeout_ns tv' + AMQP_NS_PER_US.
Proof.
  intros Hc0 Hc1 Hle Hs Hu Hms Hmax. rewrite (from_now_spec _ _ _ _ Hc0) by (unfold AMQP_NS_PER_MS in *; lia).
  pose proof (clock_now _ _ Hc1) as Hnow1.
  assert (Hr : 0 < now0 < 2 ^ 64 /\ 0 < now1 < 2 ^ 64).
  { destruct Hc0 as (_ & _ & _ & _ & _ & _ & ?), Hc1 as (_ & _ & _ & _ & _ & _ & ?). lia. }
  assert (Ht : 0 <= timeout_ns tv) by (unfold timeout_ns, AMQP_NS_PER_S, AMQP_NS_PER_US; lia).
  unfold UINT64_MAX in *. rewrite wrap_small by (unfold in_u; lia).
  destruct (Z.ltb_spec (now0 + timeout_ns tv) (2 ^ 64)); [|lia].
  set (t := mk_time (now0 + timeout_ns tv)). exists t. split; [done|]. split.
  { unfold amqp_time_has_past. rewrite Hnow1. unfold UINT64_MAX. simpl.
    destruct (Z.eqb_spec (now0 + timeout_ns tv) (2 ^ 64 - 1)), (Z.eqb_spec now1 0); lia || done. }
  rewrite (ms_until_spec _ _ t Hc1), (tv_until_spec _ _ t Hc1) by (unfold AMQP_NS_PER_MS, AMQP_NS_PER_S, UINT64_MAX in *; simpl; lia).
  simpl. unfold AMQP_NS_PER_MS, AMQP_NS_PER_S, AMQP_NS_PER_US in *. set (d := Z.max 0 (now0 + timeout_ns tv - now1)).
  assert (Hd : Z.max now1 (now0 + timeout_ns tv) = now1 + d) by lia. rewrite Hd. split.
  - pose proof (Z.div_mod d 1000000 ltac:(lia)). pose proof (Z.mod_pos_bound d 1000000 ltac:(lia)).
    pose proof (Z.div_pos d 1000000 ltac:(lia) ltac:(lia)). lia.
  - eexists. split; [done|]. unfold timeout_ns, AMQP_NS_PER_S, AMQP_NS_PER_US. simpl.
    pose proof (Z.div_mod d 1000000000 ltac:(lia)). pose proof (Z.mod_pos_bound d 1000000000 ltac:(lia)).
    set (r := d mod 1000000000) in *. pose proof (Z.div_mod r 1000 ltac:(lia)). pose proof (Z.mod_pos_bound r 1000 ltac:(lia)).
    pose proof (Z.div_pos d 1000000000 ltac:(lia) ltac:(lia)). pose proof (Z.div_pos r 1000 ltac:(lia) ltac:(lia)).
    lia.
Qed.

Example time_deadline_witness :
  exists t, amqp_time_from_now (Some (5, 0)) (Some (mk_timeval 2 500000)) (mk_time 0) = (Ret tt, t) /\
    amqp_time_has_past (Some (6, 0)) t = AMQP_STATUS_OK /\ amqp_time_ms_until (Some (6, 0)) t = 1500.
Proof.
  assert (Hc : clock_ok (Some (5, 0)) 5000000000 /\ clock_ok (Some (6, 0)) 6000000000).
  { split; do 2 eexists; (split; [reflexivity|]); unfold AMQP_NS_PER_S; lia. }
  destruct (time_deadline (Some (5, 0)) (Some (6, 0)) 5000000000 6000000000 (mk_timeval 2 500000) (mk_time 0)
              (proj1 Hc) (proj2 Hc)) as (t & E & H1 & _);
    [lia|simpl; lia|simpl; lia|vm_compute; reflexivity|vm_compute; reflexivity|].
  exists t. split; [exact E|]. split; [exact H1|]. vm_compute in E. injection E as <-. by vm_compute.
Defined.

(** Long timeouts are not: 18446744074 seconds wrap to less than a third of a
    second without an error, and 25 days until a deadline are a negative number of
    milliseconds, which callers take for an error status. *)
Theorem time_overflows :
  amqp_time_from_now (Some (1, 0)) (Some (mk_timeval 18446744074 0)) (mk_time 0) = (Ret tt, mk_time 1290448384) /\
  amqp_time_ms_until (Some (1, 0)) (mk_time (2160001 * AMQP_NS_PER_S)) = -2134967296.
Proof. by vm_compute. Qed.
