(* ===== verification/Url.v ===== *)
(** * Connection URLs: [librabbitmq/amqp_url.c]

    The parser works in place: it decodes the URL inside its own buffer, ends each
    component with a NUL, and hands out pointers into the buffer.  The model keeps that
    buffer; a pointer is an offset, or a string literal of the library. *)

From S2P Require Import Prelude Status Memory Codec Table TableOps.

(** ** The pieces of the C library it uses *)

Definition byte_Z (b : byte) : Z := Z.of_N (Byte.to_N b).
Definition Z_byte (v : Z) : byte := match Byte.of_N (Z.to_N v) with Some b => b | None => x00 end.

Definition isspace (b : byte) : bool := (byte_Z b =? 32) || ((9 <=? byte_Z b) && (byte_Z b <=? 13)).
Definition isdigit (b : byte) : bool := (48 <=? byte_Z b) && (byte_Z b <=? 57).

Definition hex_digit (b : byte) : option Z :=
  let v := byte_Z b in
  if (48 <=? v) && (v <=? 57) then Some (v - 48)
  else if (65 <=? v) && (v <=? 70) then Some (v - 55)
  else if (97 <=? v) && (v <=? 102) then Some (v - 87)
  else None.

Fixpoint skip_space (s : list byte) : Z * list byte :=
  match s with
  | b :: s' => if isspace b then let '(n, r) := skip_space s' in (n + 1, r) else (0, s)
  | [] => (0, [])
  end.

(** [sscanf(s, "%2x%n", &val, &chars)] on the string [s]: [val] and [chars] when the
    conversion succeeds.  White space is skipped and counted by [%n]; a sign, and the
    [0x] prefix, use up the field width. *)
Definition sscanf_2x (s : list byte) : option (Z * Z) :=
  let '(n, s) := skip_space s in
  match s with
  | [] => None
  | c1 :: s' =>
      if bool_decide (c1 = x2b) || bool_decide (c1 = x2d) then
        match s' with
        | c2 :: _ =>
            match hex_digit c2 with
            | Some d => Some (if bool_decide (c1 = x2d) then wrap 32 (- d) else d, n + 2)
            | None => None
            end
        | [] => None
        end
      else
        match hex_digit c1 with
        | None => None
        | Some d1 =>
            match s' with
            | c2 :: _ =>
                if bool_decide (c1 = x30) && (bool_decide (c2 = x78) || bool_decide (c2 = x58)) then None
                else match hex_digit c2 with
                     | Some d2 => Some (16 * d1 + d2, n + 2)
                     | None => Some (d1, n + 1)
                     end
            | [] => Some (d1, n + 1)
            end
        end
  end.

(** The value of the leading digits, and how many there are. *)
Fixpoint digits (acc : Z) (s : list byte) : Z * Z :=
  match s with
  | b :: s' => if isdigit b then let '(v, n) := digits (10 * acc + (byte_Z b - 48)) s' in (v, n + 1) else (acc, 0)
  | [] => (acc, 0)
  end.

Definition LONG_MAX : Z := 2 ^ 63 - 1.

(** [strtol(s, &end, 10)]: the value, and [end - s]. *)
Definition strtol (s : list byte) : Z * Z :=
  let '(n, s) := skip_space s in
  let '(neg, k, s) := match s with
                      | b :: s' => if bool_decide (b = x2d) then (true, 1, s')
                                   else if bool_decide (b = x2b) then (false, 1, s') else (false, 0, s)
                      | [] => (false, 0, s)
                      end in
  let '(v, len) := digits 0 s in
  if len =? 0 then (0, 0)
  else (if neg : bool then Z.max (- v) (- LONG_MAX - 1) else Z.min v LONG_MAX, n + k + len).

(** ** State *)

Inductive cptr : Type :=
| P_lit (s : list byte)
| P_at (offset : Z).

Record amqp_connection_info := mk_info {
  user : cptr;
  password : cptr;
  host : cptr;
  vhost : cptr;
  port : Z;
  ssl : Z;
}.

Record url_state := mk_url { u_buf : list byte; u_info : amqp_connection_info }.

Definition lit_guest : list byte := [x67; x75; x65; x73; x74].
Definition lit_localhost : list byte := [x6c; x6f; x63; x61; x6c; x68; x6f; x73; x74].
Definition lit_slash : list byte := [x2f].

Definition amqp_default_connection_info : amqp_connection_info :=
  mk_info (P_lit lit_guest) (P_lit lit_guest) (P_lit lit_localhost) (P_lit lit_slash) 5672 0.

Definition set_info (f : amqp_connection_info -> amqp_connection_info) : eff url_state unit :=
  fun s => (Ret tt, mk_url (u_buf s) (f (u_info s))).
Definition with_user (p : Z) (i : amqp_connection_info) : amqp_connection_info :=
  mk_info (P_at p) (password i) (host i) (vhost i) (port i) (ssl i).
Definition with_password (p : Z) (i : amqp_connection_info) : amqp_connection_info :=
  mk_info (user i) (P_at p) (host i) (vhost i) (port i) (ssl i).
Definition with_host (p : Z) (i : amqp_connection_info) : amqp_connection_info :=
  mk_info (user i) (password i) (P_at p) (vhost i) (port i) (ssl i).
Definition with_vhost (p : Z) (i : amqp_connection_info) : amqp_connection_info :=
  mk_info (user i) (password i) (host i) (P_at p) (port i) (ssl i).
Definition with_port (n : Z) (i : amqp_connection_info) : amqp_connection_info :=
  mk_info (user i) (password i) (host i) (vhost i) n (ssl i).
Definition with_tls (i : amqp_connection_info) : amqp_connection_info :=
  mk_info (user i) (password i) (host i) (vhost i) 5671 1.

Section Url.
(** 127 where [char] is signed, 255 where it is not. *)
Context (CHAR_MAX : Z).

(** [*p], and [*p = b] *)
Definition read_char (p : Z) : eff url_state byte := fun s =>
  match load (u_buf s) p 1 with Some [b] => (Ret b, s) | _ => (Undef, s) end.
Definition write_char (p : Z) (b : byte) : eff url_state unit := fun s =>
  match store (u_buf s) p [b] with
  | Some buf => (Ret tt, mk_url buf (u_info s))
  | None => (Undef, s)
  end.
(** The C string at [p]. *)
Definition read_string (p : Z) : eff url_state (list byte) := fun s =>
  if (0 <=? p) && (p <=? zlen (u_buf s)) then
    match amqp_cstring_bytes (zdrop p (u_buf s)) with Some str => (Ret str, s) | None => (Undef, s) end
  else (Undef, s).

(** The loop of [find_delim].  The delimiter, and where [*pp] points afterwards. *)
Fixpoint find_delim_loop (fuel : nat) (pp from to : Z) (colon_and_at_sign_are_delims : bool)
    : eff url_state (byte * Z) :=
  match fuel with
  | O => nofuel
  | S fuel' =>
      let! ch := read_char from in
      let from := from + 1 in
      let default :=
        do! write_char to ch in
        find_delim_loop fuel' pp from (to + 1) colon_and_at_sign_are_delims in
      let found :=
        do! write_char to x00 in
        ret (ch, from) in
      if bool_decide (ch = x3a \/ ch = x40) then
        if colon_and_at_sign_are_delims then found else default
      else if bool_decide (ch = x00 \/ ch = x2f \/ ch = x3f \/ ch = x23 \/ ch = x5b \/ ch = x5d) then found
      else if bool_decide (ch = x25) then
        let! str := read_string from in
        match sscanf_2x str with
        | Some (val, chars) =>
            if negb (chars =? 2) || (CHAR_MAX <? val) then ret (x25, pp)
            else
              do! write_char to (Z_byte val) in
              find_delim_loop fuel' pp (from + 2) (to + 1) colon_and_at_sign_are_delims
        | None => ret (x25, pp)
        end
      else default
  end.

(** Each turn moves [from] on, inside the buffer. *)
Definition find_delim (pp : Z) (colon_and_at_sign_are_delims : bool) : eff url_state (byte * Z) :=
  fun s => find_delim_loop (S (length (u_buf s))) pp pp pp colon_and_at_sign_are_delims s.

Definition bad_url {A} : eff url_state A := fail AMQP_STATUS_BAD_URL.

(** [strncmp(url, prefix, n) == 0] *)
Fixpoint starts_with (prefix : list byte) (p : Z) : eff url_state bool :=
  match prefix with
  | [] => ret true
  | b :: prefix' =>
      let! c := read_char p in
      if bool_decide (b = c) then starts_with prefix' (p + 1) else ret false
  end.

Definition lit_amqp : list byte := [x61; x6d; x71; x70; x3a; x2f; x2f].
Definition lit_amqps : list byte := [x61; x6d; x71; x70; x73; x3a; x2f; x2f].

(** The scheme, and where what follows starts. *)
Definition parse_scheme : eff url_state Z :=
  let! plain := starts_with lit_amqp 0 in
  if plain : bool then ret 7
  else
    let! tls := starts_with lit_amqps 0 in
    if tls : bool then do! set_info with_tls in ret 8 else bad_url.

(** [if (delim == '[')], with its [else]: the host. *)
Definition parse_host (delim : byte) (url host start : Z) : eff url_state (byte * Z) :=
  if bool_decide (delim = x5b) then
    let! misplaced := (if host =? start then let! h := read_char host in ret (negb (bool_decide (h = x00)))
                       else ret true) in
    if misplaced : bool then bad_url
    else
      let start := url in
      let! '(delim, url) := find_delim url false in
      if negb (bool_decide (delim = x5d)) then bad_url
      else
        do! set_info (with_host start) in
        let start := url in
        let! '(delim, url) := find_delim url true in
        let! c := read_char start in
        if negb (bool_decide (c = x00)) then bad_url else ret (delim, url)
  else
    let! h := read_char host in
    do! (if bool_decide (h = x00) then ret tt else set_info (with_host host)) in
    ret (delim, url).

Definition parse_port (port : option Z) : eff url_state unit :=
  match port with
  | None => ret tt
  | Some p =>
      let! str := read_string p in
      let '(portnum, len) := strtol str in
      if (len =? 0) || negb (len =? zlen str) || (portnum <? 0) || (65535 <? portnum) then bad_url
      else set_info (with_port portnum)
  end.

Definition parse_vhost (delim : byte) (url : Z) : eff url_state unit :=
  if bool_decide (delim = x2f) then
    let start := url in
    let! '(delim, url) := find_delim url true in
    if negb (bool_decide (delim = x00)) then bad_url else set_info (with_vhost start)
  else if bool_decide (delim = x00) then ret tt
  else bad_url.

(** From the host on. *)
Definition parse_rest (host : Z) (port : option Z) (start : Z) (delim : byte) (url : Z) : eff url_state unit :=
  let! '(delim, url) := parse_host delim url host start in
  let! '(port, delim, url) :=
    (if bool_decide (delim = x3a) then
       let! '(delim, url') := find_delim url true in ret (Some url, delim, url')
     else ret (port, delim, url)) in
  do! parse_port port in
  parse_vhost delim url.

(** The state's buffer is the caller's; what [parsed] held does not matter. *)
Definition amqp_parse_url : eff url_state unit :=
  do! set_info (fun _ => amqp_default_connection_info) in
  let! url := parse_scheme in
  let host := url in
  let start := url in
  let! '(delim, url) := find_delim url true in
  let! '(port, start, delim, url) :=
    (if bool_decide (delim = x3a) then
       let! '(delim, url') := find_delim url true in ret (Some url, url, delim, url')
     else ret (None, start, delim, url)) in
  let! '(host, port, start, delim, url) :=
    (if bool_decide (delim = x40) then
       do! set_info (with_user host) in
       do! match port with Some p => set_info (with_password p) | None => ret tt end in
       let! '(delim, url') := find_delim url true in ret (url, None, url, delim, url')
     else ret (host, port, start, delim, url)) in
  parse_rest host port start delim url.

End Url.

(** What a pointer of the result points to. *)
Definition string_of (buf : list byte) (p : cptr) : option (list byte) :=
  match p with
  | P_lit s => Some s
  | P_at o => amqp_cstring_bytes (zdrop o buf)
  end.
