(* ===== verification/Connection.v ===== *)
(** * Frames in and out of a connection: [librabbitmq/amqp_connection.c]

    The inbound side is the state machine of [amqp_handle_input], which is handed
    whatever bytes the socket produced and reassembles frames from them; the
    outbound side is [amqp_frame_to_bytes].  A read or a write outside the bytes of
    the frame at hand is [Undef]. *)

From S2P Require Import Prelude Status Memory Layout Pool PoolMem Codec Table MethodCodec.
From S2P Require Import MethodTypes MethodDecode MethodEncode Properties.

(** ** Data *)

Inductive amqp_connection_state_enum : Type :=
| CONNECTION_STATE_IDLE
| CONNECTION_STATE_INITIAL
| CONNECTION_STATE_HEADER
| CONNECTION_STATE_BODY.

#[global] Instance connection_state_eq_dec : EqDecision amqp_connection_state_enum.
Proof. solve_decision. Defined.

Definition AMQP_PSEUDOFRAME_PROTOCOL_HEADER : Z := 65.   (* 'A' *)

(** The union of [amqp_frame_t]; [PL_none] when no member is in use. *)
Inductive frame_payload : Type :=
| PL_none
| PL_method (id : Z) (decoded : method_t)
| PL_properties (class_id body_size : Z) (decoded : properties_t) (raw : list byte)
| PL_body (body_fragment : list byte)
| PL_protocol_header (transport_high transport_low protocol_version_major protocol_version_minor : Z).

Record amqp_frame_t := mk_frame {
  frame_type : Z;
  channel : Z;
  payload : frame_payload;
}.

(** Where [inbound_buffer.bytes] points: the [header_buffer] inside the connection,
    a region of a channel pool with these contents, or nowhere. *)
Inductive inbound : Type :=
| IB_header
| IB_region (a : addr) (contents : list byte)
| IB_null.

(** The part of [amqp_connection_state_t] that frames go through. *)
Record conn := mk_conn {
  c_state : amqp_connection_state_enum;
  c_frame_max : Z;
  c_header_buffer : list byte;
  c_inbound_buffer : inbound;
  c_inbound_offset : Z;
  c_target_size : Z;
  c_pool_table : pool_table_t;
  c_mem : memory;
}.

Definition set_state (c : conn) (s : amqp_connection_state_enum) : conn :=
  mk_conn s (c_frame_max c) (c_header_buffer c) (c_inbound_buffer c) (c_inbound_offset c)
    (c_target_size c) (c_pool_table c) (c_mem c).
Definition set_target (c : conn) (n : Z) : conn :=
  mk_conn (c_state c) (c_frame_max c) (c_header_buffer c) (c_inbound_buffer c) (c_inbound_offset c)
    n (c_pool_table c) (c_mem c).
Definition set_inbound (c : conn) (b : inbound) : conn :=
  mk_conn (c_state c) (c_frame_max c) (c_header_buffer c) b (c_inbound_offset c)
    (c_target_size c) (c_pool_table c) (c_mem c).
Definition set_pools (c : conn) (t : pool_table_t) (m : memory) : conn :=
  mk_conn (c_state c) (c_frame_max c) (c_header_buffer c) (c_inbound_buffer c) (c_inbound_offset c)
    (c_target_size c) t m.

Definition return_to_idle (c : conn) : conn :=
  mk_conn CONNECTION_STATE_IDLE (c_frame_max c) (c_header_buffer c) IB_header 0 HEADER_SIZE
    (c_pool_table c) (c_mem c).

(** What the inbound buffer holds. *)
Definition inbound_bytes (c : conn) : option (list byte) :=
  match c_inbound_buffer c with
  | IB_header => Some (c_header_buffer c)
  | IB_region _ bs => Some bs
  | IB_null => None
  end.

Definition with_inbound_bytes (c : conn) (bs : list byte) (offset : Z) : conn :=
  match c_inbound_buffer c with
  | IB_header => mk_conn (c_state c) (c_frame_max c) bs IB_header offset (c_target_size c)
                   (c_pool_table c) (c_mem c)
  | IB_region a _ => mk_conn (c_state c) (c_frame_max c) (c_header_buffer c) (IB_region a bs) offset
                       (c_target_size c) (c_pool_table c) (c_mem c)
  | IB_null => c
  end.

(** ** Input *)

(** The connection, [*decoded_frame] and [received_data]. *)
Record input_state := mk_input { i_conn : conn; i_frame : amqp_frame_t; i_data : list byte }.

Section Input.
Context `{Host}.
(** What the memory a pool hands out holds: a region keeps what was there. *)
Context (garbage : addr -> Z -> list byte).
Context (uninit : amqp_basic_properties_t).

Definition get_conn : eff input_state conn := fun s => (Ret (i_conn s), s).
Definition put_conn (c : conn) : eff input_state unit :=
  fun s => (Ret tt, mk_input c (i_frame s) (i_data s)).
Definition put_frame (f : amqp_frame_t) : eff input_state unit :=
  fun s => (Ret tt, mk_input (i_conn s) f (i_data s)).
Definition get_frame : eff input_state amqp_frame_t := fun s => (Ret (i_frame s), s).

(** [memcpy]s [min(target_size - inbound_offset, received_data.len)] bytes. *)
Definition consume_data : eff input_state Z := fun s =>
  let c := i_conn s in
  let room := size_sub (c_target_size c) (c_inbound_offset c) in
  let bytes_consumed := if zlen (i_data s) <? room then zlen (i_data s) else room in
  match inbound_bytes c with
  | None => (Undef, s)
  | Some buf =>
      match store buf (c_inbound_offset c) (ztake bytes_consumed (i_data s)) with
      | None => (Undef, s)
      | Some buf' =>
          (Ret bytes_consumed,
           mk_input (with_inbound_bytes c buf' (size_add (c_inbound_offset c) bytes_consumed))
             (i_frame s) (zdrop bytes_consumed (i_data s)))
      end
  end.

(** [amqp_dN(amqp_offset(raw_frame, o))] *)
Definition raw_read (n : Z) (d : list byte -> Z) (raw : list byte) (o : Z) : eff input_state Z :=
  match load raw o n with Some bs => ret (d bs) | None => undef end.
Definition raw_d8 := raw_read 1 amqp_d8.
Definition raw_d16 := raw_read 2 amqp_d16.
Definition raw_d32 := raw_read 4 amqp_d32.
Definition raw_d64 := raw_read 8 amqp_d64.

Definition raw_frame : eff input_state (list byte) :=
  let! c := get_conn in
  match inbound_bytes c with Some bs => ret bs | None => undef end.

(** [channel_pool = amqp_get_or_create_channel_pool(state, channel);
    if (NULL == channel_pool) return AMQP_STATUS_NO_MEMORY;] *)
Definition channel_pool (channel : Z) : eff input_state Z := fun s =>
  let c := i_conn s in
  let '(r, (t, m)) := amqp_get_or_create_channel_pool (c_frame_max c) channel (c_pool_table c, c_mem c) in
  let s' := mk_input (set_pools c t m) (i_frame s) (i_data s) in
  match r with
  | Ret (Some p) => (Ret p, s')
  | Ret None => (Err AMQP_STATUS_NO_MEMORY, s')
  | Err st => (Err st, s')
  | Undef => (Undef, s')
  | NoFuel => (NoFuel, s')
  end.

(** A decoder run over the connection's memory from offset 0. *)
Definition run_decoder {A} (d : eff (dec_state memory) A) : eff input_state A := fun s =>
  let c := i_conn s in
  let '(r, ds) := d (mk_dec 0 (c_mem c)) in
  (r, mk_input (set_pools c (c_pool_table c) (d_mem ds)) (i_frame s) (i_data s)).

(** [case CONNECTION_STATE_INITIAL]: a protocol header; [false] falls through. *)
Definition handle_initial (raw : list byte) : eff input_state bool :=
  match load raw 0 4 with
  | None => undef
  | Some magic =>
      if bool_decide (magic = [x41; x4d; x51; x50]) then
        let! transport_high := raw_d8 raw 4 in
        let! transport_low := raw_d8 raw 5 in
        let! protocol_version_major := raw_d8 raw 6 in
        let! protocol_version_minor := raw_d8 raw 7 in
        do! put_frame (mk_frame AMQP_PSEUDOFRAME_PROTOCOL_HEADER 0
                         (PL_protocol_header transport_high transport_low
                            protocol_version_major protocol_version_minor)) in
        let! c := get_conn in
        do! put_conn (return_to_idle c) in
        ret true
      else ret false
  end.

(** [case CONNECTION_STATE_HEADER] up to the second [consume_data]. *)
Definition handle_header (raw : list byte) : eff input_state unit :=
  let! channel := raw_d16 raw 1 in
  let! frame_size := raw_d32 raw 3 in
  if INT32_MAX <=? frame_size then fail AMQP_STATUS_BAD_AMQP_DATA
  else
    let! c := get_conn in
    let target_size := wrap 32 (frame_size + HEADER_SIZE + FOOTER_SIZE) in
    do! put_conn (set_target c target_size) in
    if wrap 64 (c_frame_max c) <? target_size then fail AMQP_STATUS_BAD_AMQP_DATA
    else
      let! p := channel_pool channel in
      let! c := get_conn in
      let '(bytes, m) := pool_alloc p target_size (c_mem c) in
      let c := set_pools c (c_pool_table c) m in
      match bytes with
      | None =>
          do! put_conn (set_inbound c IB_null) in
          fail AMQP_STATUS_NO_MEMORY
      | Some a =>
          match load (c_header_buffer c) 0 HEADER_SIZE with
          | None => undef
          | Some header =>
              match store (garbage a target_size) 0 header with
              | None => undef
              | Some buf =>
                  put_conn (set_state (set_inbound c (IB_region a buf)) CONNECTION_STATE_BODY)
              end
          end
      end.

(** The decoders of a method or header frame get [encoded.bytes] and
    [encoded.len = target_size - o - FOOTER_SIZE], which may have wrapped.  A method
    id without a case never looks at them. *)
Definition payload_from (raw : list byte) (target_size o : Z) : option (list byte) :=
  load raw o (size_sub (size_sub target_size o) FOOTER_SIZE).

Definition decode_method_frame (p : Z) (raw : list byte) (target_size : Z) : eff input_state frame_payload :=
  let! id := raw_d32 raw HEADER_SIZE in
  match payload_from raw target_size (HEADER_SIZE + 4) with
  | Some encoded =>
      let! decoded := run_decoder (amqp_decode_method encoded p id) in
      ret (PL_method id decoded)
  | None => fun s =>
      match run_decoder (amqp_decode_method [] p id) s with
      | (Err st, s') => if st =? AMQP_STATUS_UNKNOWN_METHOD then (Err st, s') else (Undef, s')
      | (_, s') => (Undef, s')
      end
  end.

Definition decode_header_frame (p : Z) (raw : list byte) (target_size : Z) : eff input_state frame_payload :=
  let! class_id := raw_d16 raw HEADER_SIZE in
  let! body_size := raw_d64 raw (HEADER_SIZE + 4) in
  match payload_from raw target_size (HEADER_SIZE + 12) with
  | Some encoded =>
      let! decoded := run_decoder (amqp_decode_properties encoded p uninit class_id) in
      ret (PL_properties class_id body_size decoded encoded)
  | None => undef
  end.

(** [case CONNECTION_STATE_BODY] *)
Definition handle_body : eff input_state unit :=
  let! raw := raw_frame in
  let! c := get_conn in
  let target_size := c_target_size c in
  let! footer := raw_d8 raw (size_sub target_size 1) in
  if negb (footer =? AMQP_FRAME_END) then fail AMQP_STATUS_BAD_AMQP_DATA
  else
    let! type := raw_d8 raw 0 in
    let! ch := raw_d16 raw 1 in
    do! put_frame (mk_frame type ch PL_none) in
    let! p := channel_pool ch in
    do! switch type
          [(AMQP_FRAME_METHOD,
             let! pl := decode_method_frame p raw target_size in put_frame (mk_frame type ch pl));
           (AMQP_FRAME_HEADER,
             let! pl := decode_header_frame p raw target_size in put_frame (mk_frame type ch pl));
           (AMQP_FRAME_BODY,
             match load raw HEADER_SIZE (size_sub (size_sub target_size HEADER_SIZE) FOOTER_SIZE) with
             | Some bs => put_frame (mk_frame type ch (PL_body bs))
             | None => undef
             end);
           (AMQP_FRAME_HEARTBEAT, ret tt)]
          (put_frame (mk_frame 0 ch PL_none)) in
    let! c := get_conn in
    put_conn (return_to_idle c).

(** [if (state->inbound_offset < state->target_size) return (int)bytes_consumed;]
    and otherwise what follows. *)
Definition when_complete (bytes_consumed : Z) (rest : eff input_state Z) : eff input_state Z :=
  let! c := get_conn in
  if c_inbound_offset c <? c_target_size c then ret (swrap 32 bytes_consumed) else rest.

Definition body_case (bytes_consumed : Z) : eff input_state Z :=
  do! handle_body in ret (swrap 32 bytes_consumed).

Definition header_case (raw : list byte) (bytes_consumed : Z) : eff input_state Z :=
  do! handle_header raw in
  let! more := consume_data in
  when_complete (size_add bytes_consumed more) (body_case (size_add bytes_consumed more)).

(** [switch (state->state)] *)
Definition handle_frame (bytes_consumed : Z) : eff input_state Z :=
  let! raw := raw_frame in
  let! c := get_conn in
  match c_state c with
  | CONNECTION_STATE_INITIAL =>
      let! header := handle_initial raw in
      if header : bool then ret (swrap 32 bytes_consumed) else header_case raw bytes_consumed
  | CONNECTION_STATE_HEADER => header_case raw bytes_consumed
  | CONNECTION_STATE_BODY => body_case bytes_consumed
  | CONNECTION_STATE_IDLE => undef   (* amqp_abort *)
  end.

Definition amqp_handle_input : eff input_state Z := fun s =>
  (let! f := get_frame in
   do! put_frame (mk_frame 0 (channel f) PL_none) in
   if zlen (i_data s) =? 0 then ret AMQP_STATUS_OK
   else
     let! c := get_conn in
     do! put_conn (if bool_decide (c_state c = CONNECTION_STATE_IDLE)
                   then set_state c CONNECTION_STATE_HEADER else c) in
     let! bytes_consumed := consume_data in
     when_complete bytes_consumed (handle_frame bytes_consumed)) s.

End Input.

(** ** Output *)

Section Output.
Context `{Host}.

(** [amqp_eN(v, amqp_offset(out_frame, o))] *)
Definition out_write (o : Z) (bs : list byte) : eff (list byte) unit := fun buf =>
  match store buf o bs with Some buf' => (Ret tt, buf') | None => (Undef, buf) end.

(** An encoder run on the [len] bytes at [o] of the buffer. *)
Definition run_encoder (o len : Z) (e : eff enc_state Z) : eff (list byte) Z := fun buf =>
  match load buf o len with
  | None => (Undef, buf)
  | Some sub =>
      let '(r, es) := e (mk_enc sub 0) in
      match store buf o (e_buf es) with
      | Some buf' => (r, buf')
      | None => (Undef, buf)
      end
  end.

(** Writes the frame at the start of the buffer and returns [encoded->len].  A
    frame whose union member is not the one of its type is undefined. *)
Definition amqp_frame_to_bytes (frame : amqp_frame_t) : eff (list byte) Z := fun buffer =>
  let len := zlen buffer in
  (do! out_write 0 (amqp_e8 (frame_type frame)) in
   do! out_write 1 (amqp_e16 (channel frame)) in
   let! out_frame_len :=
     switch (frame_type frame)
       [(AMQP_FRAME_BODY,
          match payload frame with
          | PL_body body => do! out_write HEADER_SIZE body in ret (zlen body)
          | _ => undef
          end);
        (AMQP_FRAME_METHOD,
          match payload frame with
          | PL_method id decoded =>
              do! out_write HEADER_SIZE (amqp_e32 id) in
              let! res := run_encoder (HEADER_SIZE + 4)
                            (size_sub (size_sub (size_sub len HEADER_SIZE) 4) FOOTER_SIZE)
                            (amqp_encode_method id decoded) in
              if res <? 0 then fail res else ret (res + 4)
          | _ => undef
          end);
        (AMQP_FRAME_HEADER,
          match payload frame with
          | PL_properties class_id body_size decoded _ =>
              do! out_write HEADER_SIZE (amqp_e16 class_id) in
              do! out_write (HEADER_SIZE + 2) (amqp_e16 0) in
              do! out_write (HEADER_SIZE + 4) (amqp_e64 body_size) in
              let! res := run_encoder (HEADER_SIZE + 12)
                            (size_sub (size_sub (size_sub len HEADER_SIZE) 12) FOOTER_SIZE)
                            (amqp_encode_properties class_id decoded) in
              if res <? 0 then fail res else ret (res + 12)
          | _ => undef
          end);
        (AMQP_FRAME_HEARTBEAT, ret 0)]
       (fail AMQP_STATUS_INVALID_PARAMETER) in
   do! out_write 3 (amqp_e32 (wrap 32 out_frame_len)) in
   do! out_write (HEADER_SIZE + out_frame_len) (amqp_e8 AMQP_FRAME_END) in
   ret (out_frame_len + HEADER_SIZE + FOOTER_SIZE)) buffer.

End Output.
