(* ===== verification/ConnectionSpec.v ===== *)
(** * Frames in and out of a connection: the theorems about [Connection.v] *)

From S2P Require Import Prelude Status Memory Layout Pool PoolMem Codec Table TableSpec MethodCodec.
From S2P Require Import MethodTypes MethodDecode MethodEncode MethodSpec Properties PropertiesSpec.
From S2P Require Import Connection.

(** ** The invariant of the input state machine *)

(** Between calls: the buffer [inbound_buffer] points to has room for what is still
    expected, and something is.  Between frames it points to [header_buffer], as
    [return_to_idle] leaves it; the comment in [amqp_private.h] that it is [NULL] then is
    not what the code does. *)
Definition conn_ok (c : conn) : Prop :=
  zlen (c_header_buffer c) = HEADER_SIZE + 1 /\ 0 <= c_frame_max c <= 2 ^ 30 /\
  match c_state c with
  | CONNECTION_STATE_IDLE =>
      c_inbound_buffer c = IB_header /\ c_inbound_offset c = 0 /\ c_target_size c = HEADER_SIZE
  | CONNECTION_STATE_INITIAL =>
      c_inbound_buffer c = IB_header /\ 0 <= c_inbound_offset c < 8 /\ c_target_size c = 8
  | CONNECTION_STATE_HEADER =>
      c_inbound_buffer c = IB_header /\ 0 < c_inbound_offset c < HEADER_SIZE /\
      c_target_size c = HEADER_SIZE
  | CONNECTION_STATE_BODY =>
      HEADER_SIZE <= c_inbound_offset c < c_target_size c /\ c_target_size c <= c_frame_max c /\
      exists a bs, c_inbound_buffer c = IB_region a bs /\ zlen bs = c_target_size c
  end.

(** The connection with [n] more bytes [bs] in its inbound buffer. *)
Definition filled (c : conn) (bs : list byte) : conn :=
  match inbound_bytes c with
  | Some buf => with_inbound_bytes c (splice buf (c_inbound_offset c) bs) (c_inbound_offset c + zlen bs)
  | None => c
  end.

(** The buffer reaches up to [target_size]. *)
Definition roomy (c : conn) : Prop :=
  exists buf, inbound_bytes c = Some buf /\ 0 <= c_inbound_offset c <= c_target_size c /\
    c_target_size c <= zlen buf /\ zlen buf < 2 ^ 63.

Section Input.
Context `{Host}.
Context (garbage : addr -> Z -> list byte) (uninit : amqp_basic_properties_t).
Hypothesis Hgarbage : forall a n, 0 <= n -> zlen (garbage a n) = n.

Lemma consume_spec c f data :
  roomy c ->
  let n := Z.min (zlen data) (c_target_size c - c_inbound_offset c) in
  consume_data (mk_input c f data) = (Ret n, mk_input (filled c (ztake n data)) f (zdrop n data)).
Proof.
  intros (buf & Hbuf & Ho & Ht & Hl) n. pose proof (zlen_nonneg data). unfold consume_data. cbn [i_conn i_data i_frame].
  unfold size_sub. rewrite wrap_small by (unfold in_u; lia).
  assert ((if zlen data <? c_target_size c - c_inbound_offset c then zlen data
           else c_target_size c - c_inbound_offset c) = n) as ->.
  { unfold n. destruct (Z.ltb_spec (zlen data) (c_target_size c - c_inbound_offset c)); lia. }
  assert (zlen (ztake n data) = n) as Hn by (apply zlen_ztake; unfold n; lia).
  assert (0 <= n <= c_target_size c - c_inbound_offset c) as Hn' by (unfold n; lia). clearbody n.
  rewrite Hbuf, store_fits by lia. unfold filled. rewrite Hbuf, Hn, size_add_small by lia. done.
Qed.

Lemma filled_fields c bs :
  c_state (filled c bs) = c_state c /\ c_target_size (filled c bs) = c_target_size c /\
  c_frame_max (filled c bs) = c_frame_max c /\ c_pool_table (filled c bs) = c_pool_table c /\
  c_mem (filled c bs) = c_mem c.
Proof. unfold filled, inbound_bytes, with_inbound_bytes. by destruct (c_inbound_buffer c). Qed.

Lemma filled_bytes c buf bs :
  inbound_bytes c = Some buf ->
  inbound_bytes (filled c bs) = Some (splice buf (c_inbound_offset c) bs) /\
  c_inbound_offset (filled c bs) = c_inbound_offset c + zlen bs.
Proof. unfold filled, inbound_bytes, with_inbound_bytes. by destruct (c_inbound_buffer c); intros [= ->]. Qed.

(** Filling twice is filling once with both parts. *)
Lemma filled_app c bs cs :
  roomy c -> c_inbound_offset c + zlen bs <= c_target_size c -> filled (filled c bs) cs = filled c (bs ++ cs).
Proof.
  intros (buf & Hbuf & Ho & Ht & Hl) Hfit. destruct (filled_bytes c buf bs Hbuf) as [E1 E2].
  unfold filled at 1. rewrite E1, E2, splice_app by lia.
  unfold filled, with_inbound_bytes. rewrite Hbuf, zlen_app, Z.add_assoc.
  unfold inbound_bytes in Hbuf. by destruct (c_inbound_buffer c).
Qed.

Lemma filled_roomy c bs :
  roomy c -> c_inbound_offset c + zlen bs <= c_target_size c -> roomy (filled c bs).
Proof.
  intros (buf & Hbuf & Ho & Ht & Hl) Hfit. zlen_pos. destruct (filled_bytes c buf bs Hbuf) as [E1 E2].
  destruct (filled_fields c bs) as (_ & E3 & _). eexists. rewrite E1, E2, E3.
  split; [done|]. rewrite zlen_splice by lia. lia.
Qed.

Lemma conn_ok_roomy c : conn_ok c -> roomy c.
Proof.
  intros (Hh & Hf & Hs). unfold roomy, inbound_bytes, HEADER_SIZE in *.
  destruct (c_state c).
  1-3: destruct Hs as (-> & ? & ->); eexists; split; [done|]; lia.
  destruct Hs as (? & ? & a & bs & -> & Hl). eexists. split; [done|]. lia.
Qed.

(** ** Where the input stops mattering

    [Blind m]: [m] neither looks at the received data nor changes it. *)

Create HintDb blind.

Definition with_data (d : list byte) (s : input_state) : input_state := mk_input (i_conn s) (i_frame s) d.

Definition Blind {A} (m : eff input_state A) : Prop :=
  forall d s, m (with_data d s) = ((m s).1, with_data d (m s).2).

Lemma blind_bind {A B} (m : eff input_state A) (k : A -> eff input_state B) :
  Blind m -> (forall a, Blind (k a)) -> Blind (bind m k).
Proof.
  intros Hm Hk d s. unfold bind. rewrite Hm.
  destruct (m s) as [[a| | |] s']; simpl; [|done..]. apply Hk.
Qed.

Lemma blind_ret {A} (a : A) : Blind (ret a).
Proof. done. Qed.
Lemma blind_fail {A} st : Blind (@fail _ A st).
Proof. done. Qed.
Lemma blind_undef {A} : Blind (@undef _ A).
Proof. done. Qed.
Lemma blind_get_conn : Blind get_conn.
Proof. done. Qed.
Lemma blind_put_conn c : Blind (put_conn c).
Proof. done. Qed.
Lemma blind_put_frame f : Blind (put_frame f).
Proof. done. Qed.
Lemma blind_raw_read n d raw o : Blind (raw_read n d raw o).
Proof. unfold raw_read. by destruct (load raw o n). Qed.
Lemma blind_raw_frame : Blind raw_frame.
Proof. apply blind_bind; [apply blind_get_conn|]. intros c. by destruct (inbound_bytes c). Qed.
Lemma blind_run_decoder {A} (d : eff (dec_state memory) A) : Blind (run_decoder d).
Proof. intros e s. unfold run_decoder. simpl. by destruct (d _). Qed.

Lemma blind_channel_pool ch : Blind (channel_pool ch).
Proof.
  intros e s. unfold channel_pool. cbn [i_conn i_frame i_data with_data].
  by destruct (amqp_get_or_create_channel_pool (c_frame_max (i_conn s)) ch _) as [[[|]| | |] [t m]].
Qed.

#[local] Hint Resolve blind_ret blind_fail blind_undef blind_get_conn blind_put_conn blind_put_frame
  blind_raw_read blind_raw_frame blind_run_decoder blind_channel_pool : blind.

Ltac blind :=
  repeat first
    [ solve [auto with blind]
    | apply blind_bind; [|intros ?]
    | match goal with
      | |- Blind (if ?b then _ else _) => destruct b
      | |- Blind (match ?x with _ => _ end) => destruct x
      | |- Blind (let '(_, _) := ?x in _) => destruct x
      end ].

Lemma blind_initial raw : Blind (handle_initial raw).
Proof. unfold handle_initial, raw_d8. blind. Qed.

Lemma blind_header raw : Blind (handle_header garbage raw).
Proof. unfold handle_header, raw_d16, raw_d32. blind. Qed.

Lemma blind_method_frame p raw n : Blind (decode_method_frame p raw n).
Proof.
  unfold decode_method_frame, raw_d32. apply blind_bind; [blind|]. intros id.
  destruct (payload_from _ _ _); [blind|]. intros d s. rewrite blind_run_decoder.
  destruct (run_decoder _ s) as [[| st | |] s']; simpl; try done. by destruct (st =? _).
Qed.

Lemma blind_header_frame p raw n : Blind (decode_header_frame uninit p raw n).
Proof. unfold decode_header_frame, raw_d16, raw_d64. blind. Qed.

Lemma blind_body : Blind (handle_body uninit).
Proof.
  unfold handle_body, raw_d8, raw_d16. repeat (apply blind_bind; [solve [blind]|]; intros ?).
  destruct (negb _); [blind|]. repeat (apply blind_bind; [solve [blind]|]; intros ?).
  apply blind_bind; [|intros; blind]. apply (switch_ind Blind); [|blind].
  repeat (apply Forall_cons; split; cbn [snd]); [..|by apply Forall_nil].
  - apply blind_bind; [apply blind_method_frame|intros; blind].
  - apply blind_bind; [apply blind_header_frame|intros; blind].
  - blind.
  - blind.
Qed.

Lemma blind_body_case n : Blind (body_case uninit n).
Proof. unfold body_case. apply blind_bind; [apply blind_body|intros; blind]. Qed.

(** ** The byte count is only added to *)

Definition shifted (n : Z) (out : res Z * input_state) : res Z * input_state :=
  match out with (Ret v, s) => (Ret (swrap 32 (n + v)), s) | o => o end.

Lemma swrap_shift n k : swrap 32 (size_add n k) = swrap 32 (n + swrap 32 k).
Proof.
  assert (E : forall v w, wrap 32 v = wrap 32 w -> swrap 32 v = swrap 32 w)
    by (intros v w Ew; unfold swrap; by rewrite Ew).
  assert (E64 : wrap 32 (size_add n k) = wrap 32 (n + k)).
  { unfold size_add, wrap. apply Z.mod_mod_divide. by exists (2 ^ 32). }
  apply E. rewrite E64. unfold wrap. rewrite (Zplus_mod n k), (Zplus_mod n (swrap 32 k)). do 2 f_equal.
  unfold swrap, wrap. destruct (_ <? _).
  - by rewrite Zmod_mod.
  - rewrite <- (Z_mod_plus_full (k mod 2 ^ 32 - 2 ^ 32) 1). rewrite <- (Zmod_mod k) at 1. f_equal. lia.
Qed.

Lemma size_add_assoc n k m : size_add (size_add n k) m = size_add n (size_add k m).
Proof. unfold size_add, wrap. rewrite Zplus_mod_idemp_l, Zplus_mod_idemp_r. f_equal. lia. Qed.

Lemma size_add_split n k a b : k = a + b -> size_add n k = size_add (size_add n a) (size_add 0 b).
Proof. intros ->. unfold size_add, wrap. rewrite Zplus_mod_idemp_r, Zplus_mod_idemp_l. f_equal. lia. Qed.

Definition Counts (m : Z -> eff input_state Z) : Prop :=
  forall n k s, m (size_add n k) s = shifted n (m k s).

Lemma counts_ret : Counts (fun k => ret (swrap 32 k)).
Proof. intros n k s. unfold ret, shifted. by rewrite swrap_shift. Qed.

Lemma counts_bind {A} (m : eff input_state A) (rest : A -> Z -> eff input_state Z) :
  (forall a, Counts (rest a)) -> Counts (fun k => bind m (fun a => rest a k)).
Proof. intros Hr n k s. unfold bind. destruct (m s) as [[a| | |] s']; [apply Hr|done..]. Qed.

Lemma counts_complete rest : Counts rest -> Counts (fun k => when_complete k (rest k)).
Proof.
  intros Hr. unfold when_complete. apply (counts_bind get_conn). intros c.
  destruct (_ <? _); [apply counts_ret|done].
Qed.

Lemma counts_more rest :
  Counts rest ->
  Counts (fun k => let! more := consume_data in
                   when_complete (size_add k more) (rest (size_add k more))).
Proof.
  intros Hr. apply (counts_bind consume_data). intros more n k s. rewrite size_add_assoc.
  by apply (counts_complete rest).
Qed.

Lemma counts_body : Counts (body_case uninit).
Proof. unfold body_case. apply counts_bind. intros _. apply counts_ret. Qed.

Lemma counts_header raw : Counts (header_case garbage uninit raw).
Proof. unfold header_case. apply counts_bind. intros _. apply counts_more, counts_body. Qed.

Lemma counts_frame : Counts (handle_frame garbage uninit).
Proof.
  unfold handle_frame. apply counts_bind. intros raw. apply counts_bind. intros c.
  destruct (c_state c); [done|apply counts_bind; intros []; [apply counts_ret|]|..].
  1,2: apply counts_header. apply counts_body.
Qed.

(** ** Input in pieces *)

Definition blank (f : amqp_frame_t) : amqp_frame_t := mk_frame 0 (channel f) PL_none.

Definition gather (n : Z) : eff input_state Z :=
  let! more := consume_data in
  when_complete (size_add n more) (handle_frame garbage uninit (size_add n more)).

Definition awake (c : conn) : conn :=
  if bool_decide (c_state c = CONNECTION_STATE_IDLE) then set_state c CONNECTION_STATE_HEADER else c.

Lemma awake_roomy c : roomy c -> roomy (awake c).
Proof. unfold awake. by destruct (bool_decide _). Qed.

Lemma handle_input_gather c f data :
  roomy c -> data <> [] ->
  amqp_handle_input garbage uninit (mk_input c f data)
  = gather 0 (mk_input (awake c) (blank f) data).
Proof.
  intros Hr Hd. unfold amqp_handle_input, gather. cbn [i_data i_frame].
  assert (zlen data =? 0 = false) as -> by (apply Z.eqb_neq; destruct data; [done|zlia]).
  unfold bind at 1 2 3 4. unfold get_frame, put_frame, get_conn, put_conn. cbn [i_conn i_frame i_data fst snd].
  fold (blank f) (awake c). destruct (awake_roomy c Hr) as (buf & Hb & Ho & Ht & Hl).
  unfold bind at 1. symmetry. unfold bind at 1. rewrite consume_spec by (eexists; eauto).
  pose proof (zlen_nonneg data). by rewrite size_add_small by lia.
Qed.

Lemma handle_input_nil c f :
  amqp_handle_input garbage uninit (mk_input c f []) = (Ret 0, mk_input c (blank f) []).
Proof. done. Qed.

Lemma ztake_min {A} (n : Z) (l : list A) : ztake (Z.min (zlen l) n) l = ztake n l.
Proof.
  destruct (Z.le_ge_cases (zlen l) n); [|by rewrite Z.min_r by lia].
  rewrite Z.min_l by lia. by rewrite !ztake_all by lia.
Qed.

Lemma zdrop_min {A} (n : Z) (l : list A) : zdrop (Z.min (zlen l) n) l = zdrop n l.
Proof.
  destruct (Z.le_ge_cases (zlen l) n); [|by rewrite Z.min_r by lia].
  rewrite Z.min_l by lia. unfold zdrop, zlen in *. rewrite !drop_ge by lia. done.
Qed.

Lemma ztake_app_ge {A} (l k : list A) n : zlen l <= n -> ztake n (l ++ k) = l ++ ztake (n - zlen l) k.
Proof.
  intros. unfold ztake, zlen in *. rewrite take_app_ge by lia. do 2 f_equal. lia.
Qed.
Lemma zdrop_app_ge {A} (l k : list A) n : zlen l <= n -> zdrop n (l ++ k) = zdrop (n - zlen l) k.
Proof. intros. unfold zdrop, zlen in *. rewrite drop_app_ge by lia. f_equal. lia. Qed.
Lemma ztake_app_le {A} (l k : list A) n : n <= zlen l -> ztake n (l ++ k) = ztake n l.
Proof. intros. unfold ztake, zlen in *. by rewrite take_app_le by lia. Qed.
Lemma zdrop_app_le {A} (l k : list A) n : n <= zlen l -> zdrop n (l ++ k) = zdrop n l ++ k.
Proof. intros. unfold zdrop, zlen in *. by rewrite drop_app_le by lia. Qed.

(** How much is still missing. *)
Definition room (c : conn) : Z := c_target_size c - c_inbound_offset c.

Lemma room_filled c buf bs : inbound_bytes c = Some buf -> room (filled c bs) = room c - zlen bs.
Proof.
  intros Hb. unfold room. destruct (filled_bytes c buf bs Hb) as [_ ->].
  destruct (filled_fields c bs) as (_ & -> & _). lia.
Qed.

(** Less than what is missing: it is stored, and the call asks for more. *)
Lemma gather_partial n c f a :
  roomy c -> zlen a < room c ->
  gather n (mk_input c f a) = (Ret (swrap 32 (size_add n (zlen a))), mk_input (filled c a) f []).
Proof.
  intros Hr Ha. pose proof Hr as (buf & Hb & _). unfold gather. unfold bind at 1.
  rewrite consume_spec by done. fold (room c). rewrite Z.min_l by lia.
  rewrite ztake_all by lia. assert (zdrop (zlen a) a = []) as -> by (unfold zdrop, zlen; apply drop_ge; lia).
  unfold when_complete, get_conn, bind. cbn [i_conn]. pose proof (room_filled c buf a Hb) as E.
  unfold room in *. destruct (Z.ltb_spec (c_inbound_offset (filled c a)) (c_target_size (filled c a))); [done|lia].
Qed.

(** At least what is missing: the frame, or its header, is complete. *)
Lemma gather_full n c f a :
  roomy c -> room c <= zlen a ->
  gather n (mk_input c f a)
  = handle_frame garbage uninit (size_add n (room c))
      (mk_input (filled c (ztake (room c) a)) f (zdrop (room c) a)).
Proof.
  intros Hr Ha. pose proof Hr as (buf & Hb & Ho & _). unfold gather. unfold bind at 1.
  rewrite consume_spec by done. fold (room c). rewrite Z.min_r by lia.
  unfold when_complete, get_conn. unfold bind. cbn [i_conn].
  pose proof (room_filled c buf (ztake (room c) a) Hb) as E. rewrite zlen_ztake in E by (unfold room in *; lia).
  unfold room in E at 1. destruct (Z.ltb_spec (c_inbound_offset (filled c (ztake (room c) a))) (c_target_size (filled c (ztake (room c) a)))); [lia|done].
Qed.

(** The next call picks up where a partial one stopped. *)
Lemma gather_resume n c f a b :
  roomy c -> c_state c <> CONNECTION_STATE_IDLE -> zlen a < room c ->
  gather n (mk_input c (blank f) (a ++ b))
  = shifted (size_add n (zlen a)) (amqp_handle_input garbage uninit (mk_input (filled c a) (blank f) b)).
Proof.
  intros Hr Hs Ha. pose proof Hr as (buf & Hb & Ho & Ht & Hl).
  assert (Hr' : roomy (filled c a)) by (apply filled_roomy; [done|unfold room in Ha; lia]).
  destruct (decide (b = [])) as [->|Hne].
  { rewrite app_nil_r, handle_input_nil, gather_partial by done. simpl. by rewrite Z.add_0_r. }
  rewrite handle_input_gather by done.
  assert (awake (filled c a) = filled c a) as ->.
  { unfold awake. destruct (filled_fields c a) as [-> _]. by rewrite bool_decide_false. }
  change (blank (blank f)) with (blank f).
  pose proof (room_filled c buf a Hb) as Er. pose proof (zlen_nonneg a). pose proof (zlen_nonneg b).
  destruct (Z.lt_ge_cases (zlen (a ++ b)) (room c)) as [Hlt|Hge]; rewrite zlen_app in *.
  - rewrite !gather_partial by (rewrite ?zlen_app; done || lia).
    rewrite filled_app, zlen_app by (done || (unfold room in *; lia)). simpl. do 2 f_equal.
    rewrite <- !swrap_shift. f_equal. apply size_add_split. lia.
  - rewrite !gather_full by (rewrite ?zlen_app; done || lia).
    rewrite ztake_app_ge, zdrop_app_ge, Er by lia.
    rewrite filled_app by (done || (unfold room in *; lia)).
    rewrite <- counts_frame. f_equal. apply size_add_split. lia.
Qed.

(** ** One frame *)

Definition input_err (st : Z) : Prop :=
  st = AMQP_STATUS_BAD_AMQP_DATA \/ st = AMQP_STATUS_NO_MEMORY \/
  st = AMQP_STATUS_UNKNOWN_METHOD \/ st = AMQP_STATUS_UNKNOWN_CLASS.

Lemma run_raw_read n d raw o s :
  0 <= o -> 0 <= n -> o + n <= zlen raw ->
  raw_read n d raw o s = (Ret (d (ztake n (zdrop o raw))), s).
Proof. intros. unfold raw_read. by rewrite load_fits. Qed.

Lemma length_piece (raw : list byte) o n (k : nat) :
  n = Z.of_nat k -> 0 <= o -> o + n <= zlen raw -> length (ztake n (zdrop o raw)) = k.
Proof.
  intros -> Ho Hn. apply Nat2Z.inj. fold (zlen (ztake (Z.of_nat k) (zdrop o raw))).
  rewrite zlen_ztake; [done|]. rewrite zlen_zdrop; lia.
Qed.

Lemma piece_range (raw : list byte) o (k : nat) :
  0 <= o -> o + Z.of_nat k <= zlen raw -> 0 <= be_val (ztake (Z.of_nat k) (zdrop o raw)) < 256 ^ Z.of_nat k.
Proof.
  intros Ho Hn. pose proof (be_val_range (ztake (Z.of_nat k) (zdrop o raw))) as Hr.
  rewrite (length_piece _ _ _ k) in Hr by done. done.
Qed.

(** Asking for a channel's pool changes the pools only, and fails only for memory. *)
Lemma channel_pool_post ch c f d :
  exists t m, let s' := mk_input (set_pools c t m) f d in
  (exists p, channel_pool ch (mk_input c f d) = (Ret p, s')) \/
  channel_pool ch (mk_input c f d) = (Err AMQP_STATUS_NO_MEMORY, s').
Proof.
  unfold channel_pool, amqp_get_or_create_channel_pool. cbn [i_conn i_frame i_data].
  destruct (find_entry _ _) as [p|]; [do 2 eexists; left; by eexists|].
  destruct (malloc_cases (sizeof layout_amqp_pool_table_entry_t) (m_heap (c_mem c))) as [(r & Er & ->)| ->].
  - do 2 eexists. by right.
  - do 2 eexists. left. by eexists.
Qed.

(** The header announces a frame that fits: a buffer of the pool for all of it. *)
Lemma header_post c f d raw :
  zlen raw = HEADER_SIZE + 1 -> zlen (c_header_buffer c) = HEADER_SIZE + 1 -> 0 <= c_frame_max c <= 2 ^ 30 ->
  match handle_header garbage raw (mk_input c f d) with
  | (Ret _, s') =>
      exists a buf t m,
        let n := be_val (ztake 4 (zdrop 3 raw)) + HEADER_SIZE + FOOTER_SIZE in
        s' = mk_input (set_pools (set_state (set_inbound (set_target c n) (IB_region a buf))
                                    CONNECTION_STATE_BODY) t m) f d /\
        zlen buf = n /\ n <= c_frame_max c /\
        buf = splice (garbage a n) 0 (ztake HEADER_SIZE (c_header_buffer c))
  | (Err st, _) => input_err st
  | (Undef, _) | (NoFuel, _) => False
  end.
Proof.
  unfold HEADER_SIZE. intros Hraw Hh Hf. unfold handle_header, raw_d16, raw_d32.
  rewrite (bind_step _ _ _ _ _ (run_raw_read 2 _ raw 1 _ ltac:(lia) ltac:(lia) ltac:(lia))).
  rewrite (bind_step _ _ _ _ _ (run_raw_read 4 _ raw 3 _ ltac:(lia) ltac:(lia) ltac:(lia))).
  rewrite amqp_d32_network by (apply length_piece; done || lia).
  pose proof (piece_range raw 3 4 ltac:(lia) ltac:(lia)) as Hsz. change (Z.of_nat 4) with 4 in Hsz.
  set (sz := be_val (ztake 4 (zdrop 3 raw))) in *. destruct (Z.leb_spec INT32_MAX sz); [by left|].
  unfold INT32_MAX in *. rewrite bind_ret_l || unfold bind at 1, get_conn at 1. cbn [i_conn].
  rewrite wrap_small by (unfold in_u, HEADER_SIZE, FOOTER_SIZE; lia).
  rewrite (wrap_small 64) by (unfold in_u; lia). unfold put_conn at 1, bind at 1. cbn [i_frame i_data i_conn].
  destruct (Z.ltb_spec (c_frame_max c) (sz + HEADER_SIZE + FOOTER_SIZE)); [by left|].
  edestruct (channel_pool_post (amqp_d16 (ztake 2 (zdrop 1 raw)))) as (t & m & [[p E]|E]).
  2:{ rewrite (bind_err _ _ _ _ _ E). by right; left. }
  rewrite (bind_step _ _ _ _ _ E). unfold bind at 1, get_conn. cbn [i_conn c_mem set_pools set_target].
  destruct (pool_alloc p _ m) as [[a|] m']; [|by right; left]. cbn [c_header_buffer set_pools set_target].
  unfold HEADER_SIZE, FOOTER_SIZE in *. rewrite load_fits by lia.
  change (zdrop 0 (c_header_buffer c)) with (c_header_buffer c).
  pose proof (zlen_ztake 7 (c_header_buffer c) ltac:(lia)) as Hhd.
  pose proof (Hgarbage a (sz + 7 + 1) ltac:(lia)) as Hg.
  rewrite store_fits by lia. unfold put_conn. cbn [i_frame i_data]. do 4 eexists. split; [done|].
  split; [|done]. rewrite zlen_splice by lia. done.
Qed.

(** A method frame too short for its id, or a header frame too short for its fixed
    part or with flag words that are shifted out of an [int]: a second word of 2^15 or
    more, or a third one. *)
Definition malformed (raw : list byte) : Prop :=
  (be_val (ztake 1 raw) = AMQP_FRAME_METHOD /\ zlen raw < HEADER_SIZE + 4 + FOOTER_SIZE) \/
  (be_val (ztake 1 raw) = AMQP_FRAME_HEADER /\
   (zlen raw < HEADER_SIZE + 12 + FOOTER_SIZE \/
    ~ shifts_defined (ztake (zlen raw - (HEADER_SIZE + 12 + FOOTER_SIZE)) (zdrop (HEADER_SIZE + 12) raw)))).

Lemma shifts_defined_dec enc : shifts_defined enc \/ ~ shifts_defined enc.
Proof.
  unfold shifts_defined. destruct (load enc 0 2) as [bs|]; [|by left].
  destruct (decide (Z.land (be_val bs) 1 = 0)) as [E|E]; [left; by intros ? [= <-]|].
  destruct (load enc 2 2) as [cs|]; [|by left].
  destruct (decide (be_val cs < 2 ^ 15 /\ Z.land (be_val cs) 1 = 0)) as [E2|E2]; [left; by intros ? [= <-] _ ? [= <-]|].
  right. intros Hs. by apply E2, (Hs bs).
Qed.

(** How handling a complete frame ends. *)
Definition FramePost {A} (raw : list byte) (r : res A) : Prop :=
  malformed raw \/ match r with Ret _ => True | Err st => input_err st | Undef | NoFuel => False end.

(** [Kept m]: [m] changes at most the pools and the decoded frame. *)
Definition kept (s s' : input_state) : Prop :=
  i_data s' = i_data s /\ exists t m, i_conn s' = set_pools (i_conn s) t m.
Definition Kept {A} (m : eff input_state A) : Prop := forall s, kept s (m s).2.

Lemma kept_refl s : kept s s.
Proof. split; [done|]. exists (c_pool_table (i_conn s)), (c_mem (i_conn s)). by destruct (i_conn s). Qed.

Lemma kept_trans s1 s2 s3 : kept s1 s2 -> kept s2 s3 -> kept s1 s3.
Proof.
  intros [E1 (t1 & m1 & C1)] [E2 (t2 & m2 & C2)]. split; [by rewrite E2|].
  exists t2, m2. by rewrite C2, C1.
Qed.

Lemma kept_bind {A B} (m : eff input_state A) (k : A -> eff input_state B) :
  Kept m -> (forall a, Kept (k a)) -> Kept (bind m k).
Proof.
  intros Hm Hk s. specialize (Hm s). unfold bind.
  destruct (m s) as [[a| | |] s']; [|done..]. eapply kept_trans; [exact Hm|apply Hk].
Qed.

Lemma kept_pure {A} (m : eff input_state A) : (forall s, (m s).2 = s) -> Kept m.
Proof. intros Hm s. rewrite Hm. apply kept_refl. Qed.

Lemma kept_put_frame f : Kept (put_frame f).
Proof. intros s. apply (kept_refl s). Qed.

Lemma kept_raw_read n d raw o : Kept (raw_read n d raw o).
Proof. apply kept_pure. intros s. unfold raw_read. by destruct (load raw o n). Qed.

Lemma kept_run_decoder {A} (d : eff (dec_state memory) A) : Kept (run_decoder d).
Proof. intros s. unfold run_decoder. destruct (d _). split; [done|]. by do 2 eexists. Qed.

Lemma kept_channel_pool ch : Kept (channel_pool ch).
Proof.
  intros [c f d]. destruct (channel_pool_post ch c f d) as (t & m & [[p ->]| ->]); split; by eauto.
Qed.

Lemma kept_method_frame p raw n : Kept (decode_method_frame p raw n).
Proof.
  apply kept_bind; [apply kept_raw_read|]. intros id.
  destruct (payload_from _ _ _).
  - apply kept_bind; [apply kept_run_decoder|]. intros. by apply kept_pure.
  - intros s. pose proof (kept_run_decoder (amqp_decode_method [] p id) s) as Hk.
    destruct (run_decoder _ s) as [[| st | |] s']; try done. by destruct (st =? _).
Qed.

Lemma kept_header_frame p raw n : Kept (decode_header_frame uninit p raw n).
Proof.
  apply kept_bind; [apply kept_raw_read|]. intros class_id.
  apply kept_bind; [apply kept_raw_read|]. intros body_size.
  destruct (payload_from _ _ _); [|by apply kept_pure].
  apply kept_bind; [apply kept_run_decoder|]. intros. by apply kept_pure.
Qed.

Lemma payload_fits raw n o :
  n = zlen raw -> 0 <= o -> o + FOOTER_SIZE <= n -> n <= 2 ^ 30 ->
  payload_from raw n o = Some (ztake (n - (o + FOOTER_SIZE)) (zdrop o raw)).
Proof.
  unfold FOOTER_SIZE. intros -> Ho Hn Hl. unfold payload_from, size_sub.
  rewrite (wrap_small 64 (zlen raw - o)) by (unfold in_u; lia). rewrite wrap_small by (unfold in_u, FOOTER_SIZE; lia).
  rewrite load_fits by (unfold FOOTER_SIZE; lia). do 2 f_equal. unfold FOOTER_SIZE. lia.
Qed.

Lemma method_frame_post p raw c f d :
  zlen raw <= 2 ^ 30 -> HEADER_SIZE + FOOTER_SIZE <= zlen raw -> be_val (ztake 1 raw) = AMQP_FRAME_METHOD ->
  FramePost raw (decode_method_frame p raw (zlen raw) (mk_input c f d)).1.
Proof.
  unfold HEADER_SIZE, FOOTER_SIZE. intros Hl Hm Ht. unfold decode_method_frame, raw_d32, HEADER_SIZE.
  destruct (decide (zlen raw < 12)) as [Hs|Hs].
  - left. left. unfold HEADER_SIZE, FOOTER_SIZE. lia.
  - rewrite (bind_step _ _ _ _ _ (run_raw_read 4 _ raw 7 _ ltac:(lia) ltac:(lia) ltac:(lia))).
    rewrite (payload_fits raw) by (done || (unfold FOOTER_SIZE; lia)).
    set (enc := ztake _ _). set (id := amqp_d32 _).
    assert (Henc : zlen enc <= 2 ^ 30).
    { unfold enc, FOOTER_SIZE. rewrite zlen_ztake; [lia|]. rewrite zlen_zdrop; lia. }
    pose proof (zlen_nonneg enc). pose proof (method_safe enc p Henc id 0 (c_mem c) ltac:(lia)) as Hsafe.
    unfold bind, run_decoder. cbn [i_conn i_frame i_data].
    right. destruct (amqp_decode_method enc p id _) as [[dm| st | |] ds]; simpl in *; try done.
    destruct Hsafe as [[->| ->]| ->]; unfold input_err; auto.
Qed.

Lemma header_frame_post p raw c f d :
  zlen raw <= 2 ^ 30 -> HEADER_SIZE + FOOTER_SIZE <= zlen raw -> be_val (ztake 1 raw) = AMQP_FRAME_HEADER ->
  FramePost raw (decode_header_frame uninit p raw (zlen raw) (mk_input c f d)).1.
Proof.
  unfold HEADER_SIZE, FOOTER_SIZE. intros Hl Hm Ht. unfold decode_header_frame, raw_d16, raw_d64, HEADER_SIZE.
  destruct (decide (zlen raw < 20)) as [Hs|Hs].
  - left. right. split; [done|]. left. unfold HEADER_SIZE, FOOTER_SIZE. lia.
  - rewrite (bind_step _ _ _ _ _ (run_raw_read 2 _ raw 7 _ ltac:(lia) ltac:(lia) ltac:(lia))).
    rewrite (bind_step _ _ _ _ _ (run_raw_read 8 _ raw (7 + 4) _ ltac:(lia) ltac:(lia) ltac:(lia))).
    rewrite (payload_fits raw) by (done || (unfold FOOTER_SIZE; lia)).
    set (enc := ztake _ (zdrop (7 + 12) _)). set (id := amqp_d16 _).
    assert (Henc : zlen enc <= 2 ^ 30).
    { unfold enc, FOOTER_SIZE. rewrite zlen_ztake; [lia|]. rewrite zlen_zdrop; lia. }
    destruct (shifts_defined_dec enc) as [Hone|Hone]; [|left; right; split; [done|by right]].
    pose proof (properties_total enc p uninit Henc id (c_mem c) Hone) as Hsafe.
    unfold bind, run_decoder. cbn [i_conn i_frame i_data].
    right. destruct (amqp_decode_properties enc p uninit id _) as [[dp| st | |] ds]; simpl in *; try done.
    destruct Hsafe as [[->| ->]| ->]; unfold input_err; auto.
Qed.

Lemma framepost_bind {A B} raw (m : eff input_state A) (k : A -> eff input_state B) s :
  FramePost raw (m s).1 -> (forall a s', FramePost raw (k a s').1) -> FramePost raw (bind m k s).1.
Proof. unfold bind. intros [Hm|Hm] Hk; [by left|]. destruct (m s) as [[a| | |] s']; [auto|by right..]. Qed.

(** The frame's type byte decides what is decoded. *)
Lemma payload_post (p : Z) raw type ch s :
  zlen raw <= 2 ^ 30 -> HEADER_SIZE + FOOTER_SIZE <= zlen raw -> type = be_val (ztake 1 raw) ->
  let m := switch type
    [(AMQP_FRAME_METHOD,
       let! pl := decode_method_frame p raw (zlen raw) in put_frame (mk_frame type ch pl));
     (AMQP_FRAME_HEADER,
       let! pl := decode_header_frame uninit p raw (zlen raw) in put_frame (mk_frame type ch pl));
     (AMQP_FRAME_BODY,
       match load raw HEADER_SIZE (size_sub (size_sub (zlen raw) HEADER_SIZE) FOOTER_SIZE) with
       | Some bs => put_frame (mk_frame type ch (PL_body bs))
       | None => undef
       end);
     (AMQP_FRAME_HEARTBEAT, ret tt)]
    (put_frame (mk_frame 0 ch PL_none)) in
  FramePost raw (m s).1 /\ kept s (m s).2.
Proof.
  intros Hl Hm Ht m. unfold m. clear m.
  apply (switch_case (fun m : eff input_state unit => FramePost raw (m s).1 /\ kept s (m s).2)).
  2:{ split; [by right|apply kept_put_frame]. }
  destruct s as [c f d].
  repeat (apply Forall_cons; split; cbn [fst snd]; [intros Htype | ]); [..|by apply Forall_nil]; subst type.
  - split; [|apply kept_bind; [apply kept_method_frame|intros; apply kept_put_frame]].
    apply framepost_bind; [by apply method_frame_post|]. intros. by right.
  - split; [|apply kept_bind; [apply kept_header_frame|intros; apply kept_put_frame]].
    apply framepost_bind; [by apply header_frame_post|]. intros. by right.
  - pose proof (payload_fits raw (zlen raw) HEADER_SIZE eq_refl) as Hp. unfold payload_from in Hp.
    rewrite Hp by (unfold HEADER_SIZE, FOOTER_SIZE in *; lia). split; [by right|apply kept_put_frame].
  - split; [by right|apply kept_refl].
Qed.

Lemma body_post c f d a raw :
  c_inbound_buffer c = IB_region a raw -> zlen raw = c_target_size c ->
  HEADER_SIZE + FOOTER_SIZE <= zlen raw <= 2 ^ 30 ->
  exists s', kept (mk_input c f d) s' /\
  let '(r, s2) := handle_body uninit (mk_input c f d) in
  FramePost raw r /\
  s2 = match r with Ret _ => mk_input (return_to_idle (i_conn s')) (i_frame s') (i_data s') | _ => s' end.
Proof.
  intros Hb Hl Hm. unfold handle_body, raw_d8, raw_d16.
  unfold bind at 1, raw_frame, get_conn, bind at 1, inbound_bytes. cbn [i_conn]. rewrite Hb.
  unfold ret at 1, bind at 1. cbn [i_conn]. rewrite <- Hl.
  assert (size_sub (zlen raw) 1 = zlen raw - 1) as -> by (apply wrap_small; unfold in_u, HEADER_SIZE, FOOTER_SIZE in *; lia).
  unfold HEADER_SIZE, FOOTER_SIZE in *.
  rewrite (bind_step _ _ _ _ _ (run_raw_read 1 _ raw (zlen raw - 1) _ ltac:(lia) ltac:(lia) ltac:(lia))).
  destruct (negb _). { eexists. split; [apply kept_refl|]. split; [right; change (input_err AMQP_STATUS_BAD_AMQP_DATA); by left|reflexivity]. }
  rewrite (bind_step _ _ _ _ _ (run_raw_read 1 _ raw 0 _ ltac:(lia) ltac:(lia) ltac:(lia))).
  rewrite (bind_step _ _ _ _ _ (run_raw_read 2 _ raw 1 _ ltac:(lia) ltac:(lia) ltac:(lia))).
  change (zdrop 0 raw) with raw. rewrite amqp_d8_network by (apply (length_piece raw 0); done || lia).
  set (type := be_val _). set (ch := amqp_d16 _). unfold bind at 1, put_frame at 1. cbn [i_conn i_data].
  set (f1 := mk_frame type ch PL_none).
  pose proof (kept_channel_pool ch (mk_input c f1 d)) as Hk.
  destruct (channel_pool_post ch c f1 d) as (t & m & [[p E]|E]); rewrite E in Hk; simpl in Hk.
  2:{ rewrite (bind_err _ _ _ _ _ E). eexists. split; [exact Hk|]. split; [right; change (input_err AMQP_STATUS_NO_MEMORY); by right; left|reflexivity]. }
  rewrite (bind_step _ _ _ _ _ E).
  destruct (payload_post p raw type ch (mk_input (set_pools c t m) f1 d)) as [Hf Hk2];
    [lia|unfold HEADER_SIZE, FOOTER_SIZE; lia|done|].
  set (sw := switch (A := eff input_state unit) type _ _) in *. clearbody sw.
  unfold bind at 1. destruct (sw _) as [r s2].
  cbn [fst snd] in *. exists s2. split; [exact (kept_trans (mk_input c f d) _ s2 Hk Hk2)|]. by destruct r.
Qed.

(** ** One call *)

(** A buffer for the whole frame, filled from the header on. *)
Definition body_ready (c : conn) (a : addr) (raw : list byte) : Prop :=
  c_state c = CONNECTION_STATE_BODY /\ c_inbound_buffer c = IB_region a raw /\
  zlen raw = c_target_size c /\ HEADER_SIZE + FOOTER_SIZE <= c_target_size c <= c_frame_max c /\
  HEADER_SIZE <= c_inbound_offset c <= c_target_size c /\
  zlen (c_header_buffer c) = HEADER_SIZE + 1 /\ 0 <= c_frame_max c <= 2 ^ 30.

Lemma body_ready_roomy c a raw : body_ready c a raw -> roomy c.
Proof.
  intros (Hs & Hb & Hl & Ht & Ho & Hh & Hf). unfold HEADER_SIZE, FOOTER_SIZE in *.
  exists raw. unfold inbound_bytes. rewrite Hb. split; [done|lia].
Qed.

Lemma filled_region c a raw bs :
  c_inbound_buffer c = IB_region a raw ->
  c_inbound_buffer (filled c bs) = IB_region a (splice raw (c_inbound_offset c) bs) /\
  c_header_buffer (filled c bs) = c_header_buffer c.
Proof. intros E. unfold filled, inbound_bytes, with_inbound_bytes. by rewrite E. Qed.

Lemma body_ready_filled c a raw bs :
  body_ready c a raw -> zlen bs <= room c -> body_ready (filled c bs) a (splice raw (c_inbound_offset c) bs).
Proof.
  intros (Hs & Hb & Hl & Ht & Ho & Hh & Hf) Hbs. unfold HEADER_SIZE, FOOTER_SIZE, room in *.
  pose proof (zlen_nonneg bs).
  destruct (filled_region c a raw bs Hb) as [E1 E2]. destruct (filled_fields c bs) as (E3 & E4 & E5 & _).
  assert (Hi : inbound_bytes c = Some raw) by (unfold inbound_bytes; by rewrite Hb).
  destruct (filled_bytes c raw bs Hi) as [_ E6].
  unfold body_ready, HEADER_SIZE, FOOTER_SIZE. rewrite E1, E2, E3, E4, E5, E6.
  rewrite zlen_splice by lia. repeat split; done || lia.
Qed.

Lemma body_ready_ok c a raw : body_ready c a raw -> 0 < room c -> conn_ok c.
Proof.
  intros (Hs & Hb & Hl & Ht & Ho & Hh & Hf) Hr. unfold conn_ok, room in *. rewrite Hs.
  repeat split; try (done || lia). eauto.
Qed.

Definition bad_frame (s : input_state) : Prop :=
  exists raw, inbound_bytes (i_conn s) = Some raw /\ malformed raw.

(** [n] bytes were consumed before, and [data] is offered now, of which at least
    [lo] are taken. *)
Definition InputPost (lo n : Z) (data : list byte) (out : res Z * input_state) : Prop :=
  match out with
  | (Ret v, s') => exists k, v = n + k /\ lo <= k <= zlen data /\ i_data s' = zdrop k data /\ conn_ok (i_conn s')
  | (Err st, s') => input_err st \/ bad_frame s'
  | (Undef, s') | (NoFuel, s') => bad_frame s'
  end.

Lemma input_post_mono lo lo' n data out : InputPost lo n data out -> lo' <= lo -> InputPost lo' n data out.
Proof.
  intros Hp Hl. destruct out as [[v| | |] s']; try done.
  destruct Hp as (k & ? & ? & ?). exists k. split; [done|]. split; [lia|done].
Qed.

Lemma return_ok c :
  zlen (c_header_buffer c) = HEADER_SIZE + 1 -> 0 <= c_frame_max c <= 2 ^ 30 -> conn_ok (return_to_idle c).
Proof. done. Qed.

Lemma swrap_add n k : 0 <= n + k < 2 ^ 31 -> swrap 32 (size_add n k) = n + k.
Proof. intros. rewrite size_add_small by lia. apply swrap_small; [lia|]. unfold in_s. lia. Qed.

Lemma more_gather n c f data :
  roomy c -> c_state c = CONNECTION_STATE_BODY ->
  (let! more := consume_data in
   when_complete (size_add n more) (body_case uninit (size_add n more))) (mk_input c f data)
  = gather n (mk_input c f data).
Proof.
  intros Hr Hs. unfold gather. unfold bind at 1. symmetry. unfold bind at 1. rewrite consume_spec by done.
  set (k := Z.min _ _). unfold when_complete, get_conn, bind at 1. symmetry. unfold bind at 1. cbn [i_conn].
  destruct (_ <? _); [done|]. unfold handle_frame, raw_frame, get_conn, bind.
  pose proof Hr as (buf & Hb & _). destruct (filled_bytes c buf (ztake k data) Hb) as [E1 _]. cbn [i_conn].
  rewrite E1. cbn [ret i_conn]. destruct (filled_fields c (ztake k data)) as [-> _]. by rewrite Hs.
Qed.

Lemma body_gather_post n c a raw f data :
  body_ready c a raw -> 0 <= n -> n + zlen data < 2 ^ 31 ->
  InputPost (Z.min (zlen data) (room c)) n data (gather n (mk_input c f data)).
Proof.
  intros Hb Hn Hd. pose proof (body_ready_roomy _ _ _ Hb) as Hr. pose proof (zlen_nonneg data).
  destruct (Z.lt_ge_cases (zlen data) (room c)) as [Hp|Hp].
  - rewrite gather_partial by done. exists (zlen data). rewrite swrap_add by lia.
    split; [done|]. split; [lia|]. split; [unfold zdrop, zlen; by rewrite drop_ge by lia|].
    apply (body_ready_ok _ _ _ (body_ready_filled c a raw data Hb ltac:(lia))).
    pose proof Hr as (buf & E & _). rewrite (room_filled _ _ _ E). lia.
  - rewrite gather_full by done. assert (0 <= room c) by (destruct Hb as (_ & _ & _ & _ & Ho & _); unfold room; lia).
    pose proof (zlen_ztake (room c) data ltac:(lia)) as Hk. set (bs := ztake (room c) data) in *.
    pose proof (body_ready_filled c a raw bs Hb ltac:(lia)) as Hb'.
    set (c' := filled c bs) in *. set (raw' := splice raw _ bs) in *.
    destruct Hb' as (Hs' & Hb' & Hl' & Ht' & Ho' & Hh' & Hf').
    unfold handle_frame, raw_frame, get_conn, bind, inbound_bytes. cbn [i_conn]. rewrite Hb'. cbn [ret i_conn]. rewrite Hs'.
    unfold body_case, bind.
    destruct (body_post c' f (zdrop (room c) data) a raw' Hb' Hl' ltac:(lia)) as (s' & [Ed (t & m & Ec)] & Hpost).
    destruct (handle_body _ _) as [r s2]. destruct Hpost as [Hf ->].
    assert (Hbad : malformed raw' -> bad_frame s').
    { intros Hm. exists raw'. split; [|done]. unfold inbound_bytes. rewrite Ec. cbn [i_conn c_inbound_buffer set_pools].
      by rewrite Hb'. }
    destruct r; [|destruct Hf as [Hf|Hf]; simpl; auto; by destruct Hf..].
    cbn [ret]. exists (room c). rewrite swrap_add by lia.
    cbn [i_data i_conn]. rewrite Ed, Ec.
    split; [done|]. split; [lia|]. split; [done|]. by apply return_ok.
Qed.

(** The frame header, and one byte more in the initial state, has arrived. *)
Definition header_ready (c : conn) : Prop :=
  c_inbound_buffer c = IB_header /\ zlen (c_header_buffer c) = HEADER_SIZE + 1 /\
  HEADER_SIZE <= c_inbound_offset c <= HEADER_SIZE + 1 /\ 0 <= c_frame_max c <= 2 ^ 30.

Lemma header_next c f d :
  header_ready c ->
  match handle_header garbage (c_header_buffer c) (mk_input c f d) with
  | (Ret _, s') => exists c' a buf, s' = mk_input c' f d /\ body_ready c' a buf
  | (Err st, _) => input_err st
  | (Undef, _) | (NoFuel, _) => False
  end.
Proof.
  intros (Hb & Hh & Ho & Hf). pose proof (header_post c f d (c_header_buffer c) Hh Hh Hf) as Hpost.
  destruct (handle_header _ _ _) as [[[]| | |] s']; try done.
  destruct Hpost as (a & buf & t & m & -> & Hl & Hn & _). do 3 eexists. split; [done|].
  pose proof (piece_range (c_header_buffer c) 3 4 ltac:(lia) ltac:(unfold HEADER_SIZE in *; lia)) as Hsz.
  change (Z.of_nat 4) with 4 in Hsz.
  unfold body_ready, HEADER_SIZE, FOOTER_SIZE in *. cbn. repeat split; try (exact Hl || exact Hh); lia.
Qed.

Lemma header_case_post n c f data :
  header_ready c -> 0 <= n -> n + zlen data < 2 ^ 31 ->
  InputPost 0 n data (header_case garbage uninit (c_header_buffer c) n (mk_input c f data)).
Proof.
  intros Hc Hn Hd. unfold header_case. unfold bind at 1. pose proof (header_next c f data Hc) as Hnext.
  destruct (handle_header _ _ _) as [[[]| | |] s']; try done; [|by left].
  destruct Hnext as (c' & a & buf & -> & Hb). rewrite more_gather;
    [|by eapply body_ready_roomy|apply Hb].
  eapply input_post_mono; [by eapply body_gather_post|]. pose proof (zlen_nonneg data).
  destruct Hb as (_ & _ & _ & _ & Ho & _). unfold room. lia.
Qed.

Lemma handle_frame_header n c f data :
  header_ready c -> c_state c = CONNECTION_STATE_HEADER ->
  handle_frame garbage uninit n (mk_input c f data)
  = header_case garbage uninit (c_header_buffer c) n (mk_input c f data).
Proof.
  intros (Hb & _) Hs. unfold handle_frame, raw_frame, get_conn, bind at 1 2 3, inbound_bytes. cbn [i_conn].
  rewrite Hb. cbn [ret i_conn]. by rewrite Hs.
Qed.

(** In the initial state: either the server's protocol header, or as above. *)
Lemma handle_frame_initial n c f :
  header_ready c -> c_state c = CONNECTION_STATE_INITIAL ->
  (exists f', forall d, handle_frame garbage uninit n (mk_input c f d)
                        = (Ret (swrap 32 n), mk_input (return_to_idle c) f' d)) \/
  (forall d, handle_frame garbage uninit n (mk_input c f d)
             = header_case garbage uninit (c_header_buffer c) n (mk_input c f d)).
Proof.
  intros (Hb & Hh & _) Hs. unfold HEADER_SIZE in Hh.
  assert (E : forall d, handle_frame garbage uninit n (mk_input c f d)
    = (let! header := handle_initial (c_header_buffer c) in
       if header : bool then ret (swrap 32 n) else header_case garbage uninit (c_header_buffer c) n) (mk_input c f d)).
  { intros d. unfold handle_frame, raw_frame, get_conn, inbound_bytes. unfold bind at 1 2 3. cbn [i_conn].
    rewrite Hb. cbn [ret i_conn]. by rewrite Hs. }
  unfold handle_initial in E. rewrite load_fits in E by lia.
  destruct (bool_decide _).
  - left. pose (at_ o := amqp_d8 (ztake 1 (zdrop o (c_header_buffer c)))).
    exists (mk_frame AMQP_PSEUDOFRAME_PROTOCOL_HEADER 0 (PL_protocol_header (at_ 4) (at_ 5) (at_ 6) (at_ 7))).
    intros d. rewrite E. unfold raw_d8.
    do 4 (rewrite bind_assoc; erewrite bind_step by (apply run_raw_read; lia)). reflexivity.
  - right. exact E.
Qed.

(** Still collecting a header. *)
Definition waiting (c : conn) : Prop :=
  c_inbound_buffer c = IB_header /\ zlen (c_header_buffer c) = HEADER_SIZE + 1 /\
  0 <= c_frame_max c <= 2 ^ 30 /\ 0 <= c_inbound_offset c < c_target_size c /\
  ((c_state c = CONNECTION_STATE_HEADER /\ c_target_size c = HEADER_SIZE) \/
   (c_state c = CONNECTION_STATE_INITIAL /\ c_target_size c = HEADER_SIZE + 1)).

Lemma awake_cases c :
  conn_ok c -> waiting (awake c) \/ exists a raw, body_ready (awake c) a raw /\ 0 < room (awake c).
Proof.
  intros (Hh & Hf & Hs). unfold awake, waiting, body_ready, room, HEADER_SIZE, FOOTER_SIZE in *.
  destruct (c_state c) eqn:E; simpl.
  - destruct Hs as (-> & -> & ->). left. repeat split; try lia. by left.
  - destruct Hs as (Hb & Ho & Ht). left. rewrite E. repeat split; try (done || lia). right. split; [done|lia].
  - destruct Hs as (Hb & Ho & Ht). left. rewrite E. repeat split; try (done || lia). by left.
  - destruct Hs as (Ho & Hle & a & bs & Hb & Hl). right. exists a, bs. rewrite E. repeat split; done || lia.
Qed.

Lemma filled_header c bs :
  c_inbound_buffer c = IB_header ->
  c_inbound_buffer (filled c bs) = IB_header /\
  c_header_buffer (filled c bs) = splice (c_header_buffer c) (c_inbound_offset c) bs /\
  c_inbound_offset (filled c bs) = c_inbound_offset c + zlen bs.
Proof. intros E. unfold filled, inbound_bytes, with_inbound_bytes. by rewrite E. Qed.

Lemma waiting_full c bs : waiting c -> zlen bs = room c -> header_ready (filled c bs).
Proof.
  intros (Hb & Hh & Hf & Ho & Hs) Hbs. unfold room, HEADER_SIZE in *.
  destruct (filled_header c bs Hb) as (E1 & E2 & E3). destruct (filled_fields c bs) as (_ & _ & E4 & _).
  unfold header_ready. rewrite E1, E2, E3, E4. unfold HEADER_SIZE.
  rewrite zlen_splice by (destruct Hs as [[_ ?]|[_ ?]]; lia). destruct Hs as [[_ ?]|[_ ?]]; repeat split; done || lia.
Qed.

Lemma waiting_partial c bs : waiting c -> 0 < zlen bs < room c -> conn_ok (filled c bs).
Proof.
  intros (Hb & Hh & Hf & Ho & Hs) Hbs. unfold room, HEADER_SIZE in *.
  destruct (filled_header c bs Hb) as (E1 & E2 & E3). destruct (filled_fields c bs) as (E4 & E5 & E6 & _).
  unfold conn_ok. rewrite E1, E2, E3, E4, E5, E6. unfold HEADER_SIZE.
  rewrite zlen_splice by (destruct Hs as [[_ ?]|[_ ?]]; lia).
  destruct Hs as [[-> ?]|[-> ?]]; repeat split; done || lia.
Qed.

Lemma waiting_roomy c : waiting c -> roomy c /\ 0 < room c.
Proof.
  intros (Hb & Hh & Hf & Ho & Hs). unfold roomy, room, inbound_bytes, HEADER_SIZE in *. rewrite Hb. split.
  - eexists. split; [done|]. destruct Hs as [[_ ?]|[_ ?]]; lia.
  - lia.
Qed.

Lemma frame_header_post n c f data :
  header_ready c -> c_state c = CONNECTION_STATE_HEADER \/ c_state c = CONNECTION_STATE_INITIAL ->
  0 <= n -> n + zlen data < 2 ^ 31 -> InputPost 0 n data (handle_frame garbage uninit n (mk_input c f data)).
Proof.
  intros Hc [Hs|Hs] Hn Hd; [rewrite handle_frame_header by done; by apply header_case_post|].
  destruct (handle_frame_initial n c f Hc Hs) as [[f' E]|E]; rewrite E; [|by apply header_case_post].
  exists 0. pose proof (zlen_nonneg data). rewrite swrap_small by (unfold in_s; lia).
  split; [lia|]. split; [lia|]. split; [done|]. destruct Hc as (_ & ? & _ & ?). by apply return_ok.
Qed.

Lemma input_post c f data :
  conn_ok c -> data <> [] -> zlen data < 2 ^ 31 ->
  InputPost 1 0 data (amqp_handle_input garbage uninit (mk_input c f data)).
Proof.
  intros Hc Hd Hl. rewrite handle_input_gather by (done || by apply conn_ok_roomy).
  assert (0 < zlen data) by (destruct data; [done|]; zlia).
  destruct (awake_cases c Hc) as [Hw|(a & raw & Hb & Hr)].
  2:{ eapply input_post_mono; [by eapply body_gather_post|lia]. }
  set (c1 := awake c) in *. destruct (waiting_roomy c1 Hw) as [Hr Hpos].
  destruct (Z.lt_ge_cases (zlen data) (room c1)) as [Hp|Hp].
  - rewrite gather_partial by done. exists (zlen data). rewrite swrap_add by lia.
    split; [done|]. split; [lia|]. split; [unfold zdrop, zlen; by rewrite drop_ge by lia|].
    by apply waiting_partial.
  - rewrite gather_full by done. rewrite size_add_small, Z.add_0_l by (rewrite Z.add_0_l; lia).
    pose proof (zlen_ztake (room c1) data ltac:(lia)) as Hk. pose proof (zlen_zdrop (room c1) data ltac:(lia)) as Hk'.
    assert (Hst : c_state (filled c1 (ztake (room c1) data)) = CONNECTION_STATE_HEADER \/
                  c_state (filled c1 (ztake (room c1) data)) = CONNECTION_STATE_INITIAL).
    { destruct (filled_fields c1 (ztake (room c1) data)) as [-> _].
      destruct Hw as (_ & _ & _ & _ & [[? _]|[? _]]); auto. }
    pose proof (frame_header_post (room c1) _ (blank f) (zdrop (room c1) data) (waiting_full c1 _ Hw Hk) Hst
                  ltac:(lia) ltac:(lia)) as Hpost.
    destruct (handle_frame _ _ _ _) as [[v| | |] s']; try done.
    destruct Hpost as (k & -> & Hkb & Hkd & Hok). exists (room c1 + k). split; [lia|]. split; [lia|].
    split; [|done]. by rewrite Hkd, zdrop_zdrop by lia.
Qed.

(** ** Two pieces *)

Lemma blind_data {A} (m : eff input_state A) s : Blind m -> i_data (m s).2 = i_data s.
Proof.
  intros Hm. assert (with_data (i_data s) s = s) as E by (by destruct s).
  specialize (Hm (i_data s) s). rewrite E in Hm. by rewrite Hm.
Qed.

(** How the outcome on [a ++ b] follows from the outcome on [a]: unless a frame is
    still incomplete, [b] is left over; otherwise a second call continues with it. *)
Definition piecewise (n : Z) (a b : list byte) (on_a on_ab : res Z * input_state) : Prop :=
  match on_a with
  | (Ret v, s') =>
      if bool_decide (c_state (i_conn s') = CONNECTION_STATE_IDLE)
      then on_ab = (Ret v, with_data (i_data s' ++ b) s')
      else i_data s' = [] /\ frame_type (i_frame s') = 0 /\
           on_ab = shifted (size_add n (zlen a)) (amqp_handle_input garbage uninit (with_data b s'))
  | (r, s') => on_ab = (r, with_data (i_data s' ++ b) s')
  end.

Lemma piecewise_partial n c f a b :
  roomy c -> c_state c <> CONNECTION_STATE_IDLE -> zlen a < room c ->
  piecewise n a b (gather n (mk_input c (blank f) a)) (gather n (mk_input c (blank f) (a ++ b))).
Proof.
  intros Hr Hs Ha. rewrite gather_partial, (gather_resume n c f a b) by done. unfold piecewise. cbn [i_conn i_data].
  destruct (filled_fields c a) as [-> _]. by rewrite bool_decide_false.
Qed.

Lemma body_piecewise n c p raw f a b :
  body_ready c p raw ->
  piecewise n a b (gather n (mk_input c (blank f) a)) (gather n (mk_input c (blank f) (a ++ b))).
Proof.
  intros Hb. pose proof (body_ready_roomy _ _ _ Hb) as Hr. pose proof (zlen_nonneg b).
  destruct (Z.lt_ge_cases (zlen a) (room c)) as [Hp|Hp].
  { apply piecewise_partial; [done| |done]. destruct Hb as [-> _]. done. }
  assert (0 <= room c) by (destruct Hb as (_ & _ & _ & _ & Ho & _); unfold room; lia).
  rewrite !gather_full by (rewrite ?zlen_app; done || lia).
  rewrite ztake_app_le, zdrop_app_le by lia. pose proof (zlen_ztake (room c) a ltac:(lia)) as Hk.
  destruct (body_ready_filled c p raw (ztake (room c) a) Hb ltac:(lia)) as (Hs' & Hb' & Hl' & Ht' & Ho' & Hh' & Hf').
  set (c' := filled c _) in *. set (raw' := splice _ _ _) in *. set (d := zdrop (room c) a).
  assert (E : forall d, handle_frame garbage uninit (size_add n (room c)) (mk_input c' (blank f) d)
              = body_case uninit (size_add n (room c)) (mk_input c' (blank f) d)).
  { intros d'. unfold handle_frame, raw_frame, get_conn, inbound_bytes. unfold bind at 1 2 3. cbn [i_conn].
    rewrite Hb'. cbn [ret i_conn]. by rewrite Hs'. }
  rewrite !E. change (mk_input c' (blank f) (d ++ b)) with (with_data (d ++ b) (mk_input c' (blank f) d)).
  rewrite blind_body_case. unfold body_case, bind.
  destruct (body_post c' (blank f) d p raw' Hb' Hl' ltac:(lia)) as (s' & [Ed _] & Hpost).
  destruct (handle_body _ _) as [r s2]. destruct Hpost as [_ ->].
  destruct r; simpl; by rewrite Ed.
Qed.

Lemma header_case_piecewise n c f a b :
  header_ready c ->
  piecewise n a b (header_case garbage uninit (c_header_buffer c) n (mk_input c (blank f) a))
    (header_case garbage uninit (c_header_buffer c) n (mk_input c (blank f) (a ++ b))).
Proof.
  intros Hc. pose proof (header_next c (blank f) a Hc) as Hnext.
  pose proof (blind_header (c_header_buffer c) (a ++ b) (mk_input c (blank f) a)) as Hblind.
  unfold with_data in Hblind at 1. cbn [i_conn i_frame] in Hblind. unfold header_case.
  unfold bind at 1. unfold bind at 2. rewrite Hblind.
  pose proof (blind_data _ (mk_input c (blank f) a) (blind_header (c_header_buffer c))) as Hdata.
  destruct (handle_header _ _ _) as [[[]| | |] s']; try done; cbn [fst snd] in *.
  - destruct Hnext as (c' & p & buf & -> & Hb). unfold with_data. cbn [i_conn i_frame].
    rewrite !more_gather by (by eapply body_ready_roomy || apply Hb). by eapply body_piecewise.
  - simpl. by rewrite Hdata.
Qed.

Lemma frame_header_piecewise n c f a b :
  header_ready c -> c_state c = CONNECTION_STATE_HEADER \/ c_state c = CONNECTION_STATE_INITIAL ->
  piecewise n a b (handle_frame garbage uninit n (mk_input c (blank f) a))
    (handle_frame garbage uninit n (mk_input c (blank f) (a ++ b))).
Proof.
  intros Hc [Hs|Hs]; [rewrite !handle_frame_header by done; by apply header_case_piecewise|].
  destruct (handle_frame_initial n c (blank f) Hc Hs) as [[f' E]|E]; rewrite !E; [done|].
  by apply header_case_piecewise.
Qed.

Lemma piecewise_eq n a n' a' b on_a on_ab :
  piecewise n a b on_a on_ab -> size_add n (zlen a) = size_add n' (zlen a') -> piecewise n' a' b on_a on_ab.
Proof. unfold piecewise. by intros Hp <-. Qed.

Lemma input_piecewise c f a b :
  conn_ok c -> a <> [] ->
  piecewise 0 a b (amqp_handle_input garbage uninit (mk_input c f a))
    (amqp_handle_input garbage uninit (mk_input c f (a ++ b))).
Proof.
  intros Hc Ha. rewrite !handle_input_gather by (done || (by apply conn_ok_roomy) || (by destruct a)).
  pose proof (zlen_nonneg b).
  destruct (awake_cases c Hc) as [Hw|(p & raw & Hb & _)]; [|by eapply body_piecewise].
  set (c1 := awake c) in *. destruct (waiting_roomy c1 Hw) as [Hr Hpos].
  destruct (Z.lt_ge_cases (zlen a) (room c1)) as [Hp|Hp].
  { apply piecewise_partial; [done| |done]. destruct Hw as (_ & _ & _ & _ & [[-> _]|[-> _]]); done. }
  rewrite !gather_full by (rewrite ?zlen_app; done || lia). rewrite ztake_app_le, zdrop_app_le by lia.
  pose proof (zlen_ztake (room c1) a ltac:(lia)) as Hk.
  eapply piecewise_eq; [apply frame_header_piecewise; [by apply waiting_full|]|].
  - destruct (filled_fields c1 (ztake (room c1) a)) as [-> _].
    destruct Hw as (_ & _ & _ & _ & [[? _]|[? _]]); auto.
  - rewrite zlen_zdrop by lia. unfold size_add, wrap. rewrite Zplus_mod_idemp_l. f_equal. lia.
Qed.

(** ** Properties *)

(** However the socket cuts the stream, the frames are the same. *)
Lemma input_split c f a b :
  conn_ok c -> a <> [] -> zlen a + zlen b < 2 ^ 31 ->
  let '(r, s) := amqp_handle_input garbage uninit (mk_input c f a) in
  let whole := amqp_handle_input garbage uninit (mk_input c f (a ++ b)) in
  match r with
  | Ret v =>
      if bool_decide (c_state (i_conn s) = CONNECTION_STATE_IDLE)
      then whole = (Ret v, mk_input (i_conn s) (i_frame s) (i_data s ++ b))
      else i_data s = [] /\ frame_type (i_frame s) = 0 /\
           match amqp_handle_input garbage uninit (mk_input (i_conn s) (i_frame s) b) with
           | (Ret w, s') => whole = (Ret (zlen a + w), s')
           | out => whole = out
           end
  | _ => whole = (r, mk_input (i_conn s) (i_frame s) (i_data s ++ b))
  end.
Proof.
  intros Hc Ha Hl. pose proof (input_piecewise c f a b Hc Ha) as Hp.
  zlen_pos. pose proof (input_post c f a Hc Ha ltac:(lia)) as Hpost.
  destruct (amqp_handle_input _ _ _) as [[v| | |] s] eqn:E; try exact Hp.
  unfold piecewise in Hp. case_bool_decide as Hs; [exact Hp|]. destruct Hp as (Hd & Ht & ->). split; [done|]. split; [done|].
  unfold with_data. destruct Hpost as (k & _ & _ & _ & Hok).
  assert (Hw : forall w s', amqp_handle_input garbage uninit (mk_input (i_conn s) (i_frame s) b) = (Ret w, s') ->
               0 <= w <= zlen b).
  { intros w s' Ew. destruct (decide (b = [])) as [->|Hb]; [rewrite handle_input_nil in Ew; by simplify_eq|].
    pose proof (input_post _ (i_frame s) b Hok Hb ltac:(lia)) as Hp. rewrite Ew in Hp.
    destruct Hp as (k' & -> & ? & _). lia. }
  destruct (amqp_handle_input _ _ (mk_input (i_conn s) _ b)) as [[w| | |] s'] eqn:Ew; try done.
  specialize (Hw w s' eq_refl). simpl. rewrite size_add_small by lia. rewrite swrap_small; [done|lia|unfold in_s; lia].
Qed.

(** C11: However the socket cuts the stream, the frames are the same.  If a call on
    [a] completes a frame (or fails), the call on [a ++ b] does exactly the same and
    leaves [b] unread; if the frame is still incomplete, all of [a] has been taken, no
    frame is reported, and continuing with [b] ends with the same result, the same decoded frame and the
    same connection as one call on [a ++ b], the byte counts adding up. *)
Theorem input_chunking c f a b :
  conn_ok c -> a <> [] -> zlen a + zlen b < 2 ^ 31 ->
  let '(r, s) := amqp_handle_input garbage uninit (mk_input c f a) in
  let whole := amqp_handle_input garbage uninit (mk_input c f (a ++ b)) in
  match r with
  | Ret v =>
      if bool_decide (c_state (i_conn s) = CONNECTION_STATE_IDLE)
      then whole = (Ret v, mk_input (i_conn s) (i_frame s) (i_data s ++ b))
      else i_data s = [] /\ frame_type (i_frame s) = 0 /\
           match amqp_handle_input garbage uninit (mk_input (i_conn s) (i_frame s) b) with
           | (Ret w, s') => whole = (Ret (zlen a + w), s')
           | out => whole = out
           end
  | _ => whole = (r, mk_input (i_conn s) (i_frame s) (i_data s ++ b))
  end.
Proof. apply input_split. Qed.

(** A call is safe and makes progress. *)
Lemma input_bounds c f data :
  conn_ok c -> data <> [] -> zlen data < 2 ^ 31 ->
  match amqp_handle_input garbage uninit (mk_input c f data) with
  | (Ret n, s') => conn_ok (i_conn s') /\ 0 < n <= zlen data /\ i_data s' = zdrop n data
  | (Err st, s') => input_err st \/ bad_frame s'
  | (Undef, s') | (NoFuel, s') => bad_frame s'
  end.
Proof.
  intros Hc Hd Hl. pose proof (input_post c f data Hc Hd Hl) as Hp.
  destruct (amqp_handle_input _ _ _) as [[n| | |] s']; try done.
  destruct Hp as (k & -> & Hk & Hs & Hok). split; [done|]. split; [lia|done].
Qed.


End Input.

(** *** Witnesses *)

Definition zeros (_ : addr) (n : Z) : list byte := replicate (Z.to_nat n) x00.

Lemma zeros_len a n : 0 <= n -> zlen (zeros a n) = n.
Proof. intros. unfold zeros, zlen. rewrite length_replicate. lia. Qed.

(** Channel 1 has the pool of [demo_memory]. *)
Definition demo_conn (s : amqp_connection_state_enum) (target : Z) : conn :=
  mk_conn s 131072 (replicate 8 x00) IB_header 0 target (<[1%nat := [(1, 1)]]> empty_pool_table) demo_memory.
Definition demo_idle : conn := demo_conn CONNECTION_STATE_IDLE HEADER_SIZE.
Definition demo_initial : conn := demo_conn CONNECTION_STATE_INITIAL 8.
Definition no_frame : amqp_frame_t := mk_frame 0 0 PL_none.

Lemma demo_idle_ok : conn_ok demo_idle.
Proof. repeat split; by vm_compute. Qed.

(** A heartbeat, and a method frame of a foreign method, on channel 1. *)
Definition heartbeat : list byte := [x08; x00; x00; x00; x00; x00; x00; xce].
Definition partial_method : list byte := [x01; x00; x01; x00; x00; x00; x04; x00].

Example input_chunking_witness :
  let '(r, s) := amqp_handle_input (H := little_endian) zeros zero_basic (mk_input demo_idle no_frame partial_method) in
  let whole := amqp_handle_input (H := little_endian) zeros zero_basic
                 (mk_input demo_idle no_frame (partial_method ++ [x63; x00; x01; xce])) in
  r = Ret 8 /\ i_data s = [] /\
  match amqp_handle_input (H := little_endian) zeros zero_basic
          (mk_input (i_conn s) (i_frame s) [x63; x00; x01; xce]) with
  | (Ret w, s') => whole = (Ret (8 + w), s')
  | out => whole = out
  end.
Proof.
  pose proof (input_chunking (H := little_endian) zeros zero_basic zeros_len demo_idle no_frame partial_method
                [x63; x00; x01; xce] demo_idle_ok ltac:(done) ltac:(by vm_compute)) as Hp.
  destruct (amqp_handle_input _ _ (mk_input demo_idle no_frame partial_method)) as [r s] eqn:E.
  assert (r = Ret 8 /\ c_state (i_conn s) = CONNECTION_STATE_BODY) as [-> Es].
  { vm_compute in E. injection E as <- <-. by vm_compute. }
  cbv zeta iota in Hp. rewrite Es in Hp. destruct Hp as (Hd & _ & Hw). split; [done|]. split; [exact Hd|]. exact Hw.
Defined.


(** The first frame of a connection, if it is not a protocol header, loses the
    byte after its header: eight bytes are collected, seven are copied to the frame's
    buffer, and the count stays at eight.  A heartbeat that an idle connection accepts
    is rejected in the initial state. *)
Theorem input_initial_loses_byte :
  let '(r, s) := amqp_handle_input (H := little_endian) zeros zero_basic (mk_input demo_idle no_frame heartbeat) in
  r = Ret 8 /\ frame_type (i_frame s) = AMQP_FRAME_HEARTBEAT /\
  (amqp_handle_input (H := little_endian) zeros zero_basic (mk_input demo_initial no_frame heartbeat)).1
  = Err AMQP_STATUS_BAD_AMQP_DATA.
Proof. by vm_compute. Qed.

(** A method frame without room for its id and a header frame without its fixed
    part are read past their end. *)
Theorem input_short_frame_undefined :
  (amqp_handle_input (H := little_endian) zeros zero_basic
     (mk_input demo_idle no_frame [x01; x00; x01; x00; x00; x00; x00; xce])).1 = Undef /\
  (amqp_handle_input (H := little_endian) zeros zero_basic
     (mk_input demo_idle no_frame [x02; x00; x01; x00; x00; x00; x00; xce])).1 = Undef.
Proof. by vm_compute. Qed.
