(* ===== verification/FrameSpec.v ===== *)
(** * Frames survive the wire: [amqp_frame_to_bytes] against [amqp_handle_input] *)

From S2P Require Import Prelude Status Memory Layout Pool PoolMem Codec Table TableSpec MethodCodec.
From S2P Require Import MethodTypes MethodDecode MethodEncode MethodSpec Properties PropertiesSpec.
From S2P Require Import Connection ConnectionSpec.

(** ** The wire format of a frame *)

Definition wire_payload (pl : frame_payload) : list byte :=
  match pl with
  | PL_body bs => bs
  | PL_method id d => be_bytes 4 id ++ wire_method d
  | PL_properties class_id body_size d _ =>
      be_bytes 2 class_id ++ be_bytes 2 0 ++ be_bytes 8 body_size ++ wire_properties d
  | PL_none | PL_protocol_header _ _ _ _ => []
  end.

Definition frame_bytes (type channel : Z) (body : list byte) : list byte :=
  be_bytes 1 type ++ be_bytes 2 channel ++ be_bytes 4 (zlen body) ++ body ++ be_bytes 1 AMQP_FRAME_END.

Definition wire_frame (f : amqp_frame_t) : list byte :=
  frame_bytes (frame_type f) (channel f) (wire_payload (payload f)).

(** A frame whose union member is the one of its type, in range. *)
Definition frame_ok (f : amqp_frame_t) : Prop :=
  in_u 16 (channel f) /\
  match payload f with
  | PL_none => frame_type f = AMQP_FRAME_HEARTBEAT
  | PL_method id d => frame_type f = AMQP_FRAME_METHOD /\ id = method_id d /\ method_ok d
  | PL_properties class_id body_size d _ =>
      frame_type f = AMQP_FRAME_HEADER /\ class_id = properties_class d /\ in_u 64 body_size /\ properties_ok d
  | PL_body _ => frame_type f = AMQP_FRAME_BODY
  | PL_protocol_header _ _ _ _ => False
  end.

(** ** Output *)

Section Output.
Context `{Host}.

Lemma out_write_fits o bs buf :
  0 <= o -> o + zlen bs <= zlen buf -> out_write o bs buf = (Ret tt, splice buf o bs).
Proof. intros. unfold out_write. by rewrite store_fits. Qed.

(** Writing into a window of the buffer is writing into the buffer. *)
Lemma splice_window buf o len bs :
  0 <= o -> o + len <= zlen buf -> zlen bs <= len ->
  splice buf o (splice (ztake len (zdrop o buf)) 0 bs) = splice buf o bs.
Proof.
  intros Ho Hl Hb. zlen_pos. unfold splice at 2. change (ztake 0 _) with (@nil byte). rewrite app_nil_l, Z.add_0_l.
  set (rest := zdrop (zlen bs) _). assert (E : splice buf o (bs ++ rest) = splice (splice buf o bs) (o + zlen bs) rest).
  { by rewrite splice_app by lia. }
  assert (Hr : zlen rest = len - zlen bs).
  { unfold rest. rewrite zlen_zdrop by (rewrite zlen_ztake; rewrite ?zlen_zdrop; lia).
    rewrite zlen_ztake; rewrite ?zlen_zdrop; lia. }
  unfold splice. rewrite <- !app_assoc. do 2 f_equal. rewrite zlen_app, Hr.
  unfold rest, ztake, zdrop. rewrite skipn_firstn_comm, drop_drop.
  rewrite <- (take_drop (Z.to_nat len - Z.to_nat (zlen bs)) (drop (Z.to_nat (o + zlen bs)) buf)).
  replace (Z.to_nat o + Z.to_nat (zlen bs))%nat with (Z.to_nat (o + zlen bs)) by lia. f_equal.
  rewrite drop_drop. f_equal. lia.
Qed.

Lemma run_encoder_fits o len e bs buf :
  0 <= o -> 0 <= len -> o + len <= zlen buf -> zlen bs <= len ->
  (forall sub, zlen sub = len -> e (mk_enc sub 0) = (Ret (zlen bs), mk_enc (splice sub 0 bs) (zlen bs))) ->
  run_encoder o len e buf = (Ret (zlen bs), splice buf o bs).
Proof.
  intros Ho Hl Hfit Hb He. zlen_pos. unfold run_encoder. rewrite load_fits by lia.
  pose proof (zlen_zdrop o buf ltac:(lia)). pose proof (zlen_ztake len (zdrop o buf) ltac:(lia)) as Hs.
  rewrite He by done. cbn [e_buf].
  rewrite store_fits by (rewrite ?zlen_splice; lia). by rewrite splice_window by lia.
Qed.

(** The part of [amqp_frame_to_bytes] between the channel and the length. *)
Lemma frame_bytes_written type ch body buf (m : eff (list byte) Z) :
  zlen (frame_bytes type ch body) <= zlen buf -> zlen buf < 2 ^ 31 ->
  (forall b, zlen b = zlen buf -> m b = (Ret (zlen body), splice b HEADER_SIZE body)) ->
  (do! out_write 0 (amqp_e8 type) in
   do! out_write 1 (amqp_e16 ch) in
   let! out_frame_len := m in
   do! out_write 3 (amqp_e32 (wrap 32 out_frame_len)) in
   do! out_write (HEADER_SIZE + out_frame_len) (amqp_e8 AMQP_FRAME_END) in
   ret (out_frame_len + HEADER_SIZE + FOOTER_SIZE)) buf
  = (Ret (zlen (frame_bytes type ch body)), splice buf 0 (frame_bytes type ch body)).
Proof.
  unfold frame_bytes, HEADER_SIZE, FOOTER_SIZE. rewrite !zlen_app, !zlen_be_bytes. intros Hfit Hbuf Hm. zlen_pos.
  rewrite !amqp_e8_network, amqp_e16_network.
  erewrite bind_step by (apply out_write_fits; rewrite ?zlen_be_bytes; lia).
  erewrite bind_step by (apply out_write_fits; rewrite ?zlen_splice, ?zlen_be_bytes; rewrite ?zlen_be_bytes; lia).
  change 1 with (0 + zlen (be_bytes 1 type)) at 2. rewrite splice_app by (rewrite ?zlen_be_bytes; lia).
  set (h := be_bytes 1 type ++ be_bytes 2 ch). assert (Hh : zlen h = 3) by (unfold h; by rewrite zlen_app, !zlen_be_bytes).
  erewrite bind_step by (apply Hm; rewrite zlen_splice; lia). cbv beta.
  rewrite amqp_e32_network, wrap_small by (unfold in_u; lia).
  set (l := be_bytes 4 (zlen body)). assert (Hl : zlen l = 4) by (unfold l; by rewrite zlen_be_bytes).
  assert (Hb0 : zlen (splice buf 0 h) = zlen buf) by (rewrite zlen_splice; lia).
  erewrite bind_step by (apply out_write_fits; rewrite ?zlen_splice; lia).
  set (e := be_bytes 1 AMQP_FRAME_END). assert (He : zlen e = 1) by (unfold e; by rewrite zlen_be_bytes).
  assert (splice (splice (splice buf 0 h) 7 body) 3 l = splice buf 0 (h ++ l ++ body)) as ->.
  { replace 7 with (3 + zlen l) by lia. rewrite splice_before by lia.
    replace 3 with (0 + zlen h) by lia. by rewrite splice_app by lia. }
  pose proof (zlen_app h (l ++ body)) as Hall. rewrite (zlen_app l body) in Hall.
  assert (zlen (splice buf 0 (h ++ l ++ body)) = zlen buf) as Hb1 by (rewrite zlen_splice; lia).
  erewrite bind_step by (apply out_write_fits; lia).
  replace (7 + zlen body) with (0 + zlen (h ++ l ++ body)) by lia. rewrite splice_app by lia.
  unfold ret. apply (f_equal2 pair); [f_equal; change (Z.of_nat 1) with 1; change (Z.of_nat 2) with 2; change (Z.of_nat 4) with 4; lia|].
  done.
Qed.

Lemma method_id_range d : in_u 32 (method_id d).
Proof. destruct d; by vm_compute. Qed.

Lemma properties_class_range d : in_u 16 (properties_class d).
Proof. destruct d; by vm_compute. Qed.

Lemma method_payload_written d buf :
  method_ok d -> HEADER_SIZE + 4 + zlen (wire_method d) + FOOTER_SIZE <= zlen buf -> zlen buf < 2 ^ 31 ->
  (do! out_write HEADER_SIZE (amqp_e32 (method_id d)) in
   let! res := run_encoder (HEADER_SIZE + 4)
                 (size_sub (size_sub (size_sub (zlen buf) HEADER_SIZE) 4) FOOTER_SIZE)
                 (amqp_encode_method (method_id d) d) in
   if res <? 0 then fail res else ret (res + 4)) buf
  = (Ret (zlen (wire_payload (PL_method (method_id d) d))),
     splice buf HEADER_SIZE (wire_payload (PL_method (method_id d) d))).
Proof.
  unfold HEADER_SIZE, FOOTER_SIZE, size_sub. intros Hok Hfit Hbuf. zlen_pos. rewrite amqp_e32_network.
  pose proof (zlen_be_bytes 4 (method_id d)) as H4. change (Z.of_nat 4) with 4 in H4.
  erewrite bind_step by (apply out_write_fits; lia).
  rewrite (wrap_small _ (zlen buf - 7)) by (unfold in_u; lia).
  rewrite (wrap_small _ (zlen buf - 7 - 4)) by (unfold in_u; lia). rewrite wrap_small by (unfold in_u; lia).
  erewrite bind_step.
  2:{ apply (run_encoder_fits _ _ _ (wire_method d)); rewrite ?zlen_splice; try lia.
      intros sub Hs. apply encode_method_fits; [done|lia|lia]. }
  cbv beta. destruct (Z.ltb_spec (zlen (wire_method d)) 0); [lia|]. unfold ret, wire_payload.
  rewrite zlen_app, H4. replace (7 + 4) with (7 + zlen (be_bytes 4 (method_id d))) by lia.
  rewrite splice_app by lia. do 2 f_equal. lia.
Qed.

Lemma header_payload_written d size raw buf :
  properties_ok d -> HEADER_SIZE + 12 + zlen (wire_properties d) + FOOTER_SIZE <= zlen buf -> zlen buf < 2 ^ 31 ->
  let pl := PL_properties (properties_class d) size d raw in
  (do! out_write HEADER_SIZE (amqp_e16 (properties_class d)) in
   do! out_write (HEADER_SIZE + 2) (amqp_e16 0) in
   do! out_write (HEADER_SIZE + 4) (amqp_e64 size) in
   let! res := run_encoder (HEADER_SIZE + 12)
                 (size_sub (size_sub (size_sub (zlen buf) HEADER_SIZE) 12) FOOTER_SIZE)
                 (amqp_encode_properties (properties_class d) d) in
   if res <? 0 then fail res else ret (res + 12)) buf
  = (Ret (zlen (wire_payload pl)), splice buf HEADER_SIZE (wire_payload pl)).
Proof.
  unfold HEADER_SIZE, FOOTER_SIZE, size_sub. intros Hok Hfit Hbuf. zlen_pos.
  rewrite !amqp_e16_network, amqp_e64_network.
  set (a := be_bytes 2 (properties_class d)). assert (Ha : zlen a = 2) by apply zlen_be_bytes.
  set (b := be_bytes 2 0). assert (Hb : zlen b = 2) by apply zlen_be_bytes.
  set (c := be_bytes 8 size). assert (Hc : zlen c = 8) by apply zlen_be_bytes.
  erewrite bind_step by (apply out_write_fits; lia).
  erewrite bind_step by (apply out_write_fits; rewrite ?zlen_splice; lia).
  replace (7 + 2) with (7 + zlen a) by lia. rewrite splice_app by lia. pose proof (zlen_app a b) as Hab.
  erewrite bind_step by (apply out_write_fits; rewrite ?zlen_splice; lia).
  replace (7 + 4) with (7 + zlen (a ++ b)) by lia. rewrite splice_app by lia.
  pose proof (zlen_app (a ++ b) c) as Habc.
  rewrite (wrap_small _ (zlen buf - 7)) by (unfold in_u; lia).
  rewrite (wrap_small _ (zlen buf - 7 - 12)) by (unfold in_u; lia). rewrite wrap_small by (unfold in_u; lia).
  erewrite bind_step.
  2:{ apply (run_encoder_fits _ _ _ (wire_properties d)); rewrite ?zlen_splice; try lia.
      intros sub Hs. apply encode_properties_fits; [done|lia|lia]. }
  cbv beta. destruct (Z.ltb_spec (zlen (wire_properties d)) 0); [lia|].
  replace (7 + 12) with (7 + zlen ((a ++ b) ++ c)) by lia. rewrite splice_app by lia.
  unfold ret, wire_payload. fold a b c. rewrite <- !app_assoc. do 2 f_equal. rewrite !zlen_app. lia.
Qed.

Lemma frame_to_bytes_fits f buf :
  frame_ok f -> zlen (wire_frame f) <= zlen buf -> zlen buf < 2 ^ 31 ->
  amqp_frame_to_bytes f buf = (Ret (zlen (wire_frame f)), splice buf 0 (wire_frame f)).
Proof.
  intros [_ Hok] Hfit Hbuf. unfold amqp_frame_to_bytes, wire_frame in *. cbv zeta.
  apply frame_bytes_written; [done|done|]. intros b Hb. rewrite <- Hb.
  assert (Hl : HEADER_SIZE + zlen (wire_payload (payload f)) + FOOTER_SIZE <= zlen b).
  { rewrite Hb. revert Hfit. unfold frame_bytes, HEADER_SIZE, FOOTER_SIZE. rewrite !zlen_app, !zlen_be_bytes. lia. }
  zlen_pos. destruct (payload f) as [|id d|class_id size d raw|bs|]; [..|done].
  - rewrite Hok. simpl. by rewrite splice_nil.
  - destruct Hok as (-> & -> & Hok). apply method_payload_written; [done| |lia].
    revert Hl. unfold wire_payload. rewrite zlen_app, zlen_be_bytes. lia.
  - destruct Hok as (-> & -> & _ & Hok). apply (header_payload_written d size raw); [done| |lia].
    revert Hl. unfold wire_payload. rewrite !zlen_app, !zlen_be_bytes. lia.
  - rewrite Hok. simpl. unfold bind. unfold HEADER_SIZE, FOOTER_SIZE in *. simpl in Hl.
    by rewrite out_write_fits by lia.
Qed.

End Output.

(** ** Input *)

(** What the receiver sees of a frame: properties that were not sent keep what the
    memory held, and the raw header stands beside the decoded one. *)
Definition received (uninit : amqp_basic_properties_t) (f : amqp_frame_t) : amqp_frame_t :=
  mk_frame (frame_type f) (channel f)
    match payload f with
    | PL_properties class_id size d _ =>
        PL_properties class_id size (merge_properties uninit d) (wire_properties d)
    | pl => pl
    end.

Section Input.
Context `{Host}.
Context (garbage : addr -> Z -> list byte) (uninit : amqp_basic_properties_t).
Hypothesis Hgarbage : forall a n, 0 <= n -> zlen (garbage a n) = n.
Context {Laws : MemLaws memory Z}.

(** From [m] to [m'], at most [n] allocations were made through the pool [p]. *)
Definition spends (p n : Z) (m m' : memory) : Prop :=
  forall k, 0 <= k -> plenty p (k + n) m -> plenty p k m'.

Lemma spends_trans p n n' m m1 m2 : 0 <= n' -> spends p n m m1 -> spends p n' m1 m2 -> spends p (n + n') m m2.
Proof.
  intros Hn H1 H2 k Hk Hp. apply H2; [done|]. apply H1; [lia|].
  by rewrite <- Z.add_assoc, (Z.add_comm n').
Qed.

Lemma spends_mono p n n' m m' : 0 <= n <= n' -> spends p n m m' -> spends p n' m m'.
Proof. intros Hn Hs k Hk Hp. apply Hs; [done|]. apply (plenty_mono _ _ _ _ Hp). lia. Qed.

Lemma spends_refl p n m : 0 <= n -> spends p n m m.
Proof. intros Hn k Hk Hp. apply (plenty_mono _ _ _ _ Hp). lia. Qed.

Lemma raw_read_at n (k : nat) d raw o v s :
  at_off raw o (be_bytes k v) -> n = Z.of_nat k -> (forall bs, length bs = k -> d bs = be_val bs) ->
  0 <= v < 256 ^ n -> raw_read n d raw o s = (Ret v, s).
Proof.
  intros Hat -> Hd Hv. unfold raw_read. rewrite (at_off_load _ _ _ _ Hat) by (by rewrite zlen_be_bytes).
  rewrite Hd by apply length_be_bytes. by rewrite be_val_bytes, Z.mod_small by lia.
Qed.

Lemma set_pools_same c : set_pools c (c_pool_table c) (c_mem c) = c.
Proof. by destruct c. Qed.

Lemma channel_pool_found ch c f d p :
  amqp_get_channel_pool (c_pool_table c) ch = Some p ->
  channel_pool ch (mk_input c f d) = (Ret p, mk_input c f d).
Proof.
  intros E. unfold channel_pool, amqp_get_or_create_channel_pool. cbn [i_conn i_frame i_data].
  unfold amqp_get_channel_pool in E. rewrite E. by rewrite set_pools_same.
Qed.

(** The header of a frame that fits, for a channel that has a pool. *)
Lemma header_found type ch n c f d raw p k :
  in_u 16 ch -> in_u 32 n -> at_off raw 0 (be_bytes 1 type ++ be_bytes 2 ch ++ be_bytes 4 n) ->
  zlen (c_header_buffer c) = HEADER_SIZE + 1 -> 0 <= c_frame_max c <= 2 ^ 30 ->
  n + HEADER_SIZE + FOOTER_SIZE <= c_frame_max c ->
  amqp_get_channel_pool (c_pool_table c) ch = Some p -> 0 <= k -> plenty p (k + 1) (c_mem c) ->
  exists a m', plenty p k m' /\ spends p 1 (c_mem c) m' /\
  let size := n + HEADER_SIZE + FOOTER_SIZE in
  let buf := splice (garbage a size) 0 (ztake HEADER_SIZE (c_header_buffer c)) in
  handle_header garbage raw (mk_input c f d)
  = (Ret tt, mk_input (mk_conn CONNECTION_STATE_BODY (c_frame_max c) (c_header_buffer c) (IB_region a buf)
                         (c_inbound_offset c) size (c_pool_table c) m') f d).
Proof.
  unfold HEADER_SIZE, FOOTER_SIZE. intros Hch Hn Hat Hh Hf Hfit Hp Hk Hpl.
  apply at_off_app in Hat as [_ Hat]. apply at_off_app in Hat as [H1 H2]. rewrite !zlen_be_bytes in *.
  change (0 + Z.of_nat 1) with 1 in *. change (1 + Z.of_nat 2) with 3 in *.
  destruct (plenty_pool_alloc p (c_mem c) k (n + 7 + 1) Hpl Hk ltac:(unfold in_u in *; lia)) as (a & m' & Ea & Hm').
  exists a, m'. split; [done|]. split.
  { intros j Hj Hpj. destruct (plenty_pool_alloc p (c_mem c) j (n + 7 + 1) Hpj Hj ltac:(unfold in_u in *; lia)) as (a2 & m2 & Ea2 & Hm2).
    rewrite Ea in Ea2. by simplify_eq. }
  unfold handle_header, raw_d16, raw_d32.
  rewrite (bind_step _ _ _ _ _ (raw_read_at 2 2 _ raw 1 ch _ H1 eq_refl amqp_d16_network Hch)).
  rewrite (bind_step _ _ _ _ _ (raw_read_at 4 4 _ raw 3 n _ H2 eq_refl amqp_d32_network Hn)).
  unfold in_u in *. destruct (Z.leb_spec INT32_MAX n); [unfold INT32_MAX in *; lia|].
  unfold bind at 1, get_conn at 1. cbn [i_conn]. unfold HEADER_SIZE, FOOTER_SIZE.
  rewrite (wrap_small 32) by (unfold in_u; lia). rewrite (wrap_small 64) by (unfold in_u; lia).
  unfold put_conn at 1, bind at 1. cbn [i_frame i_data].
  destruct (Z.ltb_spec (c_frame_max c) (n + 7 + 1)); [lia|].
  rewrite (bind_step _ _ _ _ _ (channel_pool_found ch (set_target c (n + 7 + 1)) f d p Hp)).
  unfold bind at 1, get_conn. cbn [i_conn c_mem set_target]. rewrite Ea. cbn [c_header_buffer set_pools set_target].
  rewrite load_fits by lia. change (zdrop 0 (c_header_buffer c)) with (c_header_buffer c).
  pose proof (zlen_ztake 7 (c_header_buffer c) ltac:(lia)). pose proof (Hgarbage a (n + 7 + 1) ltac:(lia)).
  by rewrite store_fits by lia.
Qed.

Lemma zlen_frame_bytes type ch body : zlen (frame_bytes type ch body) = zlen body + HEADER_SIZE + FOOTER_SIZE.
Proof. unfold frame_bytes, HEADER_SIZE, FOOTER_SIZE. rewrite !zlen_app, !zlen_be_bytes. lia. Qed.

Lemma frame_bytes_at type ch body :
  let raw := frame_bytes type ch body in
  at_off raw 0 (be_bytes 1 type) /\ at_off raw 1 (be_bytes 2 ch) /\ at_off raw HEADER_SIZE body /\
  at_off raw (zlen raw - 1) (be_bytes 1 AMQP_FRAME_END).
Proof.
  intros raw. pose proof (zlen_frame_bytes type ch body) as Hl. fold raw in Hl.
  pose proof (at_off_whole raw) as Hat. unfold raw at 2, frame_bytes in Hat.
  apply at_off_app in Hat as [H1 Hat]. apply at_off_app in Hat as [H2 Hat]. apply at_off_app in Hat as [_ Hat].
  apply at_off_app in Hat as [H3 H4]. rewrite !zlen_be_bytes in *. split; [done|]. split; [done|]. split; [done|].
  replace (zlen raw - 1) with (0 + Z.of_nat 1 + Z.of_nat 2 + Z.of_nat 4 + zlen body); [done|].
  rewrite Hl. unfold HEADER_SIZE, FOOTER_SIZE. lia.
Qed.

(** A payload decoder that gets all of the bytes it parses. *)
Lemma run_decoder_parses {A} (d : list byte -> eff (dec_state memory) A) bs (x : A) c f data p :
  ParsesNew bs p (d bs) bs x -> plenty p (zlen bs + 1) (c_mem c) ->
  exists m', spends p (zlen bs + 1) (c_mem c) m' /\
    run_decoder (d bs) (mk_input c f data) = (Ret x, mk_input (set_pools c (c_pool_table c) m') f data).
Proof.
  intros Hp Hpl. unfold run_decoder. cbn [i_conn i_frame i_data].
  destruct (Hp 0 (c_mem c) (at_off_whole bs)) as [(m' & E & Hs)|(Hn & _)]; [|done].
  exists m'. split; [|by rewrite E]. intros k Hk Hpk. apply Hs; [done|]. by rewrite <- Z.add_assoc.
Qed.

(** What stands between the fixed part of a payload and the footer. *)
Lemma payload_at type ch fixed rest o :
  let raw := frame_bytes type ch (fixed ++ rest) in
  zlen raw <= 2 ^ 30 -> o = HEADER_SIZE + zlen fixed -> payload_from raw (zlen raw) o = Some rest.
Proof.
  intros raw Hl ->. pose proof (zlen_frame_bytes type ch (fixed ++ rest)) as E. fold raw in E. rewrite zlen_app in E.
  destruct (frame_bytes_at type ch (fixed ++ rest)) as (_ & _ & Hat & _). fold raw in Hat.
  apply at_off_app in Hat as [_ Hat]. zlen_pos. unfold HEADER_SIZE, FOOTER_SIZE in *.
  unfold payload_from, size_sub. rewrite (wrap_small _ (zlen raw - _)) by (unfold in_u; lia).
  rewrite wrap_small by (unfold in_u, FOOTER_SIZE; lia). apply at_off_load; [done|]. unfold FOOTER_SIZE. lia.
Qed.

Lemma method_frame_decoded d ch c f data p :
  let raw := frame_bytes AMQP_FRAME_METHOD ch (wire_payload (PL_method (method_id d) d)) in
  method_ok d -> zlen raw <= 2 ^ 30 -> plenty p (zlen (wire_method d) + 1) (c_mem c) ->
  exists m', spends p (zlen (wire_method d) + 1) (c_mem c) m' /\
    decode_method_frame p raw (zlen raw) (mk_input c f data)
    = (Ret (PL_method (method_id d) d), mk_input (set_pools c (c_pool_table c) m') f data).
Proof.
  intros raw Hok Hl Hpl. unfold decode_method_frame, raw_d32.
  destruct (frame_bytes_at AMQP_FRAME_METHOD ch (wire_payload (PL_method (method_id d) d))) as (_ & _ & Hat & _).
  fold raw in Hat. apply at_off_app in Hat as [Hat _].
  rewrite (bind_step _ _ _ _ _ (raw_read_at 4 4 _ raw HEADER_SIZE _ _ Hat eq_refl amqp_d32_network (method_id_range d))).
  unfold raw at 1 2. unfold wire_payload. rewrite payload_at by (done || by rewrite zlen_be_bytes).
  assert (zlen (wire_method d) <= 2 ^ 30).
  { revert Hl. unfold raw. rewrite zlen_frame_bytes. unfold wire_payload, HEADER_SIZE, FOOTER_SIZE.
    rewrite zlen_app, zlen_be_bytes. lia. }
  destruct (run_decoder_parses (fun bs => amqp_decode_method bs p (method_id d)) (wire_method d) d c f data p)
    as (m' & Hs & E); [by apply method_parses|done|].
  exists m'. split; [done|]. by rewrite (bind_step _ _ _ _ _ E).
Qed.

Lemma header_frame_decoded d size raw0 ch c f data p :
  let raw := frame_bytes AMQP_FRAME_HEADER ch (wire_payload (PL_properties (properties_class d) size d raw0)) in
  properties_ok d -> in_u 64 size -> zlen raw <= 2 ^ 30 -> plenty p (zlen (wire_properties d) + 1) (c_mem c) ->
  exists m', spends p (zlen (wire_properties d) + 1) (c_mem c) m' /\
    decode_header_frame uninit p raw (zlen raw) (mk_input c f data)
    = (Ret (PL_properties (properties_class d) size (merge_properties uninit d) (wire_properties d)),
       mk_input (set_pools c (c_pool_table c) m') f data).
Proof.
  intros raw Hok Hsz Hl Hpl. unfold decode_header_frame, raw_d16, raw_d64.
  destruct (frame_bytes_at AMQP_FRAME_HEADER ch (wire_payload (PL_properties (properties_class d) size d raw0)))
    as (_ & _ & Hat & _).
  fold raw in Hat. apply at_off_app in Hat as [H1 Hat]. apply at_off_app in Hat as [_ Hat].
  apply at_off_app in Hat as [H2 _]. rewrite !zlen_be_bytes in *. rewrite <- Z.add_assoc in H2.
  change (Z.of_nat 2 + Z.of_nat 2) with 4 in H2.
  rewrite (bind_step _ _ _ _ _ (raw_read_at 2 2 _ raw HEADER_SIZE _ _ H1 eq_refl amqp_d16_network (properties_class_range d))).
  rewrite (bind_step _ _ _ _ _ (raw_read_at 8 8 _ raw (HEADER_SIZE + 4) _ _ H2 eq_refl amqp_d64_network Hsz)).
  assert (Hraw : raw = frame_bytes AMQP_FRAME_HEADER ch
    ((be_bytes 2 (properties_class d) ++ be_bytes 2 0 ++ be_bytes 8 size) ++ wire_properties d)).
  { unfold raw, wire_payload. by rewrite <- !app_assoc. }
  rewrite Hraw. rewrite payload_at by (rewrite <- ?Hraw, ?zlen_app, ?zlen_be_bytes; done).
  assert (zlen (wire_properties d) <= 2 ^ 30).
  { revert Hl. rewrite Hraw, zlen_frame_bytes. unfold HEADER_SIZE, FOOTER_SIZE.
    rewrite !zlen_app, !zlen_be_bytes. lia. }
  destruct (run_decoder_parses (fun bs => amqp_decode_properties bs p uninit (properties_class d))
              (wire_properties d) (merge_properties uninit d) c f data p) as (m' & Hs & E);
    [by apply properties_parses|done|].
  exists m'. split; [done|]. by rewrite (bind_step _ _ _ _ _ E).
Qed.

Lemma frame_type_range f : frame_ok f -> in_u 8 (frame_type f).
Proof. intros [_ Hok]. destruct (payload f); [rewrite Hok|destruct Hok as [-> _]..|rewrite Hok|]; done. Qed.

Lemma payload_received f c data p :
  let raw := wire_frame f in let type := frame_type f in let ch := channel f in
  frame_ok f -> zlen raw <= 2 ^ 30 -> plenty p (zlen raw) (c_mem c) ->
  exists m', spends p (zlen raw) (c_mem c) m' /\
  switch type
    [(AMQP_FRAME_METHOD,
       let! pl := decode_method_frame p raw (zlen raw) in put_frame (mk_frame type ch pl));
     (AMQP_FRAME_HEADER,
       let! pl := decode_header_frame uninit p raw (zlen raw) in put_frame (mk_frame type ch pl));
     (AMQP_FRAME_BODY,
       match load raw HEADER_SIZE (size_sub (size_sub (zlen raw) HEADER_SIZE) FOOTER_SIZE) with
       | Some bs => put_frame (mk_frame type ch (PL_body bs))
       | None => undef
       end);
     (AMQP_FRAME_HEARTBEAT, ret tt)]
    (put_frame (mk_frame 0 ch PL_none)) (mk_input c (mk_frame type ch PL_none) data)
  = (Ret tt, mk_input (set_pools c (c_pool_table c) m') (received uninit f) data).
Proof.
  destruct f as [type ch pl]. intros raw type' ch' [Hch Hok] Hl Hpl.
  pose proof (zlen_frame_bytes type ch (wire_payload pl)) as El. unfold HEADER_SIZE, FOOTER_SIZE in El.
  subst type' ch'. cbn [payload frame_type channel] in *. change (zlen raw = zlen (wire_payload pl) + 7 + 1) in El.
  unfold received. cbn [payload frame_type channel].
  destruct pl as [|id d|class_id size d raw0|bs|]; [..|done].
  - subst type. exists (c_mem c). split; [apply spends_refl, zlen_nonneg|]. simpl. by rewrite set_pools_same.
  - destruct Hok as (-> & -> & Hok).
    destruct (method_frame_decoded d ch c (mk_frame AMQP_FRAME_METHOD ch PL_none) data p Hok Hl) as (m' & Hs & E).
    { apply (plenty_mono _ _ _ _ Hpl). revert El. unfold wire_payload. rewrite zlen_app, zlen_be_bytes. zlen_pos. lia. }
    exists m'. split; [|exact (bind_step _ _ _ _ _ E)]. apply (spends_mono _ _ _ _ _) with (2 := Hs).
    revert El. unfold wire_payload. rewrite zlen_app, zlen_be_bytes. zlen_pos. lia.
  - destruct Hok as (-> & -> & Hsz & Hok).
    destruct (header_frame_decoded d size raw0 ch c (mk_frame AMQP_FRAME_HEADER ch PL_none) data p Hok Hsz Hl) as (m' & Hs & E).
    { apply (plenty_mono _ _ _ _ Hpl). revert El. unfold wire_payload. rewrite !zlen_app, !zlen_be_bytes. zlen_pos. lia. }
    exists m'. split; [|exact (bind_step _ _ _ _ _ E)]. apply (spends_mono _ _ _ _ _) with (2 := Hs).
    revert El. unfold wire_payload. rewrite !zlen_app, !zlen_be_bytes. zlen_pos. lia.
  - subst type. exists (c_mem c). split; [apply spends_refl, zlen_nonneg|]. simpl switch. pose proof (payload_at AMQP_FRAME_BODY ch [] bs HEADER_SIZE Hl eq_refl) as E.
    unfold payload_from in E. change (frame_bytes _ _ _) with raw in E. rewrite E. by rewrite set_pools_same.
Qed.

Lemma body_received f c f0 data a p :
  frame_ok f -> c_inbound_buffer c = IB_region a (wire_frame f) -> zlen (wire_frame f) = c_target_size c ->
  c_target_size c <= 2 ^ 30 -> amqp_get_channel_pool (c_pool_table c) (channel f) = Some p ->
  plenty p (zlen (wire_frame f)) (c_mem c) ->
  exists m', spends p (zlen (wire_frame f)) (c_mem c) m' /\ handle_body uninit (mk_input c f0 data)
    = (Ret tt, mk_input (return_to_idle (set_pools c (c_pool_table c) m')) (received uninit f) data).
Proof.
  intros Hok Hb Hl Hm Hp Hpl. unfold handle_body, raw_d8, raw_d16.
  unfold bind at 1, raw_frame, get_conn, bind at 1, inbound_bytes. cbn [i_conn]. rewrite Hb.
  unfold ret at 1, bind at 1. cbn [i_conn]. rewrite <- Hl.
  destruct (frame_bytes_at (frame_type f) (channel f) (wire_payload (payload f))) as (H1 & H2 & _ & H3).
  pose proof (zlen_frame_bytes (frame_type f) (channel f) (wire_payload (payload f))) as El.
  fold (wire_frame f) in H1, H2, H3, El. set (raw := wire_frame f) in *.
  assert (size_sub (zlen raw) 1 = zlen raw - 1) as ->.
  { apply wrap_small. unfold HEADER_SIZE, FOOTER_SIZE in El. zlen_pos. unfold in_u. lia. }
  rewrite (bind_step _ _ _ _ _ (raw_read_at 1 1 _ raw _ _ _ H3 eq_refl amqp_d8_network ltac:(done))).
  rewrite Z.eqb_refl. cbn [negb].
  rewrite (bind_step _ _ _ _ _ (raw_read_at 1 1 _ raw _ _ _ H1 eq_refl amqp_d8_network (frame_type_range f Hok))).
  rewrite (bind_step _ _ _ _ _ (raw_read_at 2 2 _ raw _ _ _ H2 eq_refl amqp_d16_network (proj1 Hok))).
  unfold bind at 1, put_frame at 1. cbn [i_conn i_data].
  rewrite (bind_step _ _ _ _ _ (channel_pool_found _ c _ data p Hp)).
  destruct (payload_received f c data p Hok ltac:(fold raw; lia) Hpl) as (m' & Hsp & E).
  exists m'. split; [done|]. by rewrite (bind_step _ _ _ _ _ E).
Qed.

Lemma splice_whole buf bs : zlen buf = zlen bs -> splice buf 0 bs = bs.
Proof.
  intros E. unfold splice. change (ztake 0 buf) with (@nil byte). rewrite app_nil_l.
  assert (zdrop (0 + zlen bs) buf = []) as -> by (unfold zdrop, zlen in *; apply drop_ge; lia). apply app_nil_r.
Qed.

(** What decoding a frame leaves alone. *)
Definition same_setup (c c' : conn) : Prop :=
  c_frame_max c' = c_frame_max c /\ c_pool_table c' = c_pool_table c.

(** A buffer that agrees with [W] up to [o] is completed. *)
Lemma splice_rest (b W : list byte) o :
  0 <= o <= zlen W -> zlen b = zlen W -> ztake o b = ztake o W -> splice b o (zdrop o W) = W.
Proof.
  intros Ho Hb Ht. rewrite <- (ztake_zdrop W o) at 2. rewrite <- Ht. unfold splice.
  assert (zdrop (o + zlen (zdrop o W)) b = []) as ->; [|by rewrite app_nil_r].
  rewrite zlen_zdrop by lia. unfold zdrop, zlen in *. apply drop_ge. lia.
Qed.

(** The rest of the frame arrives at a buffer that has its header, and maybe more. *)
Lemma rest_received_at n f c f0 a p b o :
  let W := wire_frame f in
  frame_ok f -> zlen W <= c_frame_max c <= 2 ^ 30 -> zlen b = zlen W -> 0 <= o < zlen W -> ztake o b = ztake o W ->
  c_state c = CONNECTION_STATE_BODY -> c_inbound_buffer c = IB_region a b ->
  c_inbound_offset c = o -> c_target_size c = zlen W ->
  amqp_get_channel_pool (c_pool_table c) (channel f) = Some p -> plenty p (zlen W) (c_mem c) ->
  exists c', gather garbage uninit n (mk_input c f0 (zdrop o W))
    = (Ret (swrap 32 (size_add n (zlen W - o))), mk_input c' (received uninit f) []) /\
    c_state c' = CONNECTION_STATE_IDLE /\ same_setup c c' /\ spends p (zlen W) (c_mem c) (c_mem c').
Proof.
  intros W Hok Hf Hg Hlo Htk Hs Hb Ho Ht Hp Hpl. pose proof (zlen_zdrop o W ltac:(lia)) as Hz'.
  assert (Hroom : room c = zlen W - o) by (unfold room; rewrite Ho, Ht; done).
  rewrite gather_full by (lia || (eexists; unfold inbound_bytes; rewrite Hb; split; [done|]; lia)).
  rewrite Hroom. rewrite ztake_all by lia.
  assert (zdrop (zlen W - o) (zdrop o W) = []) as -> by (unfold zdrop, zlen in *; apply drop_ge; lia).
  destruct (filled_region c a _ (zdrop o W) Hb) as [E1 _]. rewrite Ho in E1. rewrite splice_rest in E1 by (done || lia).
  destruct (filled_fields c (zdrop o W)) as (E2 & E3 & E4 & E5 & E6). set (c2 := filled c _) in *.
  unfold handle_frame, raw_frame, get_conn, inbound_bytes. unfold bind at 1 2 3. cbn [i_conn]. rewrite E1.
  cbn [ret i_conn]. rewrite E2, Hs. unfold body_case.
  destruct (body_received f c2 f0 [] a p Hok E1) as (m' & Hsp & E);
    [rewrite E3, Ht; done|lia|by rewrite E5|by rewrite E6|].
  rewrite (bind_step _ _ _ _ _ E). rewrite E6 in Hsp. eexists. split; [reflexivity|]. split; [done|].
  split; [|exact Hsp]. unfold same_setup. simpl. by rewrite E4, E5.
Qed.

Lemma rest_received n f c f0 a p g :
  let W := wire_frame f in
  frame_ok f -> zlen W <= c_frame_max c <= 2 ^ 30 -> zlen g = zlen W ->
  c_state c = CONNECTION_STATE_BODY -> c_inbound_buffer c = IB_region a (splice g 0 (ztake HEADER_SIZE W)) ->
  c_inbound_offset c = HEADER_SIZE -> c_target_size c = zlen W ->
  amqp_get_channel_pool (c_pool_table c) (channel f) = Some p -> plenty p (zlen W) (c_mem c) ->
  exists c', gather garbage uninit n (mk_input c f0 (zdrop HEADER_SIZE W))
    = (Ret (swrap 32 (size_add n (zlen W - HEADER_SIZE))), mk_input c' (received uninit f) []) /\
    c_state c' = CONNECTION_STATE_IDLE /\ same_setup c c' /\ spends p (zlen W) (c_mem c) (c_mem c').
Proof.
  intros W Hok Hf Hg Hs Hb Ho Ht Hp Hpl.
  pose proof (zlen_frame_bytes (frame_type f) (channel f) (wire_payload (payload f))) as El.
  fold (wire_frame f) in El. fold W in El. pose proof (zlen_nonneg (wire_payload (payload f))) as Hn0.
  unfold FOOTER_SIZE in El. pose proof (zlen_ztake HEADER_SIZE W ltac:(unfold HEADER_SIZE in *; lia)) as Hz.
  apply (rest_received_at n f c f0 a p (splice g 0 (ztake HEADER_SIZE W))); try done; fold W.
  - rewrite zlen_splice; unfold HEADER_SIZE in *; lia.
  - unfold HEADER_SIZE in *. lia.
Qed.

Lemma frame_received f c f0 p :
  let W := wire_frame f in
  conn_ok c -> c_state c = CONNECTION_STATE_IDLE -> frame_ok f -> zlen W <= c_frame_max c ->
  amqp_get_channel_pool (c_pool_table c) (channel f) = Some p -> plenty p (zlen W + 1) (c_mem c) ->
  exists c', amqp_handle_input garbage uninit (mk_input c f0 W) = (Ret (zlen W), mk_input c' (received uninit f) []) /\
    c_state c' = CONNECTION_STATE_IDLE /\ same_setup c c' /\ spends p (zlen W + 1) (c_mem c) (c_mem c').
Proof.
  intros W Hc Hs Hok Hfit Hp Hpl. pose proof Hc as (Hh & Hf & Hidle). rewrite Hs in Hidle.
  destruct Hidle as (Hb & Ho & Ht).
  pose proof (zlen_frame_bytes (frame_type f) (channel f) (wire_payload (payload f))) as El. fold W in El.
  fold (wire_frame f) in El. fold W in El. pose proof (zlen_nonneg (wire_payload (payload f))) as Hn0.
  unfold HEADER_SIZE, FOOTER_SIZE in *.
  rewrite handle_input_gather; [|by apply conn_ok_roomy|intros E; rewrite E in El; change (zlen []) with 0 in El; lia].
  unfold awake. rewrite Hs, bool_decide_true by done. set (c1 := set_state c CONNECTION_STATE_HEADER).
  assert (Hr1 : room c1 = 7) by (unfold room; simpl; rewrite Ht, Ho; done).
  assert (Hw1 : waiting c1).
  { unfold waiting, HEADER_SIZE. simpl. rewrite Hb, Ho, Ht. repeat split; try (done || lia). by left. }
  rewrite gather_full; [|by apply waiting_roomy|lia].
  rewrite Hr1. pose proof (zlen_ztake 7 W ltac:(lia)) as Hz. pose proof (zlen_zdrop 7 W ltac:(lia)) as Hz'.
  pose proof (waiting_full c1 (ztake 7 W) Hw1 ltac:(lia)) as Hready.
  destruct (filled_header c1 (ztake 7 W) Hb) as (E1 & E2 & E3).
  destruct (filled_fields c1 (ztake 7 W)) as (E4 & E5 & E6 & E7 & E8). set (c2 := filled c1 _) in *.
  change (c_inbound_offset c1) with (c_inbound_offset c) in *. rewrite Ho in E2, E3.
  rewrite handle_frame_header by done. unfold header_case.
  assert (Hcut : ztake 7 W = be_bytes 1 (frame_type f) ++ be_bytes 2 (channel f) ++
                             be_bytes 4 (zlen (wire_payload (payload f)))).
  { unfold W, wire_frame, frame_bytes. rewrite !app_assoc, <- app_assoc. by apply ztake_app. }
  destruct (header_found (frame_type f) (channel f) (zlen (wire_payload (payload f))) c2 (blank f0) (zdrop 7 W)
              (c_header_buffer c2) p (zlen W)) as (a & m' & Hm' & Hs1 & E).
  { apply Hok. } { unfold in_u. lia. }
  { rewrite E2, Hcut. apply at_off_splice; [lia|]. rewrite <- Hcut. change (c_header_buffer c1) with (c_header_buffer c). lia. }
  { rewrite E2. rewrite zlen_splice; [done|lia|]. change (c_header_buffer c1) with (c_header_buffer c). lia. }
  { rewrite E6. done. } { rewrite E6. unfold HEADER_SIZE, FOOTER_SIZE. simpl. lia. }
  { by rewrite E7. } { lia. } { by rewrite E8. }
  rewrite (bind_step _ _ _ _ _ E). unfold HEADER_SIZE, FOOTER_SIZE in *. rewrite <- El.
  assert (Hhb : ztake 7 (c_header_buffer c2) = ztake 7 W) by (rewrite E2, <- Hz at 1; apply ztake_splice_0).
  pose proof (Hgarbage a (zlen W) ltac:(lia)) as Hg. rewrite Hhb, E7, E6, E3, Hz.
  rewrite (more_gather garbage); [|eexists; simpl; split; [done|rewrite zlen_splice by lia; lia]|done].
  match goal with |- context [mk_input ?c3 _ _] =>
    destruct (rest_received (size_add 0 7) f c3 (blank f0) a p _ Hok (conj Hfit (proj2 Hf)) Hg
                eq_refl eq_refl eq_refl eq_refl Hp Hm') as (c' & Er & Hc' & Hset & Hs2) end.
  exists c'. split; [|split; [done|split; [exact Hset|]]].
  2:{ rewrite Z.add_comm. rewrite E8 in Hs1. eapply spends_trans; [apply zlen_nonneg|exact Hs1|exact Hs2]. } etrans; [exact Er|]. do 2 f_equal.
  unfold HEADER_SIZE. fold W. rewrite (size_add_small 0) by lia. rewrite swrap_add; lia.
Qed.

(** The reader of a socket: the bytes arrive in pieces, each handed over whole; the
    frame is the one of the last call, the earlier calls report none. *)
Fixpoint feed (c : conn) (f : amqp_frame_t) (chunks : list (list byte)) : option (conn * amqp_frame_t) :=
  match chunks with
  | [] => None
  | a :: rest =>
      match amqp_handle_input garbage uninit (mk_input c f a) with
      | (Ret n, s) =>
          if n =? zlen a then
            match rest with
            | [] => Some (i_conn s, i_frame s)
            | _ => if frame_type (i_frame s) =? 0 then feed (i_conn s) (i_frame s) rest else None
            end
          else None
      | _ => None
      end
  end.

Lemma feed_concat chunks : forall c f c' f',
  conn_ok c -> chunks <> [] -> Forall (fun a => a <> []) chunks -> zlen (concat chunks) < 2 ^ 31 ->
  amqp_handle_input garbage uninit (mk_input c f (concat chunks)) = (Ret (zlen (concat chunks)), mk_input c' f' []) ->
  feed c f chunks = Some (c', f').
Proof.
  induction chunks as [|a rest IH]; intros c f c' f' Hc Hne Hall Hl E; [done|].
  apply Forall_cons in Hall as [Ha Hall]. cbn [feed concat] in *. rewrite zlen_app in *. zlen_pos.
  destruct rest as [|b rest].
  { rewrite app_nil_r in E. rewrite E. change (zlen (concat [])) with 0. by rewrite Z.add_0_r, Z.eqb_refl. }
  set (tail_ := concat (b :: rest)) in *.
  pose proof (input_piecewise garbage uninit Hgarbage c f a tail_ Hc Ha) as Hp.
  pose proof (input_post garbage uninit Hgarbage c f a Hc Ha ltac:(lia)) as Hpost.
  assert (Hb : tail_ <> []) by (unfold tail_; apply Forall_cons in Hall as [Hb _]; by destruct b).
  rewrite E in Hp. destruct (amqp_handle_input garbage uninit (mk_input c f a)) as [[n| | |] s]; try done.
  unfold piecewise in Hp. case_bool_decide as Hs.
  { simplify_eq. destruct (i_data s ++ tail_) eqn:En; [|done]. by apply app_eq_nil in En as [_ En]. }
  destruct Hp as (Hd & Ht & Hp). destruct Hpost as (k & -> & Hk & Hdk & Hok).
  assert (k = zlen a) as -> by (pose proof (zlen_zdrop k a ltac:(lia)) as Hz; rewrite <- Hdk, Hd, zlen_nil in Hz; lia).
  rewrite Z.add_0_l, Z.eqb_refl, Ht. simpl (0 =? 0). cbv iota.
  apply IH; [done|done|done|lia|]. unfold with_data in Hp. pose proof (zlen_nonneg tail_).
  pose proof (input_post garbage uninit Hgarbage _ (i_frame s) _ Hok Hb ltac:(lia)) as Hpost.
  destruct (amqp_handle_input _ _ (mk_input (i_conn s) _ _)) as [[w| | |] s'']; try done.
  destruct Hpost as (k & -> & Hk' & _). simpl in Hp. rewrite size_add_small in Hp by lia.
  rewrite swrap_small in Hp by (unfold in_s; lia). simplify_eq. do 2 f_equal. lia.
Qed.

(** ** Properties *)

(** C2: Every frame survives the wire: a method, header, body or heartbeat frame in
    range that fits the buffer is written by [amqp_frame_to_bytes], and however the
    bytes are cut into pieces, feeding them to [amqp_handle_input] consumes each piece,
    reports nothing until the last one, and then yields the same type, channel and
    payload and an idle connection, memory permitting. *)
Theorem frame_roundtrip f buf c f0 p :
  frame_ok f -> zlen buf < 2 ^ 31 -> zlen (wire_frame f) <= zlen buf ->
  conn_ok c -> c_state c = CONNECTION_STATE_IDLE -> zlen (wire_frame f) <= c_frame_max c ->
  amqp_get_channel_pool (c_pool_table c) (channel f) = Some p -> plenty p (zlen (wire_frame f) + 1) (c_mem c) ->
  exists n buf' c', amqp_frame_to_bytes f buf = (Ret n, buf') /\ c_state c' = CONNECTION_STATE_IDLE /\
    forall chunks, concat chunks = ztake n buf' -> Forall (fun a => a <> []) chunks ->
      feed c f0 chunks = Some (c', received uninit f).
Proof.
  intros Hok Hbuf Hfit Hc Hs Hmax Hp Hpl.
  destruct (frame_received f c f0 p Hc Hs Hok Hmax Hp Hpl) as (c' & E & Hc' & _).
  do 3 eexists. split; [by apply frame_to_bytes_fits|]. split; [exact Hc'|]. rewrite ztake_splice_0.
  intros chunks Hch Hall. rewrite <- Hch in E.
  apply feed_concat; [done| |done|rewrite Hch; lia|exact E].
  intros ->. apply (f_equal zlen) in Hch. revert Hch. unfold wire_frame. rewrite zlen_frame_bytes.
  zlen_pos. change (zlen (concat [])) with 0. unfold HEADER_SIZE, FOOTER_SIZE. lia.
Qed.

End Input.

(** A method frame that does not fit the buffer is refused with an encoder error
    and nothing is written outside the buffer. *)
Theorem frame_method_no_room `{Host} ch d buf :
  method_ok d -> HEADER_SIZE + 4 + FOOTER_SIZE <= zlen buf < 2 ^ 31 ->
  zlen buf < zlen (wire_frame (mk_frame AMQP_FRAME_METHOD ch (PL_method (method_id d) d))) ->
  exists st buf',
    amqp_frame_to_bytes (mk_frame AMQP_FRAME_METHOD ch (PL_method (method_id d) d)) buf = (Err st, buf') /\
    enc_err st /\ zlen buf' = zlen buf.
Proof.
  unfold wire_frame. rewrite zlen_frame_bytes. cbn [payload wire_payload]. rewrite zlen_app, zlen_be_bytes.
  unfold HEADER_SIZE, FOOTER_SIZE. intros Hok Hbuf Hfit. unfold amqp_frame_to_bytes. cbv zeta.
  cbn [frame_type channel payload]. rewrite !amqp_e8_network, !amqp_e16_network, amqp_e32_network.
  erewrite bind_step by (apply out_write_fits; rewrite ?zlen_be_bytes; lia). set (b1 := splice buf 0 _).
  assert (H1 : zlen b1 = zlen buf) by (unfold b1; rewrite zlen_splice; rewrite ?zlen_be_bytes; lia).
  erewrite bind_step by (apply out_write_fits; rewrite ?zlen_be_bytes; lia). set (b2 := splice b1 1 _).
  assert (H2 : zlen b2 = zlen buf) by (unfold b2; rewrite zlen_splice; rewrite ?zlen_be_bytes; lia).
  unfold HEADER_SIZE, FOOTER_SIZE. cbn [switch]. rewrite Z.eqb_refl. change (AMQP_FRAME_METHOD =? AMQP_FRAME_BODY) with false.
  cbv iota. unfold bind at 1. erewrite bind_step by (apply out_write_fits; rewrite ?zlen_be_bytes; lia).
  set (b3 := splice b2 7 _).
  assert (H3 : zlen b3 = zlen buf) by (unfold b3; rewrite zlen_splice; rewrite ?zlen_be_bytes; lia).
  unfold size_sub. rewrite (wrap_small _ (zlen buf - 7)) by (unfold in_u; lia).
  rewrite (wrap_small _ (zlen buf - 7 - 4)) by (unfold in_u; lia). rewrite wrap_small by (unfold in_u; lia).
  unfold bind at 1, run_encoder. rewrite load_fits by lia. pose proof (zlen_zdrop (7 + 4) b3 ltac:(lia)) as Hd.
  set (sub := ztake _ _). assert (Hsub : zlen sub = zlen buf - 12) by (unfold sub; rewrite zlen_ztake; lia).
  destruct (encode_method_no_room d sub Hok ltac:(lia) ltac:(lia)) as (st & s & -> & Hst & Hl).
  rewrite store_fits by lia. exists st. eexists. split; [reflexivity|]. split; [done|]. rewrite zlen_splice; lia.
Qed.

(** *** Witnesses *)

Definition demo_frame : amqp_frame_t :=
  mk_frame AMQP_FRAME_METHOD 1 (PL_method AMQP_QUEUE_DECLARE_METHOD demo_declare).

Example frame_roundtrip_witness :
  exists n buf' c',
    amqp_frame_to_bytes (H := little_endian) demo_frame (replicate 200 x00) = (Ret n, buf') /\
    c_state c' = CONNECTION_STATE_IDLE /\
    forall chunks, concat chunks = ztake n buf' -> Forall (fun a => a <> []) chunks ->
      feed (H := little_endian) zeros zero_basic demo_idle no_frame chunks = Some (c', received zero_basic demo_frame).
Proof.
  apply (frame_roundtrip (H := little_endian) zeros zero_basic zeros_len demo_frame (replicate 200 x00)
           demo_idle no_frame 1);
    [|by vm_compute|by vm_compute|apply demo_idle_ok|done|by vm_compute|done|apply demo_plenty; by vm_compute].
  split; [done|]. split; [done|]. split; [done|apply demo_declare_ok].
Defined.

Example frame_method_no_room_witness :
  exists st buf',
    amqp_frame_to_bytes (H := little_endian) demo_frame (replicate 20 x00) = (Err st, buf') /\
    enc_err st /\ zlen buf' = zlen (replicate 20 x00).
Proof.
  apply (frame_method_no_room (H := little_endian) 1 demo_declare); [apply demo_declare_ok|by vm_compute|by vm_compute].
Defined.

(** The body of a body frame is copied without looking at the size of the
    buffer, where a method or header frame that does not fit is an error. *)
Theorem frame_body_unchecked `{Host} ch body buf :
  HEADER_SIZE <= zlen buf ->
  zlen buf + FOOTER_SIZE < zlen (wire_frame (mk_frame AMQP_FRAME_BODY ch (PL_body body))) ->
  (amqp_frame_to_bytes (mk_frame AMQP_FRAME_BODY ch (PL_body body)) buf).1 = Undef.
Proof.
  unfold wire_frame. rewrite zlen_frame_bytes. unfold HEADER_SIZE, FOOTER_SIZE. cbn [payload wire_payload]. intros Hl0 Hl. unfold amqp_frame_to_bytes. cbn [frame_type channel payload].
  rewrite !amqp_e8_network, !amqp_e16_network.
  erewrite bind_step by (apply out_write_fits; rewrite ?zlen_be_bytes; lia). set (b1 := splice buf 0 _).
  assert (H1 : zlen b1 = zlen buf) by (unfold b1; rewrite zlen_splice; rewrite ?zlen_be_bytes; lia).
  erewrite bind_step by (apply out_write_fits; rewrite ?zlen_be_bytes; lia). set (b2 := splice b1 1 _).
  assert (H2 : zlen b2 = zlen buf) by (unfold b2; rewrite zlen_splice; rewrite ?zlen_be_bytes; lia).
  simpl switch. unfold bind, out_write at 1, store, HEADER_SIZE.
  destruct (Z.leb_spec (7 + zlen body) (zlen b2)); [lia|]. by rewrite andb_false_r.
Qed.

Example frame_body_unchecked_witness :
  (amqp_frame_to_bytes (H := little_endian) (mk_frame AMQP_FRAME_BODY 1 (PL_body [x61; x62])) (replicate 8 x00)).1
  = Undef.
Proof. apply (frame_body_unchecked (H := little_endian)); by vm_compute. Defined.
