(* ===== verification/Net.v ===== *)
(** * The environment of a connection: clock, socket and [poll]

    [librabbitmq/amqp_socket.h] makes a socket a table of callbacks, and
    [amqp_socket.c] reaches the system through them, [poll] and the clock.  They are the
    classes [System] and [Net] over a state [E] of the outside world; [NetLaws] states what their
    manuals promise of the bytes sent and received.  On top of it this file models
    [amqp_poll], for builds with [HAVE_POLL]. *)

From S2P Require Import Prelude Status Time.

(** ** Constants of [amqp_socket.h] and [amqp_private.h] *)

Definition AMQP_SF_NONE : Z := 0.
Definition AMQP_SF_MORE : Z := 1.
Definition AMQP_SF_POLLIN : Z := 2.
Definition AMQP_SF_POLLOUT : Z := 4.
Definition AMQP_SF_POLLERR : Z := 8.
Definition AMQP_SC_NONE : Z := 0.
Definition AMQP_SC_FORCE : Z := 1.
Definition AMQP_PRIVATE_STATUS_SOCKET_NEEDREAD : Z := - 0x1301.
Definition AMQP_PRIVATE_STATUS_SOCKET_NEEDWRITE : Z := - 0x1302.

(** What [poll] answers: its result and, when negative, whether [errno] is [EINTR]. *)
Record poll_answer := mk_poll { poll_res : Z; poll_eintr : bool }.

(** The clock and [poll]. *)
Class System (E : Type) := {
  clock_gettime : E -> option (Z * Z) * E;
  poll : Z -> Z -> Z -> E -> poll_answer * E;            (* fd, events, timeout in ms *)
}.

(** The callbacks of [struct amqp_socket_class_t]; one that may be interrupted for ever
    runs out of fuel. *)
Class Net (E : Type) := {
  net_system :: System E;
  socket_send : list byte -> Z -> eff E Z;               (* klass->send(buf, len, flags) *)
  socket_recv : Z -> eff E (Z + list byte);              (* klass->recv(len): a status, or the bytes *)
  socket_open : list byte -> Z -> option timeval -> eff E Z;
  socket_get_sockfd : E -> Z;
  socket_close : Z -> eff E Z;
  socket_delete : eff E unit;
}.

(** [outbox e]: every byte the socket has accepted. *)
Class NetLaws (E : Type) `{Net E} := {
  outbox : E -> list byte;
  send_accepts e buf flags r e' : socket_send buf flags e = (r, e') ->
    match r with
    | Ret n => n <= zlen buf /\ outbox e' = outbox e ++ ztake n buf
    | NoFuel => outbox e' = outbox e
    | _ => False
    end;
  recv_fits e len bs e' : 0 <= len -> socket_recv len e = (Ret (inr bs), e') -> zlen bs <= len;
  recv_outbox e len r e' : socket_recv len e = (r, e') -> outbox e' = outbox e;
  clock_outbox e c e' : clock_gettime e = (c, e') -> outbox e' = outbox e;
  poll_outbox e fd ev ms r e' : poll fd ev ms e = (r, e') -> outbox e' = outbox e;
}.

Section Poll.
Context {E : Type} `{System E}.

(** Reading the clock, for the functions of [Time.v]. *)
Definition clock : eff E (option (Z * Z)) := fun e => let '(c, e') := clock_gettime e in (Ret c, e').

(** The loop is taken again for every [EINTR]; a time that needs no clock to compare
    with does not read it. *)
Fixpoint amqp_poll (fuel : nat) (fd event : Z) (deadline : amqp_time_t) : eff E Z :=
  match fuel with
  | O => nofuel
  | S fuel' =>
      if negb ((event =? AMQP_SF_POLLIN) || (event =? AMQP_SF_POLLOUT)) then undef     (* assert *)
      else
        let! now := (if (time_point_ns deadline =? UINT64_MAX) || (time_point_ns deadline =? 0)
                     then ret None else clock) in
        let timeout_ms := amqp_time_ms_until now deadline in
        if timeout_ms <? -1 then ret timeout_ms
        else
          let! answer := (fun e => let '(a, e') := poll fd event timeout_ms e in (Ret a, e')) in
          if 0 <? poll_res answer then ret AMQP_STATUS_OK
          else if poll_res answer =? 0 then ret AMQP_STATUS_TIMEOUT
          else if poll_eintr answer then amqp_poll fuel' fd event deadline
          else ret AMQP_STATUS_SOCKET_ERROR
  end.

End Poll.

(** ** Numbers in decimal *)

Fixpoint dec_digits (fuel : nat) (n : Z) (acc : list byte) : list byte :=
  match fuel with
  | O => acc
  | S fuel' =>
      let acc := z2b (48 + n mod 10) :: acc in
      if n / 10 =? 0 then acc else dec_digits fuel' (n / 10) acc
  end.

(** [sprintf(str, "%d", n)]: ten digits are enough for an [int]. *)
Definition sprintf_d (n : Z) : list byte :=
  if n <? 0 then x2d :: dec_digits 10 (- n) [] else dec_digits 10 n [].

(** ** A scripted environment

    A peer that has already decided what to send, used to run the model: the chunks
    [recv] will return, the clock stopped at [s_now], every byte accepted at once. *)

Record script := mk_script {
  s_now : Z;
  s_inbox : list (list byte);
  s_outbox : list byte;
  s_open : bool;
}.

Definition script_recv (len : Z) (s : script) : (Z + list byte) * script :=
  match s_inbox s with
  | [] => (inl AMQP_STATUS_CONNECTION_CLOSED, s)
  | c :: cs =>
      if zlen c <=? len then (inr c, mk_script (s_now s) cs (s_outbox s) (s_open s))
      else (inr (ztake len c), mk_script (s_now s) (zdrop len c :: cs) (s_outbox s) (s_open s))
  end.

Definition script_system : System script := {|
  clock_gettime s := (Some (s_now s, 0), s);
  poll fd ev ms s := (mk_poll 1 false, s);
|}.

#[export] Instance script_net : Net script := {
  net_system := script_system;
  socket_send buf flags s := (Ret (zlen buf), mk_script (s_now s) (s_inbox s) (s_outbox s ++ buf) (s_open s));
  socket_recv len s := let '(r, s') := script_recv len s in (Ret r, s');
  socket_open host port timeout s :=
    if s_open s then (Ret AMQP_STATUS_SOCKET_INUSE, s)
    else (Ret AMQP_STATUS_OK, mk_script (s_now s) (s_inbox s) (s_outbox s) true);
  socket_get_sockfd s := if s_open s then 3 else -1;
  socket_close force s := (Ret AMQP_STATUS_OK, mk_script (s_now s) (s_inbox s) (s_outbox s) false);
  socket_delete s := (Ret tt, mk_script (s_now s) (s_inbox s) (s_outbox s) false);
}.

#[export] Instance script_laws : NetLaws script.
Proof.
  refine {| outbox := s_outbox |}.
  - intros e buf flags r e' [= <- <-]. split; [done|]. by rewrite ztake_all by lia.
  - intros e len bs e' Hlen. simpl. unfold script_recv. destruct (s_inbox e) as [|c cs]; [done|].
    destruct (Z.leb_spec (zlen c) len); intros [= <- _]; [done|]. unfold zlen, ztake in *. rewrite length_take. lia.
  - intros e len r e'. simpl. unfold script_recv. destruct (s_inbox e) as [|c cs]; [by intros [= _ <-]|].
    destruct (Z.leb_spec (zlen c) len); by intros [= _ <-].
  - by intros e c e' [= _ <-].
  - by intros e fd ev ms r e' [= _ <-].
Defined.
