(* ===== verification/Select.v ===== *)
(** * [amqp_poll] for builds with [select]

    The other variant of [amqp_poll] of [librabbitmq/amqp_socket.c], for systems without
    [poll], and that the two behave alike. *)

From S2P Require Import Prelude Status Time Net.

(** The descriptors a [fd_set] has room for. *)
Definition FD_SETSIZE : Z := 1024.

Section Select.
Context {E : Type} `{System E}.
(** [select(fd + 1, ...)] with [fd] alone in the set to read from or to write to. *)
Context (select : Z -> Z -> option timeval -> E -> poll_answer * E).

(** [FD_SET] beyond the set is undefined; so is taking neither call, with [POLLERR] alone. *)
Fixpoint amqp_poll_select (fuel : nat) (fd event : Z) (deadline : amqp_time_t) : eff E Z :=
  match fuel with
  | O => nofuel
  | S fuel' =>
      if negb (negb (Z.land event AMQP_SF_POLLIN =? 0) || negb (Z.land event AMQP_SF_POLLOUT =? 0)) then undef (* assert *)
      else if negb (Z.land event AMQP_SF_POLLERR =? 0) then undef                                             (* assert *)
      else if (fd <? 0) || (FD_SETSIZE <=? fd) then undef
      else
        let! now := (if (time_point_ns deadline =? UINT64_MAX) || (time_point_ns deadline =? 0)
                     then ret None else clock) in
        match amqp_time_tv_until now deadline with
        | Ret tvp =>
            let direction := if negb (Z.land event AMQP_SF_POLLIN =? 0) then AMQP_SF_POLLIN else AMQP_SF_POLLOUT in
            let! answer := (fun e => let '(a, e') := select fd direction tvp e in (Ret a, e')) in
            if 0 <? poll_res answer then ret AMQP_STATUS_OK
            else if poll_res answer =? 0 then ret AMQP_STATUS_TIMEOUT
            else if poll_eintr answer then amqp_poll_select fuel' fd event deadline
            else ret AMQP_STATUS_SOCKET_ERROR
        | Err st => ret st
        | _ => undef
        end
  end.

(** The milliseconds of a [timeval], -1 for none. *)
Definition tv_ms (tvp : option timeval) : Z :=
  match tvp with None => -1 | Some tv => tv_sec tv * 1000 + tv_usec tv / 1000 end.

(** A clock in range, no more than [INT_MAX] milliseconds before [t]. *)
Definition clock_before (t : amqp_time_t) (c : option (Z * Z)) : Prop :=
  match c with
  | Some (s, ns) =>
      0 <= s /\ 0 <= ns < AMQP_NS_PER_S /\ s * AMQP_NS_PER_S + ns < 2 ^ 64 /\
      (time_point_ns t < UINT64_MAX -> time_point_ns t - (s * AMQP_NS_PER_S + ns) < 2 ^ 31 * AMQP_NS_PER_MS)
  | None => True
  end.

Lemma tv_ms_until c t : clock_before t c -> 0 <= time_point_ns t <= UINT64_MAX ->
  match amqp_time_tv_until c t with
  | Ret tvp => amqp_time_ms_until c t = tv_ms tvp /\ -1 <= tv_ms tvp
  | Err st => amqp_time_ms_until c t = st /\ st < -1
  | _ => False
  end.
Proof.
  intros Hc Ht. unfold amqp_time_tv_until, amqp_time_ms_until.
  destruct (Z.eqb_spec (time_point_ns t) UINT64_MAX) as [|Hne]; [done|].
  destruct (Z.eqb_spec (time_point_ns t) 0); [done|]. cbv zeta.
  destruct (Z.eqb_spec (amqp_get_monotonic_timestamp c) 0); [done|].
  assert (Hd : time_point_ns t - amqp_get_monotonic_timestamp c < 2 ^ 31 * AMQP_NS_PER_MS).
  { destruct c as [[sec ns]|]; [|done]. destruct Hc as (Hs & Hns & Hmax & Hd).
    unfold amqp_get_monotonic_timestamp, u64_add, u64_mul, AMQP_NS_PER_S in *.
    rewrite (wrap_small 64 sec), (wrap_small 64 ns), (wrap_small 64 (sec * _)), wrap_small by (unfold in_u; lia). lia. }
  destruct (Z.leb_spec (time_point_ns t) (amqp_get_monotonic_timestamp c)); [done|].
  set (d := time_point_ns t - amqp_get_monotonic_timestamp c) in *. unfold tv_ms. cbn [tv_sec tv_usec].
  unfold AMQP_NS_PER_S, AMQP_NS_PER_MS, AMQP_NS_PER_US in *.
  pose proof (Z.mod_pos_bound d 1000000000 ltac:(lia)). pose proof (Z.div_pos d 1000000000 ltac:(lia) ltac:(lia)).
  pose proof (Z.div_lt_upper_bound d 1000000000 (2 ^ 31) ltac:(lia) ltac:(lia)).
  pose proof (Z.div_pos (d mod 1000000000) 1000 ltac:(lia) ltac:(lia)).
  pose proof (Z.div_lt_upper_bound (d mod 1000000000) 1000 1000000 ltac:(lia) ltac:(lia)).
  pose proof (Z.div_pos d 1000000 ltac:(lia) ltac:(lia)). pose proof (Z.div_lt_upper_bound d 1000000 (2 ^ 31) ltac:(lia) ltac:(lia)).
  rewrite !swrap_small by (unfold in_s; lia). split.
  - rewrite (Z.div_div _ 1000 1000) by lia. pose proof (Z.div_mod d 1000000000 ltac:(lia)) as Ed. rewrite Ed at 1.
    replace (1000000000 * (d / 1000000000) + d mod 1000000000) with (d mod 1000000000 + d / 1000000000 * 1000 * 1000000) by lia.
    rewrite Z.div_add by lia. change (1000 * 1000) with 1000000. lia.
  - pose proof (Z.div_pos (d mod 1000000000 / 1000) 1000 ltac:(lia) ltac:(lia)). lia.
Qed.

(** The two variants agree: where [select] with a [timeval] answers as [poll] does with
    its milliseconds, for any descriptor that fits a [fd_set] and any deadline less
    than [INT_MAX] milliseconds away, on every answer of the clock and of the system. *)
Theorem select_like_poll deadline fd event :
  (forall ev tvp e, select fd ev tvp e = poll fd ev (tv_ms tvp) e) ->
  (forall e, clock_before deadline (clock_gettime e).1) ->
  event = AMQP_SF_POLLIN \/ event = AMQP_SF_POLLOUT -> 0 <= fd < FD_SETSIZE -> 0 <= time_point_ns deadline <= UINT64_MAX ->
  forall fuel e, amqp_poll_select fuel fd event deadline e = amqp_poll fuel fd event deadline e.
Proof.
  intros Hsel Hclk Hev Hfd Ht. induction fuel as [|fuel IH]; intros e; [done|]. cbn [amqp_poll_select amqp_poll].
  assert ((fd <? 0) || (FD_SETSIZE <=? fd) = false) as -> by lia.
  assert (negb (negb (Z.land event AMQP_SF_POLLIN =? 0) || negb (Z.land event AMQP_SF_POLLOUT =? 0)) = false) as -> by (by destruct Hev as [->| ->]).
  assert (negb (Z.land event AMQP_SF_POLLERR =? 0) = false) as -> by (by destruct Hev as [->| ->]).
  assert (negb ((event =? AMQP_SF_POLLIN) || (event =? AMQP_SF_POLLOUT)) = false) as -> by (by destruct Hev as [->| ->]).
  assert ((if negb (Z.land event AMQP_SF_POLLIN =? 0) then AMQP_SF_POLLIN else AMQP_SF_POLLOUT) = event) as -> by (by destruct Hev as [->| ->]).
  assert (Hnow : exists c e1, (if (time_point_ns deadline =? UINT64_MAX) || (time_point_ns deadline =? 0) then ret None else clock) e
                              = (Ret c, e1) /\ clock_before deadline c).
  { destruct (_ || _); [by exists None, e|]. unfold clock. specialize (Hclk e). destruct (clock_gettime e) as [c e1]. by exists c, e1. }
  destruct Hnow as (c & e1 & Ec & Hc). rewrite !(bind_step _ _ _ _ _ Ec). cbv zeta.
  pose proof (tv_ms_until c deadline Hc Ht) as Hms. destruct (amqp_time_tv_until c deadline) as [tvp|st| |]; try done.
  - destruct Hms as [-> Hms]. rewrite (proj2 (Z.ltb_ge _ _)) by lia. unfold bind. rewrite Hsel.
    destruct (poll fd event (tv_ms tvp) e1) as [a e2]. destruct (0 <? poll_res a); [done|].
    destruct (poll_res a =? 0); [done|]. destruct (poll_eintr a); [apply IH|done].
  - destruct Hms as [-> Hms]. by rewrite (proj2 (Z.ltb_lt _ _)) by lia.
Qed.
End Select.

(** The 1025th descriptor of a process does not fit. *)
Lemma select_beyond_set {E} `{System E} select fuel deadline (e : E) :
  amqp_poll_select select (S fuel) FD_SETSIZE AMQP_SF_POLLOUT deadline e = (Undef, e).
Proof. done. Qed.
