(* ===== verification/Version.v ===== *)
(** * The version of the library

    The macros of [include/rabbitmq-c/amqp.h] and the two functions of
    [librabbitmq/amqp_mem.c] that return them. *)

From Stdlib Require Import String.
From S2P Require Import Prelude Net.

Definition AMQP_VERSION_MAJOR : Z := 0.
Definition AMQP_VERSION_MINOR : Z := 13.
Definition AMQP_VERSION_PATCH : Z := 0.
Definition AMQP_VERSION_IS_RELEASE : Z := 1.

(** The operands are [int]s. *)
Definition AMQP_VERSION_CODE (major minor patch release : Z) : Z :=
  Z.lor (Z.lor (Z.lor (Z.shiftl major 24) (Z.shiftl minor 16)) (Z.shiftl patch 8)) release.

Definition AMQP_VERSION : Z :=
  AMQP_VERSION_CODE AMQP_VERSION_MAJOR AMQP_VERSION_MINOR AMQP_VERSION_PATCH AMQP_VERSION_IS_RELEASE.

(** [AMQ_STRINGIFY] of a macro that is a decimal number. *)
Definition AMQ_STRINGIFY (n : Z) : list byte := sprintf_d n.
Definition AMQ_VERSION_STRING : list byte :=
  AMQ_STRINGIFY AMQP_VERSION_MAJOR ++ [x2e] ++ AMQ_STRINGIFY AMQP_VERSION_MINOR ++ [x2e] ++ AMQ_STRINGIFY AMQP_VERSION_PATCH.
Definition AMQP_VERSION_STRING : String.string :=
  let s := String.string_of_list_byte AMQ_VERSION_STRING in
  if AMQP_VERSION_IS_RELEASE =? 0 then (s ++ "-pre")%string else s.

Definition amqp_version : String.string := AMQP_VERSION_STRING.
Definition amqp_version_number : Z := wrap 32 AMQP_VERSION.

Lemma version_code_sum major minor patch release :
  0 <= major -> in_u 8 minor -> in_u 8 patch -> in_u 8 release ->
  AMQP_VERSION_CODE major minor patch release = major * 2 ^ 24 + minor * 2 ^ 16 + patch * 2 ^ 8 + release.
Proof.
  unfold in_u. intros Hm Hn Hp Hr. unfold AMQP_VERSION_CODE.
  assert (Hor : forall a b k, 0 <= a -> 0 <= b < 2 ^ k -> 0 <= k -> Z.lor (Z.shiftl a k) b = a * 2 ^ k + b).
  { intros a b k Ha Hb Hk. rewrite <- Z.shiftl_mul_pow2 by lia. symmetry. rewrite <- Z.lxor_lor; [apply Z.add_nocarry_lxor|].
    all: apply Z.bits_inj'; intros i Hi; rewrite Z.land_spec, Z.bits_0, Z.shiftl_spec by lia.
    all: destruct (Z.ltb_spec i k); [by rewrite Z.testbit_neg_r by lia|].
    all: apply andb_false_intro2; destruct (Z.eq_dec b 0) as [->|]; [apply Z.bits_0|].
    all: apply Z.bits_above_log2; [lia|]; apply Z.log2_lt_pow2; [lia|]; pose proof (Z.pow_le_mono_r 2 k i); lia. }
  assert (E1 : Z.lor (Z.shiftl major 24) (Z.shiftl minor 16) = Z.shiftl (major * 2 ^ 8 + minor) 16).
  { rewrite <- (Hor major minor 8) by lia. rewrite Z.shiftl_lor, Z.shiftl_shiftl by lia. done. }
  rewrite E1.
  assert (E2 : Z.lor (Z.shiftl (major * 2 ^ 8 + minor) 16) (Z.shiftl patch 8) = Z.shiftl ((major * 2 ^ 8 + minor) * 2 ^ 8 + patch) 8).
  { rewrite <- (Hor (major * 2 ^ 8 + minor) patch 8) by lia. rewrite Z.shiftl_lor, Z.shiftl_shiftl by lia. done. }
  rewrite E2, Hor by lia. lia.
Qed.

(** Version codes compare as versions do: by the major number, then the minor number,
    the patch and whether it is a release. *)
Lemma version_code_compares a b c r a' b' c' r' :
  0 <= a -> 0 <= a' -> Forall (in_u 8) [b; c; r; b'; c'; r'] ->
  AMQP_VERSION_CODE a b c r < AMQP_VERSION_CODE a' b' c' r' <->
  a < a' \/ (a = a' /\ (b < b' \/ (b = b' /\ (c < c' \/ (c = c' /\ r < r'))))).
Proof.
  intros Ha Ha' Hall. rewrite !Forall_cons in Hall. destruct Hall as (Hb & Hc & Hr & Hb' & Hc' & Hr' & _). unfold in_u in *.
  rewrite !version_code_sum by (done || unfold in_u; lia). lia.
Qed.

Example version_of_library : amqp_version = "0.13.0"%string /\ be_bytes 4 amqp_version_number = [x00; x0d; x00; x01].
Proof. by vm_compute. Qed.
