(* ===== verification/Posix.v ===== *)
(** * Opening connections: [amqp_open_socket] of [librabbitmq/amqp_socket.c]

    The system calls and the platform's constants are parameters, the classes [Platform]
    and [Posix]; [PosixLaws] states what the manual pages promise of descriptors, their
    flags, the bytes sent on them and the address lists of [getaddrinfo].  The code is
    that of POSIX systems (not [_WIN32]). *)

From S2P Require Import Prelude Status Time Net.

(** ** The system *)

Inductive errno_t : Type := EINTR | EWOULDBLOCK | EAGAIN | EINPROGRESS | Eother (n : Z).

#[export] Instance errno_eq_dec : EqDecision errno_t.
Proof. solve_decision. Defined.

Record addrinfo := mk_addrinfo { ai_family : Z; ai_socktype : Z; ai_protocol : Z; ai_addr : list byte }.

(** The macros of the system headers; [None] is a macro that is not defined. *)
Class Platform := {
  F_GETFD : Z; F_SETFD : Z; F_GETFL : Z; F_SETFL : Z;
  FD_CLOEXEC : Z; O_NONBLOCK : Z;
  SOL_SOCKET : Z; IPPROTO_TCP : Z; TCP_NODELAY : Z; SO_KEEPALIVE : Z;
  PF_UNSPEC : Z; SOCK_STREAM : Z;
  SO_NOSIGPIPE : option Z; MSG_NOSIGNAL : option Z; MSG_MORE : option Z; TCP_NOPUSH : option Z;
}.

(** A call returns -1 ([None]) and sets [errno] when it fails. *)
Class Posix (OS : Type) := {
  posix_system :: System OS;
  posix_errno : OS -> errno_t;
  posix_socket : Z -> Z -> Z -> OS -> Z * OS;                      (* family, type, protocol *)
  posix_fcntl_get : Z -> Z -> OS -> Z * OS;                        (* fd, F_GETFD or F_GETFL *)
  posix_fcntl_set : Z -> Z -> Z -> OS -> Z * OS;                   (* fd, F_SETFD or F_SETFL, flags *)
  posix_setsockopt : Z -> Z -> Z -> Z -> OS -> Z * OS;             (* fd, level, option, value *)
  posix_so_error : Z -> OS -> option Z * OS;                       (* getsockopt of SO_ERROR *)
  posix_connect : Z -> list byte -> OS -> Z * OS;
  posix_send : Z -> list byte -> Z -> OS -> Z * OS;                (* fd, buf, flags *)
  posix_recv : Z -> Z -> Z -> OS -> option (list byte) * OS;       (* fd, len, flags *)
  posix_close : Z -> OS -> Z * OS;
  posix_getaddrinfo : list byte -> list byte -> addrinfo -> OS -> (Z + list addrinfo) * OS;
  posix_freeaddrinfo : list addrinfo -> OS -> OS;
}.

(** ** What the manual pages promise

    What can be seen of a system: the open descriptors, the bytes the kernel has accepted
    on them and the flags set on them, and how many address lists are to be freed. *)
Class Observed (OS : Type) := {
  opened : OS -> gset Z;
  sent : Z -> OS -> list byte;
  fdflags : Z -> Z -> OS -> Z;                                   (* fd, F_GETFD or F_GETFL *)
  lists : OS -> Z;
}.

Section Views.
Context `{Observed OS}.

(** A call that changes nothing that can be seen. *)
Definition same (o o' : OS) : Prop :=
  opened o' = opened o /\ (forall fd, sent fd o' = sent fd o) /\
  (forall fd c, fdflags fd c o' = fdflags fd c o) /\ lists o' = lists o.

(** A call that concerns the descriptor [fd] only. *)
Definition apart (fd : Z) (o o' : OS) : Prop :=
  opened o' ∖ {[fd]} = opened o ∖ {[fd]} /\ (forall fd', fd' <> fd -> sent fd' o' = sent fd' o) /\
  (forall fd' c, fd' <> fd -> fdflags fd' c o' = fdflags fd' c o) /\ lists o' = lists o.

(** A call that changes the number of address lists only. *)
Definition lists_by (n : Z) (o o' : OS) : Prop :=
  opened o' = opened o /\ (forall fd, sent fd o' = sent fd o) /\
  (forall fd c, fdflags fd c o' = fdflags fd c o) /\ lists o' = lists o + n.
End Views.

(** [close] always releases the descriptor, even when it fails. *)
Class PosixLaws (OS : Type) `{Platform} `{Posix OS} := {
  posix_observed :: Observed OS;
  clock_same o c o' : clock_gettime o = (c, o') -> same o o';
  poll_same o fd ev ms r o' : poll fd ev ms o = (r, o') -> same o o';
  setsockopt_same o fd l n v r o' : posix_setsockopt fd l n v o = (r, o') -> same o o';
  so_error_same o fd r o' : posix_so_error fd o = (r, o') -> same o o';
  connect_same o fd a r o' : posix_connect fd a o = (r, o') -> same o o';
  recv_same o fd len fl r o' : posix_recv fd len fl o = (r, o') -> same o o';
  recv_len o fd len fl bs o' : 0 <= len -> posix_recv fd len fl o = (Some bs, o') -> zlen bs <= len;
  fcntl_get_same o fd c r o' : posix_fcntl_get fd c o = (r, o') -> same o o' /\ (r = -1 \/ r = fdflags fd c o);
  fcntl_setfd o fd v r o' : posix_fcntl_set fd F_SETFD v o = (r, o') ->
    apart fd o o' /\ opened o' = opened o /\ sent fd o' = sent fd o /\
    fdflags fd F_GETFL o' = fdflags fd F_GETFL o /\ (r = -1 \/ fdflags fd F_GETFD o' = v);
  fcntl_setfl o fd v r o' : posix_fcntl_set fd F_SETFL v o = (r, o') ->
    apart fd o o' /\ opened o' = opened o /\ sent fd o' = sent fd o /\
    fdflags fd F_GETFD o' = fdflags fd F_GETFD o /\ (r = -1 \/ fdflags fd F_GETFL o' = v);
  socket_new o f t p r o' : posix_socket f t p o = (r, o') ->
    r = -1 /\ same o o' \/ 0 <= r /\ r ∉ opened o /\ opened o' = {[r]} ∪ opened o /\ apart r o o' /\ sent r o' = [];
  send_sent o fd buf fl r o' : posix_send fd buf fl o = (r, o') ->
    r <= zlen buf /\ apart fd o o' /\ opened o' = opened o /\ sent fd o' = sent fd o ++ ztake r buf;
  close_closes o fd r o' : posix_close fd o = (r, o') -> apart fd o o' /\ opened o' = opened o ∖ {[fd]};
  getaddrinfo_list o h p a r o' : posix_getaddrinfo h p a o = (r, o') ->
    match r with
    | inl e => e <> 0 /\ lists_by 0 o o'
    | inr l => l <> [] /\ lists_by 1 o o'
    end;
  freeaddrinfo_frees l o : lists_by (-1) o (posix_freeaddrinfo l o);
}.

(** ** Connecting *)

Section Open.
Context `{Platform} {OS : Type} `{Posix OS}.
(** The bound on interrupted calls of [poll]. *)
Context (fuel : nat).

Definition sys {A} (f : OS -> A * OS) : eff OS A := fun o => let '(a, o') := f o in (Ret a, o').

Definition amqp_os_socket_init : Z := AMQP_STATUS_OK.
Definition amqp_os_socket_error : eff OS errno_t := fun o => (Ret (posix_errno o), o).
Definition amqp_os_socket_close (fd : Z) : eff OS Z := sys (posix_close fd).

(** [flags = fcntl(fd, get); if (flags == -1 || fcntl(fd, set, flags | flag) == -1)]:
    whether it went well. *)
Definition add_fd_flag (fd get set flag : Z) : eff OS bool :=
  let! flags := sys (posix_fcntl_get fd get) in
  if flags =? -1 then ret false
  else
    let! r := sys (posix_fcntl_set fd set (Z.lor flags flag)) in
    ret (negb (r =? -1)).

(** [if (0 != setsockopt(...))] *)
Definition set_option (fd level name : Z) : eff OS bool :=
  let! r := sys (posix_setsockopt fd level name 1) in ret (r =? 0).

(** [err: close(sockfd); return last_error;] *)
Definition err (fd last_error : Z) : eff OS Z :=
  do! sys (posix_close fd) in ret last_error.

(** [if (!ok) { last_error = AMQP_STATUS_SOCKET_ERROR; goto err; }] *)
Definition or_err (fd : Z) (m : eff OS bool) (k : eff OS Z) : eff OS Z :=
  let! ok := m in if ok : bool then k else err fd AMQP_STATUS_SOCKET_ERROR.

Definition connect_socket (a : addrinfo) (deadline : amqp_time_t) : eff OS Z :=
  let! fd := sys (posix_socket (ai_family a) (ai_socktype a) (ai_protocol a)) in
  if fd =? -1 then ret AMQP_STATUS_SOCKET_ERROR
  else
    or_err fd (add_fd_flag fd F_GETFD F_SETFD FD_CLOEXEC) (
    or_err fd (add_fd_flag fd F_GETFL F_SETFL O_NONBLOCK) (
    or_err fd (match SO_NOSIGPIPE with Some n => set_option fd SOL_SOCKET n | None => ret true end) (
    or_err fd (set_option fd IPPROTO_TCP TCP_NODELAY) (
    or_err fd (set_option fd SOL_SOCKET SO_KEEPALIVE) (
    let! r := sys (posix_connect fd (ai_addr a)) in
    if r =? 0 then ret fd
    else
      let! e := amqp_os_socket_error in
      if negb (bool_decide (e = EINPROGRESS)) then err fd AMQP_STATUS_SOCKET_ERROR
      else
        let! last_error := amqp_poll fuel fd AMQP_SF_POLLOUT deadline in
        if negb (last_error =? AMQP_STATUS_OK) then err fd last_error
        else
          let! result := sys (posix_so_error fd) in
          if bool_decide (result = Some 0) then ret fd else err fd AMQP_STATUS_SOCKET_ERROR))))).

(** The addresses in turn; [sockfd] and [last_error] are what the loop leaves. *)
Fixpoint connect_loop (addresses : list addrinfo) (deadline : amqp_time_t) (sockfd last_error : Z) : eff OS (Z * Z) :=
  match addresses with
  | [] => ret (sockfd, last_error)
  | a :: rest =>
      let! sockfd := connect_socket a deadline in
      if 0 <=? sockfd then ret (sockfd, AMQP_STATUS_OK)
      else if sockfd =? AMQP_STATUS_TIMEOUT then ret (sockfd, sockfd)
      else connect_loop rest deadline sockfd last_error
  end.

Definition amqp_open_socket_inner (hostname : list byte) (portnumber : Z) (deadline : amqp_time_t) : eff OS Z :=
  if negb (amqp_os_socket_init =? AMQP_STATUS_OK) then ret amqp_os_socket_init
  else
    let hint := mk_addrinfo PF_UNSPEC SOCK_STREAM IPPROTO_TCP [] in
    let! r := sys (posix_getaddrinfo hostname (sprintf_d portnumber) hint) in
    match r with
    | inl _ => ret AMQP_STATUS_HOSTNAME_RESOLUTION_FAILED
    | inr address_list =>
        let! '(sockfd, last_error) := connect_loop address_list deadline (-1) 0 in
        do! modify (posix_freeaddrinfo address_list) in
        if negb (last_error =? AMQP_STATUS_OK) || (sockfd =? -1) then ret last_error else ret sockfd
    end.

Definition amqp_open_socket (hostname : list byte) (portnumber : Z) : eff OS Z :=
  amqp_open_socket_inner hostname portnumber amqp_time_infinite.

Definition amqp_open_socket_noblock (hostname : list byte) (portnumber : Z) (timeout : option timeval) : eff OS Z :=
  let! now := match timeout with
              | Some tv => if (tv_sec tv <? 0) || (tv_usec tv <? 0) then ret None else clock
              | None => ret None
              end in
  match amqp_time_from_now now timeout (mk_time 0) with
  | (Ret _, deadline) => amqp_open_socket_inner hostname portnumber deadline
  | (Err res, _) => ret res
  | _ => undef
  end.

End Open.
