(* ===== verification/PosixSpec.v ===== *)
(** * Opening connections: the theorems about [Posix.v]

    A small Hoare logic for calls that may be interrupted for ever, and the ownership of
    descriptors: what a call opens it closes or returns. *)

From S2P Require Import Prelude Status Time Net Posix.

(** ** Calls that end *)

(** [ends Q P x]: the call returned a value as [Q] says, or it has been going on and [P]
    holds; nothing else. *)
Definition ends {S A} (Q : A -> S -> Prop) (P : S -> Prop) (x : res A * S) : Prop :=
  match x with
  | (Ret a, s) => Q a s
  | (NoFuel, s) => P s
  | _ => False
  end.

Lemma ends_ret {S A} (Q : A -> S -> Prop) P a s : Q a s -> ends Q P (ret a s).
Proof. done. Qed.

Lemma ends_bind {S A B} (R : A -> S -> Prop) Q P (m : eff S A) (k : A -> eff S B) s :
  ends R P (m s) -> (forall a s', R a s' -> ends Q P (k a s')) -> ends Q P (bind m k s).
Proof. unfold bind, ends at 1. destruct (m s) as [[]]; auto; done. Qed.

Lemma ends_weaken {S A} (Q Q' : A -> S -> Prop) (P P' : S -> Prop) x :
  (forall a s, Q a s -> Q' a s) -> (forall s, P s -> P' s) -> ends Q P x -> ends Q' P' x.
Proof. destruct x as [[]]; simpl; auto. Qed.

Lemma ends_sys {OS A} (Q : A -> OS -> Prop) P (f : OS -> A * OS) o :
  (forall a o', f o = (a, o') -> Q a o') -> ends Q P (sys f o).
Proof. intros HQ. unfold sys. destruct (f o) as [a o'] eqn:E. by apply HQ. Qed.

(** ** Views *)

Section Views.
Context `{Observed OS}.

#[export] Instance same_preorder : PreOrder same.
Proof.
  split; [done|]. intros x y z (H1 & H2 & H3 & H4) (G1 & G2 & G3 & G4).
  split; [congruence|]. split; [|split]; [| |congruence]; intros; [rewrite G2|rewrite G3]; auto.
Qed.

(** What was open is as it was. *)
Definition kept (o o' : OS) : Prop :=
  (forall fd, fd ∈ opened o -> sent fd o' = sent fd o /\ forall c, fdflags fd c o' = fdflags fd c o) /\
  lists o' = lists o.

(** Nothing has been opened. *)
Definition back (o o' : OS) : Prop := opened o' = opened o /\ kept o o'.

(** [fd] and nothing else has been opened. *)
Definition mine (fd : Z) (o o' : OS) : Prop :=
  fd ∉ opened o /\ opened o' = {[fd]} ∪ opened o /\ kept o o' /\ sent fd o' = [].

Lemma same_back o o' : same o o' -> back o o'.
Proof. intros (H1 & H2 & H3 & H4). by repeat split. Qed.

Lemma same_kept o o1 o' : kept o o1 -> same o1 o' -> kept o o'.
Proof.
  intros [Hk Hl] (H1 & H2 & H3 & H4). split; [|congruence]. intros fd Hfd. rewrite H2. destruct (Hk fd Hfd) as [? Hc].
  split; [done|]. intros c. by rewrite H3.
Qed.

Lemma apart_kept fd o o1 o' : fd ∉ opened o -> kept o o1 -> apart fd o1 o' -> kept o o'.
Proof.
  intros Hn [Hk Hl] (H1 & H2 & H3 & H4). split; [|congruence]. intros fd' Hfd.
  assert (fd' <> fd) by (by intros ->). rewrite H2 by done. destruct (Hk fd' Hfd) as [? Hc].
  split; [done|]. intros c. by rewrite H3.
Qed.

Lemma same_mine fd o o1 o' : mine fd o o1 -> same o1 o' -> mine fd o o'.
Proof.
  intros (Hn & Ho & Hk & Hs) Hsm. split; [done|]. pose proof Hsm as (H1 & H2 & _). rewrite H1, H2.
  split; [done|]. split; [by eapply same_kept|done].
Qed.

Lemma kept_by o o1 o2 o' n : lists_by n o o1 -> kept o1 o2 -> lists_by (- n) o2 o' -> kept o o'.
Proof.
  intros (H1 & H2 & H3 & H4) [Hk Hl] (G1 & G2 & G3 & G4). split; [|lia]. intros fd Hfd. rewrite G2, <- H2.
  destruct (Hk fd) as [? Hc]; [by rewrite H1|]. split; [done|]. intros c. by rewrite G3, <- H3.
Qed.

Lemma back_by o o1 o2 o' n : lists_by n o o1 -> back o1 o2 -> lists_by (- n) o2 o' -> back o o'.
Proof.
  intros H1 [H2 Hk] H3. split; [|by eapply kept_by]. destruct H1 as (E1 & _), H3 as (E3 & _). congruence.
Qed.

Lemma mine_by fd o o1 o2 o' n : lists_by n o o1 -> mine fd o1 o2 -> lists_by (- n) o2 o' -> mine fd o o'.
Proof.
  intros H1 (Hn & H2 & Hk & Hs) H3. assert (Hk' : kept o o') by (by eapply kept_by).
  destruct H1 as (E1 & _), H3 as (E3 & E4 & _). rewrite E1 in *. unfold mine. rewrite E3, E4. done.
Qed.

Lemma back_trans o o1 o2 : back o o1 -> back o1 o2 -> back o o2.
Proof.
  intros [H1 [Hk Hl]] [H2 [Hk2 Hl2]]. split; [congruence|]. split; [|congruence]. intros fd Hfd.
  destruct (Hk fd Hfd) as [E1 E2]. rewrite <- H1 in Hfd. destruct (Hk2 fd Hfd) as [E3 E4].
  split; [congruence|]. intros c. by rewrite E4.
Qed.

Lemma back_mine fd o o1 o2 : back o o1 -> mine fd o1 o2 -> mine fd o o2.
Proof.
  intros Hb (Hn & H2 & Hk & Hs). pose proof Hb as [H1 _]. rewrite H1 in *. split; [done|]. split; [done|]. split; [|done].
  destruct Hb as [_ [Hk1 Hl1]], Hk as [Hk2 Hl2]. split; [|congruence]. intros fd' Hfd. destruct (Hk1 fd' Hfd) as [E1 E2].
  rewrite <- H1 in Hfd. destruct (Hk2 fd' Hfd) as [E3 E4]. split; [congruence|]. intros c. by rewrite E4.
Qed.
End Views.

(** ** Connecting *)

Section Open.
Context `{PF : Platform} {OS : Type} `{PX : Posix OS} `{PL : !PosixLaws OS}.
Context (fuel : nat).

(** [poll] may be interrupted. *)
Definition poll_interrupted : Prop := exists fd ev ms (o : OS), poll_eintr (poll fd ev ms o).1 = true.

(** [amqp_poll] ends unless it is interrupted again and again. *)
Lemma poll_ends n fd ev t o :
  ev = AMQP_SF_POLLIN \/ ev = AMQP_SF_POLLOUT -> (0 < n)%nat ->
  ends (fun r o' => (r = 0 \/ r < -1) /\ same o o') (fun _ => poll_interrupted) (amqp_poll n fd ev t o).
Proof.
  intros Hev. revert o. induction n as [|n IH]; intros o Hn; [lia|]. simpl.
  assert (negb ((ev =? AMQP_SF_POLLIN) || (ev =? AMQP_SF_POLLOUT)) = false) as -> by (by destruct Hev as [->| ->]).
  apply (ends_bind (fun _ o1 => same o o1)).
  { destruct (_ || _); [by apply ends_ret|]. unfold clock. destruct (clock_gettime o) as [c o1] eqn:E. simpl.
    by eapply clock_same. }
  intros now o1 H1. destruct (Z.ltb_spec (amqp_time_ms_until now t) (-1)); [split; [by right|done]|].
  unfold bind. destruct (poll fd ev _ o1) as [a o2] eqn:Ep. pose proof (poll_same _ _ _ _ _ _ Ep) as H2.
  assert (H12 : same o o2) by (by etransitivity).
  destruct (0 <? poll_res a); [split; [by left|done]|].
  destruct (poll_res a =? 0); [split; [by right|done]|].
  destruct (poll_eintr a) eqn:Ei; [|split; [by right|done]].
  destruct n as [|n]; [simpl; do 4 eexists; by rewrite Ep|].
  eapply ends_weaken; [| |apply (IH o2 ltac:(lia))]; [|done]. intros r o' [Hr Hs]. split; [done|by etransitivity].
Qed.

Lemma close_back fd o o1 : mine fd o o1 -> forall r o2, posix_close fd o1 = (r, o2) -> back o o2.
Proof.
  intros (Hn & Ho & Hk & _) r o2 E. apply close_closes in E as [Ha E]. split; [|by eapply apart_kept].
  rewrite E, Ho. set_solver.
Qed.

Lemma err_back fd e o o1 P : mine fd o o1 -> ends (fun r o' => r = e /\ back o o') P (err fd e o1).
Proof.
  intros Hm. unfold err. apply (ends_bind (fun _ o2 => back o o2)); [|by intros _ o2 Hb].
  apply ends_sys. by apply close_back.
Qed.

(** What [connect_socket] gives: a descriptor of the caller's, or an error. *)
Definition connected (o : OS) (r : Z) (o' : OS) : Prop :=
  r < -1 /\ back o o' \/
  0 <= r /\ mine r o o' /\ Z.land (fdflags r F_GETFD o') FD_CLOEXEC = FD_CLOEXEC /\
  Z.land (fdflags r F_GETFL o') O_NONBLOCK = O_NONBLOCK.

Lemma or_err_ends (R : OS -> Prop) fd m k o o1 P :
  ends (fun ok o2 => mine fd o o2 /\ (ok = true -> R o2)) P (m o1) ->
  (forall o2, mine fd o o2 -> R o2 -> ends (connected o) P (k o2)) ->
  ends (connected o) P (or_err fd m k o1).
Proof.
  intros Hm Hk. unfold or_err. eapply ends_bind; [exact Hm|]. intros [] o2 [H2 HR]; [by apply Hk; auto|].
  eapply ends_weaken; [| |apply (err_back fd _ o o2 P H2)]; [|done]. intros r o' [-> Hb]. by left.
Qed.

Lemma lor_land v f : Z.land (Z.lor v f) f = f.
Proof. apply Z.bits_inj'. intros n _. rewrite Z.land_spec, Z.lor_spec. by destruct (Z.testbit v n), (Z.testbit f n). Qed.

Lemma add_cloexec fd o o1 P : mine fd o o1 ->
  ends (fun ok o2 => mine fd o o2 /\ (ok = true -> Z.land (fdflags fd F_GETFD o2) FD_CLOEXEC = FD_CLOEXEC)) P
    (add_fd_flag fd F_GETFD F_SETFD FD_CLOEXEC o1).
Proof.
  intros Hm. unfold add_fd_flag. apply (ends_bind (fun flags o2 => mine fd o o2)).
  { apply ends_sys. intros r o2 [Hs _]%fcntl_get_same. by eapply same_mine. }
  intros flags o2 H2. destruct (flags =? -1); [by apply ends_ret|].
  apply (ends_bind (fun r o3 => mine fd o o3 /\ (r = -1 \/ fdflags fd F_GETFD o3 = Z.lor flags FD_CLOEXEC))).
  { apply ends_sys. intros r o3 (Ha & E1 & E2 & E3 & E4)%fcntl_setfd. split; [|done]. destruct H2 as (Hn & Ho & Hk & Hs).
    unfold mine. rewrite E1, E2. split; [done|]. split; [done|]. split; [by eapply apart_kept|done]. }
  intros r o3 [H3 Hr]. split; [done|]. intros Hok. destruct Hr as [->|Hr]; [done|]. rewrite Hr. apply lor_land.
Qed.

Lemma add_nonblock fd o o1 P v : mine fd o o1 -> fdflags fd F_GETFD o1 = v ->
  ends (fun ok o2 => mine fd o o2 /\ (ok = true -> fdflags fd F_GETFD o2 = v /\
                       Z.land (fdflags fd F_GETFL o2) O_NONBLOCK = O_NONBLOCK)) P
    (add_fd_flag fd F_GETFL F_SETFL O_NONBLOCK o1).
Proof.
  intros Hm Hv. unfold add_fd_flag. apply (ends_bind (fun flags o2 => mine fd o o2 /\ fdflags fd F_GETFD o2 = v)).
  { apply ends_sys. intros r o2 [Hs _]%fcntl_get_same. split; [by eapply same_mine|]. destruct Hs as (_ & _ & -> & _). done. }
  intros flags o2 [H2 Hv2]. destruct (flags =? -1); [by apply ends_ret|].
  apply (ends_bind (fun r o3 => mine fd o o3 /\ fdflags fd F_GETFD o3 = v /\
                                (r = -1 \/ fdflags fd F_GETFL o3 = Z.lor flags O_NONBLOCK))).
  { apply ends_sys. intros r o3 (Ha & E1 & E2 & E3 & E4)%fcntl_setfl. split; [|by rewrite E3]. destruct H2 as (Hn & Ho & Hk & Hs).
    unfold mine. rewrite E1, E2. split; [done|]. split; [done|]. split; [by eapply apart_kept|done]. }
  intros r o3 (H3 & Hv3 & Hr). split; [done|]. intros Hok. split; [done|]. destruct Hr as [->|Hr]; [done|]. rewrite Hr. apply lor_land.
Qed.

(** The descriptor with its flags. *)
Definition ready (fd : Z) (o o' : OS) : Prop :=
  mine fd o o' /\ Z.land (fdflags fd F_GETFD o') FD_CLOEXEC = FD_CLOEXEC /\
  Z.land (fdflags fd F_GETFL o') O_NONBLOCK = O_NONBLOCK.

Lemma same_ready fd o o1 o' : ready fd o o1 -> same o1 o' -> ready fd o o'.
Proof.
  intros (Hm & H1 & H2) Hs. split; [by eapply same_mine|]. destruct Hs as (_ & _ & Hf & _). by rewrite !Hf.
Qed.

Lemma set_option_ends fd level name o o1 P : ready fd o o1 ->
  ends (fun ok o2 => mine fd o o2 /\ (ok = true -> ready fd o o2)) P (set_option fd level name o1).
Proof.
  intros Hr. unfold set_option. apply (ends_bind (fun _ o2 => ready fd o o2)).
  { apply ends_sys. intros r o2 Hs%setsockopt_same. by eapply same_ready. }
  intros r o2 Hr2. split; [by destruct Hr2|done].
Qed.

Lemma err_connected fd e o o1 P : mine fd o o1 -> e < -1 -> ends (connected o) P (err fd e o1).
Proof.
  intros Hm He. eapply ends_weaken; [| |by apply (err_back fd e o o1 P)]; [|done]. intros r o' [-> Hb]. by left.
Qed.

Lemma socket_mine o f t p r o' : posix_socket f t p o = (r, o') -> r = -1 /\ same o o' \/ 0 <= r /\ mine r o o'.
Proof.
  intros [?|(Hr & Hn & Ho & Ha & Hs)]%socket_new; [by left|right]. split; [done|]. split; [done|]. split; [done|].
  split; [|done]. by eapply apart_kept.
Qed.

Lemma connect_ends fd a deadline o o1 : 0 <= fd -> (0 < fuel)%nat -> ready fd o o1 ->
  ends (connected o) (fun _ => poll_interrupted)
    ((let! r := sys (posix_connect fd (ai_addr a)) in
      if r =? 0 then ret fd
      else
        let! e := amqp_os_socket_error in
        if negb (bool_decide (e = EINPROGRESS)) then err fd AMQP_STATUS_SOCKET_ERROR
        else
          let! last_error := amqp_poll fuel fd AMQP_SF_POLLOUT deadline in
          if negb (last_error =? AMQP_STATUS_OK) then err fd last_error
          else
            let! result := sys (posix_so_error fd) in
            if bool_decide (result = Some 0) then ret fd else err fd AMQP_STATUS_SOCKET_ERROR) o1).
Proof.
  intros Hfd Hf Hr. assert (Hdone : forall o', ready fd o o' -> connected o fd o') by (intros o' (? & ? & ?); by right).
  apply (ends_bind (fun _ o2 => ready fd o o2)).
  { apply ends_sys. intros r o2 Hs%connect_same. by eapply same_ready. }
  intros r o2 H2. destruct (r =? 0); [by apply ends_ret, Hdone|].
  apply (ends_bind (fun _ o3 => ready fd o o3)); [done|]. intros e o3 H3.
  case_bool_decide; [|by apply err_connected; [destruct H3|]]. cbn [negb].
  apply (ends_bind (fun r o4 => (r = 0 \/ r < -1) /\ ready fd o o4)).
  { eapply ends_weaken; [| |apply (poll_ends fuel fd AMQP_SF_POLLOUT deadline o3); [by right|done]]; [|done].
    intros v o4 [Hv Hs]. split; [done|by eapply same_ready]. }
  intros v o4 [Hv H4]. destruct (Z.eqb_spec v AMQP_STATUS_OK) as [_|Hne]; cbn [negb].
  2:{ apply err_connected; [by destruct H4|]. destruct Hv; [done|lia]. }
  apply (ends_bind (fun _ o5 => ready fd o o5)).
  { apply ends_sys. intros x o5 Hs%so_error_same. by eapply same_ready. }
  intros x o5 H5. case_bool_decide; [by apply ends_ret, Hdone|by apply err_connected; [destruct H5|]].
Qed.

Lemma connect_socket_ends a deadline o : (0 < fuel)%nat ->
  ends (connected o) (fun _ => poll_interrupted) (connect_socket fuel a deadline o).
Proof.
  intros Hf. unfold connect_socket. apply (ends_bind (fun fd o1 => fd = -1 /\ same o o1 \/ 0 <= fd /\ mine fd o o1)).
  { apply ends_sys. intros. by eapply socket_mine. }
  intros fd o1 [[-> Hs]|[Hfd H1]]; [left; split; [done|by apply same_back]|].
  destruct (Z.eqb_spec fd (-1)); [lia|].
  eapply or_err_ends; [by apply add_cloexec|]. intros o2 H2 Hc. cbv beta in Hc.
  eapply or_err_ends; [by apply (add_nonblock fd o o2 _ _ H2 eq_refl)|]. intros o3 H3 [Hc3 Hn3].
  assert (R3 : ready fd o o3) by (split; [done|]; by rewrite Hc3).
  apply (or_err_ends (ready fd o)).
  { destruct SO_NOSIGPIPE; [by apply set_option_ends|by apply ends_ret]. }
  intros o4 _ H4. apply (or_err_ends (ready fd o)); [by apply set_option_ends|].
  intros o5 _ H5. apply (or_err_ends (ready fd o)); [by apply set_option_ends|].
  intros o6 _ H6. by apply connect_ends.
Qed.

(** The loop leaves at most one descriptor. *)
Lemma connect_loop_ends l deadline fd0 o : (0 < fuel)%nat -> (l <> [] \/ fd0 < -1) ->
  ends (fun '(fd, e) o' => e = 0 /\ connected o fd o' \/ e = AMQP_STATUS_TIMEOUT /\ fd = e /\ back o o')
    (fun _ => poll_interrupted) (connect_loop fuel l deadline fd0 0 o).
Proof.
  intros Hf. revert fd0 o. induction l as [|a l IH]; intros fd0 o Hl; simpl.
  { left. split; [done|]. destruct Hl as [|Hl]; [done|]. left. split; [lia|]. by apply same_back. }
  eapply ends_bind; [by apply connect_socket_ends|]. intros fd o1 Hc.
  destruct (Z.leb_spec 0 fd); [by left|]. destruct Hc as [[Hfd Hb]|[? _]]; [|lia].
  destruct (Z.eqb_spec fd AMQP_STATUS_TIMEOUT) as [->|]; [by right|].
  eapply ends_weaken; [| |apply (IH fd o1); by right]; [|done].
  intros [fd' e] o' [[-> [[? Hb']|(H0 & Hm & Hfl)]]|(-> & -> & Hb')].
  - left. split; [done|]. left. split; [done|by eapply back_trans].
  - left. split; [done|]. right. split; [done|]. split; [by eapply back_mine|done].
  - right. split; [done|]. split; [done|by eapply back_trans].
Qed.

Lemma open_inner_ends host port deadline o : (0 < fuel)%nat ->
  ends (connected o) (fun _ => poll_interrupted) (amqp_open_socket_inner fuel host port deadline o).
Proof.
  intros Hf. unfold amqp_open_socket_inner. cbn [negb Z.eqb amqp_os_socket_init AMQP_STATUS_OK].
  apply (ends_bind (fun r o1 => match r with inl _ => lists_by 0 o o1 | inr l => l <> [] /\ lists_by 1 o o1 end)).
  { apply ends_sys. intros [e|l] o1 Hl%getaddrinfo_list; by destruct Hl. }
  intros [e|l] o1 Hl.
  { left. split; [done|]. apply (back_by o o1 o1 o1 0 Hl); [by apply same_back|]. unfold lists_by. repeat split. lia. }
  destruct Hl as [Hne Hl]. eapply ends_bind; [apply connect_loop_ends; [done|by left]|].
  intros [fd e] o2 Hfd. cbn beta iota. pose proof (freeaddrinfo_frees l o2) as Hfr.
  change (bind (modify ?f) ?k o2) with (k tt (f o2)). cbv beta.
  destruct Hfd as [[-> Hc]|(-> & -> & Hb)]; cbn [negb orb Z.eqb AMQP_STATUS_OK AMQP_STATUS_TIMEOUT].
  - destruct (Z.eqb_spec fd (-1)) as [->|]; [destruct Hc as [[? _]|[? _]]; lia|]. apply ends_ret.
    destruct Hc as [[? Hb]|(? & Hm & Hc & Hn)]; [left; split; [done|by eapply back_by]|right].
    split; [done|]. split; [by eapply mine_by|]. destruct Hfr as (_ & _ & Hff & _). by rewrite !Hff.
  - left. split; [done|]. by eapply back_by.
Qed.
End Open.

Lemma open_ends `{PosixLaws OS} fuel host port timeout (o : OS) : (0 < fuel)%nat ->
  ends (fun r o' => r < 0 /\ back o o' \/ 0 <= r /\ ready r o o') (fun _ => poll_interrupted (OS := OS))
    (amqp_open_socket_noblock fuel host port timeout o).
Proof.
  intros Hf. apply (ends_weaken (connected o) (fun r o' => r < 0 /\ back o o' \/ 0 <= r /\ ready r o o')
                      (fun _ => poll_interrupted) (fun _ => poll_interrupted)); [|done|].
  { intros r o' [[? Hb]|Hr]; [left; split; [lia|done]|by right]. }
  apply (ends_bind (fun _ o1 => same o o1)).
  { destruct timeout as [tv|]; [|done]. destruct (_ || _); [done|]. unfold clock.
    destruct (clock_gettime o) as [c o1] eqn:E. by eapply clock_same. }
  intros now o1 Hs. pose proof (time_from_now_status now timeout (mk_time 0)) as Ht.
  destruct (amqp_time_from_now now timeout (mk_time 0)) as [[[]|st| |] t]; [|left; split; [done|by apply same_back]|done|done].
  eapply ends_weaken; [| |apply (open_inner_ends fuel host port t o1 Hf)]; [|done].
  intros r o' [[Hr Hb]|(Hr & Hm & Hfl)]; [left|right]; (split; [done|]).
  - eapply back_trans; [by apply same_back|done].
  - split; [|done]. eapply back_mine; [by apply same_back|done].
Qed.

(** C29: [amqp_open_socket_noblock] leaks nothing: whatever the system answers, either the
    result is a status and the open descriptors, their flags and the address lists are
    those from before, or it is the one descriptor that is open in addition, which is
    close-on-exec and non-blocking.  It ends unless [poll] is interrupted for ever. *)
Theorem open_socket_owns `{PosixLaws OS} fuel host port timeout (o : OS) : (0 < fuel)%nat ->
  match amqp_open_socket_noblock fuel host port timeout o with
  | (Ret r, o') => r < 0 /\ back o o' \/ 0 <= r /\ ready r o o'
  | (NoFuel, _) => poll_interrupted (OS := OS)
  | _ => False
  end.
Proof. exact (open_ends fuel host port timeout o). Qed.

(** ** A small system

    Descriptors are numbered from 3; connecting takes its time, and everything works. *)

Record demo_os := mk_os { d_open : gset Z; d_sent : gmap Z (list byte); d_flags : gmap (Z * Z) Z; d_lists : Z }.

#[export] Instance demo_platform : Platform := {
  F_GETFD := 1; F_SETFD := 2; F_GETFL := 3; F_SETFL := 4; FD_CLOEXEC := 1; O_NONBLOCK := 0x800;
  SOL_SOCKET := 1; IPPROTO_TCP := 6; TCP_NODELAY := 1; SO_KEEPALIVE := 9; PF_UNSPEC := 0; SOCK_STREAM := 1;
  SO_NOSIGPIPE := None; MSG_NOSIGNAL := Some 0x4000; MSG_MORE := Some 0x8000; TCP_NOPUSH := None;
}.

Definition next_fd (o : demo_os) : Z := foldr Z.max 2 (elements (d_open o)) + 1.
Definition demo_sent (fd : Z) (o : demo_os) : list byte := default [] (d_sent o !! fd).
Definition demo_flags (fd c : Z) (o : demo_os) : Z := default 0 (d_flags o !! (fd, c)).

Definition demo_system : System demo_os := {|
  clock_gettime o := (Some (1, 0), o);
  poll fd ev ms o := (mk_poll 1 false, o);
|}.

#[export] Instance demo_posix : Posix demo_os := {
  posix_system := demo_system;
  posix_errno o := EINPROGRESS;
  posix_socket f t p o :=
    (next_fd o, mk_os ({[next_fd o]} ∪ d_open o) (<[next_fd o := []]> (d_sent o)) (d_flags o) (d_lists o));
  posix_fcntl_get fd c o := (demo_flags fd c o, o);
  posix_fcntl_set fd c v o := (0, mk_os (d_open o) (d_sent o) (<[(fd, c - 1) := v]> (d_flags o)) (d_lists o));
  posix_setsockopt fd l n v o := (0, o);
  posix_so_error fd o := (Some 0, o);
  posix_connect fd a o := (-1, o);
  posix_send fd buf fl o := (zlen buf, mk_os (d_open o) (<[fd := demo_sent fd o ++ buf]> (d_sent o)) (d_flags o) (d_lists o));
  posix_recv fd len fl o := (Some [], o);
  posix_close fd o := (0, mk_os (d_open o ∖ {[fd]}) (d_sent o) (d_flags o) (d_lists o));
  posix_getaddrinfo h p a o :=
    (inr [mk_addrinfo 2 1 6 []], mk_os (d_open o) (d_sent o) (d_flags o) (d_lists o + 1));
  posix_freeaddrinfo l o := mk_os (d_open o) (d_sent o) (d_flags o) (d_lists o - 1);
}.

#[export] Instance demo_observed : Observed demo_os :=
  {| opened := d_open; sent := demo_sent; fdflags := demo_flags; lists := d_lists |}.

Lemma max_bound l b x : x ∈ l -> x <= foldr Z.max b l.
Proof. induction l as [|y l IH]; [by intros ?%not_elem_of_nil|]. intros [->|?%IH]%elem_of_cons; simpl; lia. Qed.
Lemma max_base l b : b <= foldr Z.max b l.
Proof. induction l; simpl; lia. Qed.

Lemma next_fd_new o : next_fd o ∉ d_open o.
Proof. intros Hin%elem_of_elements. apply (max_bound _ 2) in Hin. unfold next_fd in Hin. lia. Qed.

Ltac demo_view := simpl; unfold demo_flags, demo_sent; simpl.

#[export] Instance demo_laws : PosixLaws demo_os.
Proof.
  refine {| posix_observed := demo_observed |}; simpl.
  - by intros o c o' [= <- <-].
  - by intros o fd ev ms r o' [= <- <-].
  - by intros o fd l n v r o' [= <- <-].
  - by intros o fd r o' [= <- <-].
  - by intros o fd a r o' [= <- <-].
  - by intros o fd len fl r o' [= <- <-].
  - by intros o fd len fl bs o' Hl [= <- <-].
  - intros o fd c r o' [= <- <-]. split; [done|by right].
  - intros o fd v r o' [= <- <-]. split; [|split; [done|split; [done|split]]].
    + split; [done|]. split; [done|]. split; [|done]. intros fd' c Hne. demo_view.
      rewrite lookup_insert_ne; [done|congruence].
    + demo_view. by rewrite lookup_insert_ne.
    + right. demo_view. by rewrite lookup_insert_eq.
  - intros o fd v r o' [= <- <-]. split; [|split; [done|split; [done|split]]].
    + split; [done|]. split; [done|]. split; [|done]. intros fd' c Hne. demo_view.
      rewrite lookup_insert_ne; [done|congruence].
    + demo_view. by rewrite lookup_insert_ne.
    + right. demo_view. by rewrite lookup_insert_eq.
  - intros o f t p r o' [= <- <-]. right. split; [pose proof (max_base (elements (d_open o)) 2); unfold next_fd; lia|].
    split; [apply next_fd_new|]. split; [done|]. split; [|demo_view; by rewrite lookup_insert_eq].
    split; [simpl; set_solver|]. split; [|done]. intros fd' Hne. demo_view. by rewrite lookup_insert_ne.
  - intros o fd buf fl r o' [= <- <-]. split; [done|]. split; [|split; [done|]].
    + split; [done|]. split; [|done]. intros fd' Hne. demo_view. by rewrite lookup_insert_ne.
    + demo_view. rewrite lookup_insert_eq. cbn. by rewrite ztake_all by lia.
  - intros o fd r o' [= <- <-]. split; [|done]. split; [simpl; set_solver|done].
  - intros o h p a r o' [= <- <-]. split; [done|]. repeat split.
  - intros l o. repeat split.
Defined.

Example open_socket_owns_witness :
  match amqp_open_socket_noblock 1 [x68] 5672 None (mk_os {[0; 1; 2]} ∅ ∅ 0) with
  | (Ret r, o') => r < 0 /\ back (mk_os {[0; 1; 2]} ∅ ∅ 0) o' \/ 0 <= r /\ ready r (mk_os {[0; 1; 2]} ∅ ∅ 0) o'
  | (NoFuel, _) => poll_interrupted (OS := demo_os)
  | _ => False
  end.
Proof. exact (open_socket_owns 1 [x68] 5672 None (mk_os {[0; 1; 2]} ∅ ∅ 0) ltac:(lia)). Defined.

(** There, the descriptor is 3. *)
Lemma open_socket_demo :
  match amqp_open_socket_noblock 1 [x68] 5672 None (mk_os {[0; 1; 2]} ∅ ∅ 0) with
  | (Ret r, o') => r = 3 /\ d_open o' = {[0; 1; 2; 3]} /\ d_lists o' = 0
  | _ => False
  end.
Proof. vm_compute. repeat split. Qed.
