(* ===== verification/OpenSsl.v ===== *)
(** * OpenSSL, and the state the TLS sockets share

    OpenSSL is a parameter, the class [OpenSSL]: a library state [TLS] and its calls; those
    that read or write the connection also act on the system.  On top of it: the socket
    BIO of [librabbitmq/amqp_openssl_bio.c] and the global variables of
    [librabbitmq/amqp_openssl.c], which all threads share under [openssl_init_mutex].
    What runs under the mutex is written as a [prog], a sequence of single accesses, so
    that it can be run at once here and interleaved with other threads in [SslThreads.v]. *)

From S2P Require Import Prelude Status Time Net Posix.

(** ** The library *)

(** The functions of a [BIO_METHOD]: those of [BIO_s_socket()] and our own. *)
Inductive bio_slot : Type :=
| bio_create | bio_destroy | bio_ctrl | bio_callback_ctrl | bio_read | bio_write | bio_gets | bio_puts.
Inductive bio_callback : Type :=
| socket_callback (slot : bio_slot)
| amqp_read_callback
| amqp_write_callback.

(** The macros of the OpenSSL headers.  Without the first three of the protocol
    versions the code does not build. *)
Class OpenSSLMacros := {
  SSL_ERROR_WANT_READ : Z; SSL_ERROR_WANT_WRITE : Z; SSL_ERROR_ZERO_RETURN : Z;
  SSL_OP_NO_SSLv2 : Z; SSL_OP_NO_SSLv3 : Z;
  SSL_OP_NO_TLSv1 : Z; SSL_OP_NO_TLSv1_1 : Z; SSL_OP_NO_TLSv1_2 : Z; SSL_OP_NO_TLSv1_3 : option Z;
  SSL_MODE_ENABLE_PARTIAL_WRITE : Z; SSL_MODE_AUTO_RETRY : Z;
  X509_V_OK : Z; X509_CHECK_FLAG_NO_PARTIAL_WILDCARDS : Z;
  SSL_FILETYPE_PEM : Z; BIO_TYPE_SOCKET : Z; BIO_NOCLOSE : Z; ENGINE_METHOD_ALL : Z;
  ENOTCONN : option Z; EPROTO : option Z; EALREADY : option Z;
}.

(** Objects are named by numbers; a pointer is [None] for [NULL]. *)
Class OpenSSL (OS TLS : Type) := {
  ERR_clear_error : TLS -> TLS;
  ERR_peek_error : TLS -> Z;
  SSL_CTX_new : TLS -> option Z * TLS;
  SSL_CTX_free : option Z -> TLS -> TLS;
  SSL_CTX_set_options : Z -> Z -> TLS -> TLS;
  SSL_CTX_clear_options : Z -> Z -> TLS -> TLS;
  SSL_CTX_set_mode : Z -> Z -> TLS -> TLS;
  SSL_CTX_clear_mode : Z -> Z -> TLS -> TLS;
  SSL_CTX_load_verify_locations : Z -> list byte -> TLS -> Z * TLS;
  SSL_CTX_use_certificate_chain_file : Z -> list byte -> TLS -> Z * TLS;
  SSL_CTX_use_PrivateKey_file : Z -> list byte -> Z -> TLS -> Z * TLS;
  SSL_CTX_use_PrivateKey : Z -> Z -> TLS -> Z * TLS;
  SSL_CTX_use_RSAPrivateKey : Z -> Z -> TLS -> Z * TLS;
  SSL_CTX_set_default_passwd_cb_userdata : Z -> list byte -> TLS -> TLS;
  SSL_new : Z -> TLS -> option Z * TLS;
  SSL_free : option Z -> TLS -> TLS;
  SSL_set_bio : Z -> Z -> Z -> TLS -> TLS;
  SSL_set_tlsext_host_name : Z -> list byte -> TLS -> Z * TLS;
  SSL_get_error : Z -> Z -> TLS -> Z;
  SSL_get_peer_certificate : Z -> TLS -> option Z * TLS;
  SSL_get_verify_result : Z -> TLS -> Z;
  X509_check_host : Z -> list byte -> Z -> TLS -> Z;
  X509_free : option Z -> TLS -> TLS;
  SSL_connect : Z -> TLS * OS -> Z * (TLS * OS);
  SSL_write : Z -> list byte -> TLS * OS -> Z * (TLS * OS);
  SSL_read : Z -> Z -> TLS * OS -> (Z + list byte) * (TLS * OS);      (* 0 or less, or the bytes *)
  SSL_shutdown : Z -> TLS * OS -> Z * (TLS * OS);
  BIO_new : option Z -> TLS -> option Z * TLS;
  BIO_set_fd : Z -> Z -> Z -> TLS -> TLS;
  BIO_get_fd : Z -> TLS -> Z;
  BIO_clear_retry_flags : Z -> TLS -> TLS;
  BIO_set_retry_read : Z -> TLS -> TLS;
  BIO_set_retry_write : Z -> TLS -> TLS;
  BIO_new_mem_buf : list byte -> TLS -> option Z * TLS;
  BIO_vfree : option Z -> TLS -> TLS;
  BIO_meth_new : Z -> list byte -> TLS -> option Z * TLS;
  BIO_meth_set : bio_slot -> Z -> bio_callback -> TLS -> TLS;
  BIO_meth_free : option Z -> TLS -> TLS;
  BIO_s_socket : Z;
  PEM_read_bio_RSAPrivateKey : Z -> TLS -> option Z * TLS;
  RSA_free : option Z -> TLS -> TLS;
  EVP_PKEY_free : option Z -> TLS -> TLS;
  ENGINE_load_private_key : option Z -> list byte -> TLS -> option Z * TLS;
  ENGINE_free : option Z -> TLS -> TLS;
  ENGINE_load_builtin_engines : TLS -> TLS;
  ENGINE_by_id : list byte -> TLS -> option Z * TLS;
  ENGINE_set_default : Z -> Z -> TLS -> Z * TLS;
}.

(** ** The socket BIO *)

Section Bio.
Context `{Platform} `{OpenSSLMacros} {OS TLS : Type} `{Posix OS} `{!OpenSSL OS TLS}.

Definition on_bio_os {A} (m : eff OS A) : eff (TLS * OS) A := fun '(t, o) => let '(r, o') := m o in (r, (t, o')).
Definition on_bio {A} (f : TLS -> A * TLS) : eff (TLS * OS) A := fun '(t, o) => let '(a, t') := f t in (Ret a, (t', o)).

Definition amqp_openssl_bio_should_retry (res : Z) : eff OS bool :=
  if res =? -1 then
    let! e := amqp_os_socket_error in
    ret match e with
        | EWOULDBLOCK | EINTR | EAGAIN | EINPROGRESS => true
        | Eother n => bool_decide (ENOTCONN = Some n) || bool_decide (EPROTO = Some n) || bool_decide (EALREADY = Some n)
        end
  else ret false.

Definition bio_flags : Z := match MSG_NOSIGNAL with Some f => Z.lor 0 f | None => 0 end.

Definition amqp_openssl_bio_write (b : Z) (buf : list byte) : eff (TLS * OS) Z :=
  let! fd := on_bio (fun t => (BIO_get_fd b t, t)) in
  let! res := on_bio_os (sys (posix_send fd buf bio_flags)) in
  do! on_bio (fun t => (tt, BIO_clear_retry_flags b t)) in
  let! retry := (if res <=? 0 then on_bio_os (amqp_openssl_bio_should_retry res) else ret false) in
  do! (if retry : bool then on_bio (fun t => (tt, BIO_set_retry_write b t)) else ret tt) in
  ret res.

(** The result of [recv], as [int] and the bytes. *)
Definition amqp_openssl_bio_read (b len : Z) : eff (TLS * OS) (option (list byte)) :=
  let! fd := on_bio (fun t => (BIO_get_fd b t, t)) in
  let! r := on_bio_os (sys (posix_recv fd len bio_flags)) in
  do! on_bio (fun t => (tt, BIO_clear_retry_flags b t)) in
  let res := match r with Some bs => zlen bs | None => -1 end in
  let! retry := (if res <=? 0 then on_bio_os (amqp_openssl_bio_should_retry res) else ret false) in
  do! (if retry : bool then on_bio (fun t => (tt, BIO_set_retry_read b t)) else ret tt) in
  ret r.
End Bio.

(** ** Programs with a mutex *)

(** An access to the shared state, or [pthread_mutex_lock] and [pthread_mutex_unlock],
    which return a status. *)
Inductive prog (S : Type) (A : Type) : Type :=
| Done (a : A)
| Act {B : Type} (m : eff S B) (k : B -> prog S A)
| Lock (k : Z -> prog S A)
| Unlock (k : Z -> prog S A).
Arguments Done {S A}.
Arguments Act {S A B}.
Arguments Lock {S A}.
Arguments Unlock {S A}.

Fixpoint pbind {S A B} (p : prog S A) (f : A -> prog S B) : prog S B :=
  match p with
  | Done a => f a
  | Act m k => Act m (fun b => pbind (k b) f)
  | Lock k => Lock (fun r => pbind (k r) f)
  | Unlock k => Unlock (fun r => pbind (k r) f)
  end.

Declare Scope prog_scope.
Delimit Scope prog_scope with prog.
Notation "'let*' x ':=' m 'in' k" := (pbind m (fun x => k)) (at level 10, x pattern, m at level 100, k at level 200) : prog_scope.
Notation "'do*' m 'in' k" := (pbind m (fun _ => k)) (at level 10, m at level 100, k at level 200) : prog_scope.

Definition act {S B} (m : eff S B) : prog S B := Act m Done.

(** [CHECK_SUCCESS(condition)]: [amqp_abort] unless it is 0. *)
Definition check_success {S} (p : prog S Z) : prog S unit :=
  pbind p (fun r => if negb (r =? 0) then act undef else Done tt).
Definition mutex_lock {S} : prog S unit := check_success (Lock Done).
Definition mutex_unlock {S} : prog S unit := check_success (Unlock Done).

(** One thread alone: the mutex is free when it is locked, and both calls succeed. *)
Fixpoint run_alone {S A} (p : prog S A) : eff S A :=
  match p with
  | Done a => ret a
  | Act m k => bind m (fun b => run_alone (k b))
  | Lock k | Unlock k => run_alone (k 0)
  end.

(** ** The shared state *)

(** The static variables of [amqp_openssl.c] and [amqp_openssl_bio.c], and the library. *)
Record ssl_library (TLS : Type) := mk_library {
  openssl_bio_initialized : bool;
  openssl_connections : Z;
  openssl_engine : option Z;
  amqp_ssl_bio_initialized : bool;
  amqp_bio_method : option Z;
  lib_tls : TLS;
}.
Arguments mk_library {TLS}.
Arguments openssl_bio_initialized {TLS}.
Arguments openssl_connections {TLS}.
Arguments openssl_engine {TLS}.
Arguments amqp_ssl_bio_initialized {TLS}.
Arguments amqp_bio_method {TLS}.
Arguments lib_tls {TLS}.

Section Library.
Context `{Platform} `{OpenSSLMacros} {OS TLS : Type} `{!OpenSSL OS TLS}.
Local Open Scope prog_scope.

Definition tls {A} (f : TLS -> A * TLS) : eff (ssl_library TLS) A := fun g =>
  let '(a, t) := f (lib_tls g) in
  (Ret a, mk_library (openssl_bio_initialized g) (openssl_connections g) (openssl_engine g)
            (amqp_ssl_bio_initialized g) (amqp_bio_method g) t).
Definition tls_do (f : TLS -> TLS) : eff (ssl_library TLS) unit := tls (fun t => (tt, f t)).
Definition read_var {A} (f : ssl_library TLS -> A) : eff (ssl_library TLS) A := fun g => (Ret (f g), g).
Definition set_bio_initialized (b : bool) : eff (ssl_library TLS) unit := modify (fun g =>
  mk_library b (openssl_connections g) (openssl_engine g) (amqp_ssl_bio_initialized g) (amqp_bio_method g) (lib_tls g)).
Definition set_connections (n : Z) : eff (ssl_library TLS) unit := modify (fun g =>
  mk_library (openssl_bio_initialized g) n (openssl_engine g) (amqp_ssl_bio_initialized g) (amqp_bio_method g) (lib_tls g)).
Definition set_engine (e : option Z) : eff (ssl_library TLS) unit := modify (fun g =>
  mk_library (openssl_bio_initialized g) (openssl_connections g) e (amqp_ssl_bio_initialized g) (amqp_bio_method g) (lib_tls g)).
Definition set_amqp_bio_initialized (b : bool) : eff (ssl_library TLS) unit := modify (fun g =>
  mk_library (openssl_bio_initialized g) (openssl_connections g) (openssl_engine g) b (amqp_bio_method g) (lib_tls g)).
Definition set_bio_method (m : option Z) : eff (ssl_library TLS) unit := modify (fun g =>
  mk_library (openssl_bio_initialized g) (openssl_connections g) (openssl_engine g) (amqp_ssl_bio_initialized g) m (lib_tls g)).

(** [assert(e)] *)
Definition assert_true {S} (b : bool) : prog S unit := if b then Done tt else act undef.

Definition bio_method_name : list byte := [x61; x6d; x71; x70; x5f; x62; x69; x6f; x5f; x6d; x65; x74; x68; x6f; x64].

(** [BIO_meth_set_<slot>(amqp_bio_method, BIO_meth_get_<slot>(BIO_s_socket()))] *)
Definition copy_slot (slot : bio_slot) : prog (ssl_library TLS) unit :=
  let* m := act (read_var amqp_bio_method) in
  match m with Some m => act (tls_do (BIO_meth_set slot m (socket_callback slot))) | None => act undef end.
Definition set_slot (slot : bio_slot) (c : bio_callback) : prog (ssl_library TLS) unit :=
  let* m := act (read_var amqp_bio_method) in
  match m with Some m => act (tls_do (BIO_meth_set slot m c)) | None => act undef end.

(** [AMQP_USE_AMQP_BIO] is [MSG_NOSIGNAL]. *)
Definition amqp_openssl_bio_init : prog (ssl_library TLS) Z :=
  let* b := act (read_var amqp_ssl_bio_initialized) in
  do* assert_true (negb b) in
  match MSG_NOSIGNAL with
  | Some _ =>
      let* m := act (tls (BIO_meth_new BIO_TYPE_SOCKET bio_method_name)) in
      do* act (set_bio_method m) in
      match m with
      | None => Done AMQP_STATUS_NO_MEMORY
      | Some _ =>
          do* copy_slot bio_create in
          do* copy_slot bio_destroy in
          do* copy_slot bio_ctrl in
          do* copy_slot bio_callback_ctrl in
          do* copy_slot bio_read in
          do* copy_slot bio_write in
          do* copy_slot bio_gets in
          do* copy_slot bio_puts in
          do* set_slot bio_write amqp_write_callback in
          do* set_slot bio_read amqp_read_callback in
          do* act (set_amqp_bio_initialized true) in
          Done AMQP_STATUS_OK
      end
  | None => do* act (set_amqp_bio_initialized true) in Done AMQP_STATUS_OK
  end.

Definition amqp_openssl_bio_destroy : prog (ssl_library TLS) unit :=
  let* b := act (read_var amqp_ssl_bio_initialized) in
  do* assert_true b in
  do* match MSG_NOSIGNAL with
      | Some _ =>
          let* m := act (read_var amqp_bio_method) in
          do* act (tls_do (BIO_meth_free m)) in
          act (set_bio_method None)
      | None => Done tt
      end in
  act (set_amqp_bio_initialized false).

(** Called without the mutex. *)
Definition amqp_openssl_bio : prog (ssl_library TLS) (option Z) :=
  let* b := act (read_var amqp_ssl_bio_initialized) in
  do* assert_true b in
  match MSG_NOSIGNAL with
  | Some _ => act (read_var amqp_bio_method)
  | None => Done (Some BIO_s_socket)
  end.

(** [openssl_connections] is an [int]. *)
Definition initialize_ssl_and_increment_connections : prog (ssl_library TLS) Z :=
  do* mutex_lock in
  let* b := act (read_var openssl_bio_initialized) in
  let* status :=
    if negb b then
      let* status := amqp_openssl_bio_init in
      if negb (status =? 0) then Done status
      else do* act (set_bio_initialized true) in Done 0
    else Done 0 in
  let* status :=
    if negb (status =? 0) then Done status
    else
      let* n := act (read_var openssl_connections) in
      do* (if bool_decide (in_s 32 (n + 1)) then act (set_connections (n + 1)) else act undef) in
      Done AMQP_STATUS_OK in
  do* mutex_unlock in
  Done status.

Definition decrement_ssl_connections : prog (ssl_library TLS) Z :=
  do* mutex_lock in
  let* n := act (read_var openssl_connections) in
  do* (if 0 <? n then
         let* n := act (read_var openssl_connections) in act (set_connections (n - 1))
       else Done tt) in
  let* n := act (read_var openssl_connections) in
  do* (if n =? 0 then
         do* amqp_openssl_bio_destroy in
         act (set_bio_initialized false)
       else Done tt) in
  do* mutex_unlock in
  Done AMQP_STATUS_OK.

(** [engine] is [None] for [NULL]. *)
Definition amqp_set_ssl_engine (engine : option (list byte)) : prog (ssl_library TLS) Z :=
  do* mutex_lock in
  let* old := act (read_var openssl_engine) in
  do* (match old with
       | Some _ => do* act (tls_do (ENGINE_free old)) in act (set_engine None)
       | None => Done tt
       end) in
  let* status :=
    match engine with
    | None => Done AMQP_STATUS_OK
    | Some engine =>
        do* act (tls_do ENGINE_load_builtin_engines) in
        let* e := act (tls (ENGINE_by_id engine)) in
        do* act (set_engine e) in
        match e with
        | None => Done AMQP_STATUS_SSL_SET_ENGINE_FAILED
        | Some e =>
            let* r := act (tls (ENGINE_set_default e ENGINE_METHOD_ALL)) in
            if r =? 0 then
              do* act (tls_do (ENGINE_free (Some e))) in
              do* act (set_engine None) in
              Done AMQP_STATUS_SSL_SET_ENGINE_FAILED
            else Done AMQP_STATUS_OK
        end
    end in
  do* mutex_unlock in
  Done status.

(** Nothing to do since OpenSSL 1.1. *)
Definition amqp_initialize_ssl_library : Z := AMQP_STATUS_OK.
Definition amqp_uninitialize_ssl_library : Z := AMQP_STATUS_OK.
Definition amqp_set_initialize_ssl_library (do_initialize : Z) : unit := tt.

End Library.
