(* ===== verification/OpenSslLaws.v ===== *)
(** * What the OpenSSL manual promises

    The objects of the library that the TLS socket makes and must free, as a view of its
    state, and what each call does to them; and a small library that keeps the promises,
    used to run the model. *)

From stdpp Require Import gmultiset.
From S2P Require Import Prelude Status Time Net Posix PosixSpec OpenSsl.

(** Contexts with their options, connections with the plain text they have accepted,
    references to certificates, and BIOs that belong to no connection. *)
Record tls_view := mk_view {
  v_ctxs : gmap Z Z;
  v_ssls : gmap Z (list byte);
  v_certs : gmultiset Z;
  v_bios : gset Z;
}.
Definition with_ctxs (f : gmap Z Z -> gmap Z Z) (v : tls_view) : tls_view :=
  mk_view (f (v_ctxs v)) (v_ssls v) (v_certs v) (v_bios v).
Definition with_ssls (f : gmap Z (list byte) -> gmap Z (list byte)) (v : tls_view) : tls_view :=
  mk_view (v_ctxs v) (f (v_ssls v)) (v_certs v) (v_bios v).
Definition with_certs (f : gmultiset Z -> gmultiset Z) (v : tls_view) : tls_view :=
  mk_view (v_ctxs v) (v_ssls v) (f (v_certs v)) (v_bios v).
Definition with_bios (f : gset Z -> gset Z) (v : tls_view) : tls_view :=
  mk_view (v_ctxs v) (v_ssls v) (v_certs v) (f (v_bios v)).

(** A pointer [p] is passed to a function that frees, or is [NULL]. *)
Definition freeing {A} (f : Z -> A -> A) (p : option Z) (a : A) : A :=
  match p with Some x => f x a | None => a end.

(** Connections are freed with their BIO; a BIO given to a connection is no longer free.
    A result of 0 or less of [SSL_write] and [SSL_read] is an error. *)
Class OpenSSLLaws (OS TLS : Type) `{PosixLaws OS} `{!OpenSSL OS TLS} := {
  seen : TLS -> tls_view;
  clear_error_seen t : seen (ERR_clear_error t) = seen t;
  ctx_new_seen t r t' : SSL_CTX_new t = (r, t') ->
    match r with
    | None => seen t' = seen t
    | Some c => v_ctxs (seen t) !! c = None /\ exists o, seen t' = with_ctxs (<[c := o]>) (seen t)
    end;
  ctx_free_seen p t : seen (SSL_CTX_free p t) = freeing (fun c => with_ctxs (delete c)) p (seen t);
  set_options_seen c o t : seen (SSL_CTX_set_options c o t) = with_ctxs (alter (fun x => Z.lor x o) c) (seen t);
  clear_options_seen c o t : seen (SSL_CTX_clear_options c o t) = with_ctxs (alter (fun x => Z.ldiff x o) c) (seen t);
  set_mode_seen c m t : seen (SSL_CTX_set_mode c m t) = seen t;
  clear_mode_seen c m t : seen (SSL_CTX_clear_mode c m t) = seen t;
  ssl_new_seen c t r t' : SSL_new c t = (r, t') ->
    match r with
    | None => seen t' = seen t
    | Some s => v_ssls (seen t) !! s = None /\ seen t' = with_ssls (<[s := []]>) (seen t)
    end;
  ssl_free_seen p t : seen (SSL_free p t) = freeing (fun s => with_ssls (delete s)) p (seen t);
  bio_new_seen m t r t' : BIO_new m t = (r, t') ->
    match r with
    | None => seen t' = seen t
    | Some b => b ∉ v_bios (seen t) /\ seen t' = with_bios (union {[b]}) (seen t)
    end;
  bio_set_fd_seen b fd c t : seen (BIO_set_fd b fd c t) = seen t;
  set_bio_seen s b t : seen (SSL_set_bio s b b t) = with_bios (fun l => l ∖ {[b]}) (seen t);
  set_host_name_seen s h t r t' : SSL_set_tlsext_host_name s h t = (r, t') -> seen t' = seen t;
  peer_certificate_seen s t r t' : SSL_get_peer_certificate s t = (r, t') ->
    seen t' = freeing (fun c => with_certs (disj_union {[+ c +]})) r (seen t);
  x509_free_seen p t : seen (X509_free p t) = freeing (fun c => with_certs (fun l => l ∖ {[+ c +]})) p (seen t);
  connect_seen s t o r t' o' : SSL_connect s (t, o) = (r, (t', o')) -> seen t' = seen t /\ opened o' = opened o;
  write_seen s buf t o r t' o' : SSL_write s buf (t, o) = (r, (t', o')) ->
    r <= zlen buf /\ seen t' = with_ssls (alter (fun p => p ++ ztake r buf) s) (seen t) /\ opened o' = opened o;
  read_seen s len t o r t' o' : SSL_read s len (t, o) = (r, (t', o')) ->
    match r with inl n => n <= 0 | inr bs => 0 <= len -> 0 < zlen bs <= len end /\
    seen t' = seen t /\ opened o' = opened o;
  shutdown_seen s t o r t' o' : SSL_shutdown s (t, o) = (r, (t', o')) -> seen t' = seen t /\ opened o' = opened o;
  bio_meth_free_seen p t : seen (BIO_meth_free p t) = seen t;
}.

(** ** A demonstration *)

(** The state is the view; every handshake succeeds at once with a certificate for any
    host, and everything written is accepted. *)
Definition demo_tls : Type := tls_view.

#[export] Instance demo_macros : OpenSSLMacros := {
  SSL_ERROR_WANT_READ := 2; SSL_ERROR_WANT_WRITE := 3; SSL_ERROR_ZERO_RETURN := 6;
  SSL_OP_NO_SSLv2 := 0; SSL_OP_NO_SSLv3 := 0x02000000;
  SSL_OP_NO_TLSv1 := 0x04000000; SSL_OP_NO_TLSv1_1 := 0x10000000; SSL_OP_NO_TLSv1_2 := 0x08000000;
  SSL_OP_NO_TLSv1_3 := Some 0x20000000;
  SSL_MODE_ENABLE_PARTIAL_WRITE := 1; SSL_MODE_AUTO_RETRY := 4;
  X509_V_OK := 0; X509_CHECK_FLAG_NO_PARTIAL_WILDCARDS := 4;
  SSL_FILETYPE_PEM := 1; BIO_TYPE_SOCKET := 0x0505; BIO_NOCLOSE := 0; ENGINE_METHOD_ALL := 0xFFFF;
  ENOTCONN := Some 107; EPROTO := Some 71; EALREADY := Some 114;
}.

Definition new_id {A} (m : gmap Z A) : Z := fresh (dom m).

#[export] Instance demo_openssl : OpenSSL demo_os demo_tls := {
  ERR_clear_error t := t;
  ERR_peek_error t := 0;
  SSL_CTX_new t := (Some (new_id (v_ctxs t)), with_ctxs (<[new_id (v_ctxs t) := 0]>) t);
  SSL_CTX_free p t := freeing (fun c => with_ctxs (delete c)) p t;
  SSL_CTX_set_options c o t := with_ctxs (alter (fun x => Z.lor x o) c) t;
  SSL_CTX_clear_options c o t := with_ctxs (alter (fun x => Z.ldiff x o) c) t;
  SSL_CTX_set_mode c m t := t;
  SSL_CTX_clear_mode c m t := t;
  SSL_CTX_load_verify_locations c f t := (1, t);
  SSL_CTX_use_certificate_chain_file c f t := (1, t);
  SSL_CTX_use_PrivateKey_file c f ty t := (1, t);
  SSL_CTX_use_PrivateKey c k t := (1, t);
  SSL_CTX_use_RSAPrivateKey c k t := (1, t);
  SSL_CTX_set_default_passwd_cb_userdata c p t := t;
  SSL_new c t := (Some (new_id (v_ssls t)), with_ssls (<[new_id (v_ssls t) := []]>) t);
  SSL_free p t := freeing (fun s => with_ssls (delete s)) p t;
  SSL_set_bio s b w t := with_bios (fun l => l ∖ {[b]}) t;
  SSL_set_tlsext_host_name s h t := (1, t);
  SSL_get_error s r t := 6;
  SSL_get_peer_certificate s t := (Some 7, with_certs (disj_union {[+ 7 +]}) t);
  SSL_get_verify_result s t := 0;
  X509_check_host c h f t := 1;
  X509_free p t := freeing (fun c => with_certs (fun l => l ∖ {[+ c +]})) p t;
  SSL_connect s x := (1, x);
  SSL_write s buf x := (zlen buf, (with_ssls (alter (fun p => p ++ buf) s) x.1, x.2));
  SSL_read s len x := (inl 0, x);
  SSL_shutdown s x := (0, x);
  BIO_new m t := (Some (fresh (v_bios t)), with_bios (union {[fresh (v_bios t)]}) t);
  BIO_set_fd b fd c t := t;
  BIO_get_fd b t := 3;
  BIO_clear_retry_flags b t := t;
  BIO_set_retry_read b t := t;
  BIO_set_retry_write b t := t;
  BIO_new_mem_buf buf t := (Some (fresh (v_bios t)), with_bios (union {[fresh (v_bios t)]}) t);
  BIO_vfree p t := freeing (fun b => with_bios (fun l => l ∖ {[b]})) p t;
  BIO_meth_new ty name t := (Some 1, t);
  BIO_meth_set slot m c t := t;
  BIO_meth_free p t := t;
  BIO_s_socket := 0;
  PEM_read_bio_RSAPrivateKey b t := (Some 1, t);
  RSA_free p t := t;
  EVP_PKEY_free p t := t;
  ENGINE_load_private_key e k t := (Some 1, t);
  ENGINE_free p t := t;
  ENGINE_load_builtin_engines t := t;
  ENGINE_by_id e t := (Some 1, t);
  ENGINE_set_default e f t := (1, t);
}.

Lemma new_id_none {A} (m : gmap Z A) : m !! new_id m = None.
Proof. apply not_elem_of_dom. apply is_fresh. Qed.

#[export] Instance demo_openssl_laws : OpenSSLLaws demo_os demo_tls.
Proof.
  refine {| seen := (fun t : demo_tls => (t : tls_view)) |}; simpl; try done.
  - intros t r t' [= <- <-]. split; [apply new_id_none|by eexists].
  - intros c t r t' [= <- <-]. split; [apply new_id_none|done].
  - intros m t r t' [= <- <-]. split; [apply is_fresh|done].
  - by intros s h t r t' [= <- <-].
  - by intros s t r t' [= <- <-].
  - by intros s t o r t' o' [= <- <- <-].
  - intros s buf t o r t' o' [= <- <- <-]. split; [done|]. split; [|done]. by rewrite ztake_all by lia.
  - by intros s len t o r t' o' [= <- <- <-].
  - by intros s t o r t' o' [= <- <- <-].
Defined.

Definition no_tls : demo_tls := mk_view ∅ ∅ ∅ ∅.
Definition demo_library : ssl_library demo_tls := mk_library false 0 None false None no_tls.
