(* ===== verification/SslThreads.v ===== *)
(** * Threads that share the TLS library: the theorems about the mutex of [OpenSsl.v]

    Any number of threads make, open and delete TLS sockets and choose engines at the same
    time.  Their accesses to the global variables are interleaved one by one; only
    [openssl_init_mutex] keeps them apart, and opening does not take it. *)

From S2P Require Import Prelude Status Time Net Posix PosixSpec OpenSsl OpenSslLaws.

(** ** Programs under a mutex *)

Section Programs.
Context {S : Type}.

(** One access of thread [i], which may take or release the mutex; [0] is success. *)
Inductive prog_step {A} (i : nat) : option nat -> S -> prog S A -> option nat -> S -> prog S A -> Prop :=
| ps_act o s B (m : eff S B) k b s' : m s = (Ret b, s') -> prog_step i o s (Act m k) o s' (k b)
| ps_lock s k : prog_step i None s (Lock k) (Some i) s (k 0)
| ps_unlock s k : prog_step i (Some i) s (Unlock k) None s (k 0).

(** The next access is an [abort], a failed assertion or another undefined one. *)
Definition crashing {A} (p : prog S A) (s : S) : Prop :=
  match p with
  | Act m k => match m s with (Ret _, _) => False | _ => True end
  | _ => False
  end.

(** A piece without the mutex's calls: it ends in [Q], through states of [J]. *)
Fixpoint straight {A} (J : S -> Prop) (p : prog S A) (Q : A -> S -> Prop) (s : S) : Prop :=
  match p with
  | Done a => Q a s
  | Act m k => match m s with (Ret b, s') => J s' /\ straight J (k b) Q s' | _ => False end
  | Lock _ | Unlock _ => False
  end.

(** The rest of a critical section: it ends by releasing the mutex in [Q]. *)
Fixpoint section {A} (J : S -> Prop) (p : prog S A) (Q : A -> S -> Prop) (s : S) : Prop :=
  match p with
  | Act m k => match m s with (Ret b, s') => J s' /\ section J (k b) Q s' | _ => False end
  | Unlock k => match k 0 with Done a => Q a s | _ => False end
  | Done _ | Lock _ => False
  end.

Lemma prog_step_inv {A} i o s (p : prog S A) o' s' p' : prog_step i o s p o' s' p' ->
  match p with
  | Done _ => False
  | Act m k => exists b, m s = (Ret b, s') /\ o' = o /\ p' = k b
  | Lock k => o = None /\ o' = Some i /\ s' = s /\ p' = k 0
  | Unlock k => o = Some i /\ o' = None /\ s' = s /\ p' = k 0
  end.
Proof. destruct 1; eauto. Qed.

Lemma straight_section {A B} J (p : prog S A) (f : A -> prog S B) Q s :
  straight J p (fun a => section J (f a) Q) s -> section J (pbind p f) Q s.
Proof.
  revert s. induction p as [a|C m k IH|k IH|k IH]; intros s; cbn; try done.
  destruct (m s) as [[b| | |] s']; try done. intros [Hj Hs]. split; [done|by apply IH].
Qed.

Lemma straight_bind {A B} J (p : prog S A) (f : A -> prog S B) Q s :
  straight J p (fun a => straight J (f a) Q) s -> straight J (pbind p f) Q s.
Proof.
  revert s. induction p as [a|C m k IH|k IH|k IH]; intros s; cbn; try done.
  destruct (m s) as [[b| | |] s']; try done. intros [Hj Hs]. split; [done|by apply IH].
Qed.

Lemma straight_mono {A} J (p : prog S A) (Q Q' : A -> S -> Prop) s :
  (forall a s, Q a s -> Q' a s) -> straight J p Q s -> straight J p Q' s.
Proof.
  intros HQ. revert s. induction p as [a|C m k IH|k IH|k IH]; intros s; cbn; try done; [by apply HQ|].
  destruct (m s) as [[b| | |] s']; try done. intros [Hj Hs]. split; [done|by apply IH].
Qed.

(** A thread that only reads, and finds what it needs in every state of [J]. *)
Fixpoint reader {A} (J : S -> Prop) (p : prog S A) : Prop :=
  match p with
  | Done _ => True
  | Act m k => forall s, J s -> exists b, m s = (Ret b, s) /\ reader J (k b)
  | Lock _ | Unlock _ => False
  end.
End Programs.

(** ** Threads *)

Section Threads.
Context `{PF : Platform} `{OM : OpenSSLMacros} {OS TLS : Type} `{OL : !OpenSSL OS TLS}.

(** A thread with no socket; in [amqp_ssl_socket_new]; with a socket; reading
    [amqp_openssl_bio] while it opens it; in [amqp_ssl_socket_delete]; in
    [amqp_set_ssl_engine]. *)
Inductive thread : Type :=
| T_idle
| T_new (p : prog (ssl_library TLS) Z)
| T_live
| T_open (p : prog (ssl_library TLS) (option Z))
| T_delete (p : prog (ssl_library TLS) Z)
| T_engine (p : prog (ssl_library TLS) Z).

Record config := mk_config { threads : list thread; owner : option nat; lib : ssl_library TLS }.

(** What a thread does next of its own accord.  When the initialisation fails,
    [amqp_ssl_socket_new] deletes the object it has made. *)
Inductive thread_moves : thread -> thread -> Prop :=
| move_new : thread_moves T_idle (T_new initialize_ssl_and_increment_connections)
| move_made : thread_moves (T_new (Done 0)) T_live
| move_not_made st : st <> 0 -> thread_moves (T_new (Done st)) (T_delete decrement_ssl_connections)
| move_open : thread_moves T_live (T_open amqp_openssl_bio)
| move_opened m : thread_moves (T_open (Done m)) T_live
| move_delete : thread_moves T_live (T_delete decrement_ssl_connections)
| move_deleted st : thread_moves (T_delete (Done st)) T_idle
| move_engine e : thread_moves T_idle (T_engine (amqp_set_ssl_engine e))
| move_engine_set st : thread_moves (T_engine (Done st)) T_idle.

(** One access inside a call. *)
Inductive thread_access (i : nat) :
    option nat -> ssl_library TLS -> thread -> option nat -> ssl_library TLS -> thread -> Prop :=
| access_new o g p o' g' p' : prog_step i o g p o' g' p' -> thread_access i o g (T_new p) o' g' (T_new p')
| access_open o g p o' g' p' : prog_step i o g p o' g' p' -> thread_access i o g (T_open p) o' g' (T_open p')
| access_delete o g p o' g' p' : prog_step i o g p o' g' p' -> thread_access i o g (T_delete p) o' g' (T_delete p')
| access_engine o g p o' g' p' : prog_step i o g p o' g' p' -> thread_access i o g (T_engine p) o' g' (T_engine p').

Inductive step : config -> config -> Prop :=
| step_moves ts o g i t t' : ts !! i = Some t -> thread_moves t t' ->
    step (mk_config ts o g) (mk_config (<[i := t']> ts) o g)
| step_access ts o g i t o' g' t' : ts !! i = Some t -> thread_access i o g t o' g' t' ->
    step (mk_config ts o g) (mk_config (<[i := t']> ts) o' g').

Definition crashes (t : thread) (g : ssl_library TLS) : Prop :=
  match t with
  | T_new p | T_delete p | T_engine p => crashing p g
  | T_open p => crashing p g
  | T_idle | T_live => False
  end.

(** [n] sockets, and the library as it should be then: the method table is there exactly
    when there is a socket. *)
Definition lib_ok (n : Z) (g : ssl_library TLS) : Prop :=
  openssl_connections g = n /\ openssl_bio_initialized g = (0 <? n) /\ amqp_ssl_bio_initialized g = (0 <? n) /\
  (is_Some (amqp_bio_method g) <-> 0 < n /\ is_Some MSG_NOSIGNAL).

(** What [amqp_openssl_bio] needs. *)
Definition bio_up (g : ssl_library TLS) : Prop :=
  amqp_ssl_bio_initialized g = true /\ (is_Some MSG_NOSIGNAL -> is_Some (amqp_bio_method g)).

Lemma lib_ok_up n g : lib_ok n g -> 0 < n -> bio_up g.
Proof.
  intros (_ & _ & Hi & Hm) Hn. split; [|by intros; apply Hm]. rewrite Hi. by apply Z.ltb_lt.
Qed.

(** [BIO_meth_new] returns [NULL] in some state of OpenSSL. *)
Definition table_refused : Prop := exists t : TLS, (BIO_meth_new BIO_TYPE_SOCKET bio_method_name t).1 = None.

(** Nothing but [0 < n -> bio_up] is said of the states inside a section. *)
Definition others (n : Z) (g : ssl_library TLS) : Prop := 0 < n -> bio_up g.

(** ** The critical sections *)

(** The part of a call from where it has the mutex. *)
Definition locked {A} (p : prog (ssl_library TLS) A) : prog (ssl_library TLS) A :=
  match p with Lock k => k 0 | _ => p end.

(** How the initialisation ends where there are [n] sockets. *)
Definition initialized (n : Z) (st : Z) (g : ssl_library TLS) : Prop :=
  st = 0 /\ lib_ok (n + 1) g \/ st = AMQP_STATUS_NO_MEMORY /\ table_refused.

Lemma init_section n g : 0 <= n -> n + 1 <= INT_MAX -> lib_ok n g ->
  section (others n) (locked initialize_ssl_and_increment_connections) (initialized n) g.
Proof.
  intros H0 Hn Hok. pose proof (lib_ok_up n g Hok) as Hup. destruct Hok as (Hc & Hb & Hi & Hs).
  assert (Hin : in_s 32 (n + 1)) by (unfold in_s, INT_MAX, INT32_MAX in *; lia).
  assert (Hp : 0 <? n + 1 = true) by (apply Z.ltb_lt; lia).
  unfold initialize_ssl_and_increment_connections. cbn. split; [exact Hup|]. rewrite Hb.
  destruct (Z.ltb_spec 0 n) as [Hpos|Hz]; cbn.
  - split; [exact Hup|]. rewrite Hc, bool_decide_true by done. cbn. split; [exact Hup|]. left. split; [done|].
    unfold lib_ok. cbn. rewrite Hp, Hb, Hi. repeat (split; [done|]). rewrite Hs. split; intros [? ?]; (split; [lia|done]).
  - assert (n = 0) as -> by lia. assert (Ht : forall g', others 0 g') by (intros g' ?; lia).
    assert (Hno : amqp_bio_method g = None).
    { apply eq_None_not_Some. intros [? _]%Hs. lia. }
    split; [apply Ht|]. rewrite Hi. cbn. unfold initialized, lib_ok. destruct MSG_NOSIGNAL as [f|]; cbn.
    + unfold tls. destruct (BIO_meth_new BIO_TYPE_SOCKET bio_method_name (lib_tls g)) as [[m|] t] eqn:Em; cbn; repeat (split; [apply Ht|]).
      * rewrite Hc, bool_decide_true by done. cbn. split; [apply Ht|]. left. split_and!; [done..|split; [done|by eexists]].
      * right. split; [done|]. exists (lib_tls g). by rewrite Em.
    + repeat (split; [apply Ht|]). rewrite Hc, bool_decide_true by done. cbn. split; [apply Ht|]. left.
      rewrite Hno. split_and!; [done..|]. split; [by intros []|by intros [_ []]].
Qed.

Lemma delete_section n g : 0 < n -> lib_ok n g ->
  section (others (n - 1)) (locked decrement_ssl_connections) (fun st g' => lib_ok (n - 1) g') g.
Proof.
  intros Hn Hok. assert (Hup : others (n - 1) g) by (intros _; by apply (lib_ok_up n)).
  destruct Hok as (Hc & Hb & Hi & Hs). assert (Hpos : 0 <? n = true) by (by apply Z.ltb_lt).
  unfold decrement_ssl_connections. cbn. split; [exact Hup|]. rewrite Hc, Hpos. cbn. split; [exact Hup|].
  rewrite Hc. split; [exact Hup|]. split; [exact Hup|]. unfold lib_ok. rewrite Hpos in *.
  destruct (Z.eqb_spec (n - 1) 0) as [Ez|Hnz]; cbn.
  - assert (Ht : forall g', others (n - 1) g') by (intros g' ?; lia).
    assert (Hz : 0 <? n - 1 = false) by (apply Z.ltb_ge; lia). rewrite Hz.
    split; [apply Ht|]. rewrite Hi. cbn. destruct MSG_NOSIGNAL as [f|]; cbn; repeat (split; [apply Ht|]).
    + split_and!; [done..|]. split; [by intros []|intros [? _]; lia].
    + split_and!; [done..|]. rewrite Hs. split; [by intros [_ []]|intros [? _]; lia].
  - assert (Hp : 0 <? n - 1 = true) by (apply Z.ltb_lt; lia). rewrite Hp. split_and!; [done..|].
    rewrite Hs. split; intros [? ?]; (split; [lia|done]).
Qed.

Lemma engine_section n e g : lib_ok n g ->
  section (others n) (locked (amqp_set_ssl_engine e)) (fun st g' => lib_ok n g') g.
Proof.
  intros Hok. assert (Hup : others n g) by (intros ?; by apply (lib_ok_up n)).
  unfold amqp_set_ssl_engine. cbn. split; [exact Hup|].
  destruct (openssl_engine g) as [old|], e as [e|]; cbn; repeat (split; [exact Hup|]); try exact Hok.
  all: unfold tls at 1; destruct (ENGINE_by_id _ _) as [[en|] t]; cbn; do 2 (split; [exact Hup|]); [|exact Hok].
  all: unfold tls at 1; destruct (ENGINE_set_default _ _ _) as [r t2]; cbn; split; [exact Hup|].
  all: destruct (r =? 0); cbn; [|exact Hok]; do 2 (split; [exact Hup|]); exact Hok.
Qed.

Lemma bio_reader : reader bio_up amqp_openssl_bio.
Proof.
  unfold amqp_openssl_bio. cbn. intros g [Hi Hm]. eexists. split; [done|]. rewrite Hi. cbn.
  destruct MSG_NOSIGNAL; [|done]. cbn. intros g' _. by eexists.
Qed.

(** ** The invariant *)

(** Whether a thread has a socket that counts. *)
Definition weight (t : thread) : Z :=
  match t with
  | T_new (Done _) | T_live | T_open _ => 1
  | T_delete (Done _) => 0
  | T_delete _ => 1
  | _ => 0
  end.
Definition sockets (ts : list thread) : Z := foldr (fun t n => weight t + n) 0 ts.
#[local] Arguments sockets : simpl never.

Lemma weight_bound t : 0 <= weight t <= 1.
Proof. destruct t as [|[]| | |[]|]; simpl; lia. Qed.

Lemma sockets_insert ts i t t' : ts !! i = Some t -> sockets (<[i := t']> ts) = sockets ts - weight t + weight t'.
Proof.
  unfold sockets. revert i. induction ts as [|u ts IH]; intros [|i]; cbn; try done; [intros [= ->]; lia|].
  intros E. pose proof (IH i E) as H1. unfold insert in *. lia.
Qed.

Lemma sockets_bound ts : 0 <= sockets ts <= zlen ts.
Proof.
  induction ts as [|t ts IH]; [done|]. rewrite zlen_cons. unfold sockets in *. cbn. pose proof (weight_bound t). lia.
Qed.

Lemma sockets_other ts i j t u : ts !! i = Some t -> ts !! j = Some u -> i <> j -> weight u <= sockets ts - weight t.
Proof.
  intros Ei Ej Hne. pose proof (sockets_insert ts i t T_idle Ei) as H1. change (weight T_idle) with 0 in H1.
  assert (Ej' : <[i := T_idle]> ts !! j = Some u) by (by rewrite list_lookup_insert_ne).
  pose proof (sockets_insert _ j u T_idle Ej') as H2. change (weight T_idle) with 0 in H2. pose proof (sockets_bound (<[j := T_idle]> (<[i := T_idle]> ts))). lia.
Qed.

(** A thread without the mutex: before its section, after it, or reading. *)
Definition resting (t : thread) : Prop :=
  match t with
  | T_new p => p = initialize_ssl_and_increment_connections \/ p = Done 0
  | T_delete p => p = decrement_ssl_connections \/ exists st, p = Done st
  | T_engine p => (exists e, p = amqp_set_ssl_engine e) \/ exists st, p = Done st
  | T_open p => reader bio_up p
  | T_idle | T_live => True
  end.

(** The thread with the mutex, where the others have [n] sockets. *)
Definition working (n : Z) (t : thread) (g : ssl_library TLS) : Prop :=
  match t with
  | T_new p => section (others n) p (initialized n) g
  | T_delete p | T_engine p => section (others n) p (fun _ g' => lib_ok n g') g
  | _ => False
  end.

Definition inv (c : config) : Prop :=
  (forall j t, threads c !! j = Some t -> owner c <> Some j -> resting t) /\
  match owner c with
  | None => lib_ok (sockets (threads c)) (lib c)
  | Some i => exists t, threads c !! i = Some t /\ others (sockets (threads c) - weight t) (lib c) /\
                working (sockets (threads c) - weight t) t (lib c)
  end.

(** While a thread reads, the library is up. *)
Lemma inv_up c j t : inv c -> threads c !! j = Some t -> owner c <> Some j -> weight t = 1 -> bio_up (lib c).
Proof.
  intros [_ Ho] Ej Hne Hw. destruct c as [ts [i|] g]; cbn in *.
  - destruct Ho as (u & Ei & Hot & _). apply Hot. pose proof (sockets_other ts i j u t Ei Ej ltac:(congruence)). lia.
  - apply (lib_ok_up _ _ Ho). pose proof (sockets_insert ts j t T_idle Ej) as H1. change (weight T_idle) with 0 in H1.
    pose proof (sockets_bound (<[j := T_idle]> ts)). lia.
Qed.

(** Between calls. *)
Lemma moves_inv ts o g i t t' : ts !! i = Some t -> thread_moves t t' ->
  inv (mk_config ts o g) -> inv (mk_config (<[i := t']> ts) o g).
Proof.
  intros Ei Hm [Hr Ho]. cbn in *.
  assert (Hoi : o <> Some i).
  { intros ->. destruct Ho as (u & Eu & _ & Hw). rewrite Ei in Eu. injection Eu as <-. by destruct Hm. }
  assert (Hw : weight t' = weight t /\ resting t').
  { pose proof (Hr i t Ei Hoi) as Ht. destruct Hm; cbn; eauto. split; [done|]. apply bio_reader. }
  destruct Hw as [Hw Ht'].
  assert (Hs : sockets (<[i := t']> ts) = sockets ts) by (rewrite (sockets_insert ts i t t' Ei); lia).
  split; cbn.
  - intros j u Ej Hj. destruct (decide (i = j)) as [<-|Hne].
    + rewrite list_lookup_insert_eq in Ej by (by eapply lookup_lt_Some). by injection Ej as <-.
    + rewrite list_lookup_insert_ne in Ej by done. by apply (Hr j).
  - rewrite Hs. destruct o as [k|]; [|done]. destruct Ho as (u & Eu & Hu). exists u.
    split; [|exact Hu]. rewrite list_lookup_insert_ne; [done|]. congruence.
Qed.

Lemma section_weight (J : ssl_library TLS -> Prop) (p : prog (ssl_library TLS) Z) Q g :
  section J p Q g -> weight (T_new p) = 0 /\ weight (T_delete p) = 1.
Proof. by destruct p. Qed.

(** One access in a critical section. *)
Lemma section_access i n (p p' : prog (ssl_library TLS) Z) Q o o' g g' :
  prog_step i o g p o' g' p' -> section (others n) p Q g ->
  (o' = o /\ others n g' /\ section (others n) p' Q g') \/
  (o' = None /\ g' = g /\ exists st, p' = Done st /\ Q st g).
Proof.
  intros Hs%prog_step_inv Hp. destruct p as [a|B m k|k|k]; cbn in *; try done.
  - destruct Hs as (b & E & -> & ->). rewrite E in Hp. by left.
  - destruct Hs as (_ & -> & -> & ->). destruct (k 0); try done. right. split; [done|]. split; [done|]. eauto.
Qed.

(** Taking the mutex. *)
Lemma lock_access {A} i o (p p' : prog (ssl_library TLS) A) o' g g' :
  prog_step i o g p o' g' p' -> (exists k, p = Lock k) -> o = None /\ o' = Some i /\ g' = g /\ p' = locked p.
Proof. intros Hs%prog_step_inv [k ->]. cbn in *. tauto. Qed.

Lemma done_access {A} i o (a : A) p' o' (g g' : ssl_library TLS) : prog_step i o g (Done a) o' g' p' -> False.
Proof. by intros Hs%prog_step_inv. Qed.

(** What an access does to the invariant: where there are [N] sockets and the others have [n]. *)
Lemma access_cases i N n o g t o' g' t' :
  thread_access i o g t o' g' t' -> 0 <= n -> n + 1 <= INT_MAX -> N = n + weight t ->
  (o = Some i -> working n t g) -> (o <> Some i -> resting t /\ (weight t = 1 -> bio_up g)) -> (o = None -> lib_ok N g) ->
  ((o = Some i \/ o = None) /\ o' = Some i /\ weight t' = weight t /\ others n g' /\ working n t' g') \/
  (o = Some i /\ o' = None /\ resting t' /\ lib_ok (n + weight t') g') \/
  (o <> Some i /\ o' = o /\ g' = g /\ weight t' = weight t /\ resting t') \/
  (t' = T_new (Done AMQP_STATUS_NO_MEMORY) /\ table_refused).
Proof.
  intros Ha Hn Hmax -> Hw Hr Hl.
  destruct (decide (o = Some i)) as [->|Hne].
  - specialize (Hw eq_refl). destruct Ha as [o g p o' g' p' Hs|o g p o' g' p' Hs|o g p o' g' p' Hs|o g p o' g' p' Hs]; cbn in Hw; try done;
      pose proof (section_weight _ _ _ _ Hw) as [W1 W2]; destruct (section_access _ _ _ _ _ _ _ _ _ Hs Hw) as [(-> & H1 & H2)|(-> & -> & st & -> & H1)].
    + left. split; [by left|]. pose proof (section_weight _ _ _ _ H2) as [W3 _]. rewrite W1, W3. done.
    + destruct H1 as [[-> H1]|[-> H1]]; [right; left|by do 3 right]. split; [done|]. split; [done|]. split; [by right|exact H1].
    + left. split; [by left|]. pose proof (section_weight _ _ _ _ H2) as [_ W3]. rewrite W2, W3. done.
    + right. left. split; [done|]. split; [done|]. split; [right; by eexists|]. cbn. by rewrite Z.add_0_r.
    + left. split; [by left|]. done.
    + right. left. split; [done|]. split; [done|]. split; [right; by eexists|]. cbn. by rewrite Z.add_0_r.
  - destruct (Hr Hne) as [Hrest Hup].
    destruct Ha as [o g p o' g' p' Hs|o g p o' g' p' Hs|o g p o' g' p' Hs|o g p o' g' p' Hs]; cbn in Hrest.
    + destruct Hrest as [->| ->]; [|by apply done_access in Hs].
      apply lock_access in Hs as (-> & -> & -> & ->); [|by eexists]. specialize (Hl eq_refl). cbn in Hl. rewrite Z.add_0_r in Hl.
      left. split; [by right|]. split; [done|]. pose proof (init_section n g Hn Hmax Hl) as H1. split; [done|]. split; [|exact H1].
      intros ?. by apply (lib_ok_up n).
    + right. right. left. split; [done|]. apply prog_step_inv in Hs. destruct p as [a|B m k|k|k]; try done.
      destruct Hs as (b & E & -> & ->). destruct (Hrest g (Hup eq_refl)) as (b' & E' & Hk). rewrite E in E'. by simplify_eq.
    + destruct Hrest as [->|[st ->]]; [|by apply done_access in Hs].
      apply lock_access in Hs as (-> & -> & -> & ->); [|by eexists]. specialize (Hl eq_refl). cbn in Hl.
      pose proof (delete_section (n + 1) g ltac:(lia) Hl) as H1. replace (n + 1 - 1) with n in H1 by lia.
      left. split; [by right|]. split; [done|]. split; [done|]. split; [|exact H1]. intros ?. by apply (lib_ok_up (n + 1)); [|lia].
    + destruct Hrest as [[e ->]|[st ->]]; [|by apply done_access in Hs].
      apply lock_access in Hs as (-> & -> & -> & ->); [|by eexists]. specialize (Hl eq_refl). cbn in Hl. rewrite Z.add_0_r in Hl.
      left. split; [by right|]. split; [done|]. split; [done|]. split; [|by apply engine_section]. intros ?. by apply (lib_ok_up n).
Qed.

(** A call to [amqp_ssl_socket_new] has just failed because OpenSSL refused the table. *)
Definition init_refused (c : config) : Prop :=
  table_refused /\ exists i, threads c !! i = Some (T_new (Done AMQP_STATUS_NO_MEMORY)).

Lemma access_inv ts o g i t o' g' t' : zlen ts <= INT_MAX ->
  ts !! i = Some t -> thread_access i o g t o' g' t' ->
  inv (mk_config ts o g) -> inv (mk_config (<[i := t']> ts) o' g') \/ init_refused (mk_config (<[i := t']> ts) o' g').
Proof.
  intros Hlen Ei Ha Hinv. pose proof Hinv as [Hr Ho]. cbn in Hr, Ho.
  assert (Hi : (i < length ts)%nat) by (by eapply lookup_lt_Some).
  pose proof (sockets_insert ts i t T_live Ei) as Hn. change (weight T_live) with 1 in Hn.
  pose proof (sockets_bound (<[i := T_live]> ts)) as Hb1. replace (zlen (<[i := T_live]> ts)) with (zlen ts) in Hb1
    by (unfold zlen; by rewrite length_insert).
  pose proof (sockets_insert ts i t T_idle Ei) as Hn0. change (weight T_idle) with 0 in Hn0.
  pose proof (sockets_bound (<[i := T_idle]> ts)) as Hb0.
  assert (Hs : sockets (<[i := t']> ts) = sockets ts - weight t + weight t') by (by apply sockets_insert).
  set (n := sockets ts - weight t) in *.
  assert (Hrest : forall j u, <[i := t']> ts !! j = Some u -> (i = j -> resting u) -> o <> Some j -> resting u).
  { intros j u Ej Hu Hj. destruct (decide (i = j)) as [->|Hne]; [by apply Hu|].
    rewrite list_lookup_insert_ne in Ej by done. by apply (Hr j). }
  destruct (access_cases i (sockets ts) n o g t o' g' t' Ha) as [(Hoi & -> & Hw & Ho1 & Hwk)|[(-> & -> & Ht' & Hl)|[(Hne & -> & -> & Hw & Ht')|[-> Hre]]]];
    [lia|lia|lia| | | |left|left|left|right; split; [done|]; exists i; cbn; by rewrite list_lookup_insert_eq].
  - intros ->. destruct Ho as (u & Eu & _ & Hu). rewrite Ei in Eu. by injection Eu as <-.
  - intros Hne. split; [by apply (Hr i)|]. by apply (inv_up (mk_config ts o g) i t).
  - intros ->. exact Ho.
  - split; cbn.
    + intros j u Ej Hj. destruct (decide (i = j)) as [->|Hij]; [congruence|]. rewrite list_lookup_insert_ne in Ej by done.
      apply (Hr j u Ej). destruct Hoi as [->| ->]; congruence.
    + exists t'. rewrite list_lookup_insert_eq by done. split; [done|]. rewrite Hs, Hw.
      replace (n + weight t - weight t) with n by lia. done.
  - split; cbn; [|by rewrite Hs]. intros j u Ej _. destruct (decide (i = j)) as [->|Hij].
    + rewrite list_lookup_insert_eq in Ej by done. by injection Ej as <-.
    + apply (Hrest j u Ej); [done|]. congruence.
  - split; cbn.
    + intros j u Ej Hj. apply (Hrest j u Ej); [|done]. intros ->. rewrite list_lookup_insert_eq in Ej by done. by injection Ej as <-.
    + rewrite Hs, Hw. replace (n + weight t) with (sockets ts) by lia. destruct o as [k|]; [|done].
      destruct Ho as (u & Eu & Hu). exists u. split; [|done]. rewrite list_lookup_insert_ne; [done|]. congruence.
Qed.

Lemma step_inv c c' : zlen (threads c) <= INT_MAX -> step c c' -> inv c ->
  (inv c' \/ init_refused c') /\ zlen (threads c') = zlen (threads c).
Proof.
  intros Hl Hs Hi. destruct Hs as [ts o g i t t' Ei Hmv|ts o g i t o' g' t' Ei Ha]; cbn in *.
  - split; [left; by eapply moves_inv|]. unfold zlen. by rewrite length_insert.
  - split; [by eapply access_inv|]. unfold zlen. by rewrite length_insert.
Qed.

Lemma start_inv k g : lib_ok 0 g -> inv (mk_config (replicate k T_idle) None g).
Proof.
  intros Hg. split; cbn.
  - intros j t [-> _]%lookup_replicate _. done.
  - replace (sockets (replicate k T_idle)) with 0; [done|]. induction k as [|k IH]; [done|]. unfold sockets in *. cbn. lia.
Qed.

(** Before [c2], on the way from [c1], a call has failed so. *)
Definition refused_between (c1 c2 : config) : Prop := exists c, rtc step c1 c /\ rtc step c c2 /\ init_refused c.

Lemma steps_inv c c' : rtc step c c' -> inv c -> zlen (threads c) <= INT_MAX -> inv c' \/ refused_between c c'.
Proof.
  induction 1 as [c|c1 c2 c3 Hst Hs IH]; intros Hi Hl; [by left|].
  destruct (step_inv c1 c2 Hl Hst Hi) as [[Hi2|Hre] Hlen]; [|right; exists c2; split; [by apply rtc_once|by split]].
  destruct (IH Hi2) as [?|(c & H1 & H2)]; [by rewrite Hlen|by left|]. right. exists c. split; [by eapply rtc_l|done].
Qed.

Lemma reachable_inv k g c : Z.of_nat k <= INT_MAX -> lib_ok 0 g ->
  rtc step (mk_config (replicate k T_idle) None g) c -> inv c \/ refused_between (mk_config (replicate k T_idle) None g) c.
Proof.
  intros Hk Hg Hs. eapply steps_inv; [exact Hs|by apply start_inv|]. cbn. unfold zlen. by rewrite length_replicate.
Qed.

Lemma working_can_step i n g t : working n t g -> exists o' g' t', thread_access i (Some i) g t o' g' t'.
Proof.
  assert (Hsec : forall (p : prog (ssl_library TLS) Z) Q, section (others n) p Q g ->
    exists o' g' p', prog_step i (Some i) g p o' g' p').
  { intros p Q Hp. destruct p as [a|B m k|k|k]; cbn in Hp; try done.
    - destruct (m g) as [[b| | |] g'] eqn:E; try done. do 3 eexists. by apply ps_act.
    - do 3 eexists. apply ps_unlock. }
  destruct t as [|p| |p|p|p]; cbn; intros Hw; try done; destruct (Hsec _ _ Hw) as (o' & g' & p' & Hp); do 3 eexists; by constructor.
Qed.

Lemma working_no_crash n g t : working n t g -> ~ crashes t g.
Proof.
  destruct t as [|p| |p|p|p]; cbn; try done;
    (destruct p as [a|B m k|k|k]; cbn; [tauto| |tauto|tauto]; destruct (m g) as [[]]; tauto).
Qed.

Lemma resting_no_crash g t : resting t -> (weight t = 1 -> bio_up g) -> ~ crashes t g.
Proof.
  destruct t as [|p| |p|p|p]; cbn; try tauto.
  - intros [->| ->] _ Hc; exact Hc.
  - intros Hp Hu. destruct p as [a|B m k|k|k]; cbn in *; try tauto.
    destruct (Hp g (Hu eq_refl)) as (b & -> & _). tauto.
  - intros [->|[st ->]] _ Hc; exact Hc.
  - intros [[e ->]|[st ->]] _ Hc; exact Hc.
Qed.

(** A thread that is free to go on does. *)
Lemma resting_can_step i g t : resting t -> (weight t = 1 -> bio_up g) ->
  (exists t', thread_moves t t') \/ exists o' g' t', thread_access i None g t o' g' t'.
Proof.
  destruct t as [|p| |p|p|p]; cbn; intros Hr Hu.
  - left. eexists. apply move_new.
  - destruct Hr as [->| ->]; [right; do 3 eexists; apply access_new, ps_lock|left; eexists; apply move_made].
  - left. eexists. apply move_open.
  - destruct p as [a|B m k|k|k]; cbn in *; try done; [left; eexists; apply move_opened|].
    destruct (Hr g (Hu eq_refl)) as (b & E & _). right. do 3 eexists. apply access_open. by apply ps_act.
  - destruct Hr as [->|[st ->]]; [right; do 3 eexists; apply access_delete, ps_lock|left; eexists; apply move_deleted].
  - destruct Hr as [[e ->]|[st ->]]; [right; do 3 eexists; apply access_engine, ps_lock|left; eexists; apply move_engine_set].
Qed.

End Threads.

(** No thread fails an assertion next; none waits except for the mutex, and its owner
    never does; when the mutex is free, [openssl_connections] counts the sockets there are,
    and the method table is there exactly when there is one. *)
Definition threads_in_order `{Platform} `{OpenSSLMacros} {OS TLS} `{OL : !OpenSSL OS TLS} (c : config (TLS := TLS)) : Prop :=
  (forall i t, threads c !! i = Some t ->
     ~ crashes t (lib c) /\
     (owner c = None \/ owner c = Some i ->
        (exists t', thread_moves (OS := OS) t t') \/ exists o' g' t', thread_access i (owner c) (lib c) t o' g' t')) /\
  (owner c = None -> lib_ok (sockets (threads c)) (lib c)).



(** When the method table is refused, the clean-up of [amqp_ssl_socket_new] fails an
    assertion: it gives back a connection that was never counted. *)
Lemma init_refused_aborts `{Platform} `{OpenSSLMacros} {OS TLS} `{OL : !OpenSSL OS TLS} (g : ssl_library TLS) :
  is_Some MSG_NOSIGNAL -> lib_ok 0 g -> (forall t, (BIO_meth_new BIO_TYPE_SOCKET bio_method_name t).1 = None) ->
  let '(r, g') := run_alone initialize_ssl_and_increment_connections g in
  r = Ret AMQP_STATUS_NO_MEMORY /\ (run_alone decrement_ssl_connections g').1 = Undef.
Proof.
  intros [f Hf] (Hc & Hb & Hi & _) Hm. destruct g as [b n e i m t]. cbn in Hc, Hb, Hi. subst b n i. specialize (Hm t).
  unfold initialize_ssl_and_increment_connections, amqp_openssl_bio_init. rewrite Hf. cbn. unfold bind. cbn. unfold bind. cbn.
  unfold tls. cbn. destruct (BIO_meth_new _ _ _) as [r t']. cbn in Hm. subst r. cbn. unfold bind. by cbn.
Qed.
