(* ===== verification/ConnState.v ===== *)
(** * Connections: creation, tuning, buffer release and destruction

    The rest of [librabbitmq/amqp_connection.c]: the whole of
    [amqp_connection_state_t], around the part [Connection.v] works on.  The links of
    the frame queue are objects of their own, named in the order of their allocation,
    and disappear when the pool they were allocated from is recycled; using one after
    that is undefined. *)

From S2P Require Import Prelude Status Memory Layout Pool PoolMem Codec Table MethodCodec.
From S2P Require Import MethodTypes MethodDecode MethodEncode Properties Connection Time Net.

(** ** Data *)

Inductive amqp_response_type_enum : Type :=
| AMQP_RESPONSE_NONE
| AMQP_RESPONSE_NORMAL
| AMQP_RESPONSE_LIBRARY_EXCEPTION
| AMQP_RESPONSE_SERVER_EXCEPTION.

#[global] Instance response_type_eq_dec : EqDecision amqp_response_type_enum.
Proof. solve_decision. Defined.

(** A method number and [decoded], [None] for [NULL]. *)
Definition amqp_method_t : Type := Z * option method_t.

Record amqp_rpc_reply_t := mk_rpc_reply {
  reply_type : amqp_response_type_enum;
  reply : amqp_method_t;
  library_error : Z;
}.

(** [memset(&result, 0, sizeof(result))] *)
Definition zero_reply : amqp_rpc_reply_t := mk_rpc_reply AMQP_RESPONSE_NONE (0, None) 0.

Record amqp_link_t := mk_link { l_next : option Z; l_data : amqp_frame_t }.

Record frame_queue := mk_queue {
  q_links : gmap Z amqp_link_t;
  q_fresh : Z;
  first_queued_frame : option Z;
  last_queued_frame : option Z;
}.

Record heartbeats := mk_heartbeats {
  heartbeat : Z;
  next_recv_heartbeat : amqp_time_t;
  next_send_heartbeat : amqp_time_t;
}.

(** A buffer: the length the connection has noted for it, its block ([None] is
    [NULL]) and what the block holds. *)
Record buffer := mk_buffer { b_len : Z; b_block : option Z; b_bytes : list byte }.

Record connection := mk_connection {
  k_self : Z;                          (* the block of the structure itself *)
  k_in : conn;
  k_channel_max : Z;
  k_hb : heartbeats;
  k_outbound : buffer;
  k_socket : bool;                     (* [socket != NULL] *)
  k_sock_inbound : buffer;
  k_sock_inbound_offset : Z;
  k_sock_inbound_limit : Z;
  k_queue : frame_queue;
  k_most_recent_api_result : amqp_rpc_reply_t;
  k_server_properties : amqp_table_t;
  k_client_properties : option amqp_table_t;   (* [None]: in memory its pool has taken back *)
  k_handshake_timeout : option timeval;
  k_rpc_timeout : option timeval;
}.

Definition set_in (v : conn) (k : connection) : connection :=
  mk_connection (k_self k) v (k_channel_max k) (k_hb k) (k_outbound k) (k_socket k) (k_sock_inbound k)
    (k_sock_inbound_offset k) (k_sock_inbound_limit k) (k_queue k) (k_most_recent_api_result k)
    (k_server_properties k) (k_client_properties k) (k_handshake_timeout k) (k_rpc_timeout k).
Definition set_channel_max (v : Z) (k : connection) : connection :=
  mk_connection (k_self k) (k_in k) v (k_hb k) (k_outbound k) (k_socket k) (k_sock_inbound k) (k_sock_inbound_offset k)
    (k_sock_inbound_limit k) (k_queue k) (k_most_recent_api_result k) (k_server_properties k)
    (k_client_properties k) (k_handshake_timeout k) (k_rpc_timeout k).
Definition set_hb (v : heartbeats) (k : connection) : connection :=
  mk_connection (k_self k) (k_in k) (k_channel_max k) v (k_outbound k) (k_socket k) (k_sock_inbound k)
    (k_sock_inbound_offset k) (k_sock_inbound_limit k) (k_queue k) (k_most_recent_api_result k)
    (k_server_properties k) (k_client_properties k) (k_handshake_timeout k) (k_rpc_timeout k).
Definition set_outbound (v : buffer) (k : connection) : connection :=
  mk_connection (k_self k) (k_in k) (k_channel_max k) (k_hb k) v (k_socket k) (k_sock_inbound k) (k_sock_inbound_offset
    k) (k_sock_inbound_limit k) (k_queue k) (k_most_recent_api_result k) (k_server_properties k)
    (k_client_properties k) (k_handshake_timeout k) (k_rpc_timeout k).
Definition set_socket (v : bool) (k : connection) : connection :=
  mk_connection (k_self k) (k_in k) (k_channel_max k) (k_hb k) (k_outbound k) v (k_sock_inbound k) (k_sock_inbound_offset
    k) (k_sock_inbound_limit k) (k_queue k) (k_most_recent_api_result k) (k_server_properties k)
    (k_client_properties k) (k_handshake_timeout k) (k_rpc_timeout k).
Definition set_sock_inbound (v : buffer) (k : connection) : connection :=
  mk_connection (k_self k) (k_in k) (k_channel_max k) (k_hb k) (k_outbound k) (k_socket k) v (k_sock_inbound_offset k)
    (k_sock_inbound_limit k) (k_queue k) (k_most_recent_api_result k) (k_server_properties k)
    (k_client_properties k) (k_handshake_timeout k) (k_rpc_timeout k).
Definition set_queue (v : frame_queue) (k : connection) : connection :=
  mk_connection (k_self k) (k_in k) (k_channel_max k) (k_hb k) (k_outbound k) (k_socket k) (k_sock_inbound k)
    (k_sock_inbound_offset k) (k_sock_inbound_limit k) v (k_most_recent_api_result k) (k_server_properties k)
    (k_client_properties k) (k_handshake_timeout k) (k_rpc_timeout k).
Definition set_most_recent_api_result (v : amqp_rpc_reply_t) (k : connection) : connection :=
  mk_connection (k_self k) (k_in k) (k_channel_max k) (k_hb k) (k_outbound k) (k_socket k) (k_sock_inbound k)
    (k_sock_inbound_offset k) (k_sock_inbound_limit k) (k_queue k) v (k_server_properties k)
    (k_client_properties k) (k_handshake_timeout k) (k_rpc_timeout k).
Definition set_server_properties (v : amqp_table_t) (k : connection) : connection :=
  mk_connection (k_self k) (k_in k) (k_channel_max k) (k_hb k) (k_outbound k) (k_socket k) (k_sock_inbound k)
    (k_sock_inbound_offset k) (k_sock_inbound_limit k) (k_queue k) (k_most_recent_api_result k) v
    (k_client_properties k) (k_handshake_timeout k) (k_rpc_timeout k).
Definition set_client_properties (v : option amqp_table_t) (k : connection) : connection :=
  mk_connection (k_self k) (k_in k) (k_channel_max k) (k_hb k) (k_outbound k) (k_socket k) (k_sock_inbound k)
    (k_sock_inbound_offset k) (k_sock_inbound_limit k) (k_queue k) (k_most_recent_api_result k)
    (k_server_properties k) v (k_handshake_timeout k) (k_rpc_timeout k).
Definition set_handshake_timeout (v : option timeval) (k : connection) : connection :=
  mk_connection (k_self k) (k_in k) (k_channel_max k) (k_hb k) (k_outbound k) (k_socket k) (k_sock_inbound k)
    (k_sock_inbound_offset k) (k_sock_inbound_limit k) (k_queue k) (k_most_recent_api_result k)
    (k_server_properties k) (k_client_properties k) v (k_rpc_timeout k).
Definition set_rpc_timeout (v : option timeval) (k : connection) : connection :=
  mk_connection (k_self k) (k_in k) (k_channel_max k) (k_hb k) (k_outbound k) (k_socket k) (k_sock_inbound k)
    (k_sock_inbound_offset k) (k_sock_inbound_limit k) (k_queue k) (k_most_recent_api_result k)
    (k_server_properties k) (k_client_properties k) (k_handshake_timeout k) v.
(** [sock_inbound_offset] and [sock_inbound_limit], with what the buffer holds *)
Definition set_window (bytes : list byte) (offset limit : Z) (k : connection) : connection :=
  mk_connection (k_self k) (k_in k) (k_channel_max k) (k_hb k) (k_outbound k) (k_socket k) (mk_buffer (b_len
    (k_sock_inbound k)) (b_block (k_sock_inbound k)) bytes) offset limit (k_queue k)
    (k_most_recent_api_result k) (k_server_properties k) (k_client_properties k) (k_handshake_timeout k)
    (k_rpc_timeout k).

Definition k_mem (k : connection) : memory := c_mem (k_in k).
Definition k_pool_table (k : connection) : pool_table_t := c_pool_table (k_in k).
Definition set_mem (m : memory) (k : connection) : connection :=
  set_in (set_pools (k_in k) (k_pool_table k) m) k.
Definition set_frame_max (c : conn) (n : Z) : conn :=
  mk_conn (c_state c) n (c_header_buffer c) (c_inbound_buffer c) (c_inbound_offset c)
    (c_target_size c) (c_pool_table c) (c_mem c).

Definition layout_amqp_method_t : layout := c_struct [t_uint32; t_ptr].
Definition layout_amqp_rpc_reply_t : layout := c_struct [t_int; layout_amqp_method_t; t_int].
Definition layout_timeval : layout := c_struct [mk_layout 8 8; mk_layout 8 8].
Definition layout_amqp_connection_state_t : layout :=
  c_struct ([mk_layout (8 * POOL_TABLE_SIZE) 8; t_int; t_int; t_int; t_int; t_uint64; t_uint64;
             mk_layout (HEADER_SIZE + 1) 1; layout_amqp_bytes_t; t_size; t_size; layout_amqp_bytes_t; t_ptr;
             layout_amqp_bytes_t; t_size; t_size; t_ptr; t_ptr; layout_amqp_rpc_reply_t;
             layout_amqp_table_t; layout_amqp_table_t; layout_amqp_pool_t;
             t_ptr; layout_timeval; t_ptr; layout_timeval]).

Definition AMQP_INITIAL_FRAME_POOL_PAGE_SIZE : Z := 65536.
Definition AMQP_INITIAL_INBOUND_SOCK_BUFFER_SIZE : Z := 131072.
Definition AMQP_DEFAULT_LOGIN_TIMEOUT_SEC : Z := 12.

(** ** Heap and pools from a connection's memory *)

Definition on_m_heap {A} (f : eff heap A) : eff memory A := fun m =>
  let '(r, h) := f (m_heap m) in (r, set_heap m h).

(** [free(p)], which accepts [NULL] *)
Definition free_ptr (p : option Z) : eff heap unit :=
  match p with Some b => free b | None => ret tt end.
(** [realloc(p, n)], where a [NULL] pointer is a [malloc] *)
Definition realloc_ptr (p : option Z) (n : Z) : eff heap (option Z) :=
  match p with Some b => realloc b n | None => malloc n end.

(** A pool operation on the pool named [p]. *)
Definition on_pool {A} (p : Z) (f : eff pool_heap A) : eff memory A := fun m =>
  match m_pools m !! p with
  | None => (Undef, m)
  | Some pl =>
      let '(r, (pl', h')) := f (pl, m_heap m) in
      (r, mk_memory h' (<[p := pl']> (m_pools m)) (m_scratch m) (m_snext m))
  end.

Definition on_mem {A} (f : eff memory A) : eff connection A := fun k =>
  let '(r, m) := f (k_mem k) in (r, set_mem m k).


(** ** The frame queue's links *)

(** Follow [next] from [cur] to the first frame that satisfies [P]. *)
Fixpoint find_link (fuel : nat) (links : gmap Z amqp_link_t) (P : amqp_frame_t -> bool) (cur : option Z)
    : res (option (Z * amqp_link_t)) :=
  match fuel with
  | O => NoFuel
  | S fuel' =>
      match cur with
      | None => Ret None
      | Some a =>
          match links !! a with
          | None => Undef
          | Some l => if P (l_data l) then Ret (Some (a, l)) else find_link fuel' links P (l_next l)
          end
      end
  end.

(** A list without a cycle ends within as many steps as there are links. *)
Definition find_queued (q : frame_queue) (P : amqp_frame_t -> bool) : res (option (Z * amqp_link_t)) :=
  find_link (S (size (q_links q))) (q_links q) P (first_queued_frame q).

(** ** Releasing buffers *)

Definition amqp_release_buffers_ok (k : connection) : bool :=
  bool_decide (c_state (k_in k) = CONNECTION_STATE_IDLE).

(** The links allocated from the recycled pool are gone. *)
Definition forget_links (ch : Z) (q : frame_queue) : frame_queue :=
  mk_queue (filter (fun al => channel (l_data al.2) <> ch) (q_links q)) (q_fresh q)
    (first_queued_frame q) (last_queued_frame q).

(** [client_properties] is a table in the pool of channel 0, unless it is empty. *)
Definition recycled_table (t : option amqp_table_t) : option amqp_table_t :=
  match t with Some [] => Some [] | _ => None end.
Definition forget_client_properties (ch : Z) (k : connection) : connection :=
  set_client_properties (if ch =? 0 then recycled_table (k_client_properties k) else k_client_properties k) k.

Definition amqp_maybe_release_buffers_on_channel (ch : Z) : eff connection unit :=
  let! k := get in
  if negb (amqp_release_buffers_ok k) then ret tt
  else
    let! queued := lift_res (find_queued (k_queue k) (fun f => ch =? channel f)) in
    match queued with
    | Some _ => ret tt
    | None =>
        match amqp_get_channel_pool (k_pool_table k) ch with
        | None => ret tt
        | Some p =>
            do! on_mem (on_pool p recycle_amqp_pool) in
            modify (fun k => forget_client_properties ch (set_queue (forget_links ch (k_queue k)) k))
        end
    end.

Definition amqp_release_buffers : eff connection unit :=
  let! k := get in
  if negb (amqp_release_buffers_ok k) then undef                      (* ENFORCE_STATE *)
  else for_each (for_each (fun entry => amqp_maybe_release_buffers_on_channel entry.1)) (k_pool_table k).

Definition amqp_maybe_release_buffers : eff connection unit :=
  let! k := get in
  if amqp_release_buffers_ok k then amqp_release_buffers else ret tt.

(** ** Tuning, creation and destruction *)

Section Lifecycle.
Context {E : Type} `{Net E}.
(** What fresh heap memory holds. *)
Context (heap_garbage : Z -> Z -> list byte).

Record world := mk_world { w_k : connection; w_e : E }.

Definition on_env {A} (f : eff E A) : eff world A := fun w =>
  let '(r, e) := f (w_e w) in (r, mk_world (w_k w) e).
Definition on_k {A} (f : eff connection A) : eff world A := fun w =>
  let '(r, k) := f (w_k w) in (r, mk_world k (w_e w)).
Definition get_k : eff world connection := fun w => (Ret (w_k w), w).
Definition modify_k (f : connection -> connection) : eff world unit := on_k (modify f).

Definition amqp_heartbeat_send (k : connection) : Z := heartbeat (k_hb k).
(** [2 * heartbeat]: an [int], which must not overflow. *)
Definition amqp_heartbeat_recv (k : connection) : res Z :=
  let v := 2 * heartbeat (k_hb k) in if bool_decide (in_s 32 v) then Ret v else Undef.

Definition set_next_send (t : amqp_time_t) (k : connection) : connection :=
  set_hb (mk_heartbeats (heartbeat (k_hb k)) (next_recv_heartbeat (k_hb k)) t) k.
Definition set_next_recv (t : amqp_time_t) (k : connection) : connection :=
  set_hb (mk_heartbeats (heartbeat (k_hb k)) t (next_send_heartbeat (k_hb k))) k.

(** [amqp_time_s_from_now(&state->next_send_heartbeat, amqp_heartbeat_send(state))];
    the clock is read only for a positive number of seconds. *)
Definition s_from_now (old : amqp_time_t) (seconds : Z) : eff world (res unit * amqp_time_t) :=
  let! now := (if 0 <? seconds then on_env clock else ret None) in
  ret (amqp_time_s_from_now now seconds old).

Definition reset_send_heartbeat : eff world unit :=
  let! k := get_k in
  let! '(r, t) := s_from_now (next_send_heartbeat (k_hb k)) (amqp_heartbeat_send k) in
  do! modify_k (set_next_send t) in lift_res r.
Definition reset_recv_heartbeat : eff world unit :=
  let! k := get_k in
  let! seconds := lift_res (amqp_heartbeat_recv k) in
  let! '(r, t) := s_from_now (next_recv_heartbeat (k_hb k)) seconds in
  do! modify_k (set_next_recv t) in lift_res r.

Definition amqp_tune_connection (channel_max frame_max hb : Z) : eff world unit :=
  let! k := get_k in
  if negb (bool_decide (c_state (k_in k) = CONNECTION_STATE_IDLE)) then undef      (* ENFORCE_STATE *)
  else
    do! modify_k (fun k => set_in (set_frame_max (k_in k) frame_max) (set_channel_max channel_max k)) in
    do! modify_k (fun k => set_hb (mk_heartbeats (if hb <? 0 then 0 else hb) (next_recv_heartbeat (k_hb k))
                                     (next_send_heartbeat (k_hb k))) k) in
    do! reset_send_heartbeat in
    do! reset_recv_heartbeat in
    let len := wrap 64 frame_max in
    do! modify_k (fun k => set_outbound (mk_buffer len (b_block (k_outbound k)) (b_bytes (k_outbound k))) k) in
    let! newbuf := on_k (on_mem (on_m_heap (realloc_ptr (b_block (k_outbound k)) len))) in
    match newbuf with
    | None => fail AMQP_STATUS_NO_MEMORY
    | Some b => modify_k (set_outbound (mk_buffer len (Some b) (heap_garbage b len)))
    end.

Definition amqp_get_channel_max (k : connection) : Z := k_channel_max k.
Definition amqp_get_frame_max (k : connection) : Z := c_frame_max (k_in k).
Definition amqp_get_heartbeat (k : connection) : Z := heartbeat (k_hb k).
Definition amqp_get_server_properties (k : connection) : amqp_table_t := k_server_properties k.
(** The table, [None] when what its [entries] point to has been taken back: reading it then
    is undefined. *)
Definition amqp_get_client_properties (k : connection) : option amqp_table_t := k_client_properties k.

(** [calloc(1, sizeof(struct amqp_connection_state_t_))] at block [self] *)
Definition zero_connection (self : Z) (m : memory) : connection :=
  mk_connection self
    (mk_conn CONNECTION_STATE_IDLE 0 (replicate 8 x00) IB_null 0 0 empty_pool_table m)
    0 (mk_heartbeats 0 (mk_time 0) (mk_time 0)) (mk_buffer 0 None []) false (mk_buffer 0 None []) 0 0
    (mk_queue ∅ 0 None None) zero_reply [] (Some []) None None.

(** The connection, [None] for [NULL]; what is left of the memory is the state. *)
Definition amqp_new_connection : eff (memory * E) (option connection) := fun '(m, e) =>
  match on_m_heap (calloc (sizeof layout_amqp_connection_state_t)) m with
  | (Ret (Some self), m) =>
      let out_nomem k e :=
        let '(r, m) := on_m_heap (do! free_ptr (b_block (k_sock_inbound k)) in free self) (k_mem k) in
        match r with Ret _ => (Ret None, (m, e)) | _ => (Undef, (m, e)) end in
      match amqp_tune_connection 0 AMQP_INITIAL_FRAME_POOL_PAGE_SIZE 0 (mk_world (zero_connection self m) e) with
      | (Ret _, w) =>
          let k := w_k w in
          let c := k_in k in
          let k := set_in (mk_conn CONNECTION_STATE_INITIAL (c_frame_max c) (c_header_buffer c) IB_header
                             (c_inbound_offset c) 8 (c_pool_table c) (c_mem c)) k in
          let len := AMQP_INITIAL_INBOUND_SOCK_BUFFER_SIZE in
          match on_m_heap (malloc len) (k_mem k) with
          | (Ret (Some b), m) =>
              let m := mk_memory (m_heap m) (<[self := init_amqp_pool 512]> (m_pools m)) (m_scratch m) (m_snext m) in
              let k := set_mem m (set_sock_inbound (mk_buffer len (Some b) (heap_garbage b len)) k) in
              (Ret (Some (set_handshake_timeout (Some (mk_timeval AMQP_DEFAULT_LOGIN_TIMEOUT_SEC 0)) k)), (m, w_e w))
          | (Ret None, m) =>
              out_nomem (set_mem m (set_sock_inbound (mk_buffer len None []) k)) (w_e w)
          | (_, m) => (Undef, (m, w_e w))
          end
      | (Err _, w) => out_nomem (w_k w) (w_e w)
      | (_, w) => (Undef, (k_mem (w_k w), w_e w))
      end
  | (Ret None, m) => (Ret None, (m, e))
  | (_, m) => (Undef, (m, e))
  end.

Definition free_pool_entry (entry : Z * Z) : eff memory unit :=
  do! on_pool entry.2 empty_amqp_pool in on_m_heap (free entry.2).

(** Nothing happens for [NULL]. *)
Definition amqp_socket_delete (socket : bool) : eff E unit := if socket then socket_delete else ret tt.

(** [k] is [None] for [NULL]; the memory afterwards is the state. *)
Definition amqp_destroy_connection (k : option connection) : eff (memory * E) Z := fun '(m, e) =>
  match k with
  | None => (Ret AMQP_STATUS_OK, (m, e))
  | Some k =>
      let '(r, m) :=
        (do! for_each (for_each free_pool_entry) (k_pool_table k) in
         do! on_m_heap (free_ptr (b_block (k_outbound k))) in
         do! on_m_heap (free_ptr (b_block (k_sock_inbound k))) in
         do! on_pool (k_self k) empty_amqp_pool in
         on_m_heap (free (k_self k))) m in
      let '(d, e) := amqp_socket_delete (k_socket k) e in
      (match r, d with
       | Ret _, Ret _ => Ret AMQP_STATUS_OK
       | Err st, _ | _, Err st => Err st
       | NoFuel, _ | _, NoFuel => NoFuel
       | _, _ => Undef
       end, (m, e))
  end.

Definition amqp_get_sockfd (w : world) : Z :=
  if k_socket (w_k w) then socket_get_sockfd (w_e w) else -1.

(** The old socket is deleted; the new one, if not [NULL], is where the callbacks of
    the environment go from now on. *)
Definition amqp_set_socket (adopt : option (E -> E)) : eff world unit :=
  let! k := get_k in
  do! on_env (amqp_socket_delete (k_socket k)) in
  match adopt with
  | Some f => do! on_env (modify f) in modify_k (set_socket true)
  | None => modify_k (set_socket false)
  end.

(** Whether the pointer is [NULL]. *)
Definition amqp_get_socket (k : connection) : bool := k_socket k.

End Lifecycle.
Arguments world E : clear implicits.
