(* ===== verification/Tcp.v ===== *)
(** * The TCP socket: [librabbitmq/amqp_tcp_socket.c]

    The callbacks of [amqp_tcp_socket_class] over the system calls of [Posix.v], and the
    instance of [Net] they make.  The socket object is a heap block of its own. *)

From S2P Require Import Prelude Status Memory Layout Pool PoolMem Codec Table MethodCodec.
From S2P Require Import MethodTypes MethodDecode MethodEncode Properties Connection Time Net Posix ConnState.

(** [internal_error] is an [int]: a result or an [errno]. *)
Record amqp_tcp_socket_t := mk_tcp { ts_sockfd : Z; ts_internal_error : Z + errno_t; ts_state : Z }.

Definition layout_amqp_tcp_socket_t : layout := c_struct [t_ptr; t_int; t_int; t_int].

(** The socket object, the heap it is allocated from, and the system. *)
Record tcp_world (OS : Type) := mk_tcp_world {
  t_self : Z;
  t_sock : amqp_tcp_socket_t;
  t_heap : heap;
  t_os : OS;
}.
Arguments mk_tcp_world {OS}.
Arguments t_self {OS}.
Arguments t_sock {OS}.
Arguments t_heap {OS}.
Arguments t_os {OS}.

Section Tcp.
Context `{Platform} {OS : Type} `{Posix OS}.
(** The bound on interrupted calls. *)
Context (fuel : nat).

Definition on_os {A} (m : eff OS A) : eff (tcp_world OS) A := fun w =>
  let '(r, o) := m (t_os w) in (r, mk_tcp_world (t_self w) (t_sock w) (t_heap w) o).
Definition on_sock_heap {A} (m : eff heap A) : eff (tcp_world OS) A := fun w =>
  let '(r, h) := m (t_heap w) in (r, mk_tcp_world (t_self w) (t_sock w) h (t_os w)).
Definition self : eff (tcp_world OS) amqp_tcp_socket_t := fun w => (Ret (t_sock w), w).
Definition put_self (s : amqp_tcp_socket_t) : eff (tcp_world OS) unit := fun w =>
  (Ret tt, mk_tcp_world (t_self w) s (t_heap w) (t_os w)).

Definition set_sockfd (fd : Z) : eff (tcp_world OS) unit :=
  let! s := self in put_self (mk_tcp fd (ts_internal_error s) (ts_state s)).
Definition set_internal_error (e : Z + errno_t) : eff (tcp_world OS) unit :=
  let! s := self in put_self (mk_tcp (ts_sockfd s) e (ts_state s)).
Definition set_tcp_state (st : Z) : eff (tcp_world OS) unit :=
  let! s := self in put_self (mk_tcp (ts_sockfd s) (ts_internal_error s) st).

(** [start: res = send(...)] *)
Fixpoint tcp_send_loop (fuel' : nat) (buf : list byte) (flagz : Z) : eff (tcp_world OS) Z :=
  match fuel' with
  | O => nofuel
  | S fuel'' =>
      let! s := self in
      let! res := on_os (sys (posix_send (ts_sockfd s) buf flagz)) in
      if res <? 0 then
        let! e := on_os amqp_os_socket_error in
        do! set_internal_error (inr e) in
        match e with
        | EINTR => tcp_send_loop fuel'' buf flagz
        | EWOULDBLOCK | EAGAIN => ret AMQP_PRIVATE_STATUS_SOCKET_NEEDWRITE
        | _ => ret AMQP_STATUS_SOCKET_ERROR
        end
      else do! set_internal_error (inl 0) in ret res
  end.

Definition wants_more (flags : Z) : bool := negb (Z.land flags AMQP_SF_MORE =? 0).

(** [TCP_NOPUSH] systems: the option is set and cleared as needed; [false] is the early
    return with an error. *)
Definition tcp_nopush (nopush flags : Z) : eff (tcp_world OS) bool :=
  let! s := self in
  if wants_more flags && negb (wants_more (ts_state s)) then
    let! res := on_os (sys (posix_setsockopt (ts_sockfd s) IPPROTO_TCP nopush 1)) in
    if negb (res =? 0) then do! set_internal_error (inl res) in ret false
    else do! set_tcp_state (Z.lor (ts_state s) AMQP_SF_MORE) in ret true
  else if negb (wants_more flags) && wants_more (ts_state s) then
    let! res := on_os (sys (posix_setsockopt (ts_sockfd s) IPPROTO_TCP nopush 0)) in
    if negb (res =? 0) then do! set_internal_error (inl res) in ret true
    else do! set_tcp_state (Z.ldiff (ts_state s) AMQP_SF_MORE) in ret true
  else ret true.

Definition amqp_tcp_socket_send (buf : list byte) (flags : Z) : eff (tcp_world OS) Z :=
  let! s := self in
  if ts_sockfd s =? -1 then ret AMQP_STATUS_SOCKET_CLOSED
  else
    let flagz := match MSG_NOSIGNAL with Some f => f | None => 0 end in
    match MSG_MORE, TCP_NOPUSH with
    | Some more, _ => tcp_send_loop fuel buf (if wants_more flags then Z.lor flagz more else flagz)
    | None, Some nopush =>
        let! go := tcp_nopush nopush flags in
        if go : bool then tcp_send_loop fuel buf flagz else ret AMQP_STATUS_SOCKET_ERROR
    | None, None => tcp_send_loop fuel buf flagz
    end.

Fixpoint tcp_recv_loop (fuel' : nat) (len flags : Z) : eff (tcp_world OS) (Z + list byte) :=
  match fuel' with
  | O => nofuel
  | S fuel'' =>
      let! s := self in
      let! r := on_os (sys (posix_recv (ts_sockfd s) len flags)) in
      match r with
      | None =>
          let! e := on_os amqp_os_socket_error in
          do! set_internal_error (inr e) in
          match e with
          | EINTR => tcp_recv_loop fuel'' len flags
          | EWOULDBLOCK | EAGAIN => ret (inl AMQP_PRIVATE_STATUS_SOCKET_NEEDREAD)
          | _ => ret (inl AMQP_STATUS_SOCKET_ERROR)
          end
      | Some [] => ret (inl AMQP_STATUS_CONNECTION_CLOSED)
      | Some bs => ret (inr bs)
      end
  end.

Definition amqp_tcp_socket_recv (len : Z) : eff (tcp_world OS) (Z + list byte) :=
  let! s := self in
  if ts_sockfd s =? -1 then ret (inl AMQP_STATUS_SOCKET_CLOSED) else tcp_recv_loop fuel len 0.

Definition amqp_tcp_socket_open (host : list byte) (port : Z) (timeout : option timeval) : eff (tcp_world OS) Z :=
  let! s := self in
  if negb (ts_sockfd s =? -1) then ret AMQP_STATUS_SOCKET_INUSE
  else
    let! fd := on_os (amqp_open_socket_noblock fuel host port timeout) in
    do! set_sockfd fd in
    if fd <? 0 then do! set_sockfd (-1) in ret fd else ret AMQP_STATUS_OK.

(** It does not look at [force]. *)
Definition amqp_tcp_socket_close : eff (tcp_world OS) Z :=
  let! s := self in
  if ts_sockfd s =? -1 then ret AMQP_STATUS_SOCKET_CLOSED
  else
    let! r := on_os (amqp_os_socket_close (ts_sockfd s)) in
    if negb (r =? 0) then ret AMQP_STATUS_SOCKET_ERROR
    else do! set_sockfd (-1) in ret AMQP_STATUS_OK.

Definition amqp_tcp_socket_get_sockfd (w : tcp_world OS) : Z := ts_sockfd (t_sock w).

Definition amqp_tcp_socket_delete : eff (tcp_world OS) unit :=
  do! amqp_tcp_socket_close in
  fun w => on_sock_heap (free (t_self w)) w.

(** ** The class *)

Definition tcp_system : System (tcp_world OS) := {|
  clock_gettime w :=
    let '(c, o) := clock_gettime (t_os w) in (c, mk_tcp_world (t_self w) (t_sock w) (t_heap w) o);
  poll fd ev ms w :=
    let '(a, o) := poll fd ev ms (t_os w) in (a, mk_tcp_world (t_self w) (t_sock w) (t_heap w) o);
|}.

Definition amqp_tcp_socket_class : Net (tcp_world OS) := {|
  net_system := tcp_system;
  socket_send := amqp_tcp_socket_send;
  socket_recv := amqp_tcp_socket_recv;
  socket_open := amqp_tcp_socket_open;
  socket_get_sockfd := amqp_tcp_socket_get_sockfd;
  socket_close force := amqp_tcp_socket_close;
  socket_delete := amqp_tcp_socket_delete;
|}.

(** ** Making a socket for a connection *)

#[local] Existing Instance amqp_tcp_socket_class.

(** The callbacks of the old socket, if any, are called before the new object is in
    place.  [false] is [NULL]. *)
Definition amqp_tcp_socket_new : eff (world (tcp_world OS)) bool :=
  let! b := on_env (on_sock_heap (calloc (sizeof layout_amqp_tcp_socket_t))) in
  match b with
  | None => ret false
  | Some b =>
      do! amqp_set_socket (Some (fun w => mk_tcp_world b (mk_tcp (-1) (inl 0) 0) (t_heap w) (t_os w))) in
      ret true
  end.

(** The socket of the connection is a TCP socket here. *)
Definition amqp_tcp_socket_set_sockfd (fd : Z) : eff (world (tcp_world OS)) unit := on_env (set_sockfd fd).

Definition amqp_set_sockfd (fd : Z) : eff (world (tcp_world OS)) unit :=
  let! ok := amqp_tcp_socket_new in
  if ok : bool then amqp_tcp_socket_set_sockfd fd else undef.                   (* amqp_abort *)

End Tcp.
