(* ===== verification/TcpSpec.v ===== *)
(** * The TCP socket: the theorems about [Tcp.v]

    The TCP class keeps the promises [NetLaws] of a socket, so the theorems about
    sending and receiving hold over it; and a socket object gives back its descriptor
    and its block whatever was done with it. *)

From S2P Require Import Prelude Status Memory Layout Pool PoolMem Codec Table MethodCodec.
From S2P Require Import MethodTypes MethodDecode MethodEncode Properties Connection Time Net Posix PosixSpec ConnState Tcp.

Section Tcp.
Context `{PF : Platform} {OS : Type} `{PX : Posix OS} `{PL : !PosixLaws OS}.
Context (fuel : nat).

(** A call may be interrupted. *)
Definition errno_interrupted : Prop := exists o : OS, posix_errno o = EINTR.

(** The object is in its place, and of the system only the descriptor [fd] may have
    changed; it is open if it was. *)
Definition on_fd (fd : Z) (w w' : tcp_world OS) : Prop :=
  t_self w' = t_self w /\ t_heap w' = t_heap w /\ ts_sockfd (t_sock w') = ts_sockfd (t_sock w) /\
  opened (t_os w') = opened (t_os w) /\ apart fd (t_os w) (t_os w').

#[export] Instance on_fd_preorder fd : PreOrder (on_fd fd).
Proof.
  split; [done|]. intros x y z (H1 & H2 & H3 & H4 & H5 & H6 & H7 & H8) (G1 & G2 & G3 & G4 & G5 & G6 & G7 & G8).
  split; [congruence|]. split; [congruence|]. split; [congruence|]. split; [congruence|].
  split; [congruence|]. split; [|split; [|congruence]]; intros; [rewrite G6|rewrite G7]; auto.
Qed.

Lemma same_apart fd (o o' : OS) : same o o' -> apart fd o o'.
Proof. intros (H1 & H2 & H3 & H4). split; [by rewrite H1|]. split; [auto|]. split; auto. Qed.

Lemma on_os_ends {A} (m : eff OS A) (Q : A -> OS -> Prop) P w :
  ends Q P (m (t_os w)) ->
  ends (fun a w' => Q a (t_os w') /\ w' = mk_tcp_world (t_self w) (t_sock w) (t_heap w) (t_os w'))
       (fun w' => P (t_os w')) (on_os m w).
Proof. unfold on_os. by destruct (m (t_os w)) as [[] o']. Qed.

(** A change of the object's notes. *)
Lemma put_same fd s w : ts_sockfd s = ts_sockfd (t_sock w) ->
  on_fd fd w (mk_tcp_world (t_self w) s (t_heap w) (t_os w)).
Proof. intros Hs. split; [done|]. split; [done|]. split; [done|]. split; [done|]. by apply same_apart. Qed.

(** ** Sending *)

(** [send] of [r] bytes of [buf] on [fd]. *)
Definition has_sent (buf : list byte) (w : tcp_world OS) (r : Z) (w' : tcp_world OS) : Prop :=
  let fd := ts_sockfd (t_sock w) in
  on_fd fd w w' /\ r <= zlen buf /\ sent fd (t_os w') = sent fd (t_os w) ++ ztake r buf.

Definition has_waited (w w' : tcp_world OS) : Prop :=
  let fd := ts_sockfd (t_sock w) in on_fd fd w w' /\ sent fd (t_os w') = sent fd (t_os w).

Lemma ztake_neg {A} r (l : list A) : r < 0 -> ztake r l = [].
Proof. intros Hr. unfold ztake. replace (Z.to_nat r) with 0%nat by lia. apply take_0. Qed.

Lemma sent_neg buf w r w' : r < 0 -> has_waited w w' -> has_sent buf w r w'.
Proof. intros Hr [H1 H2]. split; [done|]. split; [zlen_pos; lia|]. by rewrite ztake_neg, app_nil_r. Qed.

Lemma waited_trans w w1 w2 : has_waited w w1 -> has_waited w1 w2 -> has_waited w w2.
Proof.
  intros [H1 H2] [G1 G2]. pose proof H1 as (_ & _ & E & _). rewrite E in *. split; [by etransitivity|congruence].
Qed.

Lemma waited_sent buf w w1 r w2 : has_waited w w1 -> has_sent buf w1 r w2 -> has_sent buf w r w2.
Proof.
  intros [H1 H2] (G1 & G2 & G3). pose proof H1 as (_ & _ & E & _). rewrite E in *.
  split; [by etransitivity|]. split; [done|congruence].
Qed.

Lemma send_loop_ends n buf flagz w :
  ends (has_sent buf w) (fun w' => has_waited w w' /\ ((0 < n)%nat -> errno_interrupted))
    (tcp_send_loop n buf flagz w).
Proof.
  revert w. induction n as [|n IH]; intros w; [by split; [|lia]|]. simpl.
  change (bind self ?k w) with (k (t_sock w) w). cbv beta. set (fd := ts_sockfd (t_sock w)).
  unfold bind at 1. unfold on_os at 1, sys. destruct (posix_send fd buf flagz (t_os w)) as [r o1] eqn:Es.
  apply send_sent in Es as (Hr & Ha & Ho & Hs).
  set (w1 := mk_tcp_world (t_self w) (t_sock w) (t_heap w) o1).
  destruct (Z.ltb_spec r 0) as [Hneg|Hpos].
  - change (bind (on_os amqp_os_socket_error) ?k w1) with (k (posix_errno o1) w1). cbv beta.
    set (e := posix_errno o1).
    change (bind (set_internal_error ?x) ?k w1) with
      (k tt (mk_tcp_world (t_self w) (mk_tcp fd x (ts_state (t_sock w))) (t_heap w) o1)). cbv beta.
    set (w2 := mk_tcp_world _ _ _ _).
    assert (H2 : has_waited w w2).
    { rewrite ztake_neg, app_nil_r in Hs by done. split; [|exact Hs]. do 4 (split; [done|]). exact Ha. }
    destruct e eqn:Ee; try by (apply ends_ret, sent_neg).
    eapply ends_weaken; [| |apply (IH w2)].
    + intros r' w' Hw. by eapply waited_sent.
    + intros w' [Hw _]. split; [by eapply waited_trans|]. intros _. by exists o1.
  - split; [|done]. do 4 (split; [done|]). exact Ha.
Qed.

Lemma waited_put s w : ts_sockfd s = ts_sockfd (t_sock w) ->
  has_waited w (mk_tcp_world (t_self w) s (t_heap w) (t_os w)).
Proof. intros Hs. split; [by apply put_same|done]. Qed.

Lemma waited_os w o : same (t_os w) o -> has_waited w (mk_tcp_world (t_self w) (t_sock w) (t_heap w) o).
Proof.
  intros Hs. pose proof Hs as (H1 & H2 & _). split; [|exact (H2 _)].
  do 3 (split; [done|]). split; [exact H1|by apply same_apart].
Qed.

Lemma setsockopt_ends fd l n v w P :
  ends (fun _ w' => has_waited w w') P (on_os (sys (posix_setsockopt fd l n v)) w).
Proof.
  unfold on_os, sys. destruct (posix_setsockopt fd l n v (t_os w)) as [r o] eqn:E. apply setsockopt_same in E.
  by apply waited_os.
Qed.

Lemma set_internal_error_ends x w P : ends (fun _ w' => has_waited w w') P (set_internal_error x w).
Proof. by apply waited_put. Qed.
Lemma set_tcp_state_ends x w P : ends (fun _ w' => has_waited w w') P (set_tcp_state x w).
Proof. by apply waited_put. Qed.

Lemma nopush_ends n flags w P : ends (fun _ w' => has_waited w w') P (tcp_nopush n flags w).
Proof.
  unfold tcp_nopush. change (bind self ?k w) with (k (t_sock w) w). cbv beta.
  assert (Hw : has_waited w w) by done.
  assert (Hopt : forall v ok err_ok, ends (fun _ w' => has_waited w w') P
    ((let! res := on_os (sys (posix_setsockopt (ts_sockfd (t_sock w)) IPPROTO_TCP n v)) in
      if negb (res =? 0) then do! set_internal_error (inl res) in ret err_ok else do! set_tcp_state ok in ret true) w)).
  { intros v ok err_ok. eapply ends_bind; [apply setsockopt_ends|]. intros r w1 H1. destruct (negb _).
    - eapply ends_bind; [apply set_internal_error_ends|]. intros ? w2 H2. exact (waited_trans _ _ _ H1 H2).
    - eapply ends_bind; [apply set_tcp_state_ends|]. intros ? w2 H2. exact (waited_trans _ _ _ H1 H2). }
  destruct (_ && _); [apply Hopt|]. destruct (_ && _); [apply Hopt|done].
Qed.

Lemma send_ends buf flags w :
  ends (has_sent buf w) (fun w' => has_waited w w' /\ ((0 < fuel)%nat -> errno_interrupted))
    (amqp_tcp_socket_send fuel buf flags w).
Proof.
  unfold amqp_tcp_socket_send. change (bind self ?k w) with (k (t_sock w) w). cbv beta.
  destruct (_ =? -1); [by apply ends_ret, sent_neg|]. destruct MSG_MORE as [more|]; [apply send_loop_ends|].
  destruct TCP_NOPUSH as [nopush|]; [|apply send_loop_ends].
  eapply ends_bind; [apply nopush_ends|]. intros [] w1 H1; [|by apply ends_ret, sent_neg].
  eapply ends_weaken; [| |apply send_loop_ends].
  - intros r w' Hs. by eapply waited_sent.
  - intros w' [Hw Hi]. split; [by eapply waited_trans|done].
Qed.

(** ** Receiving *)

Lemma recv_loop_ends n len flags w :
  ends (fun r w' => has_waited w w' /\ match r with inr bs => 0 <= len -> 0 < zlen bs <= len | inl st => st < 0 end)
    (fun w' => has_waited w w' /\ ((0 < n)%nat -> errno_interrupted)) (tcp_recv_loop n len flags w).
Proof.
  revert w. induction n as [|n IH]; intros w; [by split; [|lia]|]. simpl.
  change (bind self ?k w) with (k (t_sock w) w). cbv beta.
  unfold bind at 1. unfold on_os at 1, sys. destruct (posix_recv _ len flags (t_os w)) as [r o1] eqn:Er.
  pose proof (recv_same _ _ _ _ _ _ Er) as Hs. set (w1 := mk_tcp_world (t_self w) (t_sock w) (t_heap w) o1).
  assert (H1 : has_waited w w1) by (by apply waited_os).
  destruct r as [[|b bs]|].
  - by split.
  - split; [done|]. intros Hl. split; [rewrite zlen_cons; zlen_pos; lia|by eapply recv_len].
  - change (bind (on_os amqp_os_socket_error) ?k w1) with (k (posix_errno o1) w1). cbv beta. set (e := posix_errno o1).
    eapply ends_bind; [apply set_internal_error_ends|]. intros ? w2 H2.
    assert (H12 : has_waited w w2) by (by eapply waited_trans).
    destruct e eqn:Ee; try by split.
    eapply ends_weaken; [| |apply (IH w2)].
    + intros r w' [Hw Hr]. split; [by eapply waited_trans|done].
    + intros w' [Hw _]. split; [by eapply waited_trans|]. intros _. by exists o1.
Qed.

Lemma recv_ends len w :
  ends (fun r w' => has_waited w w' /\ match r with inr bs => 0 <= len -> 0 < zlen bs <= len | inl st => st < 0 end)
    (fun w' => has_waited w w' /\ ((0 < fuel)%nat -> errno_interrupted)) (amqp_tcp_socket_recv fuel len w).
Proof.
  unfold amqp_tcp_socket_recv. change (bind self ?k w) with (k (t_sock w) w). cbv beta.
  destruct (_ =? -1); [by split|]. apply recv_loop_ends.
Qed.

(** ** The interface *)

(** What the kernel has accepted on the descriptor of the object. *)
Definition on_the_wire (w : tcp_world OS) : list byte := sent (amqp_tcp_socket_get_sockfd w) (t_os w).

#[local] Existing Instance amqp_tcp_socket_class.

Definition tcp_net_laws : @NetLaws (tcp_world OS) (amqp_tcp_socket_class fuel).
Proof.
  refine (Build_NetLaws _ (amqp_tcp_socket_class fuel) on_the_wire _ _ _ _ _); unfold on_the_wire, amqp_tcp_socket_get_sockfd.
  - intros w buf flags r w' E. pose proof (send_ends buf flags w) as Hs. simpl in E. rewrite E in Hs.
    destruct r; try done.
    + destruct Hs as ((_ & _ & Ef & _) & Hr & Ho). split; [done|]. by rewrite Ef.
    + destruct Hs as [[(_ & _ & Ef & _) Ho] _]. by rewrite Ef.
  - intros w len bs w' Hl E. pose proof (recv_ends len w) as Hs. simpl in E. rewrite E in Hs.
    destruct Hs as [_ Hs]. by apply Hs.
  - intros w len r w' E. pose proof (recv_ends len w) as Hs. simpl in E. rewrite E in Hs.
    destruct r; try done; destruct Hs as [[(_ & _ & Ef & _) Ho] _]; by rewrite Ef.
  - intros w c w'. simpl. destruct (clock_gettime (t_os w)) as [c' o] eqn:E. intros [= _ <-]. simpl.
    apply clock_same in E. apply E.
  - intros w fd ev ms r w'. simpl. destruct (poll fd ev ms (t_os w)) as [c' o] eqn:E. intros [= _ <-]. simpl.
    apply poll_same in E. apply E.
Defined.
End Tcp.

(** C23: The TCP socket is a socket: over any system that keeps the promises of its manual
    pages, the callbacks of [amqp_tcp_socket_class] keep those of the socket interface
    that sending, receiving and the frame engine are proved against, where the bytes on
    the wire are those the kernel has accepted on the object's descriptor. *)
Theorem tcp_implements_socket `{PosixLaws OS} fuel :
  exists L : @NetLaws (tcp_world OS) (amqp_tcp_socket_class fuel),
    forall w, @outbox _ _ L w = on_the_wire w.
Proof. by exists (tcp_net_laws fuel). Qed.

Example tcp_implements_socket_witness :
  exists L : @NetLaws (tcp_world demo_os) (amqp_tcp_socket_class 5),
    forall w, @outbox _ _ L w = on_the_wire w.
Proof. exact (tcp_implements_socket 5). Defined.

(** ** The life of a socket object *)

(** What the library does with a socket between [amqp_tcp_socket_new] and its deletion. *)
Inductive tcp_call : Type :=
| call_open (host : list byte) (port : Z) (timeout : option timeval)
| call_send (buf : list byte) (flags : Z)
| call_recv (len : Z)
| call_close.

Section Life.
Context `{PF : Platform} {OS : Type} `{PX : Posix OS} `{PL : !PosixLaws OS}.
Context (fuel : nat).

Definition do_call (c : tcp_call) : eff (tcp_world OS) unit :=
  match c with
  | call_open host port timeout => do! amqp_tcp_socket_open fuel host port timeout in ret tt
  | call_send buf flags => do! amqp_tcp_socket_send fuel buf flags in ret tt
  | call_recv len => do! amqp_tcp_socket_recv fuel len in ret tt
  | call_close => do! amqp_tcp_socket_close in ret tt
  end.

Definition life (calls : list tcp_call) : eff (tcp_world OS) unit :=
  do! for_each do_call calls in amqp_tcp_socket_delete.

(** A call that was interrupted without end. *)
Definition interrupted : Prop := poll_interrupted (OS := OS) \/ errno_interrupted (OS := OS).

(** The descriptor of the object, if it has one, is all that it may have opened; after
    an error of [close] it is not even open. *)
Definition tcp_inv (h : heap) (o : OS) (me : Z) (w : tcp_world OS) : Prop :=
  t_self w = me /\ t_heap w = h /\
  (let fd := ts_sockfd (t_sock w) in
   fd = -1 /\ back o (t_os w) \/
   0 <= fd /\ fd ∉ opened o /\ opened (t_os w) ∖ {[fd]} = opened o /\ kept o (t_os w)).

Lemma on_fd_inv h o me w w' : tcp_inv h o me w -> ts_sockfd (t_sock w) <> -1 ->
  on_fd (ts_sockfd (t_sock w)) w w' -> tcp_inv h o me w'.
Proof.
  intros (H1 & H2 & H3) Hne (G1 & G2 & G3 & G4 & G5). split; [congruence|]. split; [congruence|]. rewrite G3, G4.
  destruct H3 as [[? _]|(Hfd & Hn & Ho & Hk)]; [done|]. right. do 3 (split; [done|]). by eapply apart_kept.
Qed.

Lemma open_inv h o me host port timeout w : (0 < fuel)%nat -> tcp_inv h o me w ->
  ends (fun _ w' => tcp_inv h o me w') (fun _ => interrupted) (amqp_tcp_socket_open fuel host port timeout w).
Proof.
  intros Hf Hi. unfold amqp_tcp_socket_open. change (bind self ?k w) with (k (t_sock w) w). cbv beta.
  destruct (Z.eqb_spec (ts_sockfd (t_sock w)) (-1)) as [E|]; [|done]. cbn [negb].
  assert (Hb : back o (t_os w)) by (destruct Hi as (_ & _ & [[_ Hb]|[? _]]); [done|lia]).
  destruct Hi as (H1 & H2 & _).
  pose proof (on_os_ends _ _ _ w (open_ends fuel host port timeout (t_os w) Hf)) as Ho.
  unfold bind at 1. destruct (on_os (amqp_open_socket_noblock fuel host port timeout) w) as [[r| | |] w1]; try done;
    [|by left].
  destruct Ho as [Hr ->]. set (o1 := t_os w1) in *.
  assert (Hn : forall s, mk_tcp_world (t_self w) s (t_heap w) o1 = mk_tcp_world me s h o1) by (intros s; congruence).
  rewrite Hn. destruct (Z.ltb_spec r 0) as [Hneg|Hpos].
  - destruct Hr as [[_ Hr]|[? _]]; [|lia]. split; [done|]. split; [done|]. left. split; [done|by eapply back_trans].
  - destruct Hr as [[? _]|[_ [Hm _]]]; [lia|]. split; [done|]. split; [done|]. right. split; [done|].
    destruct (back_mine r o _ _ Hb Hm) as (? & Ho & Hk & _). split; [done|]. split; [|done].
    simpl. rewrite Ho. set_solver.
Qed.

Lemma close_inv h o me w P : tcp_inv h o me w ->
  ends (fun r w' => tcp_inv h o me w' /\ opened (t_os w') = opened o) P (amqp_tcp_socket_close w).
Proof.
  intros Hi. unfold amqp_tcp_socket_close. change (bind self ?k w) with (k (t_sock w) w). cbv beta.
  destruct (Z.eqb_spec (ts_sockfd (t_sock w)) (-1)) as [E|Hne].
  { split; [done|]. destruct Hi as (_ & _ & [[_ Hb]|[? _]]); [apply Hb|lia]. }
  destruct Hi as (H1 & H2 & [[? _]|(Hfd & Hn & Ho & Hk)]); [done|].
  unfold bind at 1. unfold on_os, amqp_os_socket_close, sys.
  destruct (posix_close (ts_sockfd (t_sock w)) (t_os w)) as [r o1] eqn:Ec.
  apply close_closes in Ec as [Ha Eo]. rewrite Ho in Eo. assert (Hk1 : kept o o1) by (by eapply apart_kept).
  destruct (negb _); (split; [split; [done|split; [done|]]|exact Eo]).
  - right. split; [done|]. split; [done|]. split; [|done]. simpl. rewrite Eo. set_solver.
  - left. split; [done|]. by split.
Qed.

Lemma call_inv h o me c w : (0 < fuel)%nat -> tcp_inv h o me w ->
  ends (fun _ w' => tcp_inv h o me w') (fun _ => interrupted) (do_call c w).
Proof.
  intros Hf Hi. destruct c as [host port timeout|buf flags|len|]; unfold do_call.
  - eapply ends_bind; [by apply open_inv|]. done.
  - apply (ends_bind (fun _ w' => tcp_inv h o me w')); [|done].
    destruct (Z.eqb_spec (ts_sockfd (t_sock w)) (-1)) as [E|Hne].
    { unfold amqp_tcp_socket_send. change (bind self ?k w) with (k (t_sock w) w). cbv beta. by rewrite E. }
    eapply ends_weaken; [| |apply send_ends].
    + intros r w' [Hw _]. by eapply on_fd_inv.
    + intros w' [_ Hi']. right. by apply Hi'.
  - apply (ends_bind (fun _ w' => tcp_inv h o me w')); [|done].
    destruct (Z.eqb_spec (ts_sockfd (t_sock w)) (-1)) as [E|Hne].
    { unfold amqp_tcp_socket_recv. change (bind self ?k w) with (k (t_sock w) w). cbv beta. by rewrite E. }
    eapply ends_weaken; [| |apply recv_ends].
    + intros r w' [[Hw _] _]. by eapply on_fd_inv.
    + intros w' [_ Hi']. right. by apply Hi'.
  - eapply ends_bind; [by apply (close_inv h o me)|]. by intros r w' [? _].
Qed.

Lemma calls_inv h o me calls w : (0 < fuel)%nat -> tcp_inv h o me w ->
  ends (fun _ w' => tcp_inv h o me w') (fun _ => interrupted) (for_each do_call calls w).
Proof.
  intros Hf. revert w. induction calls as [|c calls IH]; intros w Hi; [done|]. cbn [for_each].
  eapply ends_bind; [by apply call_inv|]. intros ? w1 H1. by apply IH.
Qed.
End Life.

(** C22: A socket object gives everything back: after any sequence of opening, sending,
    receiving and closing, failing or not, deleting it leaves exactly the descriptors
    open that were open before it was made, as they were, and of the heap only the block
    of the object freed.  No call is undefined, and none is without end unless the system
    interrupts it for ever. *)
Theorem tcp_gives_back `{PosixLaws OS} fuel calls (w : tcp_world OS) size :
  (0 < fuel)%nat -> ts_sockfd (t_sock w) = -1 -> h_live (t_heap w) !! t_self w = Some size ->
  match life fuel calls w with
  | (Ret _, w') => back (t_os w) (t_os w') /\
                   h_live (t_heap w') = delete (t_self w) (h_live (t_heap w))
  | (NoFuel, _) => interrupted (OS := OS)
  | _ => False
  end.
Proof.
  intros Hf Hfd Hl.
  assert (Hi : tcp_inv (t_heap w) (t_os w) (t_self w) w) by (split; [done|]; split; [done|]; by left).
  apply (ends_bind (fun _ w' => tcp_inv (t_heap w) (t_os w) (t_self w) w') (fun _ w' => back (t_os w) (t_os w') /\
                   h_live (t_heap w') = delete (t_self w) (h_live (t_heap w))) (fun _ => interrupted)).
  { by apply calls_inv. }
  intros ? w1 Hi1. unfold amqp_tcp_socket_delete. eapply ends_bind; [by apply close_inv|].
  intros r w2 [(E1 & E2 & Hk) Ho]. unfold on_sock_heap, free. rewrite E1, E2, Hl. split; [|done]. split; [done|].
  by destruct Hk as [[_ [_ ?]]|(_ & _ & _ & ?)].
Qed.

Example tcp_gives_back_witness :
  let w := mk_tcp_world 7 (mk_tcp (-1) (inl 0) 0) (mk_heap {[7 := 24]} 8 []) (mk_os {[0; 1; 2]} ∅ ∅ 0) in
  match life 1 [call_open [x68] 5672 None; call_send [x61] 0; call_recv 4096] w with
  | (Ret _, w') => back (t_os w) (t_os w') /\ h_live (t_heap w') = delete (t_self w) (h_live (t_heap w))
  | (NoFuel, _) => interrupted (OS := demo_os)
  | _ => False
  end.
Proof.
  exact (tcp_gives_back 1 [call_open [x68] 5672 None; call_send [x61] 0; call_recv 4096]
           (mk_tcp_world 7 (mk_tcp (-1) (inl 0) 0) (mk_heap {[7 := 24]} 8 []) (mk_os {[0; 1; 2]} ∅ ∅ 0)) 24
           ltac:(lia) eq_refl eq_refl).
Defined.

(** When [close] fails the object keeps the number of a descriptor that is no longer
    open, and closes it again when it is deleted. *)
Lemma close_error_keeps_number `{PosixLaws OS} (w w' : tcp_world OS) r o :
  posix_close (ts_sockfd (t_sock w)) (t_os w) = (r, o) -> r <> 0 -> ts_sockfd (t_sock w) <> -1 ->
  amqp_tcp_socket_close w = (Ret AMQP_STATUS_SOCKET_ERROR, w') ->
  amqp_tcp_socket_get_sockfd w' = amqp_tcp_socket_get_sockfd w /\ amqp_tcp_socket_get_sockfd w' ∉ opened (t_os w').
Proof.
  intros Ec Hr Hne. unfold amqp_tcp_socket_close. change (bind self ?k w) with (k (t_sock w) w). cbv beta.
  rewrite (proj2 (Z.eqb_neq _ _) Hne). unfold bind at 1. unfold on_os, amqp_os_socket_close, sys. rewrite Ec. cbv iota beta.
  rewrite (proj2 (Z.eqb_neq _ _) Hr). intros [= <-]. apply close_closes in Ec as [_ Eo].
  unfold amqp_tcp_socket_get_sockfd. simpl. rewrite Eo. set_solver.
Qed.
