(* ===== verification/Ssl.v ===== *)
(** * The TLS socket: [librabbitmq/amqp_openssl.c]

    The callbacks of [amqp_ssl_socket_class], the instance of [Net] they make, and the
    functions that configure a TLS socket, over the library of [OpenSsl.v] and the system
    calls of [Posix.v].  Using an object through a [NULL] pointer is undefined. *)

From S2P Require Import Prelude Status Memory Layout Pool PoolMem Codec Table MethodCodec.
From S2P Require Import MethodTypes MethodDecode MethodEncode Properties Connection Time Net Posix ConnState OpenSsl.

(** The class pointer at the start of every socket object. *)
Inductive socket_klass : Type := AMQP_SSL_SOCKET_CLASS | OTHER_SOCKET_CLASS.

(** [internal_error] is an [int]: a result or an [errno]. *)
Record amqp_ssl_socket_t := mk_ssl_socket {
  ss_klass : socket_klass;
  ss_ctx : option Z;
  ss_sockfd : Z;
  ss_ssl : option Z;
  ss_verify_peer : Z;
  ss_verify_hostname : Z;
  ss_internal_error : Z + errno_t;
}.

Definition layout_amqp_ssl_socket_t : layout := c_struct [t_ptr; t_ptr; t_int; t_ptr; t_int; t_int; t_int].

(** The socket object, the heap it is allocated from, the shared library state and the
    system. *)
Record ssl_world (OS TLS : Type) := mk_ssl_world {
  x_self : Z;
  x_sock : amqp_ssl_socket_t;
  x_heap : heap;
  x_lib : ssl_library TLS;
  x_os : OS;
}.
Arguments mk_ssl_world {OS TLS}.
Arguments x_self {OS TLS}.
Arguments x_sock {OS TLS}.
Arguments x_heap {OS TLS}.
Arguments x_lib {OS TLS}.
Arguments x_os {OS TLS}.

(** [amqp_tls_version_t] *)
Definition AMQP_TLSv1 : Z := 1.
Definition AMQP_TLSv1_1 : Z := 2.
Definition AMQP_TLSv1_2 : Z := 3.
Definition AMQP_TLSv1_3 : Z := 4.
Definition AMQP_TLSvLATEST : Z := 0xFFFF.

Section Ssl.
Context `{Platform} `{OpenSSLMacros} {OS TLS : Type} `{Posix OS} `{!OpenSSL OS TLS}.
(** The bound on interrupted calls and on the rounds of a handshake. *)
Context (fuel : nat).

Notation W := (ssl_world OS TLS).

(** ** Access *)

Definition on_sys {A} (m : eff OS A) : eff W A := fun w =>
  let '(r, o) := m (x_os w) in (r, mk_ssl_world (x_self w) (x_sock w) (x_heap w) (x_lib w) o).
Definition on_ssl_heap {A} (m : eff heap A) : eff W A := fun w =>
  let '(r, h) := m (x_heap w) in (r, mk_ssl_world (x_self w) (x_sock w) h (x_lib w) (x_os w)).
Definition on_lib {A} (m : eff (ssl_library TLS) A) : eff W A := fun w =>
  let '(r, g) := m (x_lib w) in (r, mk_ssl_world (x_self w) (x_sock w) (x_heap w) g (x_os w)).
Definition on_tls {A} (f : TLS -> A * TLS) : eff W A := on_lib (tls f).
Definition on_tls_do (f : TLS -> TLS) : eff W unit := on_lib (tls_do f).
Definition ask_tls {A} (f : TLS -> A) : eff W A := on_tls (fun t => (f t, t)).
(** A call that reads or writes the connection. *)
Definition on_io {A} (f : TLS * OS -> A * (TLS * OS)) : eff W A := fun w =>
  let '(a, (t, o)) := f (lib_tls (x_lib w), x_os w) in
  let '(_, g) := tls_do (fun _ => t) (x_lib w) in
  (Ret a, mk_ssl_world (x_self w) (x_sock w) (x_heap w) g o).

Definition ssl_self : eff W amqp_ssl_socket_t := fun w => (Ret (x_sock w), w).
Definition put_ssl (s : amqp_ssl_socket_t) : eff W unit := fun w =>
  (Ret tt, mk_ssl_world (x_self w) s (x_heap w) (x_lib w) (x_os w)).
Definition set_ssl_sockfd (fd : Z) : eff W unit := let! s := ssl_self in
  put_ssl (mk_ssl_socket (ss_klass s) (ss_ctx s) fd (ss_ssl s) (ss_verify_peer s) (ss_verify_hostname s) (ss_internal_error s)).
Definition set_ssl (p : option Z) : eff W unit := let! s := ssl_self in
  put_ssl (mk_ssl_socket (ss_klass s) (ss_ctx s) (ss_sockfd s) p (ss_verify_peer s) (ss_verify_hostname s) (ss_internal_error s)).
Definition set_ctx (p : option Z) : eff W unit := let! s := ssl_self in
  put_ssl (mk_ssl_socket (ss_klass s) p (ss_sockfd s) (ss_ssl s) (ss_verify_peer s) (ss_verify_hostname s) (ss_internal_error s)).
Definition set_verify_peer (v : Z) : eff W unit := let! s := ssl_self in
  put_ssl (mk_ssl_socket (ss_klass s) (ss_ctx s) (ss_sockfd s) (ss_ssl s) v (ss_verify_hostname s) (ss_internal_error s)).
Definition set_verify_hostname (v : Z) : eff W unit := let! s := ssl_self in
  put_ssl (mk_ssl_socket (ss_klass s) (ss_ctx s) (ss_sockfd s) (ss_ssl s) (ss_verify_peer s) v (ss_internal_error s)).
Definition set_ssl_error (e : Z + errno_t) : eff W unit := let! s := ssl_self in
  put_ssl (mk_ssl_socket (ss_klass s) (ss_ctx s) (ss_sockfd s) (ss_ssl s) (ss_verify_peer s) (ss_verify_hostname s) e).
(** The object behind a pointer that is not [NULL]. *)
Definition deref (p : option Z) : eff W Z := match p with Some x => ret x | None => undef end.

(** ** Sending and receiving *)

(** [switch (self->internal_error)] *)
Definition status_of_ssl_error (e : Z) : Z :=
  if e =? SSL_ERROR_WANT_READ then AMQP_PRIVATE_STATUS_SOCKET_NEEDREAD
  else if e =? SSL_ERROR_WANT_WRITE then AMQP_PRIVATE_STATUS_SOCKET_NEEDWRITE
  else if e =? SSL_ERROR_ZERO_RETURN then AMQP_STATUS_CONNECTION_CLOSED
  else AMQP_STATUS_SSL_ERROR.

Definition amqp_ssl_socket_send (buf : list byte) (flags : Z) : eff W Z :=
  let! s := ssl_self in
  if ss_sockfd s =? -1 then ret AMQP_STATUS_SOCKET_CLOSED
  else if INT_MAX <? zlen buf then ret AMQP_STATUS_INVALID_PARAMETER
  else
    do! on_tls_do ERR_clear_error in
    do! set_ssl_error (inl 0) in
    let! ssl := deref (ss_ssl s) in
    let! res := on_io (SSL_write ssl buf) in
    if res <=? 0 then
      let! e := ask_tls (SSL_get_error ssl res) in
      do! set_ssl_error (inl e) in
      ret (status_of_ssl_error e)
    else do! set_ssl_error (inl 0) in ret res.

Definition amqp_ssl_socket_recv (len : Z) : eff W (Z + list byte) :=
  let! s := ssl_self in
  if ss_sockfd s =? -1 then ret (inl AMQP_STATUS_SOCKET_CLOSED)
  else if INT_MAX <? len then ret (inl AMQP_STATUS_INVALID_PARAMETER)
  else
    do! on_tls_do ERR_clear_error in
    do! set_ssl_error (inl 0) in
    let! ssl := deref (ss_ssl s) in
    let! received := on_io (SSL_read ssl len) in
    match received with
    | inl r =>
        let! e := ask_tls (SSL_get_error ssl r) in
        do! set_ssl_error (inl e) in
        ret (inl (status_of_ssl_error e))
    | inr bs => ret (inr bs)
    end.

(** ** Opening *)

(** [error_out1] to [error_out4]. *)
Definition error_out1 (status : Z) : eff W Z :=
  let! s := ssl_self in
  do! on_tls_do (SSL_free (ss_ssl s)) in
  do! set_ssl None in
  ret status.
Definition error_out2 (status : Z) : eff W Z :=
  let! s := ssl_self in
  do! on_sys (amqp_os_socket_close (ss_sockfd s)) in
  do! set_ssl_sockfd (-1) in
  error_out1 status.
Definition error_out3 (ssl status : Z) : eff W Z :=
  do! on_io (SSL_shutdown ssl) in
  error_out2 status.
Definition error_out4 (cert : option Z) (ssl status : Z) : eff W Z :=
  do! on_tls_do (X509_free cert) in
  error_out3 ssl status.

(** [start_connect:] until the handshake is done, fails or times out. *)
Fixpoint start_connect (rounds : nat) (ssl fd : Z) (deadline : amqp_time_t) : eff W Z :=
  match rounds with
  | O => nofuel
  | S rounds' =>
      let! status := on_io (SSL_connect ssl) in
      if status =? 1 then ret AMQP_STATUS_OK
      else
        let! e := ask_tls (SSL_get_error ssl status) in
        do! set_ssl_error (inl e) in
        let! status :=
          if e =? SSL_ERROR_WANT_READ then on_sys (amqp_poll fuel fd AMQP_SF_POLLIN deadline)
          else if e =? SSL_ERROR_WANT_WRITE then on_sys (amqp_poll fuel fd AMQP_SF_POLLOUT deadline)
          else ret AMQP_STATUS_SSL_CONNECTION_FAILED in
        if AMQP_STATUS_OK =? status then start_connect rounds' ssl fd deadline else ret status
  end.

(** [if (self->verify_peer)]: [None] when the checks that are wanted are passed, otherwise
    the error path taken. *)
Definition check_peer (ssl : Z) (cert : option Z) : eff W (option (eff W Z)) :=
  let! s := ssl_self in
  if ss_verify_peer s =? 0 then ret None
  else match cert with
       | None =>
           do! set_ssl_error (inl 0) in
           ret (Some (error_out3 ssl AMQP_STATUS_SSL_PEER_VERIFY_FAILED))
       | Some _ =>
           let! result := ask_tls (SSL_get_verify_result ssl) in
           if negb (X509_V_OK =? result) then
             do! set_ssl_error (inl (swrap 32 result)) in
             ret (Some (error_out4 cert ssl AMQP_STATUS_SSL_PEER_VERIFY_FAILED))
           else ret None
       end.

Definition check_hostname (ssl : Z) (cert : option Z) (host : list byte) : eff W (option (eff W Z)) :=
  let! s := ssl_self in
  if ss_verify_hostname s =? 0 then ret None
  else match cert with
       | None =>
           do! set_ssl_error (inl 0) in
           ret (Some (error_out3 ssl AMQP_STATUS_SSL_HOSTNAME_VERIFY_FAILED))
       | Some c =>
           let! r := ask_tls (X509_check_host c host X509_CHECK_FLAG_NO_PARTIAL_WILDCARDS) in
           if negb (1 =? r) then
             do! set_ssl_error (inl 0) in
             ret (Some (error_out4 cert ssl AMQP_STATUS_SSL_HOSTNAME_VERIFY_FAILED))
           else ret None
       end.

(** After the handshake. *)
Definition check_certificate (ssl : Z) (host : list byte) : eff W Z :=
  let! cert := on_tls (SSL_get_peer_certificate ssl) in
  let! failed := check_peer ssl cert in
  match failed with
  | Some error => error
  | None =>
      let! failed := check_hostname ssl cert host in
      match failed with
      | Some error => error
      | None =>
          do! on_tls_do (X509_free cert) in
          do! set_ssl_error (inl 0) in
          ret AMQP_STATUS_OK
      end
  end.

(** With the descriptor open. *)
Definition ssl_over (ssl fd : Z) (host : list byte) (deadline : amqp_time_t) : eff W Z :=
  let! method := on_lib (run_alone amqp_openssl_bio) in
  let! bio := on_tls (BIO_new method) in
  match bio with
  | None => error_out2 AMQP_STATUS_NO_MEMORY
  | Some bio =>
      do! on_tls_do (BIO_set_fd bio fd BIO_NOCLOSE) in
      do! on_tls_do (SSL_set_bio ssl bio bio) in
      let! status := on_tls (SSL_set_tlsext_host_name ssl host) in
      if status =? 0 then
        let! e := ask_tls (SSL_get_error ssl status) in
        do! set_ssl_error (inl e) in
        error_out2 AMQP_STATUS_SSL_ERROR
      else
        let! status := start_connect fuel ssl fd deadline in
        if negb (status =? AMQP_STATUS_OK) then error_out2 status
        else check_certificate ssl host
  end.

Definition amqp_ssl_socket_open (host : list byte) (port : Z) (timeout : option timeval) : eff W Z :=
  let! s := ssl_self in
  if negb (ss_sockfd s =? -1) then ret AMQP_STATUS_SOCKET_INUSE
  else
    do! on_tls_do ERR_clear_error in
    let! ctx := deref (ss_ctx s) in
    let! ssl := on_tls (SSL_new ctx) in
    do! set_ssl ssl in
    match ssl with
    | None =>
        let! e := ask_tls ERR_peek_error in
        do! set_ssl_error (inl (swrap 32 e)) in
        ret AMQP_STATUS_SSL_ERROR
    | Some ssl =>
        let! now := match timeout with
                    | Some tv => if (tv_sec tv <? 0) || (tv_usec tv <? 0) then ret None else on_sys clock
                    | None => ret None
                    end in
        match amqp_time_from_now now timeout (mk_time 0) with
        | (Ret _, deadline) =>
            let! fd := on_sys (amqp_open_socket_inner fuel host port deadline) in
            do! set_ssl_sockfd fd in
            if fd <? 0 then
              let! e := on_sys amqp_os_socket_error in
              do! set_ssl_error (inr e) in
              do! set_ssl_sockfd (-1) in
              error_out1 fd
            else ssl_over ssl fd host deadline
        | (Err res, _) => ret res
        | _ => undef
        end
    end.

(** ** Closing and deleting *)

Definition amqp_ssl_socket_close (force : Z) : eff W Z :=
  let! s := ssl_self in
  if ss_sockfd s =? -1 then ret AMQP_STATUS_SOCKET_CLOSED
  else
    do! (if AMQP_SC_NONE =? force then
           let! ssl := deref (ss_ssl s) in do! on_io (SSL_shutdown ssl) in ret tt
         else ret tt) in
    do! on_tls_do (SSL_free (ss_ssl s)) in
    do! set_ssl None in
    let! r := on_sys (amqp_os_socket_close (ss_sockfd s)) in
    if negb (r =? 0) then ret AMQP_STATUS_SOCKET_ERROR
    else do! set_ssl_sockfd (-1) in ret AMQP_STATUS_OK.

Definition amqp_ssl_socket_get_sockfd (w : W) : Z := ss_sockfd (x_sock w).

(** [base] is [false] for [NULL]. *)
Definition amqp_ssl_socket_delete (base : bool) : eff W unit :=
  do! (if base then
         do! amqp_ssl_socket_close AMQP_SC_NONE in
         let! s := ssl_self in
         do! on_tls_do (SSL_CTX_free (ss_ctx s)) in
         (fun w => on_ssl_heap (free (x_self w)) w)
       else ret tt) in
  do! on_lib (run_alone decrement_ssl_connections) in
  ret tt.

(** ** The class *)

Definition ssl_system : System W := {|
  clock_gettime w :=
    let '(c, o) := clock_gettime (x_os w) in (c, mk_ssl_world (x_self w) (x_sock w) (x_heap w) (x_lib w) o);
  poll fd ev ms w :=
    let '(a, o) := poll fd ev ms (x_os w) in (a, mk_ssl_world (x_self w) (x_sock w) (x_heap w) (x_lib w) o);
|}.

Definition amqp_ssl_socket_class : Net W := {|
  net_system := ssl_system;
  socket_send := amqp_ssl_socket_send;
  socket_recv := amqp_ssl_socket_recv;
  socket_open := amqp_ssl_socket_open;
  socket_get_sockfd := amqp_ssl_socket_get_sockfd;
  socket_close := amqp_ssl_socket_close;
  socket_delete := amqp_ssl_socket_delete true;
|}.

(** ** Configuring *)

(** [if (base->klass != &amqp_ssl_socket_class) amqp_abort(...)] *)
Definition the_ssl_socket : eff W amqp_ssl_socket_t :=
  let! s := ssl_self in
  match ss_klass s with AMQP_SSL_SOCKET_CLASS => ret s | OTHER_SOCKET_CLASS => undef end.

(** [if (1 != status) return AMQP_STATUS_SSL_ERROR;] *)
Definition or_ssl_error (f : TLS -> Z * TLS) (k : eff W Z) : eff W Z :=
  let! status := on_tls f in if negb (1 =? status) then ret AMQP_STATUS_SSL_ERROR else k.

Definition amqp_ssl_socket_get_context : eff W (option Z) := let! s := the_ssl_socket in ret (ss_ctx s).

Definition amqp_ssl_socket_set_cacert (cacert : list byte) : eff W Z :=
  let! s := the_ssl_socket in
  let! ctx := deref (ss_ctx s) in
  or_ssl_error (SSL_CTX_load_verify_locations ctx cacert) (ret AMQP_STATUS_OK).

Definition amqp_ssl_socket_set_key (cert key : list byte) : eff W Z :=
  let! s := the_ssl_socket in
  let! ctx := deref (ss_ctx s) in
  or_ssl_error (SSL_CTX_use_certificate_chain_file ctx cert) (
  or_ssl_error (SSL_CTX_use_PrivateKey_file ctx key SSL_FILETYPE_PEM) (
  ret AMQP_STATUS_OK)).

Definition amqp_ssl_socket_set_key_engine (cert key : list byte) : eff W Z :=
  let! s := the_ssl_socket in
  let! ctx := deref (ss_ctx s) in
  or_ssl_error (SSL_CTX_use_certificate_chain_file ctx cert) (
  let! engine := on_lib (read_var openssl_engine) in
  let! pkey := on_tls (ENGINE_load_private_key engine key) in
  match pkey with
  | None => ret AMQP_STATUS_SSL_ERROR
  | Some k =>
      let! status := on_tls (SSL_CTX_use_PrivateKey ctx k) in
      do! on_tls_do (EVP_PKEY_free pkey) in
      if negb (1 =? status) then ret AMQP_STATUS_SSL_ERROR else ret AMQP_STATUS_OK
  end).

(** The buffer of [n] bytes at [key]; a password, if asked for, is [amqp_abort]. *)
Definition amqp_ssl_socket_set_key_buffer (cert key : list byte) : eff W Z :=
  let! s := the_ssl_socket in
  if INT_MAX <? zlen key then ret AMQP_STATUS_INVALID_PARAMETER
  else
    let! ctx := deref (ss_ctx s) in
    or_ssl_error (SSL_CTX_use_certificate_chain_file ctx cert) (
    let! buf := on_tls (BIO_new_mem_buf key) in
    let! '(status, rsa) :=
      match buf with
      | None => ret (AMQP_STATUS_SSL_ERROR, None)
      | Some b =>
          let! rsa := on_tls (PEM_read_bio_RSAPrivateKey b) in
          match rsa with
          | None => ret (AMQP_STATUS_SSL_ERROR, None)
          | Some r =>
              let! status := on_tls (SSL_CTX_use_RSAPrivateKey ctx r) in
              ret (if negb (1 =? status) then AMQP_STATUS_SSL_ERROR else AMQP_STATUS_OK, rsa)
          end
      end in
    do! on_tls_do (BIO_vfree buf) in
    do! on_tls_do (RSA_free rsa) in
    ret status).

Definition amqp_ssl_socket_set_cert (cert : list byte) : eff W Z :=
  let! s := the_ssl_socket in
  let! ctx := deref (ss_ctx s) in
  or_ssl_error (SSL_CTX_use_certificate_chain_file ctx cert) (ret AMQP_STATUS_OK).

Definition amqp_ssl_socket_set_key_passwd (passwd : list byte) : eff W unit :=
  let! s := the_ssl_socket in
  let! ctx := deref (ss_ctx s) in
  on_tls_do (SSL_CTX_set_default_passwd_cb_userdata ctx passwd).

Definition amqp_ssl_socket_set_verify_peer (verify : Z) : eff W unit :=
  do! the_ssl_socket in set_verify_peer verify.
Definition amqp_ssl_socket_set_verify_hostname (verify : Z) : eff W unit :=
  do! the_ssl_socket in set_verify_hostname verify.
Definition amqp_ssl_socket_set_verify (verify : Z) : eff W unit :=
  do! amqp_ssl_socket_set_verify_peer verify in amqp_ssl_socket_set_verify_hostname verify.

(** The options to clear and to set for a range of versions. *)
Definition version_options (min max : Z) : Z + (Z * Z) :=
  let max_supported := match SSL_OP_NO_TLSv1_3 with Some _ => AMQP_TLSv1_3 | None => AMQP_TLSv1_2 end in
  let base_options := Z.lor (Z.lor SSL_OP_NO_TLSv1 SSL_OP_NO_TLSv1_1) SSL_OP_NO_TLSv1_2 in
  let clear_options := match SSL_OP_NO_TLSv1_3 with Some o => Z.lor base_options o | None => base_options end in
  let max := if AMQP_TLSvLATEST =? max then max_supported else max in
  let min := if AMQP_TLSvLATEST =? min then max_supported else min in
  if max <? min then inl AMQP_STATUS_INVALID_PARAMETER
  else if (max_supported <? max) || (max_supported <? min) then inl AMQP_STATUS_UNSUPPORTED
  else
    let set_options := 0 in
    let set_options := if AMQP_TLSv1 <? min then Z.lor set_options SSL_OP_NO_TLSv1 else set_options in
    let set_options := if (AMQP_TLSv1_1 <? min) || (max <? AMQP_TLSv1_1) then Z.lor set_options SSL_OP_NO_TLSv1_1
                       else set_options in
    let set_options := if max <? AMQP_TLSv1_2 then Z.lor set_options SSL_OP_NO_TLSv1_2 else set_options in
    let set_options := match SSL_OP_NO_TLSv1_3 with
                       | Some o => if max <? AMQP_TLSv1_3 then Z.lor set_options o else set_options
                       | None => set_options
                       end in
    inr (clear_options, set_options).

Definition amqp_ssl_socket_set_ssl_versions (min max : Z) : eff W Z :=
  let! s := the_ssl_socket in
  match version_options min max with
  | inl status => ret status
  | inr (clear_options, set_options) =>
      let! ctx := deref (ss_ctx s) in
      do! on_tls_do (SSL_CTX_clear_options ctx clear_options) in
      do! on_tls_do (SSL_CTX_set_options ctx set_options) in
      ret AMQP_STATUS_OK
  end.

(** ** Making a socket for a connection *)

(** Run on another object: its block and its fields. *)
Definition on_object {A} (b : Z) (s : amqp_ssl_socket_t) (m : eff W A) : eff W (A * amqp_ssl_socket_t) := fun w =>
  match m (mk_ssl_world b s (x_heap w) (x_lib w) (x_os w)) with
  | (r, w') =>
      let w1 := mk_ssl_world (x_self w) (x_sock w) (x_heap w') (x_lib w') (x_os w') in
      match r with
      | Ret a => (Ret (a, x_sock w'), w1)
      | Err st => (Err st, w1)
      | Undef => (Undef, w1)
      | NoFuel => (NoFuel, w1)
      end
  end.

Definition new_ssl_socket : amqp_ssl_socket_t := mk_ssl_socket AMQP_SSL_SOCKET_CLASS None (-1) None 1 1 (inl 0).

(** The new object: [false] after [goto error]. *)
Definition ssl_socket_init : eff W bool :=
  let! status := on_lib (run_alone initialize_ssl_and_increment_connections) in
  if negb (status =? 0) then do! amqp_ssl_socket_delete true in ret false
  else
    let! ctx := on_tls SSL_CTX_new in
    do! set_ctx ctx in
    match ctx with
    | None => do! amqp_ssl_socket_delete true in ret false
    | Some c =>
        do! on_tls_do (SSL_CTX_set_options c (Z.lor SSL_OP_NO_SSLv2 SSL_OP_NO_SSLv3)) in
        do! amqp_ssl_socket_set_ssl_versions AMQP_TLSv1_2 AMQP_TLSvLATEST in
        do! on_tls_do (SSL_CTX_set_mode c SSL_MODE_ENABLE_PARTIAL_WRITE) in
        do! on_tls_do (SSL_CTX_clear_mode c SSL_MODE_AUTO_RETRY) in
        ret true
    end.

#[local] Existing Instance amqp_ssl_socket_class.

(** [false] is [NULL]. *)
Definition amqp_ssl_socket_new : eff (world W) bool :=
  let! b := on_env (on_ssl_heap (calloc (sizeof layout_amqp_ssl_socket_t))) in
  match b with
  | None => ret false
  | Some b =>
      let! '(ok, s) := on_env (on_object b new_ssl_socket ssl_socket_init) in
      if ok : bool then
        do! amqp_set_socket (Some (fun w => mk_ssl_world b s (x_heap w) (x_lib w) (x_os w))) in
        ret true
      else ret false
  end.

End Ssl.
