(* ===== verification/SslSpec.v ===== *)
(** * The TLS socket: the theorems about [Ssl.v]

    What a call of the TLS socket does to the objects of OpenSSL, the descriptors and the
    socket object; that a connection is only handed out verified; that nothing is left
    behind; and which protocol versions a socket accepts. *)

From stdpp Require Import gmultiset.
From S2P Require Import Prelude Status Memory Layout Pool PoolMem Codec Table MethodCodec.
From S2P Require Import MethodTypes MethodDecode MethodEncode Properties Connection Time Net Posix PosixSpec ConnState.
From S2P Require Import Tcp TcpSpec OpenSsl OpenSslLaws SslThreads Ssl.

(** One step, to a world that stands somewhere. *)
Ltac next rule w H :=
  eapply ends_bind; [eapply rule; match goal with H : _ |- _ => exact H end|]; intros ? w H; cbv beta in H.

Section Ssl.
Context `{PF : Platform} `{OM : OpenSSLMacros} {OS TLS : Type} `{PX : Posix OS} `{PL : !PosixLaws OS}.
Context `{OL : !OpenSSL OS TLS} `{LL : !OpenSSLLaws OS TLS}.
Context (fuel : nat).

Notation W := (ssl_world OS TLS).

(** ** Where a world stands *)

Definition view (w : W) : tls_view := seen (lib_tls (x_lib w)).

(** The variables of the library, without OpenSSL's own state. *)
Definition lib_vars (g : ssl_library TLS) : bool * Z * option Z * bool * option Z :=
  (openssl_bio_initialized g, openssl_connections g, openssl_engine g, amqp_ssl_bio_initialized g, amqp_bio_method g).

(** The fields of the object but for [internal_error]. *)
Definition fields (s : amqp_ssl_socket_t) : socket_klass * option Z * Z * option Z * Z * Z :=
  (ss_klass s, ss_ctx s, ss_sockfd s, ss_ssl s, ss_verify_peer s, ss_verify_hostname s).

(** [w] is [w0] but for the fields [s], the view [v] and the open descriptors [o]. *)
Record stands (w0 : W) (s : amqp_ssl_socket_t) (v : tls_view) (o : gset Z) (w : W) : Prop := {
  st_self : x_self w = x_self w0;
  st_heap : x_heap w = x_heap w0;
  st_vars : lib_vars (x_lib w) = lib_vars (x_lib w0);
  st_fields : fields (x_sock w) = fields s;
  st_view : view w = v;
  st_opened : opened (x_os w) = o;
}.

Definition with_fd (fd : Z) (s : amqp_ssl_socket_t) : amqp_ssl_socket_t :=
  mk_ssl_socket (ss_klass s) (ss_ctx s) fd (ss_ssl s) (ss_verify_peer s) (ss_verify_hostname s) (ss_internal_error s).
Definition with_ssl (p : option Z) (s : amqp_ssl_socket_t) : amqp_ssl_socket_t :=
  mk_ssl_socket (ss_klass s) (ss_ctx s) (ss_sockfd s) p (ss_verify_peer s) (ss_verify_hostname s) (ss_internal_error s).

Lemma stands_refl w : stands w (x_sock w) (view w) (opened (x_os w)) w.
Proof. done. Qed.

Section Rules.
Context (w0 : W) (s : amqp_ssl_socket_t) (v : tls_view) (o : gset Z) (P : W -> Prop).

Lemma tls_ends {A} (f : TLS -> A * TLS) (R : A -> tls_view -> Prop) w : stands w0 s v o w ->
  (forall a t', f (lib_tls (x_lib w)) = (a, t') -> R a (seen t')) ->
  ends (fun a w' => exists v', R a v' /\ stands w0 s v' o w') P (on_tls f w).
Proof.
  intros [H1 H2 H3 H4 H5 H6] Hf. unfold on_tls, on_lib, tls. destruct (f (lib_tls (x_lib w))) as [a t'] eqn:E.
  exists (seen t'). split; [by apply Hf|]. by split.
Qed.

Lemma tls_do_ends (f : TLS -> TLS) g w : stands w0 s v o w -> (forall t, seen (f t) = g (seen t)) ->
  ends (fun _ w' => stands w0 s (g v) o w') P (on_tls_do f w).
Proof. intros [H1 H2 H3 H4 H5 H6] Hf. split; try done. cbn. unfold view. cbn. by rewrite Hf, <- H5. Qed.

(** A question. *)
Lemma ask_ends {A} (f : TLS -> A) w : stands w0 s v o w ->
  ends (fun _ w' => stands w0 s v o w') P (ask_tls f w).
Proof. by intros []. Qed.

Lemma error_ends e w : stands w0 s v o w -> ends (fun _ w' => stands w0 s v o w') P (set_ssl_error e w).
Proof. by intros []. Qed.

Lemma fd_ends fd w : stands w0 s v o w -> ends (fun _ w' => stands w0 (with_fd fd s) v o w') P (set_ssl_sockfd fd w).
Proof. intros [H1 H2 H3 H4 H5 H6]. split; try done. unfold fields in *. cbn in *. congruence. Qed.

Lemma ssl_ends p w : stands w0 s v o w -> ends (fun _ w' => stands w0 (with_ssl p s) v o w') P (set_ssl p w).
Proof. intros [H1 H2 H3 H4 H5 H6]. split; try done. unfold fields in *. cbn in *. congruence. Qed.

Lemma self_ends w : stands w0 s v o w ->
  ends (fun a w' => fields a = fields s /\ stands w0 s v o w') P (ssl_self w).
Proof. intros Hs. split; [apply Hs|done]. Qed.

(** A call that reads or writes the connection. *)
Lemma io_ends {A} (f : TLS * OS -> A * (TLS * OS)) (R : A -> tls_view -> Prop) w : stands w0 s v o w ->
  (forall a t t' p p', seen t = v -> f (t, p) = (a, (t', p')) -> R a (seen t') /\ opened p' = opened p) ->
  ends (fun a w' => exists v', R a v' /\ stands w0 s v' o w') P (on_io f w).
Proof.
  intros [H1 H2 H3 H4 H5 H6] Hf. unfold on_io. destruct (f _) as [a [t' p']] eqn:E.
  apply Hf in E as [Hr Ho]; [|exact H5]. exists (seen t'). split; [done|]. split; try done. cbn. by rewrite Ho.
Qed.

(** A system call. *)
Lemma sys_ends {A} (m : eff OS A) (R : A -> gset Z -> Prop) P' w : stands w0 s v o w ->
  ends (fun a p' => R a (opened p')) P' (m (x_os w)) -> (forall p' w', P' p' -> P w') ->
  ends (fun a w' => exists o', R a o' /\ stands w0 s v o' w') P (on_sys m w).
Proof.
  intros [H1 H2 H3 H4 H5 H6] Hm HP. unfold on_sys. destruct (m (x_os w)) as [[a| | |] p']; try done; [|by eapply HP].
  exists (opened p'). split; [done|]. by split.
Qed.
End Rules.

Lemma close_ends w0 s v o fd P w : stands w0 s v o w ->
  ends (fun _ w' => stands w0 s v (o ∖ {[fd]}) w') P (on_sys (amqp_os_socket_close fd) w).
Proof.
  intros Hs. eapply (ends_weaken (fun _ w' => exists o', o' = o ∖ {[fd]} /\ stands w0 s v o' w') _ P P); [|done|].
  { by intros _ w' (o' & -> & Hs'). }
  apply (sys_ends w0 s v o P _ (fun _ o' => o' = o ∖ {[fd]}) (fun _ => False)); [done| |done].
  apply ends_sys. intros r p' [_ Ho]%close_closes. rewrite Ho. by rewrite (st_opened _ _ _ _ _ Hs).
Qed.

(** The error paths return their status and free what there is. *)
Lemma out1_ends w0 s v o status P w : stands w0 s v o w ->
  ends (fun r w' => r = status /\ stands w0 (with_ssl None s) (freeing (fun x => with_ssls (delete x)) (ss_ssl s) v) o w')
    P (error_out1 status w).
Proof.
  intros Hs. unfold error_out1. eapply ends_bind; [by apply (self_ends w0 s v o)|]. intros a w1 [Hf H1].
  assert (ss_ssl a = ss_ssl s) as -> by (unfold fields in Hf; congruence).
  eapply ends_bind; [apply (tls_do_ends w0 s v o P _ (freeing (fun x => with_ssls (delete x)) (ss_ssl s))); [done|apply ssl_free_seen]|].
  intros ? w2 H2. cbv beta in H2.
  next ssl_ends w3 H3. by split.
Qed.

Lemma out2_ends w0 s v o status P w : stands w0 s v o w ->
  ends (fun r w' => r = status /\
      stands w0 (with_ssl None (with_fd (-1) s)) (freeing (fun x => with_ssls (delete x)) (ss_ssl s) v) (o ∖ {[ss_sockfd s]}) w')
    P (error_out2 status w).
Proof.
  intros Hs. unfold error_out2. eapply ends_bind; [by apply (self_ends w0 s v o)|]. intros a w1 [Hf H1].
  assert (ss_sockfd a = ss_sockfd s) as -> by (unfold fields in Hf; congruence).
  next close_ends w2 H2.
  next fd_ends w3 H3. by apply (out1_ends w0 (with_fd (-1) s)).
Qed.

(** A call that changes nothing that can be seen. *)
Lemma io_same {A} w0 s v o P (f : TLS * OS -> A * (TLS * OS)) w : stands w0 s v o w ->
  (forall a t t' p p', f (t, p) = (a, (t', p')) -> seen t' = seen t /\ opened p' = opened p) ->
  ends (fun _ w' => stands w0 s v o w') P (on_io f w).
Proof.
  intros [H1 H2 H3 H4 H5 H6] Hf. unfold on_io. destruct (f _) as [a [t' p']] eqn:E. apply Hf in E as [Hv Ho].
  split; try done; cbn; [|by rewrite Ho]. unfold view. cbn. by rewrite Hv.
Qed.

(** The object without its connection. *)
Definition closed (s : amqp_ssl_socket_t) : amqp_ssl_socket_t := with_ssl None (with_fd (-1) s).

(** After an error: all that was made is given back. *)
Definition dropped (w0 : W) s v o (w : W) : Prop :=
  stands w0 (closed s) (freeing (fun x => with_ssls (delete x)) (ss_ssl s) v) (o ∖ {[ss_sockfd s]}) w.

Lemma out3_ends w0 s v o ssl status P w : stands w0 s v o w ->
  ends (fun r w' => r = status /\ dropped w0 s v o w') P (error_out3 ssl status w).
Proof.
  intros Hs. unfold error_out3. eapply ends_bind; [apply (io_same w0 s v o); [done|]|by intros ? w1 H1; apply out2_ends].
  intros. by eapply shutdown_seen.
Qed.

Definition holding (cert : option Z) : tls_view -> tls_view := freeing (fun c => with_certs (disj_union {[+ c +]})) cert.

Lemma holding_back cert v : freeing (fun c => with_certs (fun l => l ∖ {[+ c +]})) cert (holding cert v) = v.
Proof. destruct cert as [c|]; [|done]. destruct v as [a b m d]. unfold holding, freeing, with_certs. cbn [v_ctxs v_ssls v_certs v_bios].
  f_equal. multiset_solver. Qed.

Lemma out4_ends w0 s v o cert ssl status P w : stands w0 s (holding cert v) o w ->
  ends (fun r w' => r = status /\ dropped w0 s v o w') P (error_out4 cert ssl status w).
Proof.
  intros Hs. unfold error_out4.
  eapply ends_bind; [apply (tls_do_ends w0 s (holding cert v) o P _ (freeing (fun c => with_certs (fun l => l ∖ {[+ c +]})) cert)); [exact Hs|apply x509_free_seen]|].
  intros ? w1 H1. cbv beta in H1. rewrite holding_back in H1. by apply out3_ends.
Qed.

(** ** The certificate *)

(** The checks that are asked for, in the state [t] with the certificate at hand. *)
Definition peer_checked (s : amqp_ssl_socket_t) (ssl : Z) (cert : option Z) (t : TLS) : Prop :=
  ss_verify_peer s <> 0 -> is_Some cert /\ SSL_get_verify_result ssl t = X509_V_OK.
Definition hostname_checked (s : amqp_ssl_socket_t) (cert : option Z) (host : list byte) (t : TLS) : Prop :=
  ss_verify_hostname s <> 0 -> exists c, cert = Some c /\ X509_check_host c host X509_CHECK_FLAG_NO_PARTIAL_WILDCARDS t = 1.

(** The outcome of a check: passed in the state [t], or the error path to take. *)
Definition check_result (ssl : Z) (cert : option Z) (passed : Prop) (r : option (eff W Z)) : Prop :=
  match r with
  | None => passed
  | Some e => exists st, st < 0 /\ (cert = None /\ e = error_out3 ssl st \/ e = error_out4 cert ssl st)
  end.

Lemma check_peer_ends w0 s v o ssl cert w P : stands w0 s v o w ->
  ends (fun r w' => stands w0 s v o w' /\ lib_tls (x_lib w') = lib_tls (x_lib w) /\
          check_result ssl cert (peer_checked s ssl cert (lib_tls (x_lib w))) r) P (check_peer ssl cert w).
Proof.
  intros Hs. assert (Hv : ss_verify_peer (x_sock w) = ss_verify_peer s) by (pose proof (st_fields _ _ _ _ _ Hs); unfold fields in *; congruence).
  unfold check_peer. change (bind ssl_self ?k w) with (k (x_sock w) w). cbv beta. rewrite Hv.
  destruct (Z.eqb_spec (ss_verify_peer s) 0) as [E|E]; [by split; [|split; [|intros ?]]|]. destruct cert as [c|].
  2:{ destruct Hs. split; [by split|]. split; [done|]. eexists. split; [|by left]. done. }
  unfold ask_tls. destruct (Z.eqb_spec X509_V_OK (SSL_get_verify_result ssl (lib_tls (x_lib w)))) as [Er|Er].
  - unfold bind, on_tls, on_lib, tls. rewrite <- Er, Z.eqb_refl. cbn [negb].
    destruct Hs. split; [by split|]. split; [done|]. intros _. split; [by eexists|by rewrite <- Er].
  - unfold bind, on_tls, on_lib, tls. rewrite (proj2 (Z.eqb_neq _ _) Er). cbn [negb].
    destruct Hs. split; [by split|]. split; [done|]. eexists. split; [|by right]. done.
Qed.

Lemma check_hostname_ends w0 s v o ssl cert host w P : stands w0 s v o w ->
  ends (fun r w' => stands w0 s v o w' /\ lib_tls (x_lib w') = lib_tls (x_lib w) /\
          check_result ssl cert (hostname_checked s cert host (lib_tls (x_lib w))) r) P (check_hostname ssl cert host w).
Proof.
  intros Hs. assert (Hv : ss_verify_hostname (x_sock w) = ss_verify_hostname s) by (pose proof (st_fields _ _ _ _ _ Hs); unfold fields in *; congruence).
  unfold check_hostname. change (bind ssl_self ?k w) with (k (x_sock w) w). cbv beta. rewrite Hv.
  destruct (Z.eqb_spec (ss_verify_hostname s) 0) as [E|E]; [by split; [|split; [|intros ?]]|]. destruct cert as [c|].
  2:{ destruct Hs. split; [by split|]. split; [done|]. eexists. split; [|by left]. done. }
  unfold ask_tls. set (x := X509_check_host c host X509_CHECK_FLAG_NO_PARTIAL_WILDCARDS (lib_tls (x_lib w))). destruct (Z.eqb_spec 1 x) as [Er|Er].
  - unfold bind, on_tls, on_lib, tls. fold x. rewrite <- Er. cbn [negb Z.eqb Pos.eqb].
    destruct Hs. split; [by split|]. split; [done|]. intros _. exists c. split; [done|]. by fold x.
  - unfold bind, on_tls, on_lib, tls. fold x. rewrite (proj2 (Z.eqb_neq _ _) Er). cbn [negb].
    destruct Hs. split; [by split|]. split; [done|]. eexists. split; [|by right]. done.
Qed.

(** A connection that has passed: the certificate of the peer was there and good in the
    state the library had then. *)
Definition verified (s : amqp_ssl_socket_t) (ssl : Z) (host : list byte) (w : W) : Prop :=
  exists t0 cert t, SSL_get_peer_certificate ssl t0 = (cert, t) /\ peer_checked s ssl cert t /\
    hostname_checked s cert host t /\ lib_tls (x_lib w) = X509_free cert t.

Lemma check_certificate_ends w0 s v o ssl host w P : stands w0 s v o w ->
  ends (fun r w' => r = AMQP_STATUS_OK /\ stands w0 s v o w' /\ verified s ssl host w' \/ r < 0 /\ dropped w0 s v o w')
    P (check_certificate ssl host w).
Proof.
  intros Hs. unfold check_certificate. unfold bind at 1, on_tls at 1, on_lib, tls.
  set (t0 := lib_tls (x_lib w)). destruct (SSL_get_peer_certificate ssl t0) as [cert t] eqn:Ec.
  set (w1 := mk_ssl_world _ _ _ _ _).
  assert (H1 : stands w0 s (holding cert v) o w1).
  { destruct Hs as [? ? ? ? Hv ?]. split; try done. unfold view. cbn. rewrite (peer_certificate_seen _ _ _ _ Ec). by rewrite <- Hv. }
  assert (Herr : forall e w', (exists st, st < 0 /\ (cert = None /\ e = error_out3 ssl st \/ e = error_out4 cert ssl st)) ->
    stands w0 s (holding cert v) o w' ->
    ends (fun r w' => r = AMQP_STATUS_OK /\ stands w0 s v o w' /\ verified s ssl host w' \/ r < 0 /\ dropped w0 s v o w') P (e w')).
  { intros e w' (st & Hst & [[-> ->]| ->]) Hw'.
    - eapply ends_weaken; [| |by apply out3_ends]; [|done]. intros r w2 [-> Hd]. by right.
    - eapply ends_weaken; [| |by apply out4_ends]; [|done]. intros r w2 [-> Hd]. by right. }
  eapply ends_bind; [by apply check_peer_ends|]. intros [e|] w2 (H2 & E2 & Hr); [by apply Herr|].
  eapply ends_bind; [by apply check_hostname_ends|]. intros [e|] w3 (H3 & E3 & Hr'); [by apply Herr|].
  rewrite E2 in *. change (lib_tls (x_lib w1)) with t in *. cbn [check_result] in *.
  left. split; [done|].
  assert (Hlast : forall t2, seen t2 = v -> stands w0 s v o
     (mk_ssl_world (x_self w3) (mk_ssl_socket (ss_klass (x_sock w3)) (ss_ctx (x_sock w3)) (ss_sockfd (x_sock w3)) (ss_ssl (x_sock w3))
        (ss_verify_peer (x_sock w3)) (ss_verify_hostname (x_sock w3)) (inl 0)) (x_heap w3)
        (mk_library (openssl_bio_initialized (x_lib w3)) (openssl_connections (x_lib w3)) (openssl_engine (x_lib w3))
            (amqp_ssl_bio_initialized (x_lib w3)) (amqp_bio_method (x_lib w3)) t2) (x_os w3))).
  { intros t2 Et. by destruct H3. }
  split.
  - apply Hlast. rewrite E3, x509_free_seen. destruct H1 as [_ _ _ _ Hv _]. unfold view in Hv. cbn in Hv. rewrite Hv. apply holding_back.
  - exists t0, cert, t. split; [done|]. split; [done|]. split; [done|]. cbn. by rewrite E3.
Qed.
(** ** The handshake *)

(** [n] rounds in which [SSL_connect] asks to wait and the wait succeeds. *)
Inductive handshake_waits (ssl fd : Z) : nat -> TLS * OS -> Prop :=
| waits_O x : handshake_waits ssl fd 0 x
| waits_S n t o r t1 o1 ev d o2 :
    SSL_connect ssl (t, o) = (r, (t1, o1)) -> r <> 1 -> amqp_poll fuel fd ev d o1 = (Ret AMQP_STATUS_OK, o2) ->
    handshake_waits ssl fd n (t1, o2) -> handshake_waits ssl fd (S n) (t, o).

(** A call that has no end: [poll] is interrupted for ever, or the handshake takes more
    rounds than there is fuel. *)
Definition tls_endless : Prop :=
  poll_interrupted (OS := OS) \/ exists ssl fd x, handshake_waits ssl fd fuel x.

Lemma start_connect_ends w0 s v o ssl fd d n w : (0 < fuel)%nat -> stands w0 s v o w ->
  ends (fun r w' => stands w0 s v o w' /\ (r = 0 \/ r < -1))
    (fun _ => poll_interrupted (OS := OS) \/ handshake_waits ssl fd n (lib_tls (x_lib w), x_os w)) (start_connect fuel n ssl fd d w).
Proof.
  intros Hf. revert w. induction n as [|n IH]; intros w Hs; [right; constructor|]. cbn [start_connect].
  unfold bind at 1, on_io. destruct (SSL_connect ssl (lib_tls (x_lib w), x_os w)) as [r [t1 o1]] eqn:Ec.
  pose proof (connect_seen _ _ _ _ _ _ Ec) as [Hv Ho]. unfold tls_do, tls.
  set (w1 := mk_ssl_world _ _ _ _ o1).
  assert (H1 : stands w0 s v o w1).
  { destruct Hs as [? ? ? ? Hv0 Ho0]. split; try done; cbn; [|congruence]. unfold view. cbn. rewrite Hv. exact Hv0. }
  destruct (Z.eqb_spec r 1) as [->|Hr]; [by split; [|left]|].
  set (e := SSL_get_error ssl r t1).
  change (bind (ask_tls (SSL_get_error ssl r)) ?k w1) with (k e w1). cbv beta.
  unfold bind at 1. change (set_ssl_error ?x w1) with (ret (S := W) tt (mk_ssl_world (x_self w1) (mk_ssl_socket (ss_klass (x_sock w1))
     (ss_ctx (x_sock w1)) (ss_sockfd (x_sock w1)) (ss_ssl (x_sock w1)) (ss_verify_peer (x_sock w1)) (ss_verify_hostname (x_sock w1)) x)
     (x_heap w1) (x_lib w1) (x_os w1))). cbn [ret]. set (w2 := mk_ssl_world _ _ _ _ (x_os w1)).
  assert (H2 : stands w0 s v o w2) by (destruct H1; by split).
  assert (Hpoll : forall ev, ev = AMQP_SF_POLLIN \/ ev = AMQP_SF_POLLOUT ->
    ends (fun r w' => stands w0 s v o w' /\ (r = 0 \/ r < -1))
      (fun _ => poll_interrupted (OS := OS) \/ handshake_waits ssl fd (S n) (lib_tls (x_lib w), x_os w))
      (bind (on_sys (amqp_poll fuel fd ev d)) (fun status => if AMQP_STATUS_OK =? status then start_connect fuel n ssl fd d else ret status) w2)).
  { intros ev Hev. unfold bind, on_sys. pose proof (poll_ends fuel fd ev d (x_os w2) Hev Hf) as Hp.
    destruct (amqp_poll fuel fd ev d (x_os w2)) as [[st| | |] o2] eqn:Ep; try done; [|by left].
    destruct Hp as [Hst Hsame]. assert (H3 : stands w0 s v o (mk_ssl_world (x_self w2) (x_sock w2) (x_heap w2) (x_lib w2) o2)).
    { destruct H2 as [? ? ? ? Hv2 Ho2]. split; try done. cbn. destruct Hsame as [Hsame _]. cbn in Hsame. rewrite Hsame. exact Ho2. }
    destruct (Z.eqb_spec AMQP_STATUS_OK st) as [<-|_]; [|by split].
    eapply ends_weaken; [| |apply (IH _ H3)]; [done|]. intros w' [Hi|Hw]; [by left|right].
    by eapply waits_S. }
  destruct (e =? SSL_ERROR_WANT_READ); [apply Hpoll; by left|]. destruct (e =? SSL_ERROR_WANT_WRITE); [apply Hpoll; by right|].
  unfold bind, ret. cbn. split; [done|by right].
Qed.

(** ** Opening *)

Lemma bio_alone g : bio_up g -> exists m, run_alone amqp_openssl_bio g = (Ret m, g).
Proof.
  intros [Hi Hm]. unfold amqp_openssl_bio. cbn. unfold bind, read_var. rewrite Hi. cbn.
  destruct MSG_NOSIGNAL; cbn; by eexists.
Qed.

Lemma fields_eq s s' : fields s' = fields s -> ss_sockfd s' = ss_sockfd s /\ ss_ssl s' = ss_ssl s /\
  ss_ctx s' = ss_ctx s /\ ss_verify_peer s' = ss_verify_peer s /\ ss_verify_hostname s' = ss_verify_hostname s.
Proof. unfold fields. intros [=]. split_and!; done. Qed.

Lemma over_ends w0 s v o ssl fd host d w : (0 < fuel)%nat -> bio_up (x_lib w) -> stands w0 s v o w ->
  ends (fun r w' => r = AMQP_STATUS_OK /\ stands w0 s v o w' /\ verified s ssl host w' \/ r < 0 /\ dropped w0 s v o w')
    (fun _ => tls_endless) (ssl_over fuel ssl fd host d w).
Proof.
  intros Hf Hup Hs. unfold ssl_over.
  assert (Hout : forall st w', st < 0 -> stands w0 s v o w' ->
    ends (fun r w' => r = AMQP_STATUS_OK /\ stands w0 s v o w' /\ verified s ssl host w' \/ r < 0 /\ dropped w0 s v o w')
      (fun _ => tls_endless) (error_out2 st w')).
  { intros st w' Hst Hw. eapply ends_weaken; [| |by apply (out2_ends w0 s v o st (fun _ => tls_endless))]; [|done].
    intros r w2 [-> Hd]. by right. }
  destruct (bio_alone _ Hup) as [m Em].
  apply (ends_bind (fun _ w' => stands w0 s v o w')).
  { unfold on_lib. rewrite Em. cbn. by destruct Hs. }
  intros ? w1 H1. cbv beta in H1.
  eapply ends_bind; [apply (tls_ends w0 s v o _ _ (fun r v' => match r with None => v' = v | Some b => b ∉ v_bios v /\ v' = with_bios (union {[b]}) v end)); [exact H1|]|].
  { intros r t' Hb%bio_new_seen. rewrite (st_view _ _ _ _ _ H1 : seen _ = v) in Hb. exact Hb. }
  intros [bio|] w2 (v2 & Hv2 & H2); [|subst v2; by apply Hout]. destruct Hv2 as [Hnew ->].
  eapply ends_bind; [apply (tls_do_ends w0 s (with_bios (union {[bio]}) v) o _ _ (fun x => x)); [exact H2|intros; apply bio_set_fd_seen]|].
  intros ? w3 H3. cbv beta in H3.
  eapply ends_bind; [apply (tls_do_ends w0 s (with_bios (union {[bio]}) v) o _ _ (with_bios (fun l => l ∖ {[bio]}))); [exact H3|intros; apply set_bio_seen]|].
  intros ? w4 H4. cbv beta in H4.
  assert (Hback : with_bios (fun l => l ∖ {[bio]}) (with_bios (union {[bio]}) v) = v).
  { destruct v as [v1 v2 v3 v4]. unfold with_bios. cbn in *. f_equal. set_solver. }
  rewrite Hback in H4.
  eapply ends_bind; [apply (tls_ends w0 s v o _ _ (fun _ v' => v' = v)); [exact H4|]|].
  { intros r t' Hh%set_host_name_seen. rewrite Hh. exact (st_view _ _ _ _ _ H4). }
  intros st w5 (v5 & -> & H5). destruct (st =? 0).
  { eapply ends_bind; [eapply (ask_ends w0 s v o); exact H5|]. intros e w6 H6. cbv beta in H6.
    next error_ends w7 H7. by apply Hout. }
  eapply ends_bind.
  { eapply ends_weaken; [| |apply (start_connect_ends w0 s v o ssl fd d fuel w5 Hf H5)]; [intros r w' Hr; exact Hr|].
    intros ? [?|?]; [by left|right; by do 3 eexists]. }
  intros r w6 [H6 Hr]. destruct (Z.eqb_spec r AMQP_STATUS_OK) as [->|Hne]; cbn [negb].
  - by apply check_certificate_ends.
  - apply Hout; [destruct Hr; [done|lia]|done].
Qed.
(** An open socket: one more connection and one more descriptor, both the object's, and the
    certificate checks that were asked for have been passed. *)
Definition handed_out (w : W) (host : list byte) (w' : W) : Prop :=
  exists fd ssl, 0 <= fd /\ fd ∉ opened (x_os w) /\ v_ssls (view w) !! ssl = None /\
    stands w (with_fd fd (with_ssl (Some ssl) (x_sock w))) (with_ssls (<[ssl := []]>) (view w)) ({[fd]} ∪ opened (x_os w)) w' /\
    verified (x_sock w) ssl host w'.

Lemma delete_plain ssl plain v : v_ssls v !! ssl = None ->
  with_ssls (delete ssl) (with_ssls (<[ssl := plain]>) v) = v.
Proof. intros E. destruct v as [v1 v2 v3 v4]. unfold with_ssls. cbn in *. by rewrite delete_insert_id by done. Qed.

(** No deadline can be made: the timeout is negative or too long, or the clock fails. *)
Definition bad_time (timeout : option timeval) : Prop :=
  exists (o : OS) st t, amqp_time_from_now (clock_gettime o).1 timeout (mk_time 0) = (Err st, t).

(** Then [self->ssl] is left behind. *)
Definition left_behind (timeout : option timeval) (w w' : W) : Prop :=
  bad_time timeout /\ exists ssl, v_ssls (view w) !! ssl = None /\
    stands w (with_ssl (Some ssl) (x_sock w)) (with_ssls (<[ssl := []]>) (view w)) (opened (x_os w)) w'.

Lemma time_error_bad (o : OS) now timeout st t :
  match timeout with
  | Some tv => (tv_sec tv <? 0) || (tv_usec tv <? 0) = false -> exists o : OS, now = (clock_gettime o).1
  | None => True
  end -> amqp_time_from_now now timeout (mk_time 0) = (Err st, t) -> bad_time timeout.
Proof.
  unfold bad_time. destruct timeout as [tv|]; [|done]. unfold amqp_time_from_now at 1.
  destruct (_ || _) eqn:E; [|intros Hnow; destruct (Hnow eq_refl) as [o' ->]; intros Ht].
  - intros _ [= <- <-]. exists o. unfold amqp_time_from_now. rewrite E. by do 2 eexists.
  - exists o', st, t. unfold amqp_time_from_now. by rewrite E.
Qed.

Lemma tls_open_ends host port timeout w c : (0 < fuel)%nat ->
  ss_sockfd (x_sock w) = -1 -> ss_ctx (x_sock w) = Some c -> bio_up (x_lib w) ->
  ends (fun r w' => r = AMQP_STATUS_OK /\ handed_out w host w' \/
                    r < 0 /\ (stands w (closed (x_sock w)) (view w) (opened (x_os w)) w' \/ left_behind timeout w w'))
    (fun _ => tls_endless) (amqp_ssl_socket_open fuel host port timeout w).
Proof.
  intros Hf Hfd Hc Hup. set (s := x_sock w) in *. set (v := view w). set (o := opened (x_os w)).
  assert (H0 : stands w s v o w) by apply stands_refl.
  assert (Hup' : forall s' v' o' w', stands w s' v' o' w' -> bio_up (x_lib w')).
  { intros s' v' o' w' Hs. pose proof (st_vars _ _ _ _ _ Hs) as Hv. unfold lib_vars, bio_up in *. simplify_eq. congruence. }
  unfold amqp_ssl_socket_open. change (bind ssl_self ?k w) with (k s w). cbv beta. rewrite Hfd. cbn [negb Z.eqb Pos.eqb].
  eapply ends_bind; [apply (tls_do_ends w s v o _ ERR_clear_error (fun x => x)); [exact H0|apply clear_error_seen]|].
  intros ? w1 H1. cbv beta in H1. rewrite Hc. change (bind (deref (Some c)) ?k w1) with (k c w1). cbv beta.
  eapply ends_bind; [apply (tls_ends w s v o _ _ (fun r v' => match r with None => v' = v | Some x => v_ssls v !! x = None /\ v' = with_ssls (<[x := []]>) v end)); [exact H1|]|].
  { intros r t' Hn%ssl_new_seen. rewrite (st_view _ _ _ _ _ H1 : seen _ = v) in Hn. exact Hn. }
  intros r w2 (v2 & Hv2 & H2). next ssl_ends w3 H3. destruct r as [ssl|].
  2:{ subst v2. eapply ends_bind; [eapply (ask_ends w (with_ssl None s) v o); exact H3|]. intros e w4 H4. cbv beta in H4.
      next error_ends w5 H5. right. split; [done|]. left. destruct H5. split; try done. unfold closed, fields, with_fd, with_ssl in *. cbn in *. congruence. }
  destruct Hv2 as [Hnew ->]. set (v1 := with_ssls (<[ssl := []]>) v) in *. set (s1 := with_ssl (Some ssl) s) in *.
  apply (ends_bind (fun now w' => stands w s1 v1 o w' /\
      match timeout with
      | Some tv => (tv_sec tv <? 0) || (tv_usec tv <? 0) = false -> exists o : OS, now = (clock_gettime o).1
      | None => True
      end)).
  { destruct timeout as [tv|]; [|by split]. destruct (_ || _); [by split|]. unfold on_sys, clock.
    destruct (clock_gettime (x_os w3)) as [x o1] eqn:Ex. pose proof Ex as Eo. apply clock_same in Ex as [Ex _].
    split; [|intros _; exists (x_os w3); by rewrite Eo]. destruct H3 as [? ? ? ? ? Ho]. split; try done. cbn. by rewrite Ex. }
  intros now w4 [H4 Hnow]. pose proof (time_from_now_status now timeout (mk_time 0)) as Ht.
  destruct (amqp_time_from_now now timeout (mk_time 0)) as [[[]|st| |] d] eqn:Et; try done.
  2:{ right. split; [lia|]. right. split; [exact (time_error_bad (x_os w) _ _ _ _ Hnow Et)|]. exists ssl. by split. }
  apply (ends_bind (fun r w' => r < 0 /\ stands w s1 v1 o w' \/ 0 <= r /\ r ∉ o /\ stands w s1 v1 ({[r]} ∪ o) w')).
  { eapply (ends_weaken (fun r w' => exists o', (r < 0 /\ o' = o \/ 0 <= r /\ r ∉ o /\ o' = {[r]} ∪ o) /\ stands w s1 v1 o' w') _ (fun _ => tls_endless)); [|done|].
    { intros r w' (o' & [[? ->]|(? & ? & ->)] & Hs); [by left|by right]. }
    eapply (sys_ends w s1 v1 o _ _ _ (fun _ => poll_interrupted (OS := OS))); [exact H4| |intros; by left].
    pose proof (st_opened _ _ _ _ _ H4) as Ho. pose proof (open_inner_ends fuel host port d (x_os w4) Hf) as Hop.
    eapply ends_weaken; [| |exact Hop]; [|done]. intros r p' [[Hr [Hb _]]|(Hr & Hm & _)].
    - left. split; [lia|congruence].
    - right. split; [done|]. destruct Hm as (Hm1 & Hm2 & _). rewrite Ho in *. done. }
  intros r w5 Hr. destruct Hr as [[Hneg H5]|(Hpos & Hn & H5)].
  - next fd_ends w6 H6. rewrite (proj2 (Z.ltb_lt r 0) Hneg).
    apply (ends_bind (fun _ w' => stands w (with_fd r s1) v1 o w')); [by destruct H6|]. intros e w7 H7. cbv beta in H7.
    next error_ends w8 H8. next fd_ends w9 H9.
    eapply ends_weaken; [| |apply (out1_ends w (with_fd (-1) (with_fd r s1)) v1 o r (fun _ => tls_endless)); exact H9]; [|done].
    intros r' w10 [-> H10]. right. split; [done|]. left. cbn [ss_ssl with_fd with_ssl s1 freeing] in H10.
    unfold v1 in H10. rewrite delete_plain in H10 by done. exact H10.
  - next fd_ends w6 H6. rewrite (proj2 (Z.ltb_ge r 0) Hpos).
    eapply ends_weaken; [| |apply (over_ends w (with_fd r s1) v1 ({[r]} ∪ o) ssl r host d w6 Hf (Hup' _ _ _ _ H6) H6)]; [|done].
    intros r' w7 [(-> & H7 & Hver)|[Hneg H7]]; [left|right].
    + split; [done|]. exists r, ssl. do 3 (split; [done|]). split; [exact H7|exact Hver].
    + split; [done|]. left. unfold dropped in H7. cbn [ss_ssl ss_sockfd with_fd with_ssl s1 freeing] in H7.
      unfold v1 in H7. rewrite delete_plain in H7 by done. replace (({[r]} ∪ o) ∖ {[r]}) with o in H7 by set_solver. exact H7.
Qed.
End Ssl.


(** A new object in the demonstration. *)
Definition demo_ssl_world : ssl_world demo_os demo_tls :=
  mk_ssl_world 7 (mk_ssl_socket AMQP_SSL_SOCKET_CLASS (Some 5) (-1) None 1 1 (inl 0)) (mk_heap {[7 := 48]} 8 [])
    (mk_library true 1 None true (Some 1) (mk_view {[5 := 0]} ∅ ∅ ∅)) (mk_os {[0; 1; 2]} ∅ ∅ 0).


(** There, it is handed out. *)
Lemma tls_open_demo : (amqp_ssl_socket_open 1 [x68] 5671 None demo_ssl_world).1 = Ret AMQP_STATUS_OK.
Proof. vm_compute. reflexivity. Qed.

(** ** The life of a TLS socket object *)

(** A call to open with a timeout from which no deadline can be made. *)
Definition late `{Platform} {OS} `{Posix OS} (call : tcp_call) : Prop :=
  match call with call_open _ _ timeout => bad_time (OS := OS) timeout | _ => False end.

Section Life.
Context `{PF : Platform} `{OM : OpenSSLMacros} {OS TLS : Type} `{PX : Posix OS} `{PL : !PosixLaws OS}.
Context `{OL : !OpenSSL OS TLS} `{LL : !OpenSSLLaws OS TLS}.
Context (fuel : nat).

Notation W := (ssl_world OS TLS).

Definition tls_do_call (c : tcp_call) : eff W unit :=
  match c with
  | call_open host port timeout => do! amqp_ssl_socket_open fuel host port timeout in ret tt
  | call_send buf flags => do! amqp_ssl_socket_send buf flags in ret tt
  | call_recv len => do! amqp_ssl_socket_recv len in ret tt
  | call_close => do! amqp_ssl_socket_close AMQP_SC_NONE in ret tt
  end.

Definition tls_life (calls : list tcp_call) : eff W unit :=
  do! for_each tls_do_call calls in amqp_ssl_socket_delete true.

(** In the run of [calls] from [w], closing the socket reports an error. *)
Inductive close_failed : list tcp_call -> W -> Prop :=
| failed_now calls w w' :
    amqp_ssl_socket_close AMQP_SC_NONE w = (Ret AMQP_STATUS_SOCKET_ERROR, w') -> close_failed (call_close :: calls) w
| failed_later call calls w w' :
    tls_do_call call w = (Ret tt, w') -> close_failed calls w' -> close_failed (call :: calls) w.

Lemma stands_trans (w0 : W) s v o w s' v' o' w' :
  stands w0 s v o w -> stands w s' v' o' w' -> stands w0 s' v' o' w'.
Proof. intros [H1 H2 H3 _ _ _] [G1 G2 G3 G4 G5 G6]. split; congruence. Qed.

Lemma stands_fields (w0 : W) s s' v o w : fields s = fields s' -> stands w0 s v o w -> stands w0 s' v o w.
Proof. intros Hf []. split; congruence. Qed.

(** The socket is open, with [plain] accepted so far, and OpenSSL has the objects [v] besides. *)
Definition is_open (w0 : W) (v : tls_view) (fd ssl : Z) (plain : list byte) (w : W) : Prop :=
  0 <= fd /\ fd ∉ opened (x_os w0) /\ v_ssls v !! ssl = None /\
  stands w0 (with_fd fd (with_ssl (Some ssl) (x_sock w0))) (with_ssls (<[ssl := plain]>) v) ({[fd]} ∪ opened (x_os w0)) w.
Definition is_closed (w0 : W) (v : tls_view) (w : W) : Prop :=
  exists p, stands w0 (with_fd (-1) (with_ssl p (x_sock w0))) v (opened (x_os w0)) w.
Definition tls_inv (w0 : W) (v : tls_view) (w : W) : Prop :=
  is_closed w0 v w \/ exists fd ssl plain, is_open w0 v fd ssl plain w.
(** A descriptor without a connection, after an error of [close]. *)
Definition broken (w : W) : Prop := ss_sockfd (x_sock w) <> -1 /\ ss_ssl (x_sock w) = None.

(** Of the calls [calls], those with bad timeouts have left one connection each. *)
Definition leaves (calls : list tcp_call) (left : gmap Z (list byte)) (v v' : tls_view) : Prop :=
  v' = with_ssls (union left) v /\ left ##ₘ v_ssls v /\
  exists bad, bad `sublist_of` calls /\ Forall (late (OS := OS)) bad /\ size left = length bad.

Lemma alter_plain ssl plain f v :
  with_ssls (alter f ssl) (with_ssls (<[ssl := plain]>) v) = with_ssls (<[ssl := f plain]>) v.
Proof. unfold with_ssls. cbn. by rewrite alter_insert_eq. Qed.

Lemma ssl_status_neg e : status_of_ssl_error e < 0.
Proof. unfold status_of_ssl_error. by repeat destruct (e =? _). Qed.

(** *** Sending and receiving *)

(** With a connection, accepted text is appended, in order and once. *)
Lemma ssl_send_ends w0 s v o ssl buf flags w P : stands w0 s v o w -> ss_sockfd s <> -1 -> ss_ssl s = Some ssl ->
  ends (fun r w' => r <= zlen buf /\ stands w0 s (with_ssls (alter (fun p => p ++ ztake r buf) ssl) v) o w') P
    (amqp_ssl_socket_send buf flags w).
Proof.
  intros Hw Hfd Hssl. pose proof (fields_eq _ _ (st_fields _ _ _ _ _ Hw)) as (Ef & Es & _).
  assert (Hzero : forall r, r <= 0 -> with_ssls (alter (fun p => p ++ ztake r buf) ssl) v = v).
  { intros r Hr. destruct v as [a m b d]. unfold with_ssls. cbn. f_equal.
    assert (ztake r buf = []) as -> by (unfold ztake; replace (Z.to_nat r) with 0%nat by lia; apply take_0).
    rewrite <- (alter_id (fun p => p ++ []) m ssl) at 2; [done|]. intros p _. apply app_nil_r. }
  assert (Hneg : forall r w', r < 0 -> stands w0 s v o w' ->
    r <= zlen buf /\ stands w0 s (with_ssls (alter (fun p => p ++ ztake r buf) ssl) v) o w').
  { intros r w' Hr Hw'. rewrite Hzero by lia. split; [zlen_pos; lia|done]. }
  unfold amqp_ssl_socket_send. change (bind ssl_self ?k w) with (k (x_sock w) w). cbv beta. rewrite Ef.
  rewrite (proj2 (Z.eqb_neq _ _) Hfd). destruct (INT_MAX <? zlen buf); [by apply ends_ret, Hneg|].
  eapply ends_bind; [apply (tls_do_ends w0 s v o _ ERR_clear_error (fun x => x)); [exact Hw|apply clear_error_seen]|].
  intros ? w1 H1. cbv beta in H1. next error_ends w2 H2. rewrite Es, Hssl.
  change (bind (deref (Some ssl)) ?k w2) with (k ssl w2). cbv beta.
  eapply ends_bind; [apply (io_ends w0 s v o P (SSL_write ssl buf)
      (fun r v' => r <= zlen buf /\ v' = with_ssls (alter (fun p => p ++ ztake r buf) ssl) v)); [exact H2|]|].
  { intros r t t' p p' <- E. pose proof (write_seen _ _ _ _ _ _ _ E) as (H3 & H4 & H5). by rewrite H4. }
  intros r w3 (v3 & [Hr ->] & H3). destruct (Z.leb_spec r 0) as [Hle|Hpos].
  - rewrite Hzero in H3 by done. eapply ends_bind; [eapply (ask_ends w0 s v o); exact H3|]. intros e w4 H4. cbv beta in H4.
    next error_ends w5 H5. apply ends_ret, Hneg; [|done]. apply ssl_status_neg.
  - next error_ends w4 H4. by apply ends_ret.
Qed.

Lemma ssl_recv_ends w0 s v o ssl len w P : stands w0 s v o w -> ss_sockfd s <> -1 -> ss_ssl s = Some ssl ->
  ends (fun r w' => match r with inl st => st < 0 | inr bs => 0 <= len -> 0 < zlen bs <= len end /\ stands w0 s v o w')
    P (amqp_ssl_socket_recv len w).
Proof.
  intros Hw Hfd Hssl. pose proof (fields_eq _ _ (st_fields _ _ _ _ _ Hw)) as (Ef & Es & _).
  unfold amqp_ssl_socket_recv. change (bind ssl_self ?k w) with (k (x_sock w) w). cbv beta. rewrite Ef.
  rewrite (proj2 (Z.eqb_neq _ _) Hfd). destruct (INT_MAX <? len); [by apply ends_ret|].
  eapply ends_bind; [apply (tls_do_ends w0 s v o _ ERR_clear_error (fun x => x)); [exact Hw|apply clear_error_seen]|].
  intros ? w1 H1. cbv beta in H1. next error_ends w2 H2. rewrite Es, Hssl.
  change (bind (deref (Some ssl)) ?k w2) with (k ssl w2). cbv beta.
  eapply ends_bind; [apply (io_ends w0 s v o P (SSL_read ssl len)
      (fun r v' => match r with inl n => n <= 0 | inr bs => 0 <= len -> 0 < zlen bs <= len end /\ v' = v)); [exact H2|]|].
  { intros r t t' p p' <- E. pose proof (read_seen _ _ _ _ _ _ _ E) as (H3 & H4 & H5). by rewrite H4. }
  intros [n'|bs] w3 (v3 & [Hr ->] & H3).
  - eapply ends_bind; [eapply (ask_ends w0 s v o); exact H3|]. intros e w4 H4. cbv beta in H4.
    next error_ends w5 H5. apply ends_ret. split; [apply ssl_status_neg|done].
  - by apply ends_ret.
Qed.

Lemma leaves_nil v : leaves [] ∅ v v.
Proof.
  split; [destruct v; unfold with_ssls; cbn; by rewrite (left_id_L ∅ (∪))|]. split; [apply map_disjoint_empty_l|].
  exists []. by repeat constructor.
Qed.

Lemma leaves_keep calls call left v v' : leaves calls left v v' -> leaves (calls ++ [call]) left v v'.
Proof. intros (E & Hd & bad & Hs & Hb & Hn). split; [done|]. split; [done|]. exists bad. split; [|done]. by apply sublist_inserts_r. Qed.

Lemma leaves_one calls call left v v' ssl : leaves calls left v v' -> late (OS := OS) call -> v_ssls v' !! ssl = None ->
  leaves (calls ++ [call]) (<[ssl := []]> left) v (with_ssls (<[ssl := []]>) v').
Proof.
  intros (-> & Hd & bad & Hs & Hb & Hn) Hc Hnew. destruct v as [v1 v2 v3 v4]. cbn in *.
  apply lookup_union_None in Hnew as [Hl Hv]. split; [|split].
  - unfold with_ssls. cbn. by rewrite insert_union_l.
  - cbn. by apply map_disjoint_insert_l.
  - exists (bad ++ [call]). split; [by apply sublist_app|]. split; [apply Forall_app; by repeat constructor|].
    by rewrite map_size_insert_None, Hn, length_app, Nat.add_comm by done.
Qed.

Lemma send_open_ends w0 v fd ssl plain buf flags w P : is_open w0 v fd ssl plain w ->
  ends (fun r w' => r <= zlen buf /\ is_open w0 v fd ssl (plain ++ ztake r buf) w') P (amqp_ssl_socket_send buf flags w).
Proof.
  intros (Hfd & Hn & Hs & Hw). eapply ends_weaken; [| |apply (ssl_send_ends _ _ _ _ ssl _ _ _ P Hw); cbn; [lia|done]]; [|done].
  intros r w' [Hr Hw']. rewrite alter_plain in Hw'. by split.
Qed.

Lemma recv_open_ends w0 v fd ssl plain len w P : is_open w0 v fd ssl plain w ->
  ends (fun r w' => match r with inl st => st < 0 | inr bs => 0 <= len -> 0 < zlen bs <= len end /\ is_open w0 v fd ssl plain w')
    P (amqp_ssl_socket_recv len w).
Proof.
  intros (Hfd & Hn & Hs & Hw). eapply ends_weaken; [| |apply (ssl_recv_ends _ _ _ _ ssl _ _ P Hw); cbn; [lia|done]]; [|done].
  intros r w' [Hr Hw']. by split.
Qed.

(** *** Closing and deleting *)

(** Closing frees the connection and the descriptor whatever [close] answers; when it
    answers with an error the object keeps the number. *)
Lemma close_open_ends w0 v force fd ssl plain w P : is_open w0 v fd ssl plain w ->
  ends (fun r w' => exists f, stands w0 (with_fd f (with_ssl None (x_sock w0))) v (opened (x_os w0)) w' /\
          (r = AMQP_STATUS_OK /\ f = -1 \/ r = AMQP_STATUS_SOCKET_ERROR /\ f = fd)) P (amqp_ssl_socket_close force w).
Proof.
  intros (Hfd & Hn & Hs & Hw). set (s := with_fd fd _) in Hw. set (v1 := with_ssls _ _) in Hw. set (o := _ ∪ _) in Hw.
  pose proof (fields_eq _ _ (st_fields _ _ _ _ _ Hw)) as (Ef & Es & _).
  unfold amqp_ssl_socket_close. change (bind ssl_self ?k w) with (k (x_sock w) w). cbv beta. rewrite Ef, Es.
  cbn [ss_sockfd ss_ssl with_fd with_ssl s deref]. destruct (Z.eqb_spec fd (-1)); [lia|].
  apply (ends_bind (fun _ w' => stands w0 s v1 o w')).
  { destruct (_ =? force); [|exact Hw]. change (bind (ret ssl) ?k w) with (k ssl w). cbv beta.
    eapply ends_bind; [apply (io_same w0 s v1 o P); [exact Hw|intros; by eapply shutdown_seen]|]. by intros ? w1 H1. }
  intros ? w1 H1. cbv beta in H1.
  eapply ends_bind; [apply (tls_do_ends w0 s v1 o P _ (freeing (fun x => with_ssls (delete x)) (Some ssl))); [exact H1|apply ssl_free_seen]|].
  intros ? w2 H2. cbv beta in H2. cbn [freeing] in H2. unfold v1 in H2. rewrite delete_plain in H2 by done.
  next ssl_ends w3 H3. next close_ends w4 H4. replace (o ∖ {[fd]}) with (opened (x_os w0)) in H4 by (unfold o; set_solver).
  destruct (negb _).
  - apply ends_ret. exists fd. split; [exact H4|by right].
  - next fd_ends w5 H5. apply ends_ret. exists (-1). split; [exact H5|by left].
Qed.

(** A call keeps things in order, and leaves a connection behind if its timeout is bad;
    unless it is a close that reports an error. *)
Lemma tls_call_inv w0 v c call w : (0 < fuel)%nat -> ss_ctx (x_sock w0) = Some c -> bio_up (x_lib w0) -> tls_inv w0 v w ->
  ends (fun _ w' => tls_inv w0 v w' \/
          (exists ssl, late (OS := OS) call /\ v_ssls v !! ssl = None /\ tls_inv w0 (with_ssls (<[ssl := []]>) v) w') \/
          call = call_close /\ amqp_ssl_socket_close AMQP_SC_NONE w = (Ret AMQP_STATUS_SOCKET_ERROR, w') /\ broken w')
    (fun _ => tls_endless (OS := OS) (TLS := TLS) fuel) (tls_do_call call w).
Proof.
  intros Hf Hc Hup Hi.
  assert (Hclosed : is_closed w0 v w -> ss_sockfd (x_sock w) = -1).
  { intros [p Hw]. pose proof (fields_eq _ _ (st_fields _ _ _ _ _ Hw)) as (Ef & _). by rewrite Ef. }
  assert (Hopen : forall fd ssl plain, is_open w0 v fd ssl plain w -> ss_sockfd (x_sock w) = fd /\ fd <> -1).
  { intros fd ssl plain (? & _ & _ & Hw). pose proof (fields_eq _ _ (st_fields _ _ _ _ _ Hw)) as (Ef & _). rewrite Ef. split; [done|lia]. }
  destruct call as [host port timeout|buf flags|len|]; unfold tls_do_call; destruct Hi as [Hw|(fd & ssl & plain & Hw)].
  - pose proof (Hclosed Hw) as Hfd. destruct Hw as [p Hw]. eapply ends_bind; [|intros r w' Hr; exact Hr].
    pose proof (fields_eq _ _ (st_fields _ _ _ _ _ Hw)) as (_ & _ & Ec & _). cbn in Ec.
    assert (Hup' : bio_up (x_lib w)).
    { pose proof (st_vars _ _ _ _ _ Hw) as Hv. unfold lib_vars, bio_up in *. simplify_eq. congruence. }
    eapply ends_weaken; [| |apply (tls_open_ends fuel host port timeout w c Hf Hfd ltac:(congruence) Hup')]; [|done].
    pose proof (st_fields _ _ _ _ _ Hw) as Hfw. pose proof (st_view _ _ _ _ _ Hw) as Hvw. pose proof (st_opened _ _ _ _ _ Hw) as How.
    intros r w' Hr. cbn. destruct Hr as [[_ (fd & ssl & ? & Hn & Hs & Hst & _)]|[_ [Hst|[Hbad (ssl & Hs & Hst)]]]].
    + left. right. exists fd, ssl, []. rewrite Hvw, How in *. do 3 (split; [done|]). eapply stands_trans; [exact Hw|].
      eapply stands_fields; [|exact Hst]. unfold fields, with_fd, with_ssl, closed in *. cbn in *. congruence.
    + left. left. exists None. rewrite Hvw, How in *. eapply stands_trans; [exact Hw|]. eapply stands_fields; [|exact Hst].
      unfold fields, with_fd, with_ssl, closed in *. cbn in *. congruence.
    + right. left. exists ssl. rewrite Hvw, How in *. split; [exact Hbad|]. split; [done|]. left. exists (Some ssl).
      eapply stands_trans; [exact Hw|]. eapply stands_fields; [|exact Hst].
      unfold fields, with_fd, with_ssl, closed in *. cbn in *. congruence.
  - apply (ends_bind (fun _ w' => tls_inv w0 v w')); [|intros; by left]. destruct (Hopen _ _ _ Hw) as [Ef Hne].
    unfold amqp_ssl_socket_open. change (bind ssl_self ?k w) with (k (x_sock w) w). cbv beta.
    rewrite Ef, (proj2 (Z.eqb_neq _ _) Hne). right. eauto.
  - apply (ends_bind (fun _ w' => tls_inv w0 v w')); [|intros; by left].
    unfold amqp_ssl_socket_send. change (bind ssl_self ?k w) with (k (x_sock w) w). cbv beta. rewrite (Hclosed Hw). by left.
  - eapply ends_bind; [by apply send_open_ends|]. intros r w' [_ Hw']. left. right. eauto.
  - apply (ends_bind (fun _ w' => tls_inv w0 v w')); [|intros; by left].
    unfold amqp_ssl_socket_recv. change (bind ssl_self ?k w) with (k (x_sock w) w). cbv beta. rewrite (Hclosed Hw). by left.
  - eapply ends_bind; [by apply recv_open_ends|]. intros r w' [_ Hw']. left. right. eauto.
  - apply (ends_bind (fun _ w' => tls_inv w0 v w')); [|intros; by left].
    unfold amqp_ssl_socket_close. change (bind ssl_self ?k w) with (k (x_sock w) w). cbv beta. rewrite (Hclosed Hw). by left.
  - pose proof (close_open_ends w0 v AMQP_SC_NONE fd ssl plain w (fun _ => tls_endless (OS := OS) (TLS := TLS) fuel) Hw) as Hcl.
    destruct (Hopen _ _ _ Hw) as [_ Hne]. unfold bind. destruct (amqp_ssl_socket_close AMQP_SC_NONE w) as [[r| | |] w']; try done.
    destruct Hcl as (f & Hst & [[-> ->]|[-> ->]]).
    + left. left. by exists None.
    + right. right. split; [done|]. split; [done|]. pose proof (fields_eq _ _ (st_fields _ _ _ _ _ Hst)) as (Ef & Es & _).
      split; [by rewrite Ef|by rewrite Es].
Qed.

(** On a broken object a call is undefined or refused. *)
Lemma broken_call w call : broken w ->
  match tls_do_call call w with (Ret _, w') => broken w' | (Undef, _) => True | _ => False end.
Proof.
  intros [Hne Hs]. apply Z.eqb_neq in Hne as Hb.
  destruct call as [host port timeout|buf flags|len|]; unfold tls_do_call, bind.
  - unfold amqp_ssl_socket_open, bind, ssl_self. cbn. by rewrite Hb.
  - unfold amqp_ssl_socket_send, bind, ssl_self. cbn. rewrite Hb. destruct (_ <? _); [done|]. cbn. by rewrite Hs.
  - unfold amqp_ssl_socket_recv, bind, ssl_self. cbn. rewrite Hb. destruct (_ <? _); [done|]. cbn. by rewrite Hs.
  - unfold amqp_ssl_socket_close, bind, ssl_self. cbn. by rewrite Hb, Hs.
Qed.

Lemma broken_calls calls w : broken w ->
  match for_each tls_do_call calls w with (Ret _, w') => broken w' | (Undef, _) => True | _ => False end.
Proof.
  revert w. induction calls as [|call calls IH]; intros w Hw; [done|]. cbn [for_each]. unfold bind.
  pose proof (broken_call w call Hw) as Hc. destruct (tls_do_call call w) as [[]]; try done. by apply IH.
Qed.

Lemma broken_delete w : broken w -> (amqp_ssl_socket_delete true w).1 = Undef.
Proof.
  intros [Hne Hs]. apply Z.eqb_neq in Hne.
  unfold amqp_ssl_socket_delete, amqp_ssl_socket_close, bind, ssl_self. cbn. by rewrite Hne, Hs.
Qed.

(** The calls, from a socket that has been through the calls [past]. *)
Lemma tls_calls_inv w0 c calls : (0 < fuel)%nat -> ss_ctx (x_sock w0) = Some c -> bio_up (x_lib w0) ->
  forall past left v w, leaves past left (view w0) v -> tls_inv w0 v w ->
  match for_each tls_do_call calls w with
  | (Ret _, w') => (exists left' v', leaves (past ++ calls) left' (view w0) v' /\ tls_inv w0 v' w') \/ close_failed calls w /\ broken w'
  | (Undef, _) => close_failed calls w
  | (NoFuel, _) => tls_endless (OS := OS) (TLS := TLS) fuel
  | _ => False
  end.
Proof.
  intros Hf Hc Hup. induction calls as [|call calls IH]; intros past left v w Hl Hi.
  { left. rewrite app_nil_r. eauto. }
  cbn [for_each]. unfold bind. pose proof (tls_call_inv w0 v c call w Hf Hc Hup Hi) as Hcall.
  destruct (tls_do_call call w) as [[[]| | |] w1] eqn:Ecall; try done. cbn in Hcall.
  assert (Hgo : forall left v, leaves (past ++ [call]) left (view w0) v -> tls_inv w0 v w1 ->
    match for_each tls_do_call calls w1 with
    | (Ret _, w') => (exists left' v', leaves (past ++ call :: calls) left' (view w0) v' /\ tls_inv w0 v' w') \/
                     close_failed (call :: calls) w /\ broken w'
    | (Undef, _) => close_failed (call :: calls) w
    | (NoFuel, _) => tls_endless (OS := OS) (TLS := TLS) fuel
    | _ => False
    end).
  { intros left' v' Hl' Hi'. specialize (IH _ _ _ _ Hl' Hi'). rewrite <- (assoc_L (++)) in IH.
    destruct (for_each tls_do_call calls w1) as [[]]; try done; [destruct IH as [?|[? ?]]; [by left|right; split; [|done]]|];
      by eapply failed_later. }
  destruct Hcall as [H1|[(ssl & Hlate & Hn & H1)|(-> & E & Hb)]].
  - eapply Hgo; [|exact H1]. by apply leaves_keep.
  - eapply Hgo; [|exact H1]. by apply leaves_one.
  - pose proof (broken_calls calls w1 Hb) as H2. destruct (for_each tls_do_call calls w1) as [[]]; try done; [right; split; [|done]|];
      by eapply failed_now.
Qed.

Lemma tls_close_inv w0 v force w P : tls_inv w0 v w ->
  ends (fun _ w' => exists s, stands w0 s v (opened (x_os w0)) w' /\ ss_ctx s = ss_ctx (x_sock w0)) P (amqp_ssl_socket_close force w).
Proof.
  intros [[p Hw]|(fd & ssl & plain & Hw)].
  - unfold amqp_ssl_socket_close. change (bind ssl_self ?k w) with (k (x_sock w) w). cbv beta.
    pose proof (fields_eq _ _ (st_fields _ _ _ _ _ Hw)) as (Ef & _). rewrite Ef. eexists. by split; [exact Hw|].
  - eapply ends_weaken; [| |by eapply (close_open_ends w0 v force fd ssl plain w P)]; [|done].
    intros r w' (f & Hst & _). eexists. by split; [exact Hst|].
Qed.

Lemma lib_ok_vars n (g g' : ssl_library TLS) : lib_vars g' = lib_vars g -> lib_ok n g -> lib_ok n g'.
Proof. unfold lib_vars, lib_ok. intros [= -> -> _ -> ->]. done. Qed.

(** Giving back one connection of the library. *)
Lemma decrement_alone n g : 0 < n -> lib_ok n g ->
  exists g', run_alone decrement_ssl_connections g = (Ret AMQP_STATUS_OK, g') /\ lib_ok (n - 1) g' /\
    seen (lib_tls g') = seen (lib_tls g).
Proof.
  intros Hn (Hc & Hb & Hi & Hm). assert (Hpos : 0 <? n = true) by (by apply Z.ltb_lt). rewrite Hpos in *.
  destruct g as [b k e i m t]. cbn in Hc, Hb, Hi, Hm. subst b k i.
  unfold decrement_ssl_connections, amqp_openssl_bio_destroy. cbn. unfold bind, read_var, lib_ok. cbn. rewrite Hpos. cbn. unfold bind. cbn.
  destruct (Z.eqb_spec (n - 1) 0) as [Ez|Hz]; cbn.
  - assert (Hz : 0 <? n - 1 = false) by (apply Z.ltb_ge; lia). rewrite Hz. unfold bind. cbn.
    destruct MSG_NOSIGNAL as [f|]; cbn; unfold bind; cbn; eexists; (split; [done|]); (split; [|done || apply bio_meth_free_seen]);
      cbn; (split_and!; [done..|]).
    + split; [by intros []|intros [? _]; lia].
    + rewrite Hm. split; [by intros [_ []]|intros [? _]; lia].
  - assert (Hp : 0 <? n - 1 = true) by (apply Z.ltb_lt; lia). rewrite Hp.
    eexists. split; [done|]. split; [|done]. cbn. split_and!; [done..|]. rewrite Hm. split; intros [? ?]; (split; [lia|done]).
Qed.

(** Of [w], only the context [c], the object and one of the [n] counts of the library are
    gone; the connections [left] are there besides. *)
Definition released (n c : Z) (left : gmap Z (list byte)) (w w' : W) : Prop :=
  opened (x_os w') = opened (x_os w) /\ view w' = with_ctxs (delete c) (with_ssls (union left) (view w)) /\
  h_live (x_heap w') = delete (x_self w) (h_live (x_heap w)) /\ lib_ok (n - 1) (x_lib w').

Lemma delete_releases w0 v c n size w P :
  ss_ctx (x_sock w0) = Some c -> 0 < n -> lib_ok n (x_lib w0) -> h_live (x_heap w0) !! x_self w0 = Some size ->
  tls_inv w0 v w ->
  ends (fun _ w' => opened (x_os w') = opened (x_os w0) /\ view w' = with_ctxs (delete c) v /\
     h_live (x_heap w') = delete (x_self w0) (h_live (x_heap w0)) /\ lib_ok (n - 1) (x_lib w')) P (amqp_ssl_socket_delete true w).
Proof.
  intros Hc Hn Hl Hsize Hi. unfold amqp_ssl_socket_delete.
  apply (ends_bind (fun _ w' => lib_vars (x_lib w') = lib_vars (x_lib w0) /\ opened (x_os w') = opened (x_os w0) /\
     view w' = with_ctxs (delete c) v /\ h_live (x_heap w') = delete (x_self w0) (h_live (x_heap w0)))).
  { eapply ends_bind; [by apply (tls_close_inv w0 v)|]. intros ? w2 (s & H2 & Es).
    pose proof (fields_eq _ _ (st_fields _ _ _ _ _ H2)) as (_ & _ & Ec & _).
    change (bind ssl_self ?k w2) with (k (x_sock w2) w2). cbv beta. rewrite Ec, Es, Hc.
    eapply ends_bind; [apply (tls_do_ends w0 s v (opened (x_os w0)) _ (SSL_CTX_free (Some c)) (with_ctxs (delete c))); [exact H2|apply (ctx_free_seen (Some c))]|].
    intros ? w3 H3. cbv beta in H3. destruct H3 as [E1 E2 E3 E4 E5 E6].
    unfold on_ssl_heap, free. rewrite E1, E2, Hsize. by split. }
  intros ? w4 (Hv & Ho & Hw & Hh). unfold bind, on_lib.
  pose proof (lib_ok_vars n _ _ Hv Hl) as Hl4.
  destruct (decrement_alone n (x_lib w4) Hn Hl4) as (g' & -> & Hl' & Hs').
  cbn. unfold view in *. cbn. rewrite Hs'. by split.
Qed.
End Life.



(** Such a call to open: nothing remains when every timeout is good. *)
Lemma timely_leaves_nothing `{Platform} {OS} `{Posix OS} (left : gmap Z (list byte)) calls bad :
  bad `sublist_of` calls -> Forall (late (OS := OS)) bad -> size left = length bad ->
  Forall (fun call => ~ late (OS := OS) call) calls -> left = ∅.
Proof.
  intros Hs Hb Hn Hc. apply map_size_empty_inv. rewrite Hn. destruct bad as [|call bad]; [done|].
  apply Forall_cons in Hb as [Hlate _]. exfalso. apply (proj1 (Forall_forall _ _) Hc call); [|done].
  eapply elem_of_submseteq; [|by apply sublist_submseteq]. by left.
Qed.

(** ** Which versions a socket accepts *)

(** The bit that disables a version, [bit v], in a build of OpenSSL with TLS 1.3. *)
Record version_bits `{OpenSSLMacros} (bit : Z -> Z) : Prop := {
  bit_pos : forall v, AMQP_TLSv1 <= v <= AMQP_TLSv1_3 -> 0 <= bit v;
  bit_inj : forall v v', AMQP_TLSv1 <= v <= AMQP_TLSv1_3 -> AMQP_TLSv1 <= v' <= AMQP_TLSv1_3 -> bit v = bit v' -> v = v';
  bit_v1 : SSL_OP_NO_TLSv1 = 2 ^ bit AMQP_TLSv1;
  bit_v1_1 : SSL_OP_NO_TLSv1_1 = 2 ^ bit AMQP_TLSv1_1;
  bit_v1_2 : SSL_OP_NO_TLSv1_2 = 2 ^ bit AMQP_TLSv1_2;
  bit_v1_3 : SSL_OP_NO_TLSv1_3 = Some (2 ^ bit AMQP_TLSv1_3);
}.

(** What a bound means. *)
Definition version_of (v : Z) : Z := if v =? AMQP_TLSvLATEST then AMQP_TLSv1_3 else v.

(** A version outside the range from [lo] to [hi]. *)
Definition outside (lo hi v : Z) : bool := (v <? lo) || (hi <? v).

(** The versions whose bits the code sets, and that they are those outside unless the range
    starts above TLS 1.2. *)
Definition bits_set (lo hi v : Z) : bool := (v <? lo) && negb (v =? AMQP_TLSv1_2) || (hi <? v).

Lemma bits_set_outside lo hi v : lo <= AMQP_TLSv1_2 -> bits_set lo hi v = outside lo hi v.
Proof.
  intros Hlo. unfold bits_set, outside. destruct (Z.ltb_spec v lo); [|done].
  by rewrite (proj2 (Z.eqb_neq v AMQP_TLSv1_2)) by lia.
Qed.

Section Versions.
Context `{OM : OpenSSLMacros} (bit : Z -> Z) (HB : version_bits bit).

Lemma set_bit_if (b : bool) x n i : 0 <= n -> 0 <= i ->
  Z.testbit (if b then Z.lor x (2 ^ n) else x) i = Z.testbit x i || b && (n =? i).
Proof. intros Hn Hi. destruct b; [by rewrite Z.lor_spec, Z.pow2_bits_eqb|by rewrite orb_false_r]. Qed.

Lemma bit_eqb v v' : AMQP_TLSv1 <= v <= AMQP_TLSv1_3 -> AMQP_TLSv1 <= v' <= AMQP_TLSv1_3 -> (bit v =? bit v') = (v =? v').
Proof.
  intros Hv Hv'. destruct (Z.eqb_spec v v') as [->|Hne]; [apply Z.eqb_refl|].
  apply Z.eqb_neq. intros E. by apply Hne, (bit_inj _ HB).
Qed.

(** A bit is that of one version at most. *)
Lemma one_bit (b : bool) (d : Z -> bool) i :
  let l := [AMQP_TLSv1; AMQP_TLSv1_1; AMQP_TLSv1_2; AMQP_TLSv1_3] in
  b && negb (existsb (fun v => bit v =? i) l) || existsb (fun v => d v && (bit v =? i)) l =
  match find (fun v => bit v =? i) l with Some v => d v | None => b end.
Proof.
  pose proof bit_eqb as Hb. cbn. unfold AMQP_TLSv1, AMQP_TLSv1_1, AMQP_TLSv1_2, AMQP_TLSv1_3 in *.
  destruct (Z.eqb_spec (bit 1) i) as [<-|_]; [rewrite !Hb by lia|destruct (Z.eqb_spec (bit 2) i) as [<-|_]; [rewrite !Hb by lia|
  destruct (Z.eqb_spec (bit 3) i) as [<-|_]; [rewrite !Hb by lia|destruct (bit 4 =? i)]]]; cbn;
    by rewrite ?andb_true_r, ?andb_false_r, ?orb_false_r.
Qed.

(** The two masks, bit by bit. *)
Lemma version_options_bits min max cl st i : AMQP_TLSv1 <= min -> AMQP_TLSv1 <= max -> 0 <= i ->
  version_options min max = inr (cl, st) ->
  Z.testbit cl i = existsb (fun v => bit v =? i) [AMQP_TLSv1; AMQP_TLSv1_1; AMQP_TLSv1_2; AMQP_TLSv1_3] /\
  Z.testbit st i = existsb (fun v => bits_set (version_of min) (version_of max) v && (bit v =? i))
                     [AMQP_TLSv1; AMQP_TLSv1_1; AMQP_TLSv1_2; AMQP_TLSv1_3].
Proof.
  intros Hmin Hmax Hi. unfold version_options. rewrite (bit_v1_3 _ HB), (bit_v1 _ HB), (bit_v1_1 _ HB), (bit_v1_2 _ HB).
  rewrite (Z.eqb_sym AMQP_TLSvLATEST max), (Z.eqb_sym AMQP_TLSvLATEST min). fold (version_of max) (version_of min).
  assert (Hlo : AMQP_TLSv1 <= version_of min) by (unfold version_of; by destruct (_ =? _)).
  assert (Hhi : AMQP_TLSv1 <= version_of max) by (unfold version_of; by destruct (_ =? _)).
  generalize dependent (version_of min). generalize dependent (version_of max). intros hi Hhi lo Hlo.
  destruct (hi <? lo); [done|]. destruct (_ || _) eqn:E; [done|]. apply orb_false_iff in E as [_ Hle%Z.ltb_ge]. intros [= <- <-].
  pose proof (bit_pos _ HB) as Hb. unfold bits_set, AMQP_TLSv1, AMQP_TLSv1_1, AMQP_TLSv1_2, AMQP_TLSv1_3 in *. cbn [existsb]. split.
  - rewrite !Z.lor_spec, !Z.pow2_bits_eqb by (apply Hb; lia). by rewrite orb_false_r, !orb_assoc.
  - rewrite !set_bit_if by (try apply Hb; lia). rewrite Z.bits_0. cbn. rewrite (proj2 (Z.ltb_ge hi 1)), (proj2 (Z.ltb_ge 4 lo)) by lia.
    by rewrite !andb_true_r, !andb_false_r, !orb_false_r, !orb_assoc.
Qed.
End Versions.

(** The options [o] with the bits of the versions outside the range set, those of the
    versions inside it clear, and the others as they were. *)
Definition limited (bit : Z -> Z) (lo hi o o' : Z) : Prop := forall i, 0 <= i ->
  Z.testbit o' i = match find (fun v => bit v =? i) [AMQP_TLSv1; AMQP_TLSv1_1; AMQP_TLSv1_2; AMQP_TLSv1_3] with
                   | Some v => outside lo hi v
                   | None => Z.testbit o i
                   end.


(** The bits of OpenSSL 3. *)
Definition demo_bit (v : Z) : Z :=
  if v =? AMQP_TLSv1 then 26 else if v =? AMQP_TLSv1_1 then 28 else if v =? AMQP_TLSv1_2 then 27 else 29.

Lemma demo_bits : version_bits demo_bit.
Proof.
  split; try reflexivity; unfold demo_bit, AMQP_TLSv1, AMQP_TLSv1_1, AMQP_TLSv1_2, AMQP_TLSv1_3.
  - intros v Hv. by repeat destruct (_ =? _).
  - intros v v' Hv Hv'. assert (H1 : v = 1 \/ v = 2 \/ v = 3 \/ v = 4) by lia.
    assert (H2 : v' = 1 \/ v' = 2 \/ v' = 3 \/ v' = 4) by lia.
    by destruct H1 as [ -> |[ -> |[ -> | -> ]]], H2 as [ -> |[ -> |[ -> | -> ]]].
Qed.


(** TLS 1.3 alone was asked for, and TLS 1.2 is still accepted. *)
Lemma tls_1_3_alone_keeps_1_2 :
  match amqp_ssl_socket_set_ssl_versions AMQP_TLSv1_3 AMQP_TLSv1_3 demo_ssl_world with
  | (r, w') => r = Ret AMQP_STATUS_OK /\
      exists o', v_ctxs (view w') !! 5 = Some o' /\ Z.testbit o' (demo_bit AMQP_TLSv1_2) = false
  end.
Proof. split; [done|]. by eexists. Qed.

(** With a connection, closing is: to shut it down or not, to free it, and to close. *)
Lemma ssl_close_eq `{OM : OpenSSLMacros} `{PL : PosixLaws OS} {TLS} `{OL : !OpenSSL OS TLS} force (w : ssl_world OS TLS) ssl :
  ss_sockfd (x_sock w) <> -1 -> ss_ssl (x_sock w) = Some ssl -> exists w1, x_sock w1 = x_sock w /\
  amqp_ssl_socket_close force w =
    (do! on_tls_do (SSL_free (Some ssl)) in do! set_ssl None in
     let! r := on_sys (amqp_os_socket_close (ss_sockfd (x_sock w))) in
     if negb (r =? 0) then ret AMQP_STATUS_SOCKET_ERROR else do! set_ssl_sockfd (-1) in ret AMQP_STATUS_OK) w1.
Proof.
  intros Hne Es. unfold amqp_ssl_socket_close. change (bind ssl_self ?k w) with (k (x_sock w) w). cbv beta.
  rewrite (proj2 (Z.eqb_neq _ _) Hne), Es. destruct (AMQP_SC_NONE =? force); [|by exists w].
  unfold bind at 1 2 3, deref, ret at 1 2, on_io. destruct (SSL_shutdown ssl (lib_tls (x_lib w), x_os w)) as [a [t o]].
  cbn [tls_do]. eexists. by split; [|reflexivity].
Qed.

(** When [close] fails the object keeps the number of the descriptor without a connection,
    and the next call that needs one, its deletion for a start, is undefined. *)
Lemma close_error_leaves_no_ssl `{OM : OpenSSLMacros} `{PL : PosixLaws OS} {TLS} `{OL : !OpenSSL OS TLS}
    force (w w' : ssl_world OS TLS) ssl : ss_sockfd (x_sock w) <> -1 -> ss_ssl (x_sock w) = Some ssl ->
  amqp_ssl_socket_close force w = (Ret AMQP_STATUS_SOCKET_ERROR, w') ->
  (amqp_ssl_socket_delete true w').1 = Undef.
Proof.
  intros Hne Es. destruct (ssl_close_eq force w ssl Hne Es) as (w1 & E & ->).
  unfold bind, on_tls_do, on_lib, on_sys, amqp_os_socket_close, sys. cbn. rewrite E.
  destruct (posix_close _ _) as [r o]. destruct (negb (r =? 0)); [|done]. intros [= <-].
  unfold amqp_ssl_socket_delete, amqp_ssl_socket_close, bind. cbn. by rewrite (proj2 (Z.eqb_neq _ _) Hne).
Qed.
