(* ===== verification/SslNet.v ===== *)
(** * The TLS socket is a socket: [Ssl.v] as an instance of the interface of [Net.v]

    An object that is open has a connection of OpenSSL; the states in which that is so
    are closed under the calls of the library and keep the promises of the socket
    interface, so what is proved of frames, calls and messages holds over TLS. *)

From S2P Require Import Prelude Status Memory Layout Pool PoolMem Codec Table MethodCodec.
From S2P Require Import MethodTypes MethodDecode MethodEncode Properties Connection Time Net Posix PosixSpec ConnState.
From S2P Require Import Tcp TcpSpec OpenSsl OpenSslLaws SslThreads Ssl SslSpec.

Section Usable.
Context `{PF : Platform} `{OM : OpenSSLMacros} {OS TLS : Type} `{PX : Posix OS} `{PL : !PosixLaws OS}.
Context `{OL : !OpenSSL OS TLS} `{LL : !OpenSSLLaws OS TLS}.
Context (fuel : nat).

Notation W := (ssl_world OS TLS).

(** What the connection of the object has accepted. *)
Definition accepted (w : W) : option (list byte) := ssl ← ss_ssl (x_sock w); v_ssls (view w) !! ssl.
Definition plain_text (w : W) : list byte := default [] (accepted w).

(** The socket is closed, or it has a connection. *)
Definition usable (w : W) : Prop := ss_sockfd (x_sock w) = -1 \/ is_Some (accepted w).

#[export] Instance usable_dec w : Decision (usable w).
Proof. apply _. Defined.

(** A TLS socket between two calls of the library. *)
Record tls_socket := mk_tls { tls_state : W; tls_usable : usable tls_state }.

(** A call; the old state stands for that of a call that has not ended. *)
Definition call {A} (m : eff W A) : eff tls_socket A := fun e =>
  match m (tls_state e) with
  | (r, w') => (r, match decide (usable w') with left H => mk_tls w' H | right _ => e end)
  end.

(** The call ends as the code does. *)
Definition runs {A} (m : eff W A) (x : res A * tls_socket) (e : tls_socket) : Prop :=
  let '(r, w') := m (tls_state e) in x.1 = r /\ match r with Ret _ => tls_state x.2 = w' | _ => True end.

Definition answer {A} (f : W -> A * W) (e : tls_socket) : A * tls_socket :=
  match f (tls_state e) with
  | (r, w') => (r, match decide (usable w') with left H => mk_tls w' H | right _ => e end)
  end.

Definition tls_system : System tls_socket := {|
  clock_gettime := answer (@clock_gettime W ssl_system);
  poll fd ev ms := answer (@poll W ssl_system fd ev ms);
|}.

(** The class of the TLS socket, on these states. *)
Definition tls_class : Net tls_socket := {|
  net_system := tls_system;
  socket_send buf flags := call (amqp_ssl_socket_send buf flags);
  socket_recv len := call (amqp_ssl_socket_recv len);
  socket_open host port timeout := call (amqp_ssl_socket_open fuel host port timeout);
  socket_get_sockfd e := amqp_ssl_socket_get_sockfd (tls_state e);
  socket_close force := call (amqp_ssl_socket_close force);
  socket_delete := call (amqp_ssl_socket_delete true);
|}.

Lemma call_runs {A} (m : eff W A) e : ends (fun _ w' => usable w') (fun _ => True) (m (tls_state e)) ->
  runs m (call m e) e.
Proof.
  unfold runs, call, ends. destruct (m (tls_state e)) as [[a| | |] w']; try done.
  intros Hu. by destruct (decide (usable w')).
Qed.

(** A closed socket, or an open one with its connection. *)
Lemma usable_cases w : usable w -> ss_sockfd (x_sock w) = -1 \/
  exists ssl, ss_sockfd (x_sock w) <> -1 /\ ss_ssl (x_sock w) = Some ssl /\ v_ssls (view w) !! ssl = Some (plain_text w).
Proof.
  destruct (decide (ss_sockfd (x_sock w) = -1)) as [E|Hne]; [by left|]. intros [?|[p Hp]]; [done|]. right.
  unfold plain_text. rewrite Hp. unfold accepted in Hp. destruct (ss_ssl (x_sock w)) as [ssl|]; [|done]. by exists ssl.
Qed.

Lemma stands_accepted (w0 : W) s v o w : stands w0 s v o w -> accepted w = (ssl ← ss_ssl s; v_ssls v !! ssl).
Proof.
  intros Hs. pose proof (fields_eq _ _ (st_fields _ _ _ _ _ Hs)) as (_ & Es & _).
  unfold accepted. by rewrite Es, (st_view _ _ _ _ _ Hs).
Qed.

(** What sending does to a usable socket. *)
Lemma usable_send buf flags w P : usable w ->
  ends (fun r w' => usable w' /\ r <= zlen buf /\ plain_text w' = plain_text w ++ ztake r buf) P (amqp_ssl_socket_send buf flags w).
Proof.
  intros [E|(ssl & Hne & Es & Ev)]%usable_cases.
  - unfold amqp_ssl_socket_send. change (bind ssl_self ?k w) with (k (x_sock w) w). cbv beta. rewrite E. cbn.
    split; [by left|]. split; [zlen_pos; unfold AMQP_STATUS_SOCKET_CLOSED; lia|by rewrite app_nil_r].
  - eapply ends_weaken; [| |apply (ssl_send_ends w _ _ _ ssl buf flags w P (stands_refl w) Hne Es)]; [|done].
    intros r w' [Hr Hw]. assert (Ha : accepted w' = Some (plain_text w ++ ztake r buf)).
    { rewrite (stands_accepted _ _ _ _ _ Hw), Es. cbn. by rewrite lookup_alter_eq, Ev. }
    split; [right; by rewrite Ha|]. split; [done|]. unfold plain_text at 1. by rewrite Ha.
Qed.

(** Receiving, the clock and [poll] leave what is accepted alone. *)
Lemma usable_recv len w P : usable w ->
  ends (fun r w' => usable w' /\ plain_text w' = plain_text w /\
          match r with inl st => st < 0 | inr bs => 0 <= len -> 0 < zlen bs <= len end) P (amqp_ssl_socket_recv len w).
Proof.
  intros Hu. destruct (usable_cases w Hu) as [E|(ssl & Hne & Es & Ev)].
  - unfold amqp_ssl_socket_recv. change (bind ssl_self ?k w) with (k (x_sock w) w). cbv beta. by rewrite E.
  - eapply ends_weaken; [| |apply (ssl_recv_ends w _ _ _ ssl len w P (stands_refl w) Hne Es)]; [|done].
    intros r w' [Hr Hw]. assert (Ha : accepted w' = accepted w) by (by rewrite (stands_accepted _ _ _ _ _ Hw)).
    unfold plain_text, usable. rewrite Ha. split; [|done]. right. unfold accepted. rewrite Es. cbn. by rewrite Ev.
Qed.

Lemma usable_open host port timeout w c : (0 < fuel)%nat -> ss_ctx (x_sock w) = Some c -> bio_up (x_lib w) -> usable w ->
  ends (fun _ w' => usable w') (fun _ => True) (amqp_ssl_socket_open fuel host port timeout w).
Proof.
  intros Hf Hc Hup Hu. destruct (decide (ss_sockfd (x_sock w) = -1)) as [E|Hne].
  - eapply ends_weaken; [| |apply (tls_open_ends fuel host port timeout w c Hf E Hc Hup)]; [|done].
    intros r w' [[_ (fd & ssl & _ & _ & _ & Hw & _)]|[_ [Hw|(_ & ssl & _ & Hw)]]].
    + right. rewrite (stands_accepted _ _ _ _ _ Hw). cbn. by rewrite lookup_insert_eq.
    + left. by pose proof (fields_eq _ _ (st_fields _ _ _ _ _ Hw)) as (-> & _).
    + left. by pose proof (fields_eq _ _ (st_fields _ _ _ _ _ Hw)) as (-> & _).
  - unfold amqp_ssl_socket_open. change (bind ssl_self ?k w) with (k (x_sock w) w). cbv beta.
    by rewrite (proj2 (Z.eqb_neq _ _) Hne).
Qed.

(** A socket that has been closed, or deleted, is closed. *)
Lemma closed_fd force w : usable w -> (amqp_ssl_socket_close force w).1 <> Ret AMQP_STATUS_SOCKET_ERROR ->
  ends (fun _ w' => ss_sockfd (x_sock w') = -1) (fun _ => True) (amqp_ssl_socket_close force w).
Proof.
  intros [E|(ssl & Hne & Es & Ev)]%usable_cases.
  - unfold amqp_ssl_socket_close. change (bind ssl_self ?k w) with (k (x_sock w) w). cbv beta. by rewrite E.
  - destruct (ssl_close_eq force w ssl Hne Es) as (w1 & E & ->).
    unfold bind, on_tls_do, on_lib, on_sys, amqp_os_socket_close, sys. cbn.
    destruct (posix_close _ _) as [r o]. by destruct (negb (r =? 0)).
Qed.

Lemma deleted_fd w : usable w -> (amqp_ssl_socket_close AMQP_SC_NONE w).1 <> Ret AMQP_STATUS_SOCKET_ERROR ->
  match amqp_ssl_socket_delete true w with (Ret _, w') => ss_sockfd (x_sock w') = -1 | _ => True end.
Proof.
  intros Hu Hno. pose proof (closed_fd AMQP_SC_NONE w Hu Hno) as Hc. unfold amqp_ssl_socket_delete, bind.
  destruct (amqp_ssl_socket_close AMQP_SC_NONE w) as [[r| | |] w1]; try done. cbn in Hc.
  unfold on_tls_do, on_lib, on_ssl_heap. cbn. destruct (free _ _) as [[[]| | |] h]; try done. cbn.
  match goal with |- context [run_alone ?p ?g] => by destruct (run_alone p g) as [[?| | |] g1] end.
Qed.

Definition tls_net_laws : @NetLaws tls_socket tls_class.
Proof.
  refine (Build_NetLaws _ tls_class (fun e => plain_text (tls_state e)) _ _ _ _ _).
  - intros e buf flags r e'. cbn. unfold call. pose proof (usable_send buf flags _ (fun _ => False) (tls_usable e)) as Hs.
    destruct (amqp_ssl_socket_send _ _ _) as [[n| | |] w']; try done. destruct Hs as (Hu & Hn & Hp).
    by destruct (decide (usable w')) as [H|]; [|done]; intros [= <- <-].
  - intros e len bs e' Hl. cbn. unfold call. pose proof (usable_recv len _ (fun _ => False) (tls_usable e)) as Hs.
    destruct (amqp_ssl_socket_recv _ _) as [[n| | |] w']; try done. destruct Hs as (Hu & Hp & Hn). intros [= -> _]. by apply Hn.
  - intros e len r e'. cbn. unfold call. pose proof (usable_recv len _ (fun _ => False) (tls_usable e)) as Hs.
    destruct (amqp_ssl_socket_recv _ _) as [[n| | |] w']; try done. destruct Hs as (Hu & Hp & Hn).
    by destruct (decide (usable w')) as [H|]; [|done]; intros [= _ <-].
  - intros e c e'. cbn. unfold answer. cbn. destruct (clock_gettime (x_os (tls_state e))) as [c' o].
    destruct (decide _) as [H|]; by intros [= _ <-].
  - intros e fd ev ms c e'. cbn. unfold answer. cbn. destruct (poll fd ev ms (x_os (tls_state e))) as [c' o].
    destruct (decide _) as [H|]; by intros [= _ <-].
Defined.

End Usable.

(** C26: The TLS socket is a socket: over any OpenSSL and any system that keep their promises,
    on the states in which an open object has its connection, the callbacks of
    [amqp_ssl_socket_class] keep the promises of the socket interface that sending,
    receiving and the frame engine are proved against, where the bytes on the wire are the
    plain text that the connection has accepted; and the calls stay in these states: sending and
    receiving always, opening when the object has a context and the library is set up,
    closing and deleting unless [close] fails. *)
Theorem tls_implements_socket `{OM : OpenSSLMacros} `{PL : PosixLaws OS} {TLS} `{OL : !OpenSSL OS TLS} `{LL : !OpenSSLLaws OS TLS}
    fuel : (0 < fuel)%nat ->
  exists L : @NetLaws (tls_socket (OS := OS) (TLS := TLS)) (tls_class fuel),
    forall e, @outbox _ _ L e = plain_text (tls_state e) /\
      (forall buf flags, runs (amqp_ssl_socket_send buf flags) (@socket_send _ (tls_class fuel) buf flags e) e) /\
      (forall len, runs (amqp_ssl_socket_recv len) (@socket_recv _ (tls_class fuel) len e) e) /\
      (is_Some (ss_ctx (x_sock (tls_state e))) -> bio_up (x_lib (tls_state e)) -> forall host port timeout,
        runs (amqp_ssl_socket_open fuel host port timeout) (@socket_open _ (tls_class fuel) host port timeout e) e) /\
      (forall force, (amqp_ssl_socket_close force (tls_state e)).1 <> Ret AMQP_STATUS_SOCKET_ERROR ->
        runs (amqp_ssl_socket_close force) (@socket_close _ (tls_class fuel) force e) e) /\
      ((amqp_ssl_socket_close AMQP_SC_NONE (tls_state e)).1 <> Ret AMQP_STATUS_SOCKET_ERROR ->
        runs (amqp_ssl_socket_delete true) (@socket_delete _ (tls_class fuel) e) e).
Proof.
  intros Hf. exists (tls_net_laws fuel). intros e. split; [done|]. pose proof (tls_usable e) as Hu. split_and!.
  - intros buf flags. apply call_runs. eapply ends_weaken; [| |by apply (usable_send buf flags _ (fun _ => True))]; [|done].
    by intros r w' [? _].
  - intros len. apply call_runs. eapply ends_weaken; [| |by apply (usable_recv len _ (fun _ => True))]; [|done].
    by intros r w' [? _].
  - intros [c Hc] Hup host port timeout. apply call_runs. by eapply usable_open.
  - intros force Hno. apply call_runs. eapply ends_weaken; [| |by apply closed_fd]; [|done]. intros r w' ?. by left.
  - intros Hno. pose proof (deleted_fd _ Hu Hno) as Hd. unfold runs. cbn. unfold call.
    destruct (amqp_ssl_socket_delete true (tls_state e)) as [[[]| | |] w']; try done.
    assert (usable w') by (by left). by destruct (decide (usable w')).
Qed.

Example tls_implements_socket_witness :
  exists L : @NetLaws (tls_socket (OS := demo_os) (TLS := demo_tls)) (tls_class 5), forall e, @outbox _ _ L e = plain_text (tls_state e).
Proof.
  destruct (tls_implements_socket (OS := demo_os) (TLS := demo_tls) 5 ltac:(lia)) as [L HL]. exists L. intros e. apply HL.
Defined.
