(* ===== verification/Socket.v ===== *)
(** * Sending and receiving frames: [librabbitmq/amqp_socket.c] and
    [amqp_send_frame] of [amqp_connection.c]

    The loops that move bytes between a connection and its socket, and the queue of
    frames read ahead.  An [int] result is [Err] for an error status; loops over what
    the environment answers carry fuel. *)

From S2P Require Import Prelude Status Memory Layout Pool PoolMem Codec Table MethodCodec.
From S2P Require Import MethodTypes MethodDecode MethodEncode Properties Connection Time Net ConnState.

(** The [int] a function returns, as a value. *)
Definition status {S A} (m : eff S A) : eff S Z := fun s =>
  match m s with
  | (Ret _, s') => (Ret AMQP_STATUS_OK, s')
  | (Err st, s') => (Ret st, s')
  | (Undef, s') => (Undef, s')
  | (NoFuel, s') => (NoFuel, s')
  end.

(** ** The frame queue *)

Definition layout_amqp_link_t : layout := c_struct [t_ptr; t_ptr].
Definition layout_amqp_frame_t : layout :=
  c_struct [t_uint8; t_uint16;
            c_union [layout_amqp_method_t;
                     c_struct [t_uint16; t_uint64; t_ptr; layout_amqp_bytes_t];
                     layout_amqp_bytes_t;
                     c_struct [t_uint8; t_uint8; t_uint8; t_uint8]]].

Definition set_links (links : gmap Z amqp_link_t) (q : frame_queue) : frame_queue :=
  mk_queue links (q_fresh q) (first_queued_frame q) (last_queued_frame q).
Definition set_first (p : option Z) (q : frame_queue) : frame_queue :=
  mk_queue (q_links q) (q_fresh q) p (last_queued_frame q).
Definition set_last (p : option Z) (q : frame_queue) : frame_queue :=
  mk_queue (q_links q) (q_fresh q) (first_queued_frame q) p.

(** A new link, holding a copy of the frame. *)
Definition new_link (f : amqp_frame_t) : eff frame_queue Z := fun q =>
  (Ret (q_fresh q), mk_queue (<[q_fresh q := mk_link None f]> (q_links q)) (q_fresh q + 1)
                      (first_queued_frame q) (last_queued_frame q)).

(** [p->next = next] *)
Definition set_next (p next : option Z) : eff frame_queue unit := fun q =>
  match p with
  | None => (Undef, q)
  | Some a =>
      match q_links q !! a with
      | None => (Undef, q)
      | Some l => (Ret tt, set_links (<[a := mk_link next (l_data l)]> (q_links q)) q)
      end
  end.

Definition on_queue {A} (f : eff frame_queue A) : eff connection A := fun k =>
  let '(r, q) := f (k_queue k) in (r, set_queue q k).

(** [amqp_get_or_create_channel_pool(state, channel)] *)
Definition k_channel_pool (ch : Z) : eff connection (option Z) := fun k =>
  let '(r, (t, m)) := amqp_get_or_create_channel_pool (c_frame_max (k_in k)) ch (k_pool_table k, k_mem k) in
  (r, set_in (set_pools (k_in k) t m) k).

Definition k_pool_alloc (p n : Z) : eff connection (option addr) := fun k =>
  let '(a, m) := pool_alloc p n (k_mem k) in (Ret a, set_mem m k).

Definition amqp_create_link_for_frame (f : amqp_frame_t) : eff connection (option Z) :=
  let! pool := k_channel_pool (channel f) in
  match pool with
  | None => ret None
  | Some p =>
      let! link := k_pool_alloc p (sizeof layout_amqp_link_t) in
      let! frame_copy := k_pool_alloc p (sizeof layout_amqp_frame_t) in
      match link, frame_copy with
      | Some _, Some _ => let! a := on_queue (new_link f) in ret (Some a)
      | _, _ => ret None
      end
  end.

Definition amqp_queue_frame (f : amqp_frame_t) : eff connection unit :=
  let! link := amqp_create_link_for_frame f in
  match link with
  | None => fail AMQP_STATUS_NO_MEMORY
  | Some _ =>
      on_queue (let! q := get in
                do! match first_queued_frame q with
                    | None => modify (set_first link)
                    | Some _ => set_next (last_queued_frame q) link
                    end in
                do! set_next link None in
                modify (set_last link))
  end.

Definition amqp_put_back_frame (f : amqp_frame_t) : eff connection unit :=
  let! link := amqp_create_link_for_frame f in
  match link with
  | None => fail AMQP_STATUS_NO_MEMORY
  | Some _ =>
      on_queue (let! q := get in
                match first_queued_frame q with
                | None =>
                    do! modify (set_first link) in
                    do! modify (set_last link) in
                    set_next link None
                | Some _ =>
                    do! set_next link (first_queued_frame q) in
                    modify (set_first link)
                end)
  end.

(** The same by hand in [amqp_try_recv] and [simple_rpc_inner]: the copy is allocated
    before the link, and the test is on [last_queued_frame]. *)
Definition append_frame (f : amqp_frame_t) : eff connection unit :=
  let! pool := k_channel_pool (channel f) in
  match pool with
  | None => fail AMQP_STATUS_NO_MEMORY
  | Some p =>
      let! frame_copy := k_pool_alloc p (sizeof layout_amqp_frame_t) in
      let! link := k_pool_alloc p (sizeof layout_amqp_link_t) in
      match frame_copy, link with
      | Some _, Some _ =>
          on_queue (let! a := new_link f in
                    do! set_next (Some a) None in
                    let! q := get in
                    do! match last_queued_frame q with
                        | None => modify (set_first (Some a))
                        | Some _ => set_next (last_queued_frame q) (Some a)
                        end in
                    modify (set_last (Some a)))
      | _, _ => fail AMQP_STATUS_NO_MEMORY
      end
  end.

Definition amqp_frames_enqueued (k : connection) : bool :=
  bool_decide (first_queued_frame (k_queue k) <> None).

(** [state->first_queued_frame = next], and [last_queued_frame] cleared with it *)
Definition advance_queue (next : option Z) (q : frame_queue) : frame_queue :=
  let q := set_first next q in
  match next with None => set_last None q | Some _ => q end.

(** ** Sockets *)

Section Socket.
Context `{Host} {E : Type} `{Net E}.
Context (garbage : addr -> Z -> list byte) (uninit : amqp_basic_properties_t).
(** The bound on every loop whose end the environment decides. *)
Context (fuel : nat).

(** [assert(self)] and the callback *)
Definition amqp_socket_send (buf : list byte) (flags : Z) : eff (world E) Z := fun w =>
  if k_socket (w_k w) then on_env (socket_send buf flags) w else (Undef, w).
Definition amqp_socket_recv (len : Z) : eff (world E) (Z + list byte) := fun w =>
  if k_socket (w_k w) then on_env (socket_recv len) w else (Undef, w).
Definition amqp_socket_open (host : list byte) (port : Z) : eff (world E) Z := fun w =>
  if k_socket (w_k w) then on_env (socket_open host port None) w else (Undef, w).
Definition amqp_socket_open_noblock (host : list byte) (port : Z) (timeout : option timeval) : eff (world E) Z :=
  fun w => if k_socket (w_k w) then on_env (socket_open host port timeout) w else (Undef, w).
Definition amqp_socket_close (force : Z) : eff (world E) Z := fun w =>
  if k_socket (w_k w) then on_env (socket_close force) w
  else (Undef, w).

Definition sockfd : eff (world E) Z := fun w => (Ret (amqp_get_sockfd w), w).

Definition do_poll (res : Z) (deadline : amqp_time_t) : eff (world E) Z :=
  let! fd := sockfd in
  if fd =? -1 then ret AMQP_STATUS_SOCKET_CLOSED
  else
    switch res
      [(AMQP_PRIVATE_STATUS_SOCKET_NEEDREAD, on_env (amqp_poll fuel fd AMQP_SF_POLLIN deadline));
       (AMQP_PRIVATE_STATUS_SOCKET_NEEDWRITE, on_env (amqp_poll fuel fd AMQP_SF_POLLOUT deadline))]
      (ret res).

(** [buf_left] and [len_left] are the bytes that are left. *)
Fixpoint try_send_loop (fuel : nat) (len : Z) (buf_left : list byte) (deadline : amqp_time_t) (flags : Z)
    : eff (world E) Z :=
  match fuel with
  | O => nofuel
  | S fuel' =>
      let! res := amqp_socket_send buf_left flags in
      if 0 <? res then
        if zlen buf_left <? res then undef
        else
          let buf_left := zdrop res buf_left in
          if zlen buf_left =? 0 then ret len else try_send_loop fuel' len buf_left deadline flags
      else
        let! res := do_poll res deadline in
        if res =? AMQP_STATUS_OK then try_send_loop fuel' len buf_left deadline flags
        else if res =? AMQP_STATUS_TIMEOUT then ret (len - zlen buf_left)
        else fail res
  end.

Definition amqp_try_send (buf : list byte) (deadline : amqp_time_t) (flags : Z) : eff (world E) Z :=
  try_send_loop fuel (zlen buf) buf deadline flags.

Definition protocol_header : list byte := [x41; x4d; x51; x50; x00; x00; x09; x01].

(** [AMQP_STATUS_OK], the number of bytes sent, or an error *)
Definition send_header_inner (deadline : amqp_time_t) : eff (world E) Z :=
  let! res := amqp_try_send protocol_header deadline AMQP_SF_NONE in
  if res =? zlen protocol_header then ret AMQP_STATUS_OK else ret (swrap 32 res).

Definition amqp_send_header : eff (world E) Z := send_header_inner amqp_time_infinite.

(** ** Receiving *)

Definition amqp_data_in_buffer (k : connection) : bool := k_sock_inbound_offset k <? k_sock_inbound_limit k.

(** The frame is [*decoded_frame] before and after. *)
Definition consume_one_frame (f : amqp_frame_t) : eff (world E) amqp_frame_t := fun w =>
  let k := w_k w in
  match load (b_bytes (k_sock_inbound k)) (k_sock_inbound_offset k)
          (size_sub (k_sock_inbound_limit k) (k_sock_inbound_offset k)) with
  | None => (Undef, w)
  | Some data =>
      let '(r, s) := amqp_handle_input garbage uninit (mk_input (k_in k) f data) in
      let k := set_in (i_conn s) k in
      match r with
      | Ret n =>
          if n <? 0 then (Err n, mk_world k (w_e w))
          else (Ret (i_frame s),
                mk_world (set_window (b_bytes (k_sock_inbound k)) (size_add (k_sock_inbound_offset k) n)
                            (k_sock_inbound_limit k) k) (w_e w))
      | Err st => (Err st, mk_world k (w_e w))
      | Undef => (Undef, mk_world k (w_e w))
      | NoFuel => (NoFuel, mk_world k (w_e w))
      end
  end.

Fixpoint recv_loop (fuel' : nat) (timeout : amqp_time_t) : eff (world E) unit :=
  match fuel' with
  | O => nofuel
  | S fuel'' =>
      let! k := get_k in
      let! res := amqp_socket_recv (b_len (k_sock_inbound k)) in
      match res with
      | inl res =>
          let! fd := sockfd in
          if fd =? -1 then fail AMQP_STATUS_CONNECTION_CLOSED
          else
            let! res := switch res
              [(AMQP_PRIVATE_STATUS_SOCKET_NEEDREAD, on_env (amqp_poll fuel fd AMQP_SF_POLLIN timeout));
               (AMQP_PRIVATE_STATUS_SOCKET_NEEDWRITE, on_env (amqp_poll fuel fd AMQP_SF_POLLOUT timeout))]
              (fail res) in
            if res =? AMQP_STATUS_OK then recv_loop fuel'' timeout else fail res
      | inr bs =>
          match store (b_bytes (k_sock_inbound k)) 0 bs with
          | None => undef
          | Some buf =>
              do! modify_k (set_window buf 0 (zlen bs)) in
              reset_recv_heartbeat
          end
      end
  end.

Definition recv_with_timeout (timeout : amqp_time_t) : eff (world E) unit := recv_loop fuel timeout.

Definition uninit_frame : amqp_frame_t := mk_frame 0 0 PL_none.

Fixpoint drain_loop (fuel' : nat) : eff (world E) unit :=
  match fuel' with
  | O => nofuel
  | S fuel'' =>
      let! k := get_k in
      if amqp_data_in_buffer k then
        let! frame := consume_one_frame uninit_frame in
        do! (if negb (frame_type frame =? 0) then on_k (append_frame frame) else ret tt) in
        drain_loop fuel''
      else ret tt
  end.

(** [amqp_time_s_from_now(&timeout, 0)] is the infinite time. *)
Definition amqp_try_recv : eff (world E) unit :=
  do! drain_loop fuel in
  let! '(r, timeout) := s_from_now (mk_time 0) 0 in
  do! lift_res r in
  recv_with_timeout timeout.

(** ** Sending frames *)

(** [amqp_frame_to_bytes(frame, state->outbound_buffer, &encoded)] *)
Definition encode_frame (frame : amqp_frame_t) : eff (world E) (list byte) := fun w =>
  let out := k_outbound (w_k w) in
  if negb (b_len out =? zlen (b_bytes out)) then (Undef, w)
  else
    let '(r, buf) := amqp_frame_to_bytes frame (b_bytes out) in
    let w := mk_world (set_outbound (mk_buffer (b_len out) (b_block out) buf) (w_k w)) (w_e w) in
    match r with
    | Ret n => (Ret (ztake n buf), w)
    | Err st => (Err st, w)
    | Undef => (Undef, w)
    | NoFuel => (NoFuel, w)
    end.

Fixpoint send_encoded (fuel' : nat) (encoded : list byte) (flags : Z) (deadline : amqp_time_t)
    : eff (world E) unit :=
  match fuel' with
  | O => nofuel
  | S fuel'' =>
      let! k := get_k in
      let next_timeout := amqp_time_first deadline (next_recv_heartbeat (k_hb k)) in
      let! sent := amqp_try_send encoded next_timeout flags in
      if negb (zlen encoded =? sent) then
        if amqp_time_equal next_timeout deadline then fail AMQP_STATUS_TIMEOUT
        else
          let! res := status amqp_try_recv in
          if res =? AMQP_STATUS_TIMEOUT then fail AMQP_STATUS_HEARTBEAT_TIMEOUT
          else if negb (res =? AMQP_STATUS_OK) then fail res
          else send_encoded fuel'' (zdrop sent encoded) flags deadline
      else reset_send_heartbeat
  end.

Definition amqp_send_frame_inner (frame : amqp_frame_t) (flags : Z) (deadline : amqp_time_t)
    : eff (world E) unit :=
  let! encoded := encode_frame frame in
  send_encoded fuel encoded flags deadline.

Definition amqp_send_frame (frame : amqp_frame_t) : eff (world E) unit :=
  amqp_send_frame_inner frame AMQP_SF_NONE amqp_time_infinite.

Definition amqp_send_method_inner (ch id : Z) (decoded : method_t) (flags : Z) (deadline : amqp_time_t)
    : eff (world E) unit :=
  amqp_send_frame_inner (mk_frame AMQP_FRAME_METHOD ch (PL_method id decoded)) flags deadline.

Definition amqp_send_method (ch id : Z) (decoded : method_t) : eff (world E) unit :=
  amqp_send_method_inner ch id decoded AMQP_SF_NONE amqp_time_infinite.

(** ** Waiting for frames *)

(** [amqp_time_has_past(state->next_send_heartbeat)]; an infinite time does not look
    at the clock. *)
Definition has_past (t : amqp_time_t) : eff (world E) Z :=
  let! now := (if time_point_ns t =? UINT64_MAX then ret None else on_env clock) in
  ret (amqp_time_has_past now t).

(** [at_recv] is the label [beginrecv]. *)
Fixpoint wait_loop (fuel' : nat) (at_recv : bool) (f : amqp_frame_t) (timeout_deadline : amqp_time_t)
    : eff (world E) amqp_frame_t :=
  match fuel' with
  | O => nofuel
  | S fuel'' =>
      let! k := get_k in
      if negb at_recv && amqp_data_in_buffer k then
        let! f := consume_one_frame f in
        if frame_type f =? AMQP_FRAME_HEARTBEAT then
          do! on_k (amqp_maybe_release_buffers_on_channel 0) in
          wait_loop fuel'' false f timeout_deadline
        else if negb (frame_type f =? 0) then ret f
        else wait_loop fuel'' false f timeout_deadline
      else
        let! res := has_past (next_send_heartbeat (k_hb k)) in
        if res =? AMQP_STATUS_TIMER_FAILURE then fail res
        else
          do! (if res =? AMQP_STATUS_TIMEOUT
               then amqp_send_frame (mk_frame AMQP_FRAME_HEARTBEAT 0 PL_none) else ret tt) in
          let! k := get_k in
          let hb := k_hb k in
          let deadline := amqp_time_first timeout_deadline
                            (amqp_time_first (next_recv_heartbeat hb) (next_send_heartbeat hb)) in
          let! res := status (recv_with_timeout deadline) in
          let! k := get_k in
          let hb := k_hb k in
          if res =? AMQP_STATUS_TIMEOUT then
            if amqp_time_equal deadline (next_recv_heartbeat hb) then
              do! amqp_socket_close AMQP_SC_FORCE in
              fail AMQP_STATUS_HEARTBEAT_TIMEOUT
            else if amqp_time_equal deadline timeout_deadline then fail AMQP_STATUS_TIMEOUT
            else if amqp_time_equal deadline (next_send_heartbeat hb) then
              wait_loop fuel'' true f timeout_deadline
            else undef                                                             (* amqp_abort *)
          else if negb (res =? AMQP_STATUS_OK) then fail res
          else wait_loop fuel'' false f timeout_deadline
  end.

Definition wait_frame_inner (f : amqp_frame_t) (timeout_deadline : amqp_time_t) : eff (world E) amqp_frame_t :=
  wait_loop fuel false f timeout_deadline.

Fixpoint wait_channel_loop (fuel' : nat) (ch : Z) (f : amqp_frame_t) : eff (world E) amqp_frame_t :=
  match fuel' with
  | O => nofuel
  | S fuel'' =>
      let! f := wait_frame_inner f amqp_time_infinite in
      if ch =? channel f then ret f
      else
        do! on_k (amqp_queue_frame f) in
        wait_channel_loop fuel'' ch f
  end.

Definition amqp_simple_wait_frame_on_channel (ch : Z) (f : amqp_frame_t) : eff (world E) amqp_frame_t :=
  let! k := get_k in
  let! found := lift_res (find_queued (k_queue k) (fun f => ch =? channel f)) in
  match found with
  | Some (_, cur) =>
      do! on_k (on_queue (modify (advance_queue (l_next cur)))) in
      ret (l_data cur)
  | None => wait_channel_loop fuel ch f
  end.

(** [amqp_time_from_now(&deadline, timeout)]; [NULL], and a negative timeout, are
    decided before the clock is read. *)
Definition from_now (timeout : option timeval) : eff (world E) amqp_time_t :=
  let! now := match timeout with
              | Some tv => if (tv_sec tv <? 0) || (tv_usec tv <? 0) then ret None else on_env clock
              | None => ret None
              end in
  let '(r, t) := amqp_time_from_now now timeout (mk_time 0) in
  do! lift_res r in ret t.

Definition amqp_simple_wait_frame_noblock (f : amqp_frame_t) (timeout : option timeval)
    : eff (world E) amqp_frame_t :=
  let! deadline := from_now timeout in
  let! k := get_k in
  match first_queued_frame (k_queue k) with
  | Some a =>
      match q_links (k_queue k) !! a with
      | None => undef
      | Some l =>
          do! on_k (on_queue (modify (advance_queue (l_next l)))) in
          ret (l_data l)
      end
  | None => wait_frame_inner f deadline
  end.

Definition amqp_simple_wait_frame (f : amqp_frame_t) : eff (world E) amqp_frame_t :=
  amqp_simple_wait_frame_noblock f None.

End Socket.
