(* ===== verification/Rpc.v ===== *)
(** * Remote procedure calls: the RPC engine of [librabbitmq/amqp_socket.c] *)

From S2P Require Import Prelude Status Memory Layout Pool PoolMem Codec Table MethodCodec.
From S2P Require Import MethodTypes MethodDecode MethodEncode Properties Connection Time Net ConnState Socket.

(** [reply.reply] is left uninitialised. *)
Definition amqp_rpc_reply_error (st : Z) : amqp_rpc_reply_t :=
  mk_rpc_reply AMQP_RESPONSE_LIBRARY_EXCEPTION (0, None) st.

(** The list ends with a zero; running past its end is undefined. *)
Fixpoint amqp_id_in_reply_list (expected : Z) (list : list Z) : res bool :=
  match list with
  | [] => Undef
  | id :: rest =>
      if id =? 0 then Ret false
      else if id =? expected then Ret true
      else amqp_id_in_reply_list expected rest
  end.

(** [frame.payload.method] *)
Definition frame_method (f : amqp_frame_t) : res amqp_method_t :=
  match payload f with
  | PL_method id d => Ret (id, Some d)
  | _ => Undef
  end.

Section Rpc.
Context `{Host} {E : Type} `{Net E}.
Context (garbage : addr -> Z -> list byte) (uninit : amqp_basic_properties_t).
Context (fuel : nat).

(** [amqp_time_tv_until(deadline, &tv, &tvp)] *)
Definition tv_until (deadline : amqp_time_t) : eff (world E) (option timeval) :=
  let! now := (if (time_point_ns deadline =? UINT64_MAX) || (time_point_ns deadline =? 0)
               then ret None else on_env clock) in
  lift_res (amqp_time_tv_until now deadline).

Definition amqp_simple_wait_method_list (expected_channel : Z) (expected_methods : list Z) (deadline : amqp_time_t)
    : eff (world E) amqp_method_t :=
  let! tvp := tv_until deadline in
  let! frame := amqp_simple_wait_frame_noblock garbage uninit fuel uninit_frame tvp in
  if negb (frame_type frame =? AMQP_FRAME_METHOD) || negb (expected_channel =? channel frame) then
    fail AMQP_STATUS_WRONG_METHOD
  else
    let! method := lift_res (frame_method frame) in
    let! found := lift_res (amqp_id_in_reply_list method.1 expected_methods) in
    if negb found then fail AMQP_STATUS_WRONG_METHOD else ret method.

Definition simple_wait_method_inner (expected_channel expected_method : Z) (deadline : amqp_time_t)
    : eff (world E) amqp_method_t :=
  amqp_simple_wait_method_list expected_channel [expected_method; 0] deadline.

Definition amqp_simple_wait_method (expected_channel expected_method : Z) : eff (world E) amqp_method_t :=
  simple_wait_method_inner expected_channel expected_method amqp_time_infinite.

(** The condition under which a frame ends the wait of [simple_rpc_inner]. *)
Definition answers (ch : Z) (expected_reply_ids : list Z) (frame : amqp_frame_t) : res bool :=
  if negb (frame_type frame =? AMQP_FRAME_METHOD) then Ret false
  else
    match frame_method frame with
    | Ret (id, _) =>
        let is_connection_close := (channel frame =? 0) && (id =? AMQP_CONNECTION_CLOSE_METHOD) in
        if channel frame =? ch then
          match amqp_id_in_reply_list id expected_reply_ids with
          | Ret expected => Ret (expected || (id =? AMQP_CHANNEL_CLOSE_METHOD) || is_connection_close)
          | r => r
          end
        else Ret is_connection_close
    | _ => Undef
    end.

(** [retry:] *)
Fixpoint rpc_loop (fuel' : nat) (ch : Z) (expected_reply_ids : list Z) (deadline : amqp_time_t) (frame : amqp_frame_t)
    : eff (world E) amqp_rpc_reply_t :=
  match fuel' with
  | O => nofuel
  | S fuel'' => fun w =>
      match wait_frame_inner garbage uninit fuel frame deadline w with
      | (Err st, w) =>
          (do! (if st =? AMQP_STATUS_TIMEOUT then do! amqp_socket_close AMQP_SC_FORCE in ret tt else ret tt) in
           ret (amqp_rpc_reply_error st)) w
      | (Undef, w) => (Undef, w)
      | (NoFuel, w) => (NoFuel, w)
      | (Ret frame, w) =>
          (let! ours := lift_res (answers ch expected_reply_ids frame) in
           if negb ours then
             let! st := status (on_k (append_frame frame)) in
             if negb (st =? AMQP_STATUS_OK) then ret (amqp_rpc_reply_error st)
             else rpc_loop fuel'' ch expected_reply_ids deadline frame
           else
             let! method := lift_res (frame_method frame) in
             let! expected := lift_res (amqp_id_in_reply_list method.1 expected_reply_ids) in
             ret (mk_rpc_reply (if expected then AMQP_RESPONSE_NORMAL else AMQP_RESPONSE_SERVER_EXCEPTION) method 0)) w
      end
  end.

Definition simple_rpc_inner (ch request_id : Z) (expected_reply_ids : list Z) (request : method_t)
    (deadline : amqp_time_t) : eff (world E) amqp_rpc_reply_t :=
  let! st := status (amqp_send_method garbage uninit fuel ch request_id request) in
  if st <? 0 then ret (amqp_rpc_reply_error st)
  else rpc_loop fuel ch expected_reply_ids deadline uninit_frame.

Definition amqp_simple_rpc (ch request_id : Z) (expected_reply_ids : list Z) (request : method_t)
    : eff (world E) amqp_rpc_reply_t := fun w =>
  match from_now (k_rpc_timeout (w_k w)) w with
  | (Ret deadline, w) => simple_rpc_inner ch request_id expected_reply_ids request deadline w
  | (Err st, w) => (Ret (amqp_rpc_reply_error st), w)
  | (Undef, w) => (Undef, w)
  | (NoFuel, w) => (NoFuel, w)
  end.

(** The decoded reply, [None] for [NULL]. *)
Definition amqp_simple_rpc_decoded (ch request_id reply_id : Z) (request : method_t)
    : eff (world E) (option method_t) := fun w =>
  match from_now (k_rpc_timeout (w_k w)) w with
  | (Ret deadline, w) =>
      (let! r := simple_rpc_inner ch request_id [reply_id; 0] request deadline in
       do! modify_k (set_most_recent_api_result r) in
       ret (match reply_type r with AMQP_RESPONSE_NORMAL => (reply r).2 | _ => None end)) w
  | (Err st, w) => (do! modify_k (set_most_recent_api_result (amqp_rpc_reply_error st)) in ret None) w
  | (Undef, w) => (Undef, w)
  | (NoFuel, w) => (NoFuel, w)
  end.

End Rpc.

Definition amqp_get_rpc_reply (k : connection) : amqp_rpc_reply_t := k_most_recent_api_result k.
