(* ===== verification/Wrappers.v ===== *)
(** * The generated RPC wrappers at the end of [librabbitmq/amqp_framing.c]

    Each builds the request structure from its arguments, the reserved members set to
    zero or empty, and waits for the matching reply. *)

From S2P Require Import Prelude Status Memory Layout Pool PoolMem Codec Table MethodCodec.
From S2P Require Import MethodTypes MethodDecode MethodEncode Properties Connection Time Net ConnState Socket Rpc.

Section Wrappers.
Context `{Host} {E : Type} `{Net E}.
Context (garbage : addr -> Z -> list byte) (uninit : amqp_basic_properties_t).
Context (fuel : nat).

Definition amqp_connection_update_secret (ch : Z) (new_secret : amqp_bytes_t) (reason : amqp_bytes_t) : eff (world E) (option method_t) :=
  amqp_simple_rpc_decoded garbage uninit fuel ch AMQP_CONNECTION_UPDATE_SECRET_METHOD AMQP_CONNECTION_UPDATE_SECRET_OK_METHOD
    (M_connection_update_secret (mk_connection_update_secret new_secret reason)).

Definition amqp_channel_open (ch : Z) : eff (world E) (option method_t) :=
  amqp_simple_rpc_decoded garbage uninit fuel ch AMQP_CHANNEL_OPEN_METHOD AMQP_CHANNEL_OPEN_OK_METHOD
    (M_channel_open (mk_channel_open [])).

Definition amqp_channel_flow (ch : Z) (active : Z) : eff (world E) (option method_t) :=
  amqp_simple_rpc_decoded garbage uninit fuel ch AMQP_CHANNEL_FLOW_METHOD AMQP_CHANNEL_FLOW_OK_METHOD
    (M_channel_flow (mk_channel_flow active)).

Definition amqp_exchange_declare (ch : Z) (exchange : amqp_bytes_t) (type : amqp_bytes_t) (passive : Z) (durable : Z) (auto_delete : Z) (internal : Z) (arguments : amqp_table_t) : eff (world E) (option method_t) :=
  amqp_simple_rpc_decoded garbage uninit fuel ch AMQP_EXCHANGE_DECLARE_METHOD AMQP_EXCHANGE_DECLARE_OK_METHOD
    (M_exchange_declare (mk_exchange_declare 0 exchange type passive durable auto_delete internal 0 arguments)).

Definition amqp_exchange_delete (ch : Z) (exchange : amqp_bytes_t) (if_unused : Z) : eff (world E) (option method_t) :=
  amqp_simple_rpc_decoded garbage uninit fuel ch AMQP_EXCHANGE_DELETE_METHOD AMQP_EXCHANGE_DELETE_OK_METHOD
    (M_exchange_delete (mk_exchange_delete 0 exchange if_unused 0)).

Definition amqp_exchange_bind (ch : Z) (destination : amqp_bytes_t) (source : amqp_bytes_t) (routing_key : amqp_bytes_t) (arguments : amqp_table_t) : eff (world E) (option method_t) :=
  amqp_simple_rpc_decoded garbage uninit fuel ch AMQP_EXCHANGE_BIND_METHOD AMQP_EXCHANGE_BIND_OK_METHOD
    (M_exchange_bind (mk_exchange_bind 0 destination source routing_key 0 arguments)).

Definition amqp_exchange_unbind (ch : Z) (destination : amqp_bytes_t) (source : amqp_bytes_t) (routing_key : amqp_bytes_t) (arguments : amqp_table_t) : eff (world E) (option method_t) :=
  amqp_simple_rpc_decoded garbage uninit fuel ch AMQP_EXCHANGE_UNBIND_METHOD AMQP_EXCHANGE_UNBIND_OK_METHOD
    (M_exchange_unbind (mk_exchange_unbind 0 destination source routing_key 0 arguments)).

Definition amqp_queue_declare (ch : Z) (queue : amqp_bytes_t) (passive : Z) (durable : Z) (exclusive : Z) (auto_delete : Z) (arguments : amqp_table_t) : eff (world E) (option method_t) :=
  amqp_simple_rpc_decoded garbage uninit fuel ch AMQP_QUEUE_DECLARE_METHOD AMQP_QUEUE_DECLARE_OK_METHOD
    (M_queue_declare (mk_queue_declare 0 queue passive durable exclusive auto_delete 0 arguments)).

Definition amqp_queue_bind (ch : Z) (queue : amqp_bytes_t) (exchange : amqp_bytes_t) (routing_key : amqp_bytes_t) (arguments : amqp_table_t) : eff (world E) (option method_t) :=
  amqp_simple_rpc_decoded garbage uninit fuel ch AMQP_QUEUE_BIND_METHOD AMQP_QUEUE_BIND_OK_METHOD
    (M_queue_bind (mk_queue_bind 0 queue exchange routing_key 0 arguments)).

Definition amqp_queue_purge (ch : Z) (queue : amqp_bytes_t) : eff (world E) (option method_t) :=
  amqp_simple_rpc_decoded garbage uninit fuel ch AMQP_QUEUE_PURGE_METHOD AMQP_QUEUE_PURGE_OK_METHOD
    (M_queue_purge (mk_queue_purge 0 queue 0)).

Definition amqp_queue_delete (ch : Z) (queue : amqp_bytes_t) (if_unused : Z) (if_empty : Z) : eff (world E) (option method_t) :=
  amqp_simple_rpc_decoded garbage uninit fuel ch AMQP_QUEUE_DELETE_METHOD AMQP_QUEUE_DELETE_OK_METHOD
    (M_queue_delete (mk_queue_delete 0 queue if_unused if_empty 0)).

Definition amqp_queue_unbind (ch : Z) (queue : amqp_bytes_t) (exchange : amqp_bytes_t) (routing_key : amqp_bytes_t) (arguments : amqp_table_t) : eff (world E) (option method_t) :=
  amqp_simple_rpc_decoded garbage uninit fuel ch AMQP_QUEUE_UNBIND_METHOD AMQP_QUEUE_UNBIND_OK_METHOD
    (M_queue_unbind (mk_queue_unbind 0 queue exchange routing_key arguments)).

Definition amqp_basic_qos (ch : Z) (prefetch_size : Z) (prefetch_count : Z) (global : Z) : eff (world E) (option method_t) :=
  amqp_simple_rpc_decoded garbage uninit fuel ch AMQP_BASIC_QOS_METHOD AMQP_BASIC_QOS_OK_METHOD
    (M_basic_qos (mk_basic_qos prefetch_size prefetch_count global)).

Definition amqp_basic_consume (ch : Z) (queue : amqp_bytes_t) (consumer_tag : amqp_bytes_t) (no_local : Z) (no_ack : Z) (exclusive : Z) (arguments : amqp_table_t) : eff (world E) (option method_t) :=
  amqp_simple_rpc_decoded garbage uninit fuel ch AMQP_BASIC_CONSUME_METHOD AMQP_BASIC_CONSUME_OK_METHOD
    (M_basic_consume (mk_basic_consume 0 queue consumer_tag no_local no_ack exclusive 0 arguments)).

Definition amqp_basic_cancel (ch : Z) (consumer_tag : amqp_bytes_t) : eff (world E) (option method_t) :=
  amqp_simple_rpc_decoded garbage uninit fuel ch AMQP_BASIC_CANCEL_METHOD AMQP_BASIC_CANCEL_OK_METHOD
    (M_basic_cancel (mk_basic_cancel consumer_tag 0)).

Definition amqp_basic_recover (ch : Z) (requeue : Z) : eff (world E) (option method_t) :=
  amqp_simple_rpc_decoded garbage uninit fuel ch AMQP_BASIC_RECOVER_METHOD AMQP_BASIC_RECOVER_OK_METHOD
    (M_basic_recover (mk_basic_recover requeue)).

Definition amqp_tx_select (ch : Z) : eff (world E) (option method_t) :=
  amqp_simple_rpc_decoded garbage uninit fuel ch AMQP_TX_SELECT_METHOD AMQP_TX_SELECT_OK_METHOD (M_tx_select mk_tx_select).

Definition amqp_tx_commit (ch : Z) : eff (world E) (option method_t) :=
  amqp_simple_rpc_decoded garbage uninit fuel ch AMQP_TX_COMMIT_METHOD AMQP_TX_COMMIT_OK_METHOD (M_tx_commit mk_tx_commit).

Definition amqp_tx_rollback (ch : Z) : eff (world E) (option method_t) :=
  amqp_simple_rpc_decoded garbage uninit fuel ch AMQP_TX_ROLLBACK_METHOD AMQP_TX_ROLLBACK_OK_METHOD (M_tx_rollback mk_tx_rollback).

Definition amqp_confirm_select (ch : Z) : eff (world E) (option method_t) :=
  amqp_simple_rpc_decoded garbage uninit fuel ch AMQP_CONFIRM_SELECT_METHOD AMQP_CONFIRM_SELECT_OK_METHOD
    (M_confirm_select (mk_confirm_select 0)).

End Wrappers.
