(* ===== verification/QueueSpec.v ===== *)
(** * The frame queue: [amqp_queue_frame], [amqp_put_back_frame] and their readers
    implement a list of frames, and releasing buffers never takes a queued frame away *)

From S2P Require Import Prelude Status Memory Layout Pool PoolMem PoolSep Codec Table MethodCodec.
From S2P Require Import MethodTypes MethodDecode MethodEncode Properties PropertiesSpec Connection Time Net ConnState Socket.

(** ** Linked lists *)

(** Following [next] from [p] visits the links [addrs], which hold the frames [fs]. *)
Inductive chain (links : gmap Z amqp_link_t) : option Z -> list Z -> list amqp_frame_t -> Prop :=
| chain_nil : chain links None [] []
| chain_cons a l addrs fs :
    links !! a = Some l -> chain links (l_next l) addrs fs ->
    chain links (Some a) (a :: addrs) (l_data l :: fs).

(** The queue holds the frames [fs], the oldest first. *)
Definition queue_of (q : frame_queue) (fs : list amqp_frame_t) : Prop :=
  exists addrs, chain (q_links q) (first_queued_frame q) addrs fs /\ last addrs = last_queued_frame q /\
    NoDup addrs /\ forall a, is_Some (q_links q !! a) -> a < q_fresh q.

Lemma chain_length links p addrs fs : chain links p addrs fs -> length addrs = length fs.
Proof. induction 1; simpl; congruence. Qed.

Lemma chain_live links p addrs fs a : chain links p addrs fs -> a ∈ addrs -> is_Some (links !! a).
Proof. induction 1 as [|b l addrs fs E _ IH]; intros Ha; elems; [done|]. destruct Ha as [->|Ha]; [by eexists|auto]. Qed.

Lemma chain_frame links p addrs fs a l :
  chain links p addrs fs -> NoDup addrs -> a ∉ addrs -> chain (<[a := l]> links) p addrs fs.
Proof.
  induction 1 as [|b lb addrs fs E _ IH]; intros Hnd Ha; [constructor|]. elems. apply NoDup_cons in Hnd as [_ Hnd].
  constructor; [by rewrite lookup_insert_ne by (intros ->; tauto)|]. apply IH; tauto.
Qed.

Lemma chain_snoc links p addrs fs a f :
  chain links p addrs fs -> NoDup addrs -> addrs <> [] -> a ∉ addrs -> links !! a = Some (mk_link None f) ->
  exists b lb, last addrs = Some b /\ links !! b = Some lb /\
    chain (<[b := mk_link (Some a) (l_data lb)]> links) p (addrs ++ [a]) (fs ++ [f]).
Proof.
  induction 1 as [|b lb addrs fs E Hc IH]; intros Hnd Hne Ha Ea; [done|]. elems. apply NoDup_cons in Hnd as [Hb Hnd].
  inversion Hc as [E1 E2 E3|c lc addrs' fs' Elc Hc' E1 E2 E3]; subst.
  - exists b, lb. split; [done|]. split; [done|]. simpl.
    apply (chain_cons _ b (mk_link (Some a) (l_data lb))); [apply lookup_insert_eq|].
    apply (chain_cons _ a (mk_link None f)); [by rewrite lookup_insert_ne by (intros ->; tauto)|constructor].
  - destruct IH as (d & ld & El & Ed & Hch); [done|done|tauto|done|]. exists d, ld. split; [done|]. split; [done|].
    rewrite <- !app_comm_cons. constructor; [|done]. rewrite lookup_insert_ne; [done|].
    intros ->. apply Hb. by apply last_Some_elem_of.
Qed.

Lemma queue_of_nil q : queue_of q [] -> first_queued_frame q = None /\ last_queued_frame q = None.
Proof. intros (addrs & Hc & Hl & _). inversion Hc; subst. by rewrite <- Hl. Qed.

(** Moving [first_queued_frame] to a later link. *)
Lemma queue_advance q p addrs fs :
  chain (q_links q) p addrs fs -> (addrs <> [] -> last addrs = last_queued_frame q) -> NoDup addrs ->
  (forall a, is_Some (q_links q !! a) -> a < q_fresh q) -> queue_of (advance_queue p q) fs.
Proof.
  intros Hc Hl Hnd Hfr. exists addrs. inversion Hc; subst; simpl; (split; [done|]); (split; [|done]); [done|by apply Hl].
Qed.

Lemma queue_of_cons q f fs :
  queue_of q (f :: fs) -> exists a l, first_queued_frame q = Some a /\ q_links q !! a = Some l /\ l_data l = f /\
    is_Some (last_queued_frame q) /\ queue_of (advance_queue (l_next l) q) fs.
Proof.
  intros (addrs & Hc & Hl & Hnd & Hfr). inversion Hc as [|a l addrs' fs' E Hc' E1 E2 E3]; subst.
  exists a, l. split; [done|]. split; [done|]. split; [done|]. split.
  { rewrite <- Hl. by apply last_is_Some. }
  apply NoDup_cons in Hnd as [_ Hnd]. eapply queue_advance; [done| |done|done].
  intros Hne. rewrite <- Hl. by destruct addrs'.
Qed.

Lemma queue_head q fs : queue_of q fs -> (first_queued_frame q = None <-> fs = []) /\ (last_queued_frame q = None <-> fs = []).
Proof.
  intros Hq. destruct fs as [|f fs].
  - destruct (queue_of_nil q Hq) as [-> ->]. done.
  - destruct (queue_of_cons q f fs Hq) as (a & l & -> & _ & _ & [b ->] & _). done.
Qed.

(** ** Finding a frame *)

Lemma find_link_spec links P p addrs fs fuel :
  chain links p addrs fs -> (length fs < fuel)%nat ->
  (exists fs1 f fs2 a l, fs = fs1 ++ f :: fs2 /\ Forall (fun g => P g = false) fs1 /\ P f = true /\
     find_link fuel links P p = Ret (Some (a, l)) /\ l_data l = f /\
     exists addrs2, chain links (l_next l) addrs2 fs2 /\ suffix (a :: addrs2) addrs) \/
  (Forall (fun g => P g = false) fs /\ find_link fuel links P p = Ret None).
Proof.
  intros Hc. revert fuel. induction Hc as [|a l addrs fs E Hc IH]; intros [|fuel] Hf; simpl in Hf; try lia.
  { right. by split. }
  simpl. rewrite E. destruct (P (l_data l)) eqn:EP.
  - left. exists [], (l_data l), fs, a, l. split; [done|]. split; [done|]. split; [done|]. split; [done|]. split; [done|].
    exists addrs. split; [done|]. by exists [].
  - destruct (IH fuel ltac:(lia)) as [(fs1 & f & fs2 & b & lb & -> & H1 & H2 & H3 & H4 & addrs2 & H5 & H6)|[H1 H2]].
    + left. exists (l_data l :: fs1), f, fs2, b, lb. split; [done|]. split; [by constructor|]. split; [done|].
      split; [done|]. split; [done|]. exists addrs2. split; [done|]. by apply suffix_cons_r.
    + right. split; [by constructor|done].
Qed.

Lemma chain_bound links p addrs fs : chain links p addrs fs -> NoDup addrs -> (length fs <= size links)%nat.
Proof.
  intros Hc Hnd. rewrite <- (chain_length _ _ _ _ Hc). rewrite <- size_dom.
  rewrite <- (size_list_to_set (C := gset Z) addrs Hnd). apply subseteq_size. intros a Ha.
  apply elem_of_list_to_set in Ha. apply elem_of_dom. by eapply chain_live.
Qed.

(** The queue after the search of [amqp_simple_wait_frame_on_channel]. *)
Lemma find_queued_spec q P fs :
  queue_of q fs ->
  (exists fs1 f fs2 a l, fs = fs1 ++ f :: fs2 /\ Forall (fun g => P g = false) fs1 /\ P f = true /\
     find_queued q P = Ret (Some (a, l)) /\ l_data l = f /\ queue_of (advance_queue (l_next l) q) fs2) \/
  (Forall (fun g => P g = false) fs /\ find_queued q P = Ret None).
Proof.
  intros (addrs & Hc & Hl & Hnd & Hfr). pose proof (chain_bound _ _ _ _ Hc Hnd).
  destruct (find_link_spec (q_links q) P _ addrs fs (Datatypes.S (size (q_links q))) Hc ltac:(lia))
    as [(fs1 & f & fs2 & a & l & -> & H1 & H2 & H3 & H4 & addrs2 & H5 & H6)|[H1 H2]]; [left|by right].
  exists fs1, f, fs2, a, l. split; [done|]. split; [done|]. split; [done|]. split; [done|]. split; [done|].
  destruct H6 as [addrs1 E]. rewrite E in Hl, Hnd. apply NoDup_app in Hnd as (_ & _ & Hnd).
  apply NoDup_cons in Hnd as [_ Hnd]. rewrite last_app_cons in Hl.
  eapply queue_advance; [done| |done|done]. intros Hne. rewrite <- Hl. by destruct addrs2.
Qed.

(** ** Adding a frame *)

(** A queue beside which the link [a] for the frame [f] has been made. *)
Definition queue_with (q : frame_queue) (fs : list amqp_frame_t) (a : Z) (f : amqp_frame_t) : Prop :=
  exists addrs, chain (q_links q) (first_queued_frame q) addrs fs /\ last addrs = last_queued_frame q /\
    NoDup addrs /\ (a ∉ addrs) /\ (exists nx, q_links q !! a = Some (mk_link nx f)) /\
    forall b, is_Some (q_links q !! b) -> b < q_fresh q.

Lemma new_link_with q fs f :
  queue_of q fs -> exists q1, new_link f q = (Ret (q_fresh q), q1) /\ queue_with q1 fs (q_fresh q) f /\ queue_of q1 fs.
Proof.
  intros (addrs & Hc & Hl & Hnd & Hfr). eexists. split; [done|].
  assert (Ha : q_fresh q ∉ addrs).
  { intros Ha. pose proof (chain_live _ _ _ _ _ Hc Ha) as Hs. apply Hfr in Hs. lia. }
  assert (Hf : forall b, is_Some (<[q_fresh q := mk_link None f]> (q_links q) !! b) -> b < q_fresh q + 1).
  { intros b. rewrite lookup_insert_is_Some'. intros [<-|Hb]; [lia|]. apply Hfr in Hb. lia. }
  split; exists addrs; simpl; (split; [by apply chain_frame|]); (split; [done|]); (split; [done|]); [|done].
  split; [done|]. split; [|done]. exists None. apply lookup_insert_eq.
Qed.

(** Writing the [next] of the new link. *)
Lemma set_next_with q fs a f nx :
  queue_with q fs a f -> exists q1, set_next (Some a) nx q = (Ret tt, q1) /\ queue_with q1 fs a f /\
    q_links q1 !! a = Some (mk_link nx f) /\ first_queued_frame q1 = first_queued_frame q /\
    last_queued_frame q1 = last_queued_frame q.
Proof.
  intros (addrs & Hc & Hl & Hnd & Ha & [nx0 El] & Hfr). unfold set_next. rewrite El. eexists. split; [done|].
  split; [|split; [apply lookup_insert_eq|done]]. exists addrs. simpl. split; [by apply chain_frame|].
  split; [done|]. split; [done|]. split; [done|]. split; [exists nx; apply lookup_insert_eq|].
  intros b. rewrite lookup_insert_is_Some'. intros [<-|Hb]; [apply Hfr; by eexists|by apply Hfr].
Qed.

Lemma link_only q a f :
  queue_with q [] a f -> q_links q !! a = Some (mk_link None f) ->
  queue_of (set_last (Some a) (set_first (Some a) q)) [f].
Proof.
  intros (addrs & _ & _ & _ & _ & _ & Hfr) El. exists [a]. split; [|split; [done|split; [apply NoDup_singleton|done]]].
  by apply (chain_cons _ a (mk_link None f)); [|constructor].
Qed.

Lemma link_after q fs a f :
  queue_with q fs a f -> fs <> [] -> q_links q !! a = Some (mk_link None f) ->
  exists q1, set_next (last_queued_frame q) (Some a) q = (Ret tt, q1) /\
    queue_of (set_last (Some a) q1) (fs ++ [f]) /\
    (q_links q1 !! a = Some (mk_link None f)) /\ exists addrs, chain (q_links q1) (first_queued_frame q1) (addrs ++ [a]) (fs ++ [f]).
Proof.
  intros (addrs & Hc & Hl & Hnd & Ha & _ & Hfr) Hne El.
  assert (Hne' : addrs <> []) by (intros ->; by inversion Hc).
  destruct (chain_snoc _ _ _ _ a f Hc Hnd Hne' Ha El) as (b & lb & Eb & Elb & Hc'). rewrite <- Hl, Eb.
  unfold set_next. rewrite Elb. eexists. split; [done|]. split.
  - exists (addrs ++ [a]). split; [done|]. split; [by rewrite last_snoc|]. split.
    + apply NoDup_app. split; [done|]. split; [|apply NoDup_singleton]. intros x Hx Hx'. elems. destruct Hx' as [->|[]]. done.
    + intros x. simpl. rewrite lookup_insert_is_Some'. intros [<-|Hx]; [apply Hfr; by eexists|by apply Hfr].
  - split; [|by exists addrs]. simpl. rewrite lookup_insert_ne; [done|]. intros ->. apply Ha. by apply last_Some_elem_of.
Qed.

Lemma link_before q fs a f :
  queue_with q fs a f -> fs <> [] -> q_links q !! a = Some (mk_link (first_queued_frame q) f) ->
  queue_of (set_first (Some a) q) (f :: fs).
Proof.
  intros (addrs & Hc & Hl & Hnd & Ha & _ & Hfr) Hne El. exists (a :: addrs). simpl.
  split; [by apply (chain_cons _ a (mk_link (first_queued_frame q) f))|]. split; [|split; [by apply NoDup_cons|done]].
  destruct addrs; [by inversion Hc; subst|done].
Qed.

(** ** The operations on a connection *)

Lemma k_channel_pool_ret ch k :
  exists p t m, k_channel_pool ch k = (Ret p, set_in (set_pools (k_in k) t m) k).
Proof.
  unfold k_channel_pool, amqp_get_or_create_channel_pool. destruct (find_entry ch _) as [p|]; [by do 3 eexists|].
  destruct (malloc_cases (sizeof layout_amqp_pool_table_entry_t) (m_heap (k_mem k))) as [(r & _ & E)|E];
    rewrite E; by do 3 eexists.
Qed.

Lemma k_pool_alloc_ret p n k : exists a m, k_pool_alloc p n k = (Ret a, set_mem m k).
Proof. unfold k_pool_alloc. destruct (pool_alloc p n (k_mem k)) as [a m]. by do 2 eexists. Qed.

Lemma create_link_cases f k fs :
  queue_of (k_queue k) fs ->
  exists r k1, amqp_create_link_for_frame f k = (Ret r, k1) /\
    match r with
    | Some a => queue_with (k_queue k1) fs a f
    | None => queue_of (k_queue k1) fs
    end.
Proof.
  intros Hq. unfold amqp_create_link_for_frame.
  destruct (k_channel_pool_ret (channel f) k) as (p & t & m & E). rewrite (bind_step _ _ _ _ _ E).
  destruct p as [p|]; [|by do 2 eexists]. set (k0 := set_in _ k).
  destruct (k_pool_alloc_ret p (sizeof layout_amqp_link_t) k0) as (a1 & m1 & E1). rewrite (bind_step _ _ _ _ _ E1).
  destruct (k_pool_alloc_ret p (sizeof layout_amqp_frame_t) (set_mem m1 k0)) as (a2 & m2 & E2).
  rewrite (bind_step _ _ _ _ _ E2). clear E E1 E2. destruct a1, a2; try by do 2 eexists. unfold bind, on_queue. cbn [set_mem set_in k_queue].
  destruct (new_link_with (k_queue k0) fs f Hq) as (q1 & E1 & Hw & _). rewrite E1. do 2 eexists. split; [done|]. done.
Qed.

(** The outcome of adding a frame: the queue [fs'], or [NO_MEMORY] and the old queue. *)
Definition queued (fs fs' : list amqp_frame_t) (out : res unit * connection) : Prop :=
  match out with
  | (Ret _, k') => queue_of (k_queue k') fs'
  | (Err st, k') => st = AMQP_STATUS_NO_MEMORY /\ queue_of (k_queue k') fs
  | _ => False
  end.

Lemma on_queue_step {A} (m : eff frame_queue A) k r q :
  m (k_queue k) = (Ret r, q) -> on_queue m k = (Ret r, set_queue q k).
Proof. unfold on_queue. by intros ->. Qed.

(** The queue part of [amqp_queue_frame]. *)
Lemma enqueue_link q fs a f :
  queue_with q fs a f ->
  exists q', (let! q := get in
              do! match first_queued_frame q with
                  | None => modify (set_first (Some a))
                  | Some _ => set_next (last_queued_frame q) (Some a)
                  end in
              do! set_next (Some a) None in
              modify (set_last (Some a))) q = (Ret tt, q') /\ queue_of q' (fs ++ [f]).
Proof.
  intros Hr. change (bind get ?c q) with (c q q). cbv beta.
  destruct fs as [|g fs].
  - assert (Hf : first_queued_frame q = None) by (destruct Hr as (? & Hc & _); by inversion Hc). rewrite Hf.
    change (bind (modify ?h) ?c q) with (c tt (h q)). cbv beta.
    assert (Hset : queue_with q [] a f) by done.
    destruct (set_next_with q [] a f None Hset) as (q1 & E1 & Hw1 & El & _).
    assert (E2 : set_next (Some a) None (set_first (Some a) q) = (Ret tt, set_first (Some a) q1)).
    { revert E1. unfold set_next. simpl. destruct (q_links q !! a); [|done]. by intros [= <-]. }
    rewrite (bind_step _ _ _ _ _ E2). eexists. split; [done|]. by apply link_only.
  - destruct (first_queued_frame q) as [b|] eqn:Hf; [|destruct Hr as (? & Hc & _); rewrite Hf in Hc; by inversion Hc].
    destruct Hr as (addrs & Hc & Hl & Hnd & Ha & [nx El] & Hfr).
    assert (Hw : queue_with q (g :: fs) a f) by (exists addrs; eauto 10).
    destruct (set_next_with q _ a f None Hw) as (q1 & E1 & Hw1 & El1 & Hf1 & Hl1).
    destruct (link_after q1 _ a f Hw1 ltac:(done) El1) as (q2 & E2 & Hq2 & El2 & _).
    (* the two writes touch different links *)
    assert (Hcomm : exists q3, set_next (last_queued_frame q) (Some a) q = (Ret tt, q3) /\
              set_next (Some a) None q3 = (Ret tt, q2)).
    { rewrite Hl1 in E2. revert E1 E2. unfold set_next. rewrite El. intros [= <-].
      destruct (last_queued_frame q) as [c|] eqn:Ec; [|done]. simpl.
      assert (Hca : c <> a) by (intros ->; apply Ha; by apply last_Some_elem_of).
      rewrite lookup_insert_ne by done. destruct (q_links q !! c) as [lc|]; [|done]. intros [= <-].
      eexists. split; [done|]. simpl. rewrite lookup_insert_ne by done. rewrite El. simpl.
      unfold set_links. simpl. by rewrite insert_insert_ne by done. }
    destruct Hcomm as (q3 & E3 & E4). rewrite (bind_step _ _ _ _ _ E3), (bind_step _ _ _ _ _ E4).
    eexists. split; [done|]. exact Hq2.
Qed.

Lemma queue_frame_queued f k fs : queue_of (k_queue k) fs -> queued fs (fs ++ [f]) (amqp_queue_frame f k).
Proof.
  intros Hq. unfold amqp_queue_frame. destruct (create_link_cases f k fs Hq) as (r & k1 & E & Hr).
  rewrite (bind_step _ _ _ _ _ E). destruct r as [a|]; [|by split]. clear Hq.
  destruct (enqueue_link _ _ _ _ Hr) as (q' & E' & Hq'). rewrite (on_queue_step _ _ _ _ E'). exact Hq'.
Qed.

Lemma put_back_queued f k fs : queue_of (k_queue k) fs -> queued fs (f :: fs) (amqp_put_back_frame f k).
Proof.
  intros Hq. unfold amqp_put_back_frame. destruct (create_link_cases f k fs Hq) as (r & k1 & E & Hr).
  rewrite (bind_step _ _ _ _ _ E). destruct r as [a|]; [|by split]. clear Hq.
  assert (Hex : exists q', (let! q := get in
                match first_queued_frame q with
                | None =>
                    do! modify (set_first (Some a)) in
                    do! modify (set_last (Some a)) in
                    set_next (Some a) None
                | Some _ =>
                    do! set_next (Some a) (first_queued_frame q) in
                    modify (set_first (Some a))
                end) (k_queue k1) = (Ret tt, q') /\ queue_of q' (f :: fs)).
  { set (q := k_queue k1) in *. change (bind get ?c q) with (c q q). cbv beta.
    destruct (set_next_with q fs a f (first_queued_frame q) Hr) as (q1 & E1 & Hw1 & El & Hf1 & _).
    destruct fs as [|g fs].
    - assert (Hf : first_queued_frame q = None) by (destruct Hr as (? & Hc & _); by inversion Hc). rewrite Hf in *.
      change (bind (modify ?h) ?c ?s) with (c tt (h s)). cbv beta.
      exists (set_last (Some a) (set_first (Some a) q1)). split; [|by apply link_only].
      revert E1. unfold set_next, bind, modify. simpl. destruct (q_links q !! a); [|done]. by intros [= <-].
    - destruct (first_queued_frame q) as [b|] eqn:Hf; [|destruct Hr as (? & Hc & _); rewrite Hf in Hc; by inversion Hc].
      rewrite (bind_step _ _ _ _ _ E1). eexists. split; [done|]. apply link_before; [done|done|]. by rewrite Hf1. }
  destruct Hex as (q' & E' & Hq'). rewrite (on_queue_step _ _ _ _ E'). exact Hq'.
Qed.

(** The queue part of [append_frame]. *)
Lemma append_link f q fs :
  queue_of q fs ->
  exists q', (let! a := new_link f in
              do! set_next (Some a) None in
              let! q := get in
              do! match last_queued_frame q with
                  | None => modify (set_first (Some a))
                  | Some _ => set_next (last_queued_frame q) (Some a)
                  end in
              modify (set_last (Some a))) q = (Ret tt, q') /\ queue_of q' (fs ++ [f]).
Proof.
  intros Hq. destruct (new_link_with q fs f Hq) as (q1 & E1 & Hw & _). rewrite (bind_step _ _ _ _ _ E1).
  set (a := q_fresh q) in *. destruct (set_next_with q1 fs a f None Hw) as (q2 & E2 & Hw2 & El & _).
  rewrite (bind_step _ _ _ _ _ E2). change (bind get ?c ?s) with (c s s). cbv beta.
  destruct fs as [|g fs].
  - assert (Hl : last_queued_frame q2 = None) by (destruct Hw2 as (? & Hc & Hl & _); inversion Hc; subst; by rewrite <- Hl). rewrite Hl.
    eexists. split; [done|]. by apply link_only.
  - destruct (link_after q2 _ a f Hw2 ltac:(done) El) as (q3 & E3 & Hq3 & _).
    destruct (last_queued_frame q2) as [b|] eqn:Hl.
    + rewrite (bind_step _ _ _ _ _ E3). eexists. split; [done|]. exact Hq3.
    + destruct Hw2 as (addrs & Hc & Hla & _). rewrite Hl in Hla. apply last_None in Hla as ->. by inversion Hc.
Qed.

Lemma append_frame_queued f k fs : queue_of (k_queue k) fs -> queued fs (fs ++ [f]) (append_frame f k).
Proof.
  intros Hq. unfold append_frame. destruct (k_channel_pool_ret (channel f) k) as (p & t & m & E).
  rewrite (bind_step _ _ _ _ _ E). destruct p as [p|]; [|by split]. set (k0 := set_in _ k).
  destruct (k_pool_alloc_ret p (sizeof layout_amqp_frame_t) k0) as (a1 & m1 & E1). rewrite (bind_step _ _ _ _ _ E1).
  destruct (k_pool_alloc_ret p (sizeof layout_amqp_link_t) (set_mem m1 k0)) as (a2 & m2 & E2).
  rewrite (bind_step _ _ _ _ _ E2). destruct a1, a2; try by split. destruct (append_link f (k_queue k) fs Hq) as (q' & E' & Hq').
  by rewrite (on_queue_step _ (set_mem m2 (set_mem m1 k0)) tt q' E').
Qed.

(** ** Releasing buffers *)

(** A loop that keeps [I] and, turn by turn, makes [D] hold of each element for good. *)
Lemma for_each_visits {S A} (I : S -> Prop) (D : A -> S -> Prop) (f : A -> eff S unit) l :
  (forall x s, x ∈ l -> I s ->
     exists s', f x s = (Ret tt, s') /\ I s' /\ D x s' /\ forall y, D y s -> D y s') ->
  forall s, I s -> exists s', for_each f l s = (Ret tt, s') /\ I s' /\ (forall x, x ∈ l -> D x s') /\ forall y, D y s -> D y s'.
Proof.
  induction l as [|x l IH]; intros Hf s Hs.
  { exists s. split; [done|]. split; [done|]. split; [|done]. intros x Hx. by apply elem_of_nil in Hx. }
  destruct (Hf x s ltac:(elems; by left) Hs) as (s1 & E1 & H1 & D1 & P1). simpl. rewrite (bind_step _ _ _ _ _ E1).
  destruct (IH ltac:(intros; apply Hf; [elems; by right|done]) s1 H1) as (s2 & E2 & H2 & D2 & P2).
  exists s2. split; [done|]. split; [done|]. split; [|eauto]. intros y Hy. elems. destruct Hy as [->|Hy]; auto.
Qed.

(** The table's pools are among [S], and no two channels share one. *)
Definition pools_in (S : gset Z) (t : pool_table_t) : Prop :=
  (forall ch p, amqp_get_channel_pool t ch = Some p -> p ∈ S) /\
  forall c1 c2 p, amqp_get_channel_pool t c1 = Some p -> amqp_get_channel_pool t c2 = Some p -> c1 = c2.

Definition recycled (pl : amqp_pool_t) : Prop :=
  alloc_block pl = None /\ alloc_used pl = 0 /\ next_page pl = 0 /\ num_blocks (large_blocks pl) = 0.

Definition on_channel (ch : Z) (fs : list amqp_frame_t) : Prop := exists f, f ∈ fs /\ channel f = ch.

Lemma chain_filter links p addrs fs ch :
  chain links p addrs fs -> Forall (fun f => (ch =? channel f) = false) fs ->
  chain (filter (fun al : Z * amqp_link_t => channel (l_data al.2) <> ch) links) p addrs fs.
Proof.
  induction 1 as [|a l addrs fs E _ IH]; intros Hall; [constructor|]. apply Forall_cons in Hall as [Ha Hall].
  constructor; [|by apply IH]. apply map_lookup_filter_Some. split; [done|]. simpl. apply Z.eqb_neq in Ha. congruence.
Qed.

Lemma forget_links_queue q ch fs :
  queue_of q fs -> Forall (fun f => (ch =? channel f) = false) fs -> queue_of (forget_links ch q) fs.
Proof.
  intros (addrs & Hc & Hl & Hnd & Hfr) Hall. exists addrs. simpl. split; [by apply chain_filter|].
  split; [done|]. split; [done|]. intros a [l El]. apply map_lookup_filter_Some in El as [El _]. apply Hfr. by eexists.
Qed.

(** The entry of a channel's pool. *)
Lemma pool_entry t ch p : amqp_get_channel_pool t ch = Some p -> exists i l, t !! i = Some l /\ (ch, p) ∈ l.
Proof.
  unfold amqp_get_channel_pool, bucket. intros E. exists (Z.to_nat (ch mod POOL_TABLE_SIZE)).
  destruct (t !! _) as [l|]; [|done]. exists l. split; [done|]. induction l as [|[c q] l IH]; [done|]. cbn in E.
  destruct (Z.eqb_spec ch c) as [->|_]; [injection E as ->; by left|right; by apply IH].
Qed.

Section Release.
Context (S : gset Z) (F : list Z) (fs : list amqp_frame_t) (k0 : connection).

(** What holds between the steps of a release that started at [k0]. *)
Definition releasing (k : connection) : Prop :=
  queue_of (k_queue k) fs /\ mem_sep S F (k_mem k) /\ k_pool_table k = k_pool_table k0 /\
  amqp_release_buffers_ok k = true /\
  (forall ch p, on_channel ch fs -> amqp_get_channel_pool (k_pool_table k0) ch = Some p ->
     m_pools (k_mem k) !! p = m_pools (k_mem k0) !! p) /\
  (forall n, room_for S n (k_mem k0) -> 0 <= n -> room_for S n (k_mem k)) /\
  h_refuse (m_heap (k_mem k)) = h_refuse (m_heap (k_mem k0)) /\
  exists q m c, k = set_client_properties c (set_queue q (set_mem m k0)) /\
    (c = k_client_properties k0 \/ c = recycled_table (k_client_properties k0)).

Lemma releasing_start :
  queue_of (k_queue k0) fs -> mem_sep S F (k_mem k0) -> c_state (k_in k0) = CONNECTION_STATE_IDLE -> releasing k0.
Proof.
  intros Hq Hm Hi. split; [done|]. split; [done|]. split; [done|].
  split; [unfold amqp_release_buffers_ok; by rewrite bool_decide_true|]. split; [done|]. split; [done|]. split; [done|].
  exists (k_queue k0), (k_mem k0), (k_client_properties k0). split; [by destruct k0 as [? []]|by left].
Qed.

(** A channel without queued frames has had its pool recycled; with the pool of channel 0
    went the client properties. *)
Definition released (entry : Z * Z) (k : connection) : Prop :=
  ~ on_channel entry.1 fs -> forall p, amqp_get_channel_pool (k_pool_table k0) entry.1 = Some p ->
    (exists pl, m_pools (k_mem k) !! p = Some pl /\ recycled pl) /\
    (entry.1 = 0 -> k_client_properties k = recycled_table (k_client_properties k0)).

Lemma recycled_table_idem t : recycled_table (recycled_table t) = recycled_table t.
Proof. by destruct t as [[]|]. Qed.

Lemma maybe_release_step entry k :
  pools_in S (k_pool_table k0) -> releasing k ->
  exists k', amqp_maybe_release_buffers_on_channel entry.1 k = (Ret tt, k') /\ releasing k' /\ released entry k' /\
    forall y, released y k -> released y k'.
Proof.
  intros [Hin Hinj] Hk. pose proof Hk as (Hq & Hm & Ht & Hi & Hsame & Hroom & Href & q0 & m0 & c0 & Ek & Hc0). set (ch := entry.1).
  unfold amqp_maybe_release_buffers_on_channel. change (bind get ?c k) with (c k k). cbv beta. rewrite Hi. cbn [negb].
  destruct (find_queued_spec (k_queue k) (fun f => ch =? channel f) fs Hq)
    as [(fs1 & f & fs2 & a & l & Efs & _ & Hf & E & _ & _)|[Hnone E]].
  - rewrite (bind_step _ _ _ (Some (a, l)) k) by (unfold lift_res; by rewrite E).
    exists k. split; [done|]. split; [done|]. split; [|done]. intros Hno. destruct Hno. exists f.
    rewrite Efs. split; [elems; right; by left|]. apply Z.eqb_eq in Hf. done.
  - rewrite (bind_step _ _ _ None k) by (unfold lift_res; by rewrite E). rewrite Ht.
    destruct (amqp_get_channel_pool (k_pool_table k0) ch) as [p|] eqn:Ep.
    2:{ exists k. split; [done|]. split; [done|]. split; [|done]. intros _ p. unfold ch in Ep. by rewrite Ep. }
    pose proof (Hin ch p Ep) as HpS. destruct (sep_pool _ _ _ Hm p HpS) as (pl & Epl & Hpl).
    destruct (recycle_frame pl (m_heap (k_mem k)) Hpl) as (pl' & h' & Er & Hp' & Hfr & Hrf & Hn1 & Hn2).
    pose proof (recycle_post pl (m_heap (k_mem k)) Hpl) as (h2 & Er2 & _). rewrite Er in Er2. injection Er2 as -> ->.
    assert (Eo : on_mem (on_pool p recycle_amqp_pool) k
      = (Ret tt, set_mem (mk_memory h2 (<[p := mk_pool (pagesize pl) (pages pl) empty_list 0 None 0]> (m_pools (k_mem k)))
                            (m_scratch (k_mem k)) (m_snext (k_mem k))) k)).
    { unfold on_mem, on_pool. rewrite Epl, Er. done. }
    rewrite (bind_step _ _ _ _ _ Eo). set (pl' := mk_pool _ _ _ _ _ _) in *. eexists. split; [done|].
    assert (Hno : ~ on_channel ch fs).
    { intros (f & Hf & Ec). rewrite Forall_forall in Hnone. specialize (Hnone f Hf). apply Z.eqb_neq in Hnone. congruence. }
    split; [|split].
    + split; [by apply forget_links_queue|]. split; [by eapply mem_sep_step|]. split; [done|]. split; [done|]. split.
      * intros c q Hc Eq. cbn. rewrite lookup_insert_ne; [by apply (Hsame c)|]. intros ->.
        apply Hno. by rewrite (Hinj ch c q Ep Eq).
      * split; [|split; [cbn; by rewrite Hrf|rewrite Ek; do 3 eexists; split; [done|]]].
        2:{ cbn. destruct (ch =? 0); [right|done]. destruct Hc0 as [-> | ->]; [done|apply recycled_table_idem]. }
        intros n Hn0 Hn q ql Hq' Eq. cbn in Eq. destruct (decide (q = p)) as [->|Hne].
        -- rewrite lookup_insert_eq in Eq. simplify_eq. destruct (Hroom n Hn0 Hn p pl Hq' Epl).
           pose proof (ok_large _ _ Hpl) as [Hz _]. pose proof (zlen_nonneg (list_blocks (large_blocks pl))). cbn. lia.
        -- rewrite lookup_insert_ne in Eq by done. by apply (Hroom n Hn0 Hn q ql).
    + intros _ q Eq. unfold ch in Ep. rewrite Ep in Eq. simplify_eq. split; [exists pl'; cbn; by rewrite lookup_insert_eq|].
      intros E0. cbn. unfold ch. rewrite E0. cbn. destruct Hc0 as [-> | ->]; [done|apply recycled_table_idem].
    + intros y Hy Hny q Eq. destruct (Hy Hny q Eq) as [Hy1 Hy2]. split.
      * cbn. destruct (decide (q = p)) as [->|Hne]; [exists pl'; by rewrite lookup_insert_eq|by rewrite lookup_insert_ne].
      * intros E0. cbn. rewrite (Hy2 E0). destruct (ch =? 0); [apply recycled_table_idem|done].
Qed.

End Release.

Lemma amqp_release_spec S F fs k0 :
  queue_of (k_queue k0) fs -> mem_sep S F (k_mem k0) -> pools_in S (k_pool_table k0) ->
  c_state (k_in k0) = CONNECTION_STATE_IDLE ->
  exists k, amqp_release_buffers k0 = (Ret tt, k) /\ releasing S F fs k0 k /\
    forall i l entry, k_pool_table k0 !! i = Some l -> entry ∈ l -> released fs k0 entry k.
Proof.
  intros Hq Hm Hp Hi.
  assert (Hi' : amqp_release_buffers_ok k0 = true) by (unfold amqp_release_buffers_ok; by rewrite bool_decide_true).
  pose proof (releasing_start S F fs k0 Hq Hm Hi) as H0.
  unfold amqp_release_buffers. change (bind get ?c k0) with (c k0 k0). cbv beta. rewrite Hi'. cbn [negb].
  destruct (for_each_visits (releasing S F fs k0) (fun l k => forall entry, entry ∈ l -> released fs k0 entry k)
              (for_each (fun entry => amqp_maybe_release_buffers_on_channel entry.1)) (k_pool_table k0)) with (s := k0)
    as (k & E & Hk & HD & _); [|done|].
  - intros l k _ Hk.
    destruct (for_each_visits (releasing S F fs k0) (released fs k0)
                (fun entry => amqp_maybe_release_buffers_on_channel entry.1) l) with (s := k) as (k' & E & Hk' & HD & HP); [|done|].
    + intros entry k1 _ Hk1. by apply maybe_release_step.
    + exists k'. split; [done|]. split; [done|]. split; [done|]. intros l' Hl' entry He. by apply HP, Hl'.
  - exists k. split; [done|]. split; [done|]. intros i l entry El He. apply (HD l); [by eapply list_elem_of_lookup_2|done].
Qed.

(** ** Properties *)

Section Queue.
Context `{Host} {E : Type} `{Net E}.
Context (garbage : addr -> Z -> list byte) (uninit : amqp_basic_properties_t) (fuel : nat).

Lemma simple_wait_queue k (e : E) f fs :
  queue_of (k_queue k) fs ->
  match fs with
  | [] => amqp_simple_wait_frame garbage uninit fuel f (mk_world k e)
          = wait_frame_inner garbage uninit fuel f amqp_time_infinite (mk_world k e)
  | g :: fs' => exists k', amqp_simple_wait_frame garbage uninit fuel f (mk_world k e) = (Ret g, mk_world k' e) /\
                  queue_of (k_queue k') fs'
  end.
Proof.
  intros Hq. unfold amqp_simple_wait_frame, amqp_simple_wait_frame_noblock.
  assert (Ed : from_now None (mk_world k e) = (Ret amqp_time_infinite, mk_world k e)) by done.
  rewrite (bind_step _ _ _ _ _ Ed). change (bind get_k ?c (mk_world k e)) with (c k (mk_world k e)). cbv beta.
  destruct fs as [|g fs].
  - by destruct (queue_of_nil _ Hq) as [-> _].
  - destruct (queue_of_cons _ _ _ Hq) as (a & l & -> & El & <- & _ & Hq'). rewrite El. eexists. split; [done|]. exact Hq'.
Qed.

(** C14: The linked queue of a connection implements a list of frames: all three ways of
    adding a frame put it at the end ([amqp_queue_frame], and the code of
    [amqp_try_recv] and [simple_rpc_inner]) or at the front ([amqp_put_back_frame]), or
    report [NO_MEMORY] and leave the list as it was; [amqp_frames_enqueued] tells whether
    there are any; [amqp_simple_wait_frame] takes the first one, and goes to the socket
    only when there is none. *)
Theorem queue_refines_list k (e : E) f fs :
  queue_of (k_queue k) fs ->
  queued fs (fs ++ [f]) (amqp_queue_frame f k) /\
  queued fs (fs ++ [f]) (append_frame f k) /\
  queued fs (f :: fs) (amqp_put_back_frame f k) /\
  (amqp_frames_enqueued k = true <-> fs <> []) /\
  match fs with
  | [] => amqp_simple_wait_frame garbage uninit fuel f (mk_world k e)
          = wait_frame_inner garbage uninit fuel f amqp_time_infinite (mk_world k e)
  | g :: fs' => exists k', amqp_simple_wait_frame garbage uninit fuel f (mk_world k e) = (Ret g, mk_world k' e) /\
                  queue_of (k_queue k') fs'
  end.
Proof.
  intros Hq. split; [by apply queue_frame_queued|]. split; [by apply append_frame_queued|].
  split; [by apply put_back_queued|]. split.
  { unfold amqp_frames_enqueued. rewrite bool_decide_eq_true. by destruct (queue_head _ _ Hq) as [-> _]. }
  by apply simple_wait_queue.
Qed.

(** Waiting for a frame of one channel loses queued frames of the others: when the
    first queued frame of channel [ch] is [g], [amqp_simple_wait_frame_on_channel]
    returns it, and drops from the queue not only [g] but everything before it. *)
Theorem wait_on_channel_drops k (e : E) f fs1 g fs2 ch :
  queue_of (k_queue k) (fs1 ++ g :: fs2) -> channel g = ch -> Forall (fun h => channel h <> ch) fs1 ->
  exists k', amqp_simple_wait_frame_on_channel garbage uninit fuel ch f (mk_world k e) = (Ret g, mk_world k' e) /\
    queue_of (k_queue k') fs2.
Proof.
  intros Hq Hg Hfs1. unfold amqp_simple_wait_frame_on_channel.
  change (bind get_k ?c (mk_world k e)) with (c k (mk_world k e)). cbv beta.
  destruct (find_queued_spec _ (fun f => ch =? channel f) _ Hq)
    as [(gs1 & g' & gs2 & a & l & Efs & Hno & Hg' & Ef & Hl & Hq')|[Hno _]].
  - assert (fs1 = gs1 /\ g = g' /\ fs2 = gs2) as (-> & -> & ->).
    { clear Hq Hq' Ef. revert gs1 Efs Hno. induction Hfs1 as [|h fs1 Hh _ IH]; intros [|h' gs1] Efs Hno; simpl in Efs; simplify_eq.
      - done.
      - apply Forall_cons in Hno as [Hc _]. apply Z.eqb_neq in Hc. congruence.
      - apply Z.eqb_eq in Hg'. congruence.
      - apply Forall_cons in Hno as [_ Hno]. destruct (IH gs1) as (-> & -> & ->); done. }
    rewrite (bind_step _ _ _ (Some (a, l)) (mk_world k e)) by (unfold lift_res; by rewrite Ef).
    eexists. split; [by rewrite <- Hl|exact Hq'].
  - rewrite Forall_forall in Hno. specialize (Hno g ltac:(elems; right; by left)). apply Z.eqb_neq in Hno. congruence.
Qed.

End Queue.

(** C21: Releasing buffers is safe for queued frames: on an idle connection whose pools
    are apart, [amqp_release_buffers] succeeds, keeps the queue and the pools of the
    channels that have frames in it, and recycles the pools of all other channels. *)
Theorem release_keeps_queued S F fs k :
  queue_of (k_queue k) fs -> mem_sep S F (k_mem k) -> pools_in S (k_pool_table k) ->
  c_state (k_in k) = CONNECTION_STATE_IDLE ->
  exists k', amqp_release_buffers k = (Ret tt, k') /\ queue_of (k_queue k') fs /\ mem_sep S F (k_mem k') /\
    forall i l ch p, k_pool_table k !! i = Some l -> (ch, p) ∈ l -> amqp_get_channel_pool (k_pool_table k) ch = Some p ->
      if decide (Exists (fun f => channel f = ch) fs) then m_pools (k_mem k') !! p = m_pools (k_mem k) !! p
      else exists pl, m_pools (k_mem k') !! p = Some pl /\ recycled pl.
Proof.
  intros Hq Hm Hp Hi. destruct (amqp_release_spec S F fs k Hq Hm Hp Hi) as (k' & E & (Hq' & Hm' & _ & _ & Hsame & _) & HD).
  exists k'. split; [done|]. split; [done|]. split; [done|]. intros i l ch p El He Ep.
  case_decide as Hc; rewrite Exists_exists in Hc; [by apply (Hsame ch)|].
  by apply (HD i l (ch, p) El He).
Qed.

(** *** Witnesses *)

Definition body_on (ch : Z) : amqp_frame_t := mk_frame AMQP_FRAME_BODY ch (PL_body [x61]).

(** Channels 1 and 2 have pools; three frames are queued. *)
Definition demo_table : pool_table_t := <[1%nat := [(1, 1)]]> (<[2%nat := [(2, 2)]]> empty_pool_table).
Definition demo_queue : frame_queue :=
  mk_queue (<[0 := mk_link (Some 1) (body_on 2)]> (<[1 := mk_link (Some 2) (body_on 1)]>
             (<[2 := mk_link None (body_on 2)]> ∅))) 3 (Some 0) (Some 2).
Definition demo_connection (q : frame_queue) : connection :=
  set_queue q (set_in (mk_conn CONNECTION_STATE_IDLE 4096 (replicate 8 x00) IB_header 0 7 demo_table two_pools)
                 (zero_connection 9 two_pools)).

Lemma demo_queue_of : queue_of demo_queue [body_on 2; body_on 1; body_on 2].
Proof.
  exists [0; 1; 2]. split; [|split; [done|split]].
  - apply (chain_cons _ 0 (mk_link (Some 1) (body_on 2))); [done|].
    apply (chain_cons _ 1 (mk_link (Some 2) (body_on 1))); [done|].
    apply (chain_cons _ 2 (mk_link None (body_on 2))); [done|]. constructor.
  - repeat (apply NoDup_cons; split; [set_solver|]). apply NoDup_nil_2.
  - intros a. unfold demo_queue. cbn [q_links q_fresh]. rewrite !lookup_insert_is_Some'.
    intros [<-|[<-|[<-|[? Ha]]]]; [lia..|]. by rewrite lookup_empty in Ha.
Qed.

Lemma demo_pools_in : pools_in {[1; 2]} demo_table.
Proof.
  assert (Hall : forall ch p, amqp_get_channel_pool demo_table ch = Some p -> (ch = 1 /\ p = 1) \/ (ch = 2 /\ p = 2)).
  { intros ch p. unfold amqp_get_channel_pool, bucket.
    assert (Hin : In (Z.to_nat (ch mod POOL_TABLE_SIZE)) (seq 0 16)).
    { apply in_seq. pose proof (bucket_index ch). change (Z.to_nat POOL_TABLE_SIZE) with 16%nat in *. lia. }
    assert (Et : demo_table = [] :: [(1, 1)] :: [(2, 2)] :: replicate 13 []) by done. rewrite Et. simpl in Hin.
    repeat (destruct Hin as [<-|Hin];
            [simpl; first [done|match goal with |- context [ch =? ?c] => destruct (Z.eqb_spec ch c) end; [intros [= <-]; lia|done]]|]).
    done. }
  split.
  - intros ch p Hp. apply Hall in Hp as [[_ ->]|[_ ->]]; set_solver.
  - intros c1 c2 p H1 H2. apply Hall in H1, H2. lia.
Qed.

Example queue_refines_list_witness :
  queue_of demo_queue [body_on 2; body_on 1; body_on 2] /\
  exists k', amqp_simple_wait_frame (H := little_endian) (fun _ _ => []) zero_basic 5 uninit_frame
               (mk_world (demo_connection demo_queue) (mk_script 1 [] [] true))
             = (Ret (body_on 2), mk_world k' (mk_script 1 [] [] true)) /\
    queue_of (k_queue k') [body_on 1; body_on 2].
Proof.
  split; [apply demo_queue_of|].
  destruct (queue_refines_list (H := little_endian) (fun _ _ => []) zero_basic 5 (demo_connection demo_queue)
              (mk_script 1 [] [] true) uninit_frame [body_on 2; body_on 1; body_on 2] demo_queue_of)
    as (_ & _ & _ & _ & Hw). exact Hw.
Defined.

Example wait_on_channel_drops_witness :
  exists k', amqp_simple_wait_frame_on_channel (H := little_endian) (fun _ _ => []) zero_basic 5 1 uninit_frame
               (mk_world (demo_connection demo_queue) (mk_script 1 [] [] true))
             = (Ret (body_on 1), mk_world k' (mk_script 1 [] [] true)) /\
    queue_of (k_queue k') [body_on 2].
Proof.
  apply (wait_on_channel_drops (H := little_endian) (fun _ _ => []) zero_basic 5 (demo_connection demo_queue)
           (mk_script 1 [] [] true) uninit_frame [body_on 2] (body_on 1) [body_on 2] 1);
    [apply demo_queue_of|done|]. by apply Forall_singleton.
Defined.

Example release_keeps_queued_witness :
  exists k', amqp_release_buffers (demo_connection (set_first (Some 2) demo_queue)) = (Ret tt, k') /\
    queue_of (k_queue k') [body_on 2] /\ mem_sep {[1; 2]} [] (k_mem k').
Proof.
  destruct (release_keeps_queued {[1; 2]} [] [body_on 2] (demo_connection (set_first (Some 2) demo_queue)))
    as (k' & E & Hq & Hm & _); [|apply two_pools_sep|apply demo_pools_in|done|].
  - exists [2]. split; [apply (chain_cons _ 2 (mk_link None (body_on 2))); [done|constructor]|].
    split; [done|]. split; [apply NoDup_singleton|]. destruct demo_queue_of as (_ & _ & _ & _ & Hfr). exact Hfr.
  - by exists k'.
Defined.
