(* ===== verification/LifeSpec.v ===== *)
(** * Making and destroying connections: the theorems about [amqp_new_connection] and
    [amqp_destroy_connection] of [ConnState.v] *)

From S2P Require Import Prelude Status Memory Layout Pool PoolMem PoolSep Codec Table MethodCodec.
From S2P Require Import MethodTypes MethodDecode MethodEncode Properties Connection Time Net ConnState.

(** ** Freeing in a memory of many pools *)

Lemma freed_nil h : freed [] h h.
Proof. split; [|done]. intros b. by rewrite decide_False by (intros Hb; by apply elem_of_nil in Hb). Qed.

Lemma mem_sep_mono S F S' F' m : mem_sep S F m -> S' ⊆ S -> (forall c, c ∈ F' -> c ∈ F) -> mem_sep S' F' m.
Proof.
  intros [H1 H2 H3 H4 H5] HS HF. split; [done|..].
  - intros p Hp. apply H2. by apply HS.
  - intros p q pl ql c Hp Hq. apply H3; by apply HS.
  - intros c Hc. by apply H4, HF.
  - intros c p pl Hc Hp. apply H5; [by apply HF|by apply HS].
Qed.

(** The blocks [l], of no pool and no other owner, go. *)
Lemma mem_sep_freed S F m l h' mp :
  mem_sep S F m -> freed l (m_heap m) h' -> (forall c, c ∈ l -> c ∉ F) ->
  (forall p pl c, p ∈ S -> m_pools m !! p = Some pl -> c ∈ footprint pl -> c ∉ l) ->
  (forall p, p ∈ S -> mp !! p = m_pools m !! p) ->
  mem_sep S F (mk_memory h' mp (m_scratch m) (m_snext m)).
Proof.
  intros [H1 H2 H3 H4 H5] Hf HF HS Hmp. pose proof (within_freed l (m_heap m) h' H1 Hf) as Hw. split; simpl.
  - apply Hw.
  - intros p Hp. destruct (H2 p Hp) as (pl & E & Hpl). exists pl. rewrite Hmp by done. split; [done|].
    eapply pool_ok_within; [done|exact Hw|]. intros c Hc. by apply (HS p pl c).
  - intros p q pl ql c Hp Hq. rewrite !Hmp by done. by apply H3.
  - intros c Hc. destruct (H4 c Hc) as [s Es]. exists s. apply Hw; [done|]. intros Hcl. by apply (HF c).
  - intros c p pl Hc Hp. rewrite Hmp by done. by apply H5.
Qed.

Lemma free_sep S F m b : mem_sep S (b :: F) m -> b ∉ F ->
  exists m', on_m_heap (free b) m = (Ret tt, m') /\ freed [b] (m_heap m) (m_heap m') /\ mem_sep S F m' /\
    m_pools m' = m_pools m.
Proof.
  intros Hm Hb. destruct (free_freed b (m_heap m)) as (h' & E & Hf); [apply (sep_fixed _ _ _ Hm); elems; by left|].
  exists (set_heap m h'). unfold on_m_heap. rewrite E. split; [done|]. split; [done|]. split; [|done].
  apply (mem_sep_freed S F m [b] h' (m_pools m)); [|done|..|done].
  - eapply mem_sep_mono; [done|done|]. intros c Hc. elems. by right.
  - by intros c [->|Hc%elem_of_nil]%elem_of_cons.
  - intros p pl c Hp E1 Hc [->|Hc'%elem_of_nil]%elem_of_cons; [|done].
    refine (sep_fixed_apart _ _ _ Hm b p pl _ Hp E1 Hc). elems. by left.
Qed.

Lemma free_ptr_sep S F m p :
  mem_sep S (option_list p ++ F) m -> (forall b, p = Some b -> b ∉ F) ->
  exists m', on_m_heap (free_ptr p) m = (Ret tt, m') /\ freed (option_list p) (m_heap m) (m_heap m') /\
    mem_sep S F m' /\ m_pools m' = m_pools m.
Proof.
  destruct p as [b|]; simpl; intros Hm Hb; [by apply free_sep; auto|].
  exists m. split; [by destruct m|]. split; [apply freed_nil|done].
Qed.

(** What the pool named [p] owns. *)
Definition pool_owned (m : memory) (p : Z) : list Z :=
  match m_pools m !! p with Some pl => owned pl | None => [] end.

Lemma empty_sep S F m p : mem_sep ({[p]} ∪ S) F m -> p ∉ S ->
  exists m', on_pool p empty_amqp_pool m = (Ret tt, m') /\ freed (pool_owned m p) (m_heap m) (m_heap m') /\
    mem_sep S F m' /\ forall q, q <> p -> m_pools m' !! q = m_pools m !! q.
Proof.
  intros Hm Hp. destruct (sep_pool _ _ _ Hm p) as (pl & E & Hpl); [set_solver|].
  destruct (empty_post pl (m_heap m) Hpl) as (h' & Ee & Hf).
  exists (mk_memory h' (<[p := mk_pool (pagesize pl) empty_list empty_list 0 None 0]> (m_pools m)) (m_scratch m) (m_snext m)).
  unfold on_pool, pool_owned. rewrite E, Ee. split; [done|]. split; [done|]. split.
  - apply (mem_sep_freed S F m (owned pl)); [|done|..].
    + eapply mem_sep_mono; [done|set_solver|done].
    + intros c Hc HF. apply (sep_fixed_apart _ _ _ Hm c p pl HF); [set_solver|done|]. unfold footprint. elems. by left.
    + intros q ql c Hq Eq Hc Ho. refine (sep_apart _ _ _ Hm q p ql pl c _ _ _ Eq E Hc _); [set_solver|set_solver| |].
      * by intros ->.
      * unfold footprint. elems. by left.
    + intros q Hq. rewrite lookup_insert_ne; [done|]. by intros ->.
  - intros q Hq. simpl. by rewrite lookup_insert_ne.
Qed.

Lemma for_each_app {S A} (f : A -> eff S unit) l l' s :
  for_each f (l ++ l') s = bind (for_each f l) (fun _ => for_each f l') s.
Proof. revert s. induction l as [|x l IH]; intros s; [done|]. simpl. unfold bind in *. destruct (f x s) as [[[]| | |] s1]; auto. Qed.

Lemma for_each_concat {S A} (f : A -> eff S unit) ls s : for_each (for_each f) ls s = for_each f (concat ls) s.
Proof.
  revert s. induction ls as [|l ls IH]; intros s; [done|]. simpl. rewrite for_each_app. unfold bind.
  destruct (for_each f l s) as [[[]| | |] s1]; auto.
Qed.

(** The pools of the channels, one by one. *)
Lemma free_entries (l : list (Z * Z)) : forall S F m,
  NoDup l.*2 -> (forall p, p ∈ l.*2 -> p ∉ S /\ p ∉ F) ->
  mem_sep (list_to_set l.*2 ∪ S) (l.*2 ++ F) m ->
  exists m', for_each free_pool_entry l m = (Ret tt, m') /\
    freed (concat (map (fun p => pool_owned m p ++ [p]) l.*2)) (m_heap m) (m_heap m') /\
    mem_sep S F m' /\ forall q, q ∉ l.*2 -> m_pools m' !! q = m_pools m !! q.
Proof.
  induction l as [|[ch p] l IH]; intros S F m Hnd Hd Hm.
  { exists m. split; [done|]. split; [apply freed_nil|]. split; [|done]. eapply mem_sep_mono; [done|set_solver|done]. }
  cbn [fmap list_fmap snd for_each] in *. apply NoDup_cons in Hnd as [Hp Hnd].
  destruct (Hd p) as [HpS HpF]; [by left|].
  destruct (empty_sep (list_to_set l.*2 ∪ S) (p :: l.*2 ++ F) m p) as (m1 & E1 & Hf1 & Hm1 & Hq1).
  { eapply mem_sep_mono; [exact Hm|set_solver|done]. }
  { set_solver. }
  destruct (free_sep (list_to_set l.*2 ∪ S) (l.*2 ++ F) m1 p Hm1) as (m2 & E2 & Hf2 & Hm2 & Hq2).
  { rewrite elem_of_app. tauto. }
  destruct (IH S F m2 Hnd) as (m3 & E3 & Hf3 & Hm3 & Hq3); [|done|].
  { intros q Hq. apply Hd. by right. }
  exists m3. split; [|split; [|split; [done|]]].
  - unfold free_pool_entry at 1. cbn [snd]. rewrite bind_assoc, (bind_step _ _ _ _ _ E1), (bind_step _ _ _ _ _ E2). done.
  - cbn [map concat]. eapply freed_app; [by eapply freed_app|].
    assert (Eo : map (fun p => pool_owned m2 p ++ [p]) l.*2 = map (fun p => pool_owned m p ++ [p]) l.*2).
    { apply map_ext_in. intros q Hq. apply list_elem_of_In in Hq. unfold pool_owned. rewrite Hq2, Hq1; [done|].
      by intros ->. }
    by rewrite <- Eo.
  - intros q Hq. rewrite Hq3 by set_solver. rewrite Hq2. apply Hq1. set_solver.
Qed.

(** ** Destroying a connection *)

Definition pools_of (t : pool_table_t) : list Z := (concat t).*2.

(** The heap blocks of the structures and buffers of a connection. *)
Definition own_blocks (k : connection) : list Z :=
  pools_of (k_pool_table k) ++ option_list (b_block (k_outbound k)) ++ option_list (b_block (k_sock_inbound k)) ++ [k_self k].

(** The memory of a connection: its pools and blocks do not overlap. *)
Record owned_by (k : connection) : Prop := {
  ob_sep : mem_sep (list_to_set (k_self k :: pools_of (k_pool_table k))) (own_blocks k) (k_mem k);
  ob_nodup : NoDup (own_blocks k);
}.

(** All that a connection holds on to. *)
Definition conn_blocks (k : connection) : list Z :=
  concat (map (fun p => pool_owned (k_mem k) p ++ [p]) (pools_of (k_pool_table k))) ++
  option_list (b_block (k_outbound k)) ++ option_list (b_block (k_sock_inbound k)) ++
  pool_owned (k_mem k) (k_self k) ++ [k_self k].

(** C30: [amqp_destroy_connection] frees the whole connection and nothing else, each block
    once: the blocks of every channel's pool and of the properties pool, the entries of
    the channel table, both buffers and the structure itself. *)
Theorem destroy_frees_all {E} `{Net E} k (e e' : E) :
  owned_by k -> amqp_socket_delete (k_socket k) e = (Ret tt, e') ->
  exists m', amqp_destroy_connection (Some k) (k_mem k, e) = (Ret AMQP_STATUS_OK, (m', e')) /\
    freed (conn_blocks k) (m_heap (k_mem k)) (m_heap m').
Proof.
  intros [Hm Hnd] Hd. unfold own_blocks in *. set (ps := pools_of (k_pool_table k)) in *.
  apply NoDup_app in Hnd as (Hn1 & Hx1 & Hnd). apply NoDup_app in Hnd as (Hn2 & Hx2 & Hnd).
  apply NoDup_app in Hnd as (Hn3 & Hx3 & Hn4).
  destruct (free_entries (concat (k_pool_table k)) {[k_self k]}
    (option_list (b_block (k_outbound k)) ++ option_list (b_block (k_sock_inbound k)) ++ [k_self k]) (k_mem k))
    as (m1 & E1 & Hf1 & Hm1 & Hq1); [exact Hn1| |eapply mem_sep_mono; [exact Hm|set_solver|done]|].
  { intros p Hp. split; [|by apply Hx1]. intros ->%elem_of_singleton. apply (Hx1 _ Hp). rewrite !elem_of_app. set_solver. }
  destruct (free_ptr_sep _ _ m1 (b_block (k_outbound k)) Hm1) as (m2 & E2 & Hf2 & Hm2 & Hq2).
  { intros b Hb. apply Hx2. rewrite Hb. by left. }
  destruct (free_ptr_sep _ _ m2 (b_block (k_sock_inbound k)) Hm2) as (m3 & E3 & Hf3 & Hm3 & Hq3).
  { intros b Hb. apply Hx3. rewrite Hb. by left. }
  destruct (empty_sep ∅ [k_self k] m3 (k_self k)) as (m4 & E4 & Hf4 & Hm4 & Hq4);
    [eapply mem_sep_mono; [exact Hm3|set_solver|done]|set_solver|].
  destruct (free_sep ∅ [] m4 (k_self k) Hm4) as (m5 & E5 & Hf5 & _); [set_solver|].
  exists m5. split.
  - unfold amqp_destroy_connection.
    assert (Ef : (do! for_each (for_each free_pool_entry) (k_pool_table k) in
         do! on_m_heap (free_ptr (b_block (k_outbound k))) in
         do! on_m_heap (free_ptr (b_block (k_sock_inbound k))) in
         do! on_pool (k_self k) empty_amqp_pool in
         on_m_heap (free (k_self k))) (k_mem k) = (Ret tt, m5)).
    { unfold bind at 1. rewrite for_each_concat, E1. by rewrite (bind_step _ _ _ _ _ E2), (bind_step _ _ _ _ _ E3), (bind_step _ _ _ _ _ E4). }
    rewrite Ef, Hd. done.
  - unfold conn_blocks. fold ps. eapply freed_app; [exact Hf1|]. eapply freed_app; [exact Hf2|]. eapply freed_app; [exact Hf3|].
    eapply freed_app; [|exact Hf5]. unfold pool_owned at 1 in Hf4. rewrite Hq3, Hq2, Hq1 in Hf4; [exact Hf4|].
    intros Hin. apply (Hx1 _ Hin). rewrite !elem_of_app. set_solver.
Qed.

(** ** Making one *)

Section New.
Context {E : Type} `{Net E}.
Context (heap_garbage : Z -> Z -> list byte).

(** Three blocks: the structure, [outbound_buffer] and [sock_inbound_buffer]. *)
Definition new_memory (m : memory) : memory :=
  let self := h_next (m_heap m) in
  let m := set_heap m (with_block (m_heap m) (sizeof layout_amqp_connection_state_t)) in
  let m := set_heap m (with_block (m_heap m) (wrap 64 AMQP_INITIAL_FRAME_POOL_PAGE_SIZE)) in
  let m := set_heap m (with_block (m_heap m) AMQP_INITIAL_INBOUND_SOCK_BUFFER_SIZE) in
  mk_memory (m_heap m) (<[self := init_amqp_pool 512]> (m_pools m)) (m_scratch m) (m_snext m).

(** The state of a new connection: before the protocol header, without limits,
    heartbeats or socket. *)
Definition new_connection (m : memory) : connection :=
  let self := h_next (m_heap m) in
  let out_len := wrap 64 AMQP_INITIAL_FRAME_POOL_PAGE_SIZE in
  let in_len := AMQP_INITIAL_INBOUND_SOCK_BUFFER_SIZE in
  mk_connection self
    (mk_conn CONNECTION_STATE_INITIAL AMQP_INITIAL_FRAME_POOL_PAGE_SIZE (replicate 8 x00) IB_header 0 8
       empty_pool_table (new_memory m))
    0 (mk_heartbeats 0 amqp_time_infinite amqp_time_infinite)
    (mk_buffer out_len (Some (self + 1)) (heap_garbage (self + 1) out_len)) false
    (mk_buffer in_len (Some (self + 1 + 1)) (heap_garbage (self + 1 + 1) in_len)) 0 0
    (mk_queue ∅ 0 None None) zero_reply [] (Some []) (Some (mk_timeval AMQP_DEFAULT_LOGIN_TIMEOUT_SEC 0)) None.

Lemma on_heap_malloc m n : h_refuse (m_heap m) = [] ->
  on_m_heap (malloc n) m = (Ret (Some (h_next (m_heap m))), set_heap m (with_block (m_heap m) n)).
Proof. intros Hr. unfold on_m_heap, malloc, with_block. by rewrite Hr. Qed.

Lemma send_heartbeat_off c (e : E) : heartbeat (k_hb c) = 0 ->
  reset_send_heartbeat (mk_world c e) = (Ret tt, mk_world (set_next_send amqp_time_infinite c) e).
Proof. intros Hc. unfold reset_send_heartbeat, bind, get_k, s_from_now, amqp_heartbeat_send. cbn. by rewrite Hc. Qed.

Lemma recv_heartbeat_off c (e : E) : heartbeat (k_hb c) = 0 ->
  reset_recv_heartbeat (mk_world c e) = (Ret tt, mk_world (set_next_recv amqp_time_infinite c) e).
Proof. intros Hc. unfold reset_recv_heartbeat, bind, get_k, s_from_now, amqp_heartbeat_recv. cbn. by rewrite Hc. Qed.

Lemma tune_new self m (e : E) : h_refuse (m_heap m) = [] ->
  let len := wrap 64 AMQP_INITIAL_FRAME_POOL_PAGE_SIZE in
  let b := h_next (m_heap m) in
  amqp_tune_connection heap_garbage 0 AMQP_INITIAL_FRAME_POOL_PAGE_SIZE 0 (mk_world (zero_connection self m) e)
  = (Ret tt, mk_world (mk_connection self
      (mk_conn CONNECTION_STATE_IDLE AMQP_INITIAL_FRAME_POOL_PAGE_SIZE (replicate 8 x00) IB_null 0 0
         empty_pool_table (set_heap m (with_block (m_heap m) len)))
      0 (mk_heartbeats 0 amqp_time_infinite amqp_time_infinite) (mk_buffer len (Some b) (heap_garbage b len)) false
      (mk_buffer 0 None []) 0 0 (mk_queue ∅ 0 None None) zero_reply [] (Some []) None None) e).
Proof.
  intros Hr len b. unfold amqp_tune_connection. change (bind get_k ?k ?w) with (k (w_k w) w). cbv beta.
  cbn [zero_connection w_k k_in c_state]. rewrite bool_decide_true by done. cbn [negb].
  repeat (change (bind (modify_k ?f) ?k (mk_world ?c e)) with (k tt (mk_world (f c) e)); cbv beta).
  match goal with |- bind _ ?k (mk_world ?c e) = _ => rewrite (bind_step _ k _ _ _ (send_heartbeat_off c e eq_refl)) end.
  match goal with |- bind _ ?k (mk_world ?c e) = _ => rewrite (bind_step _ k _ _ _ (recv_heartbeat_off c e eq_refl)) end.
  change (bind (modify_k ?f) ?k (mk_world ?c e)) with (k tt (mk_world (f c) e)). cbv beta.
  pose proof (on_heap_malloc m len Hr) as Em.
  match goal with |- bind _ ?k (mk_world ?c e) = _ => set (K := k); set (C := c) end.
  assert (Eb : on_k (on_mem (on_m_heap (realloc_ptr None len))) (mk_world C e)
     = (Ret (Some b), mk_world (set_mem (set_heap m (with_block (m_heap m) len)) C) e)).
  { unfold on_k, on_mem. change (k_mem (w_k (mk_world C e))) with m. cbn [realloc_ptr]. rewrite Em. done. }
  etransitivity; [exact (bind_step _ _ _ _ _ Eb)|]. done.
Qed.

Lemma new_connection_made m (e : E) : h_refuse (m_heap m) = [] ->
  amqp_new_connection heap_garbage (m, e) = (Ret (Some (new_connection m)), (new_memory m, e)).
Proof.
  intros Hr. unfold amqp_new_connection, calloc. rewrite on_heap_malloc by done.
  set (m1 := set_heap m _). assert (Hr1 : h_refuse (m_heap m1) = []) by (cbn; by rewrite Hr).
  rewrite (tune_new _ m1 e Hr1). set (m2 := set_heap m1 _). cbn [w_k k_mem k_in c_mem set_in].
  assert (Hr2 : h_refuse (m_heap m2) = []) by (cbn; by rewrite Hr).
  rewrite on_heap_malloc by exact Hr2. reflexivity.
Qed.

Lemma own_blocks_new m : let self := h_next (m_heap m) in own_blocks (new_connection m) = [self + 1; self + 1 + 1; self].
Proof. reflexivity. Qed.

(** A new connection has its own memory. *)
Lemma new_connection_owned m : heap_ok (m_heap m) -> owned_by (new_connection m).
Proof.
  intros Hh. set (n1 := sizeof layout_amqp_connection_state_t). destruct m as [[live next refuse] mp sc sn].
  set (m0 := mk_memory (mk_heap live next refuse) mp sc sn).
  assert (H0 : mem_sep ∅ [] m0) by (split; [done|..]; try (intros; set_solver); intros c Hc; by apply elem_of_nil in Hc).
  pose proof (mem_sep_block _ _ _ n1 H0) as H1.
  pose proof (mem_sep_block _ _ _ (wrap 64 AMQP_INITIAL_FRAME_POOL_PAGE_SIZE) H1) as H2.
  pose proof (mem_sep_block _ _ _ AMQP_INITIAL_INBOUND_SOCK_BUFFER_SIZE H2) as H3.
  pose proof (mem_sep_new 512 ∅ _ _ next ltac:(lia) (not_elem_of_empty next) H3) as H4. split.
  - eapply mem_sep_mono; [exact H4|cbn; set_solver|]. rewrite own_blocks_new. intros c. cbn. rewrite !elem_of_cons, !elem_of_nil. tauto.
  - rewrite own_blocks_new. cbn. repeat (apply NoDup_cons; split; [rewrite ?elem_of_cons, ?elem_of_nil; lia|]). apply NoDup_nil_2.
Qed.

Lemma new_connection_blocks m :
  let self := h_next (m_heap m) in conn_blocks (new_connection m) = [self + 1; self + 1 + 1; self].
Proof. unfold conn_blocks, pool_owned. cbn. by rewrite lookup_insert_eq. Qed.
End New.

Definition demo_garbage (_ n : Z) : list byte := replicate (Z.to_nat n) x00.
Definition no_memory : memory := mk_memory (mk_heap ∅ 0 []) ∅ ∅ 0.

Example destroy_frees_all_witness :
  let k := new_connection demo_garbage no_memory in
  let e := mk_script 1 [] [] true in
  exists m', amqp_destroy_connection (Some k) (k_mem k, e) = (Ret AMQP_STATUS_OK, (m', e)) /\
    freed (conn_blocks k) (m_heap (k_mem k)) (m_heap m').
Proof.
  refine (destroy_frees_all (new_connection demo_garbage no_memory) (mk_script 1 [] [] true) _ _ eq_refl).
  apply new_connection_owned. intros b s. simpl. by rewrite lookup_empty.
Defined.

(** Refused the third block, [amqp_new_connection] frees the structure but not
    [outbound_buffer]. *)
Lemma new_connection_leaks :
  match amqp_new_connection demo_garbage (mk_memory (mk_heap ∅ 0 [false; false; true]) ∅ ∅ 0, mk_script 1 [] [] true) with
  | (Ret None, (m, _)) => map_to_list (h_live (m_heap m)) = [(1, AMQP_INITIAL_FRAME_POOL_PAGE_SIZE)]
  | _ => False
  end.
Proof. vm_compute. reflexivity. Qed.
