(* ===== verification/SocketSpec.v ===== *)
(** * Sending and receiving: the theorems about [Socket.v] *)

From S2P Require Import Prelude Status Memory Layout Pool PoolMem PoolSep Codec Table TableSpec MethodCodec.
From S2P Require Import MethodTypes MethodDecode MethodEncode MethodSpec Properties PropertiesSpec.
From S2P Require Import Connection ConnectionSpec FrameSpec Time Net ConnState Socket QueueSpec.

(** ** Sending bytes *)

Section Send.
Context {E : Type} `{NetLaws E}.
Context (fuel : nat).

(** Nothing reaches the wire while waiting for the socket. *)
Lemma poll_quiet n fd ev t e :
  ev = AMQP_SF_POLLIN \/ ev = AMQP_SF_POLLOUT ->
  match amqp_poll n fd ev t e with
  | (Ret _, e') | (NoFuel, e') => outbox e' = outbox e
  | _ => False
  end.
Proof.
  intros Hev. revert e. induction n as [|n IH]; intros e; [done|]. simpl.
  assert (negb ((ev =? AMQP_SF_POLLIN) || (ev =? AMQP_SF_POLLOUT)) = false) as -> by (by destruct Hev as [->| ->]).
  assert (Hc : exists c e1, (if (time_point_ns t =? UINT64_MAX) || (time_point_ns t =? 0) then ret None else clock) e = (Ret c, e1)
                 /\ outbox e1 = outbox e).
  { destruct (_ || _); [by do 2 eexists|]. unfold clock. destruct (clock_gettime e) as [c e1] eqn:Ec.
    do 2 eexists. split; [done|]. by eapply clock_outbox. }
  destruct Hc as (c & e1 & Ec & Ho). rewrite (bind_step _ _ _ _ _ Ec).
  destruct (_ <? -1); [exact Ho|]. unfold bind. destruct (poll fd ev _ e1) as [a e2] eqn:Ep.
  apply poll_outbox in Ep. rewrite Ho in Ep. destruct (0 <? poll_res a); [exact Ep|].
  destruct (poll_res a =? 0); [exact Ep|]. destruct (poll_eintr a); [|exact Ep].
  specialize (IH e2). destruct (amqp_poll n fd ev t e2) as [[]]; congruence.
Qed.

Lemma do_poll_quiet res t (w : world E) :
  match do_poll fuel res t w with
  | (Ret _, w') | (NoFuel, w') => w_k w' = w_k w /\ outbox (w_e w') = outbox (w_e w)
  | _ => False
  end.
Proof.
  unfold do_poll. change (bind sockfd ?k w) with (k (amqp_get_sockfd w) w). cbv beta.
  destruct (_ =? -1); [done|]. cbn [switch].
  destruct (_ =? AMQP_PRIVATE_STATUS_SOCKET_NEEDREAD); [|destruct (_ =? AMQP_PRIVATE_STATUS_SOCKET_NEEDWRITE); [|done]];
    unfold on_env.
  - pose proof (poll_quiet fuel (amqp_get_sockfd w) AMQP_SF_POLLIN t (w_e w) ltac:(by left)) as Hp.
    by destruct (amqp_poll _ _ _ _ _) as [[]].
  - pose proof (poll_quiet fuel (amqp_get_sockfd w) AMQP_SF_POLLOUT t (w_e w) ltac:(by right)) as Hp.
    by destruct (amqp_poll _ _ _ _ _) as [[]].
Qed.

(** What a call that was to send [buf] may have done: a prefix is on the wire. *)
Definition sent_prefix (buf : list byte) (w w' : world E) : Prop :=
  w_k w' = w_k w /\ exists done left, buf = done ++ left /\ outbox (w_e w') = outbox (w_e w) ++ done.

Lemma try_send_loop_prefix n len buf t flags w :
  k_socket (w_k w) = true ->
  match try_send_loop fuel n len buf t flags w with
  | (Ret r, w') => w_k w' = w_k w /\ exists done left, buf = done ++ left /\
      outbox (w_e w') = outbox (w_e w) ++ done /\ r = len - zlen left
  | (Err _, w') | (NoFuel, w') => sent_prefix buf w w'
  | (Undef, _) => False
  end.
Proof.
  revert buf w. induction n as [|n IH]; intros buf w Hs.
  { split; [done|]. exists [], buf. by rewrite app_nil_r. }
  simpl. unfold amqp_socket_send, on_env. unfold bind at 1. rewrite Hs.
  destruct (socket_send buf flags (w_e w)) as [[r|st| |] e1] eqn:Esend; apply send_accepts in Esend; try done.
  2:{ split; [done|]. exists [], buf. by rewrite app_nil_r. }
  destruct Esend as [Hr Ho].
  destruct (Z.ltb_spec 0 r) as [Hpos|Hneg].
  - destruct (Z.ltb_spec (zlen buf) r); [lia|].
    pose proof (ztake_zdrop buf r) as Hsplit. set (d := ztake r buf) in *. set (rest := zdrop r buf) in *.
    destruct (Z.eqb_spec (zlen rest) 0) as [Hz|Hz].
    + split; [done|]. exists d, rest. split; [done|]. split; [done|]. lia.
    + specialize (IH rest (mk_world (w_k w) e1) Hs). simpl in IH.
      assert (Hcat : forall done left, rest = done ++ left -> buf = (d ++ done) ++ left /\
                outbox e1 ++ done = outbox (w_e w) ++ (d ++ done)).
      { intros dn lf ->. rewrite <- Hsplit, Ho, <- !app_assoc. done. }
      destruct (try_send_loop fuel n len rest t flags _) as [[v|st| |] w'];
        try (destruct IH as (Hk & dn & lf & Hb & Hout & Hv) || destruct IH as (Hk & dn & lf & Hb & Hout) || done);
        destruct (Hcat dn lf Hb) as [Hb' Ho']; (split; [done|]); exists (d ++ dn), lf; (split; [done|]);
        simpl in *; by rewrite Hout, Ho'.
  - assert (Ho1 : outbox e1 = outbox (w_e w)).
    { rewrite Ho. unfold ztake. replace (Z.to_nat r) with 0%nat by lia. by rewrite take_0, app_nil_r. }
    pose proof (do_poll_quiet r t (mk_world (w_k w) e1)) as Hq.
    assert (Hsame : forall w', w_k w' = w_k w /\ outbox (w_e w') = outbox e1 -> sent_prefix buf w w').
    { intros w' [Hk Hout]. split; [done|]. exists [], buf. by rewrite app_nil_r, Hout, Ho1. }
    unfold bind. destruct (do_poll fuel r t _) as [[v|st| |] w1]; simpl in Hq; [|done|done|by apply Hsame].
    destruct Hq as [Hk Hout]. destruct (v =? AMQP_STATUS_OK).
    + specialize (IH buf w1 ltac:(by rewrite Hk)). unfold sent_prefix in *. rewrite Hk, Hout, Ho1 in IH. exact IH.
    + destruct (v =? AMQP_STATUS_TIMEOUT); [|by apply Hsame]. split; [done|]. exists [], buf.
      split; [done|]. by rewrite app_nil_r, Hout, Ho1.
Qed.

End Send.

(** C31: [amqp_try_send] puts a prefix of the buffer on the wire, in order and without
    repeating a byte, whatever the socket, [poll] and the clock answer; the number it
    returns is the number of bytes sent, which is all of them unless the deadline
    passed, and nothing but the environment changes. *)
Theorem try_send_prefix {E} `{NetLaws E} fuel buf t flags (w : world E) :
  k_socket (w_k w) = true ->
  match amqp_try_send fuel buf t flags w with
  | (Ret n, w') => w_k w' = w_k w /\ 0 <= n <= zlen buf /\ outbox (w_e w') = outbox (w_e w) ++ ztake n buf
  | (Err _, w') | (NoFuel, w') => sent_prefix buf w w'
  | (Undef, _) => False
  end.
Proof.
  intros Hs. pose proof (try_send_loop_prefix fuel fuel (zlen buf) buf t flags w Hs) as Hp. unfold amqp_try_send.
  destruct (try_send_loop _ _ _ _ _ _ _) as [[n|st| |] w']; try done.
  destruct Hp as (Hk & dn & lf & -> & Hout & ->). split; [done|]. rewrite zlen_app. zlen_pos. split; [lia|].
  rewrite ztake_app by lia. done.
Qed.

Definition demo_world : world script :=
  mk_world (set_socket true (demo_connection demo_queue)) (mk_script 1 [] [x60] true).

Example try_send_prefix_witness :
  match amqp_try_send 3 [x61; x62] amqp_time_infinite AMQP_SF_NONE demo_world with
  | (Ret n, w') => w_k w' = w_k demo_world /\ 0 <= n <= zlen [x61; x62] /\
                   outbox (w_e w') = outbox (w_e demo_world) ++ ztake n [x61; x62]
  | (Err _, w') | (NoFuel, w') => sent_prefix [x61; x62] demo_world w'
  | (Undef, _) => False
  end.
Proof. exact (try_send_prefix 3 [x61; x62] amqp_time_infinite AMQP_SF_NONE demo_world eq_refl). Defined.

(** ** Sends that the socket completes *)

Definition no_heartbeats : heartbeats := mk_heartbeats 0 amqp_time_infinite amqp_time_infinite.

Section Complete.
Context `{Host} {E : Type} `{Net E}.
Context (garbage : addr -> Z -> list byte) (uninit : amqp_basic_properties_t) (fuel : nat).

Lemma no_recv_heartbeat k (e : E) : k_hb k = no_heartbeats -> reset_recv_heartbeat (mk_world k e) = (Ret tt, mk_world k e).
Proof. destruct k. simpl. intros ->. done. Qed.
Lemma no_send_heartbeat k (e : E) : k_hb k = no_heartbeats -> reset_send_heartbeat (mk_world k e) = (Ret tt, mk_world k e).
Proof. destruct k. simpl. intros ->. done. Qed.

Lemma poll_ready fd ev e e' r :
  ev = AMQP_SF_POLLIN \/ ev = AMQP_SF_POLLOUT ->
  poll fd ev (-1) e = (r, e') -> 0 < poll_res r -> (0 < fuel)%nat ->
  amqp_poll fuel fd ev amqp_time_infinite e = (Ret AMQP_STATUS_OK, e').
Proof.
  intros Hev Ep Hr Hf. destruct fuel as [|fu]; [lia|].
  transitivity (bind (fun e => let '(a, e') := poll fd ev (-1) e in (Ret a, e'))
    (fun answer => if 0 <? poll_res answer then ret AMQP_STATUS_OK
          else if poll_res answer =? 0 then ret AMQP_STATUS_TIMEOUT
          else if poll_eintr answer then amqp_poll fu fd ev amqp_time_infinite
          else ret AMQP_STATUS_SOCKET_ERROR) e); [by destruct Hev as [->| ->]|].
  unfold bind. rewrite Ep. cbv beta iota. by rewrite (proj2 (Z.ltb_lt _ _) Hr).
Qed.

(** [accepts flags e buf e' n]: within [n] calls the socket takes all of [buf], in
    pieces and with waits as it likes. *)
Inductive accepts (flags : Z) : E -> list byte -> E -> nat -> Prop :=
| accepts_all e buf e' : buf <> [] -> socket_send buf flags e = (Ret (zlen buf), e') -> accepts flags e buf e' 1
| accepts_part e buf r e1 e' n :
    socket_send buf flags e = (Ret r, e1) -> 0 < r < zlen buf -> accepts flags e1 (zdrop r buf) e' n ->
    accepts flags e buf e' (S n)
| accepts_later e buf e1 e2 r e' n :
    socket_send buf flags e = (Ret AMQP_PRIVATE_STATUS_SOCKET_NEEDWRITE, e1) -> socket_get_sockfd e1 <> -1 ->
    poll (socket_get_sockfd e1) AMQP_SF_POLLOUT (-1) e1 = (r, e2) -> 0 < poll_res r ->
    accepts flags e2 buf e' n -> accepts flags e buf e' (S n).

Lemma try_send_accepts k flags len e buf e' n :
  k_socket k = true -> accepts flags e buf e' n -> (0 < fuel)%nat -> forall m, (n <= m)%nat ->
  try_send_loop fuel m len buf amqp_time_infinite flags (mk_world k e) = (Ret len, mk_world k e').
Proof.
  intros Hs Ha Hf. induction Ha as [e buf e' Hne Es|e buf r e1 e' n Es Hr _ IH|e buf e1 e2 r e' n Es Hfd Ep Hr _ IH];
    (intros [|m] Hm; [lia|]); simpl; unfold bind at 1, amqp_socket_send, on_env; cbn [w_k w_e]; rewrite Hs, Es.
  - assert (0 < zlen buf) by (destruct buf; [done|unfold zlen; simpl; lia]).
    rewrite (proj2 (Z.ltb_lt 0 _)) by lia. rewrite Z.ltb_irrefl.
    assert (zlen (zdrop (zlen buf) buf) = 0) as -> by (rewrite zlen_zdrop by lia; lia). done.
  - rewrite (proj2 (Z.ltb_lt 0 _)) by lia. rewrite (proj2 (Z.ltb_ge _ _)) by lia.
    rewrite (proj2 (Z.eqb_neq _ _)) by (rewrite zlen_zdrop by lia; lia). apply IH. lia.
  - change (0 <? AMQP_PRIVATE_STATUS_SOCKET_NEEDWRITE) with false. cbv iota.
    assert (Eo : do_poll fuel AMQP_PRIVATE_STATUS_SOCKET_NEEDWRITE amqp_time_infinite (mk_world k e1)
                 = (Ret AMQP_STATUS_OK, mk_world k e2)).
    { unfold do_poll, bind, sockfd, amqp_get_sockfd. cbn [w_k w_e]. rewrite Hs.
      rewrite (proj2 (Z.eqb_neq _ _) Hfd). simpl switch. unfold on_env. cbn [w_e w_k].
      by rewrite (poll_ready _ _ _ _ _ (or_intror eq_refl) Ep Hr Hf). }
    rewrite (bind_step _ _ _ _ _ Eo). apply IH. lia.
Qed.

(** A buffer frames are written to. *)
Definition can_send (k : connection) : Prop :=
  k_socket k = true /\ k_hb k = no_heartbeats /\ b_len (k_outbound k) = zlen (b_bytes (k_outbound k)) /\
  b_len (k_outbound k) < 2 ^ 31.

(** The output buffer after a frame. *)
Definition with_frame (f : amqp_frame_t) (b : buffer) : buffer :=
  mk_buffer (b_len b) (b_block b) (splice (b_bytes b) 0 (wire_frame f)).

Lemma encode_frame_fits k (e : E) f :
  b_len (k_outbound k) = zlen (b_bytes (k_outbound k)) -> b_len (k_outbound k) < 2 ^ 31 -> frame_ok f ->
  zlen (wire_frame f) <= b_len (k_outbound k) ->
  encode_frame f (mk_world k e) = (Ret (wire_frame f), mk_world (set_outbound (with_frame f (k_outbound k)) k) e).
Proof.
  intros Hb Hl Hok Hfit. unfold encode_frame. cbn [w_k w_e]. rewrite (proj2 (Z.eqb_eq _ _) Hb). cbn [negb].
  rewrite (frame_to_bytes_fits f (b_bytes (k_outbound k)) Hok) by lia. cbv iota beta. by rewrite ztake_splice_0 by lia.
Qed.

(** The frame goes out as its wire format. *)
Lemma send_frame_exact k f flags e e' n :
  can_send k -> frame_ok f -> zlen (wire_frame f) <= b_len (k_outbound k) ->
  accepts flags e (wire_frame f) e' n -> (n <= fuel)%nat ->
  let ob := with_frame f (k_outbound k) in
  can_send (set_outbound ob k) /\
  amqp_send_frame_inner garbage uninit fuel f flags amqp_time_infinite (mk_world k e)
  = (Ret tt, mk_world (set_outbound ob k) e').
Proof.
  intros (Hs & Hh & Hb & Hl) Hok Hfit Ha Hn ob. assert (Hn0 : (0 < n)%nat) by (destruct Ha; lia). assert (Hf : (0 < fuel)%nat) by lia.
  pose proof (zlen_nonneg (wire_frame f)). pose proof (encode_frame_fits k e f Hb Hl Hok Hfit) as Ee. fold ob in Ee.
  split.
  { split; [done|]. split; [done|]. cbn. rewrite zlen_splice by lia. lia. }
  unfold amqp_send_frame_inner. rewrite (bind_step _ _ _ _ _ Ee).
  destruct fuel as [|fu] eqn:Efu; [lia|]. cbn [send_encoded].
  change (bind get_k ?x (mk_world ?k e)) with (x k (mk_world k e)). cbv beta.
  change (k_hb (set_outbound ob k)) with (k_hb k). rewrite Hh.
  change (amqp_time_first amqp_time_infinite _) with amqp_time_infinite. rewrite <- Efu in *.
  assert (Et : amqp_try_send fuel (wire_frame f) amqp_time_infinite flags (mk_world (set_outbound ob k) e)
               = (Ret (zlen (wire_frame f)), mk_world (set_outbound ob k) e')).
  { unfold amqp_try_send. by apply (try_send_accepts _ _ _ _ _ _ n). }
  rewrite (bind_step _ _ _ _ _ Et), Z.eqb_refl. by apply no_send_heartbeat.
Qed.

Lemma send_frame_accepted k f flags e e' n :
  can_send k -> frame_ok f -> zlen (wire_frame f) <= b_len (k_outbound k) ->
  accepts flags e (wire_frame f) e' n -> (n <= fuel)%nat ->
  exists ob, can_send (set_outbound ob k) /\ b_len ob = b_len (k_outbound k) /\
    amqp_send_frame_inner garbage uninit fuel f flags amqp_time_infinite (mk_world k e)
    = (Ret tt, mk_world (set_outbound ob k) e').
Proof.
  intros Hk Hok Hfit Ha Hn. destruct (send_frame_exact k f flags e e' n Hk Hok Hfit Ha Hn) as [H1 E1].
  exists (with_frame f (k_outbound k)). by split.
Qed.

End Complete.
