(* ===== verification/RecvSpec.v ===== *)
(** * Frames from the socket to the application

    The composition of [Socket.v]'s receive loops with the input state machine: what the
    peer sends as frames, in whatever pieces the socket delivers it, comes out of
    [amqp_simple_wait_frame] frame by frame. *)

From S2P Require Import Prelude Status Memory Layout Pool PoolMem PoolSep Codec Table TableSpec MethodCodec.
From S2P Require Import MethodTypes MethodDecode MethodEncode MethodSpec Properties PropertiesSpec.
From S2P Require Import Connection ConnectionSpec FrameSpec Time Net ConnState Socket QueueSpec SocketSpec.

(** ** The window of received bytes *)

Definition window (k : connection) : list byte :=
  ztake (k_sock_inbound_limit k - k_sock_inbound_offset k) (zdrop (k_sock_inbound_offset k) (b_bytes (k_sock_inbound k))).

(** A connection that can receive: it has a socket, a buffer of [L] bytes, no heartbeat. *)
Definition can_recv (L : Z) (k : connection) : Prop :=
  k_socket k = true /\ k_hb k = no_heartbeats /\ 0 < L < 2 ^ 31 /\
  b_len (k_sock_inbound k) = L /\ zlen (b_bytes (k_sock_inbound k)) = L /\
  0 <= k_sock_inbound_offset k <= k_sock_inbound_limit k /\ k_sock_inbound_limit k <= L.

(** The connection further on: another state of the input machine and window. *)
Definition resume (c : conn) (bytes : list byte) (offset limit : Z) (k : connection) : connection :=
  set_in c (set_window bytes offset limit k).

Lemma resume_resume c b o l c' b' o' l' k : resume c' b' o' l' (resume c b o l k) = resume c' b' o' l' k.
Proof. done. Qed.

Lemma window_len L k : can_recv L k -> zlen (window k) = k_sock_inbound_limit k - k_sock_inbound_offset k.
Proof.
  intros (_ & _ & _ & _ & Hl & Ho & Hm). unfold window. rewrite zlen_ztake; [done|]. rewrite zlen_zdrop by lia. lia.
Qed.

Lemma data_in_window L k : can_recv L k -> amqp_data_in_buffer k = bool_decide (window k <> []).
Proof.
  intros Hk. pose proof (window_len L k Hk) as Hw. unfold amqp_data_in_buffer. destruct Hk as (_ & _ & _ & _ & _ & Ho & _).
  destruct (window k) as [|x d] eqn:Ew.
  - rewrite bool_decide_false by (intros Hn; by apply Hn). change (zlen []) with 0 in Hw. apply Z.ltb_ge. lia.
  - rewrite bool_decide_true by done. unfold zlen in Hw. simpl in Hw. apply Z.ltb_lt. lia.
Qed.

(** What the socket is ready for once its pieces are used up: anything, unless said otherwise. *)
Class Then (E : Type) := afterwards : E -> Prop.
#[export] Instance then_anything E : Then E | 100 := fun _ => True.

Section Recv.
Context `{Host} {E : Type} `{Net E} {Th : Then E}.
Context (garbage : addr -> Z -> list byte) (uninit : amqp_basic_properties_t) (fuel : nat).
Hypothesis Hgarbage : forall a n, 0 <= n -> zlen (garbage a n) = n.

Lemma load_window L k :
  can_recv L k -> load (b_bytes (k_sock_inbound k)) (k_sock_inbound_offset k)
    (size_sub (k_sock_inbound_limit k) (k_sock_inbound_offset k)) = Some (window k).
Proof.
  intros (_ & _ & HL & _ & Hl & Ho & Hm). unfold size_sub. rewrite wrap_small by (unfold in_u; lia).
  apply load_fits; lia.
Qed.

(** [expects c f0 R f c']: the bytes [R] complete the frame [f] and leave [c'] idle. *)
Definition expects (c : conn) (f0 : amqp_frame_t) (R : list byte) (f : amqp_frame_t) (c' : conn) : Prop :=
  R <> [] /\ zlen R <= 2 ^ 30 /\ conn_ok c /\ c_state c' = CONNECTION_STATE_IDLE /\
  amqp_handle_input garbage uninit (mk_input c f0 R) = (Ret (zlen R), mk_input c' f []).

Lemma expects_conn_ok c f0 R f c' : expects c f0 R f c' -> conn_ok c'.
Proof.
  intros (Hne & Hl & Hc & _ & E0). pose proof (input_bounds garbage uninit Hgarbage c f0 R Hc Hne ltac:(lia)) as Hs.
  rewrite E0 in Hs. apply Hs.
Qed.

(** The window reaches to the end of the frame. *)
Lemma consume_whole L k (e : E) f0 R f c' d :
  can_recv L k -> expects (k_in k) f0 R f c' -> window k = R ++ d ->
  exists b o l, consume_one_frame garbage uninit f0 (mk_world k e) = (Ret f, mk_world (resume c' b o l k) e) /\
    can_recv L (resume c' b o l k) /\ window (resume c' b o l k) = d.
Proof.
  intros Hk (Hne & Hl & Hc & Hi & E0) Hw. pose proof Hk as (H1 & H2 & HL & H3 & H4 & Ho & Hm).
  pose proof (window_len L k Hk) as Hwl. rewrite Hw, zlen_app in Hwl. pose proof (zlen_nonneg d).
  assert (zlen R <> 0) by (destruct R; [done|unfold zlen; simpl; lia]). pose proof (zlen_nonneg R).
  unfold consume_one_frame. cbn [w_k w_e]. rewrite (load_window L k Hk), Hw.
  pose proof (input_split garbage uninit Hgarbage (k_in k) f0 R d Hc Hne ltac:(lia)) as Hch. rewrite E0 in Hch.
  simpl in Hch. rewrite bool_decide_true in Hch by done. rewrite Hch. cbn [i_conn i_frame].
  destruct (Z.ltb_spec (zlen R) 0); [lia|]. cbn [set_in k_sock_inbound k_sock_inbound_offset k_sock_inbound_limit].
  rewrite size_add_small by lia.
  exists (b_bytes (k_sock_inbound k)), (k_sock_inbound_offset k + zlen R), (k_sock_inbound_limit k). split; [reflexivity|].
  split.
  - unfold can_recv. cbn. repeat split; try done; lia.
  - unfold window. cbn. set (o := k_sock_inbound_offset k) in *. set (l := k_sock_inbound_limit k) in *.
    set (b := b_bytes (k_sock_inbound k)) in *. rewrite <- zdrop_zdrop by lia.
    assert (Hb : zdrop o b = (R ++ d) ++ zdrop (l - o) (zdrop o b)).
    { rewrite <- Hw. unfold window. fold o l b. by rewrite ztake_zdrop. }
    rewrite Hb, <- app_assoc, (zdrop_app R) by done. apply ztake_app. lia.
Qed.

(** The window ends before the frame does. *)
Lemma consume_part L k (e : E) f0 R f c' :
  can_recv L k -> expects (k_in k) f0 (window k ++ R) f c' -> window k <> [] -> R <> [] ->
  exists c1 f1 b o l, consume_one_frame garbage uninit f0 (mk_world k e) = (Ret f1, mk_world (resume c1 b o l k) e) /\
    frame_type f1 = 0 /\ can_recv L (resume c1 b o l k) /\ window (resume c1 b o l k) = [] /\ expects c1 f1 R f c'.
Proof.
  intros Hk (Hne & Hl & Hc & Hi & E0) Hw HR. pose proof Hk as (H1 & H2 & HL & H3 & H4 & Ho & Hm).
  pose proof (window_len L k Hk) as Hwl. set (d := window k) in *. rewrite zlen_app in *. zlen_pos.
  pose proof (input_split garbage uninit Hgarbage (k_in k) f0 d R Hc Hw ltac:(lia)) as Hch.
  pose proof (input_bounds garbage uninit Hgarbage (k_in k) f0 d Hc Hw ltac:(lia)) as Hs. rewrite E0 in Hch.
  unfold consume_one_frame. cbn [w_k w_e]. rewrite (load_window L k Hk). fold d.
  destruct (amqp_handle_input garbage uninit (mk_input (k_in k) f0 d)) as [[n| | |] s] eqn:Ed; try done.
  destruct Hs as (Hok & Hn & Hdata).
  case_bool_decide as Hidle.
  { simplify_eq. destruct (i_data s); [|done]. simpl in *. congruence. }
  destruct Hch as (Hd0 & Ht & Hch).
  assert (n = zlen d) as ->.
  { pose proof (zlen_zdrop n d ltac:(lia)) as Hz. rewrite <- Hdata, Hd0 in Hz. change (zlen []) with 0 in Hz. lia. }
  destruct (Z.ltb_spec (zlen d) 0); [lia|]. cbn [set_in k_sock_inbound k_sock_inbound_offset k_sock_inbound_limit].
  rewrite size_add_small by lia.
  exists (i_conn s), (i_frame s), (b_bytes (k_sock_inbound k)), (k_sock_inbound_offset k + zlen d), (k_sock_inbound_limit k).
  split; [reflexivity|]. split; [done|]. split; [|split].
  - unfold can_recv. cbn. repeat split; try done; lia.
  - unfold window. cbn. rewrite Hwl. replace (_ - _) with 0 by lia. done.
  - split; [done|]. split; [lia|]. split; [done|]. split; [done|].
    destruct (amqp_handle_input garbage uninit (mk_input (i_conn s) (i_frame s) R)) as [[v| | |] s'] eqn:ER; try done.
    simplify_eq. do 2 f_equal. lia.
Qed.

(** ** The socket's side *)

(** [delivers L e cs n]: asked for [L] bytes at a time, the socket gives the pieces
    [cs], after making the caller wait as it likes, in at most [n] calls; when it has
    given the last one, [afterwards] holds of it. *)
Inductive delivers (L : Z) : E -> list (list byte) -> nat -> Prop :=
| delivers_done e : afterwards e -> delivers L e [] 0
| delivers_piece e c cs e' n :
    c <> [] -> zlen c <= L -> socket_recv L e = (Ret (inr c), e') -> delivers L e' cs n -> delivers L e (c :: cs) (S n)
| delivers_later e e1 e2 r c cs n :
    socket_recv L e = (Ret (inl AMQP_PRIVATE_STATUS_SOCKET_NEEDREAD), e1) -> socket_get_sockfd e1 <> -1 ->
    poll (socket_get_sockfd e1) AMQP_SF_POLLIN (-1) e1 = (r, e2) -> 0 < poll_res r ->
    delivers L e2 (c :: cs) n -> delivers L e (c :: cs) (S n).

Lemma recv_delivers L k : can_recv L k -> forall n e c cs m,
  delivers L e (c :: cs) n -> (n < m)%nat -> (0 < fuel)%nat ->
  exists e' n', (n' < n)%nat /\ delivers L e' cs n' /\
    recv_loop fuel m amqp_time_infinite (mk_world k e)
    = (Ret tt, mk_world (set_window (splice (b_bytes (k_sock_inbound k)) 0 c) 0 (zlen c) k) e').
Proof.
  intros (Hs & Hh & HL & H3 & H4 & Ho & Hm) n. induction n as [|n IH]; intros e c cs [|m] Hd Hn Hf; [inversion Hd|inversion Hd|lia|].
  inversion_clear Hd as [|? ? ? e' ? Hc Hl Er Hd'|? e1 e2 r ? ? ? Er Hfd Ep Hr Hd'].
  - exists e', n. split; [lia|]. split; [done|]. simpl. unfold bind at 1 2, get_k, amqp_socket_recv, on_env at 1. cbn [w_k w_e].
    rewrite Hs, H3, Er. rewrite store_fits by lia.
    change (bind (modify_k ?g) ?x (mk_world k e')) with (x tt (mk_world (g k) e')). cbv beta. by apply no_recv_heartbeat.
  - destruct (IH e2 c cs m Hd' ltac:(lia) Hf) as (e' & n' & Hn' & Hd2 & E2). exists e', n'. split; [lia|]. split; [done|].
    simpl. unfold bind at 1 2, get_k, amqp_socket_recv, on_env at 1. cbn [w_k w_e]. rewrite Hs, H3, Er.
    unfold bind at 1, sockfd, amqp_get_sockfd. cbn [w_k w_e]. rewrite Hs.
    destruct (Z.eqb_spec (socket_get_sockfd e1) (-1)); [done|].
    assert (Eo : on_env (amqp_poll fuel (socket_get_sockfd e1) AMQP_SF_POLLIN amqp_time_infinite) (mk_world k e1)
                 = (Ret AMQP_STATUS_OK, mk_world k e2)).
    { unfold on_env. cbn [w_e w_k]. by rewrite (poll_ready fuel _ _ _ _ _ (or_introl eq_refl) Ep Hr Hf). }
    rewrite (bind_step _ _ _ _ _ Eo). exact E2.
Qed.

(** ** The wait loop *)

(** What [wait_frame_inner] does with a frame it has read. *)
Definition on_frame (m : nat) (f : amqp_frame_t) : eff (world E) amqp_frame_t :=
  if frame_type f =? AMQP_FRAME_HEARTBEAT then
    do! on_k (amqp_maybe_release_buffers_on_channel 0) in
    wait_loop garbage uninit fuel m false f amqp_time_infinite
  else if negb (frame_type f =? 0) then ret f
  else wait_loop garbage uninit fuel m false f amqp_time_infinite.

Lemma wait_loop_data L k e f0 f w' m :
  can_recv L k -> window k <> [] -> consume_one_frame garbage uninit f0 (mk_world k e) = (Ret f, w') ->
  wait_loop garbage uninit fuel (S m) false f0 amqp_time_infinite (mk_world k e) = on_frame m f w'.
Proof.
  intros Hk Hw Ec. simpl. change (bind get_k ?c (mk_world k e)) with (c k (mk_world k e)). cbv beta.
  rewrite (data_in_window L k Hk), bool_decide_true by done. simpl. by rewrite (bind_step _ _ _ _ _ Ec).
Qed.

Lemma wait_loop_empty L k n e c cs f0 :
  can_recv L k -> window k = [] -> delivers L e (c :: cs) n -> (n < fuel)%nat ->
  exists k' e' n', (n' < n)%nat /\ delivers L e' cs n' /\ (exists b o l, k' = resume (k_in k) b o l k) /\
    can_recv L k' /\ window k' = c /\ forall m,
    wait_loop garbage uninit fuel (S m) false f0 amqp_time_infinite (mk_world k e)
    = wait_loop garbage uninit fuel m false f0 amqp_time_infinite (mk_world k' e').
Proof.
  intros Hk Hw Hd Hf. destruct (recv_delivers L k Hk n e c cs fuel Hd Hf ltac:(lia)) as (e' & n' & Hn & Hd' & Er).
  assert (Hc : zlen c <= L).
  { clear -Hd. remember (c :: cs) as l. induction Hd; simplify_eq; auto. }
  pose proof Hk as (Hs & Hh & HL & H3 & H4 & Ho & Hm). zlen_pos.
  eexists _, e', n'. split; [done|]. split; [done|].
  split; [exists (splice (b_bytes (k_sock_inbound k)) 0 c), 0, (zlen c); reflexivity|].
  assert (Hk' : can_recv L (resume (k_in k) (splice (b_bytes (k_sock_inbound k)) 0 c) 0 (zlen c) k)).
  { unfold can_recv. cbn. rewrite zlen_splice by lia. repeat split; try done; lia. }
  split; [exact Hk'|]. split.
  { unfold window. cbn. rewrite Z.sub_0_r. apply ztake_splice_0. }
  intros m. simpl. change (bind get_k ?x (mk_world k e)) with (x k (mk_world k e)). cbv beta.
  rewrite (data_in_window L k Hk), bool_decide_false by (intros Hn'; by apply Hn'). cbn [negb andb].
  rewrite Hh. cbn [next_send_heartbeat no_heartbeats].
  assert (Ep : has_past amqp_time_infinite (mk_world k e) = (Ret AMQP_STATUS_OK, mk_world k e)) by done.
  rewrite (bind_step _ _ _ _ _ Ep). simpl (AMQP_STATUS_OK =? AMQP_STATUS_TIMER_FAILURE). cbv iota.
  simpl (AMQP_STATUS_OK =? AMQP_STATUS_TIMEOUT). cbv iota.
  change (bind (ret tt) ?x (mk_world k e)) with (x tt (mk_world k e)). cbv beta.
  change (bind get_k ?x (mk_world k e)) with (x k (mk_world k e)). cbv beta. rewrite Hh.
  change (amqp_time_first amqp_time_infinite _) with amqp_time_infinite.
  assert (Es : status (recv_with_timeout fuel amqp_time_infinite) (mk_world k e)
    = (Ret AMQP_STATUS_OK, mk_world (set_window (splice (b_bytes (k_sock_inbound k)) 0 c) 0 (zlen c) k) e')).
  { unfold status, recv_with_timeout. by rewrite Er. }
  rewrite (bind_step _ _ _ _ _ Es). done.
Qed.

(** Nothing is left: the next part can begin. *)
Lemma delivers_over L e cs n : delivers L e cs n -> concat cs = [] -> cs = [] /\ afterwards e.
Proof. induction 1 as [e Ha|e c|e ? ? ? c cs n ? ? ? ? Hd IH]; intros Hc; [done|by destruct c|by destruct (IH Hc)]. Qed.

Lemma delivers_nonempty L e cs n : delivers L e cs n -> concat cs <> [] -> exists c cs', cs = c :: cs' /\ c <> [].
Proof. induction 1; intros Hne; [done|eauto|auto]. Qed.

Definition pending (k : connection) : nat := if decide (window k = []) then 0 else 1.

(** The loop reaches the end of the next frame: every turn either uses up the window or
    makes a call that the socket will answer. *)
Lemma wait_until_frame L : forall mu n k e cs f0 R rest f c',
  (2 * n + pending k <= mu)%nat -> (n < fuel)%nat -> delivers L e cs n -> can_recv L k ->
  expects (k_in k) f0 R f c' -> window k ++ concat cs = R ++ rest ->
  exists j b o l e1 cs1 n1, let k1 := resume c' b o l k in
    (j + 2 * n1 <= 2 * n + pending k)%nat /\ delivers L e1 cs1 n1 /\ can_recv L k1 /\
    window k1 ++ concat cs1 = rest /\
    forall m, wait_loop garbage uninit fuel (j + m) false f0 amqp_time_infinite (mk_world k e) = on_frame m f (mk_world k1 e1).
Proof.
  induction mu as [mu IH] using lt_wf_ind. intros n k e cs f0 R rest f c' Hmu Hn Hd Hk Hx Hw.
  pose proof Hx as (HR & _). unfold pending in *. destruct (decide (window k = [])) as [Ew|Ew].
  - rewrite Ew in Hw. simpl in Hw.
    destruct (delivers_nonempty L e cs n Hd) as (c & cs' & -> & Hc); [rewrite Hw; by destruct R|].
    destruct (wait_loop_empty L k n e c cs' f0 Hk Ew Hd Hn)
      as (k' & e' & n' & Hn' & Hd' & (b & o & l & ->) & Hk' & Hw' & El).
    destruct (IH (2 * n' + 1)%nat ltac:(lia) n' _ e' cs' f0 R rest f c' ltac:(case_decide; lia) ltac:(lia) Hd' Hk' Hx)
      as (j & b1 & o1 & l1 & e1 & cs1 & n1 & Hj & Hd1 & Hk1 & Hw1 & E1); [by rewrite Hw'|].
    rewrite decide_False in Hj by congruence.
    exists (S j), b1, o1, l1, e1, cs1, n1. split; [lia|]. split; [done|]. split; [done|]. split; [done|].
    intros m. simpl plus. rewrite El. apply E1.
  - destruct (decide (zlen R <= zlen (window k))) as [Hle|Hgt].
    + assert (exists d, window k = R ++ d) as [d Ed].
      { destruct (app_eq_inv _ _ _ _ Hw) as [(d & -> & _)|(d & -> & _)]; [eauto|].
        exists []. rewrite zlen_app in Hle. destruct d; [by rewrite !app_nil_r|]. unfold zlen in Hle. simpl in Hle. lia. }
      destruct (consume_whole L k e f0 R f c' d Hk Hx Ed) as (b & o & l & Ec & Hk1 & Hw1).
      exists 1%nat, b, o, l, e, cs, n. split; [lia|]. split; [done|]. split; [done|]. split.
      { rewrite Hw1. rewrite Ed, <- app_assoc in Hw. by apply app_inv_head in Hw. }
      intros m. by apply (wait_loop_data L).
    + assert (exists R', R = window k ++ R' /\ R' <> []) as (R' & -> & HR').
      { destruct (app_eq_inv _ _ _ _ Hw) as [(d & E0 & _)|(d & -> & _)].
        - rewrite E0, zlen_app in Hgt. pose proof (zlen_nonneg d). lia.
        - exists d. split; [done|]. intros ->. rewrite app_nil_r in Hgt. lia. }
      destruct (consume_part L k e f0 R' f c' Hk Hx Ew HR') as (c1 & f1 & b & o & l & Ec & Ht & Hk1 & Hw1 & Hx1).
      destruct (IH (2 * n)%nat ltac:(lia) n _ e cs f1 R' rest f c' ltac:(case_decide; [lia|done]) Hn Hd Hk1 Hx1)
        as (j & b1 & o1 & l1 & e1 & cs1 & n1 & Hj & Hd1 & Hk2 & Hw2 & E1).
      { rewrite Hw1. rewrite <- app_assoc in Hw. by apply app_inv_head in Hw. }
      rewrite decide_True in Hj by done.
      exists (S j), b1, o1, l1, e1, cs1, n1. split; [lia|]. split; [done|]. split; [done|]. split; [done|].
      intros m. simpl plus. rewrite (wait_loop_data L k e f0 f1 _ _ Hk Ew Ec). unfold on_frame. rewrite Ht. apply E1.
Qed.

End Recv.

(** ** A stream of frames *)

Section Stream.
Context `{Host} {E : Type} `{Net E} {Th : Then E}.
Context (garbage : addr -> Z -> list byte) (uninit : amqp_basic_properties_t) (fuel : nat).
Hypothesis Hgarbage : forall a n, 0 <= n -> zlen (garbage a n) = n.
(** The pools of the connection, the other blocks in use, the size of the socket buffer. *)
Context (S : gset Z) (F : list Z) (L : Z).

(** The connection between two frames: idle, with the frames [qs] queued and room in its
    pools for [budget] more blocks. *)
Record ready (budget : Z) (qs : list amqp_frame_t) (k : connection) : Prop := {
  rd_recv : can_recv L k;
  rd_in : conn_ok (k_in k);
  rd_idle : c_state (k_in k) = CONNECTION_STATE_IDLE;
  rd_queue : queue_of (k_queue k) qs;
  rd_pools : pools_in S (k_pool_table k);
  rd_refuse : h_refuse (m_heap (k_mem k)) = [];
  rd_sep : mem_sep S F (k_mem k);
  rd_room : room_for S budget (k_mem k);
}.

Lemma ready_mono B B' qs k : ready B qs k -> B' <= B -> ready B' qs k.
Proof.
  intros [? ? ? ? ? ? ? Hroom] HB. split; try done. intros q ql Hq Eq. destruct (Hroom q ql Hq Eq). lia.
Qed.

(** A frame the connection accepts: it fits, and its channel has a pool. *)
Definition acceptable (c : conn) (f : amqp_frame_t) : Prop :=
  frame_ok f /\ zlen (wire_frame f) <= c_frame_max c /\ is_Some (amqp_get_channel_pool (c_pool_table c) (channel f)).

Lemma acceptable_same c c' f : same_setup c c' -> acceptable c f -> acceptable c' f.
Proof. intros [E1 E2]. unfold acceptable. by rewrite E1, E2. Qed.

Lemma same_setup_trans c1 c2 c3 : same_setup c1 c2 -> same_setup c2 c3 -> same_setup c1 c3.
Proof. intros [E1 E2] [E3 E4]. split; congruence. Qed.

(** The blocks a frame may take. *)
Definition cost (f : amqp_frame_t) : Z := zlen (wire_frame f) + 1.

Lemma next_expected f f0 B qs k :
  ready (B + cost f) qs k -> 0 <= B -> acceptable (k_in k) f ->
  exists c', expects garbage uninit (k_in k) f0 (wire_frame f) (received uninit f) c' /\ same_setup (k_in k) c' /\
    forall b o l, can_recv L (resume c' b o l k) -> ready B qs (resume c' b o l k).
Proof.
  intros [Hk Hc Hi Hq Hp Hr Hm Hroom] HB (Hok & Hfit & [p Ep]). unfold cost in *. pose proof (zlen_nonneg (wire_frame f)).
  assert (HpS : p ∈ S) by by apply (proj1 Hp) in Ep.
  assert (Hpl : sep_plenty S F p (B + (zlen (wire_frame f) + 1)) (k_mem k)) by done.
  destruct (frame_received (Laws := sep_laws S F) garbage uninit Hgarbage f (k_in k) f0 p Hc Hi Hok Hfit Ep)
    as (c' & Ec & Hi' & Hset & Hsp).
  { apply (plenty_mono (MemLaws := sep_laws S F) p _ (B + (zlen (wire_frame f) + 1))); [exact Hpl|lia]. }
  assert (Hx : expects garbage uninit (k_in k) f0 (wire_frame f) (received uninit f) c').
  { split; [|split; [destruct Hc as (_ & ? & _); lia|done]]. unfold wire_frame, frame_bytes. done. }
  exists c'. split; [exact Hx|]. split; [done|]. intros b o l Hk'. destruct Hset as [Hs1 Hs2].
  destruct (Hsp B HB Hpl) as (_ & Hr' & Hm' & Hroom').
  split; try done; [by apply (expects_conn_ok garbage uninit Hgarbage _ _ _ _ _ Hx)|].
  unfold k_pool_table. cbn. by rewrite Hs2.
Qed.

(** A heartbeat makes the connection release the buffers of channel 0. *)
Lemma release_ready B qs k :
  ready B qs k -> 0 <= B ->
  exists k', amqp_maybe_release_buffers_on_channel 0 k = (Ret tt, k') /\ ready B qs k' /\ window k' = window k /\
    same_setup (k_in k) (k_in k').
Proof.
  intros [Hk Hc Hi Hq Hp Hr Hm Hroom] HB.
  destruct (maybe_release_step S F qs k (0, 0) k Hp (releasing_start S F qs k Hq Hm Hi))
    as (k' & E1 & (Hq' & Hm' & Ht & _ & _ & Hroom' & Hr' & q & m & c & -> & _) & _).
  eexists. split; [exact E1|]. split; [|done]. split; try done; [by rewrite Hr'|by apply Hroom'].
Qed.

Definition is_heartbeat (f : amqp_frame_t) : bool := frame_type f =? AMQP_FRAME_HEARTBEAT.
Definition wires (fs : list amqp_frame_t) : list byte := concat (map wire_frame fs).
Definition costs (fs : list amqp_frame_t) : Z := foldr (fun f b => b + cost f) 0 fs.

Lemma costs_nonneg fs : 0 <= costs fs.
Proof. induction fs as [|f fs IH]; simpl; [lia|]. unfold cost. pose proof (zlen_nonneg (wire_frame f)). lia. Qed.

(** One frame is read: heartbeats are skipped, anything else is returned. *)
Lemma wait_one B n k e cs f0 f fs m qs :
  ready (B + costs (f :: fs)) qs k -> 0 <= B -> Forall (acceptable (k_in k)) (f :: fs) -> delivers L e cs n ->
  window k ++ concat cs = wires (f :: fs) -> (n < fuel)%nat -> (2 * n + pending k + Datatypes.S (length fs) <= m)%nat ->
  exists k1 e1 cs1 n1 m1, (n1 <= n)%nat /\ (2 * n1 + pending k1 + length fs <= m1)%nat /\
    ready (B + costs fs) qs k1 /\ same_setup (k_in k) (k_in k1) /\ delivers L e1 cs1 n1 /\
    window k1 ++ concat cs1 = wires fs /\
    wait_loop garbage uninit fuel m false f0 amqp_time_infinite (mk_world k e)
    = if is_heartbeat f then wait_loop garbage uninit fuel m1 false (received uninit f) amqp_time_infinite (mk_world k1 e1)
      else (Ret (received uninit f), mk_world k1 e1).
Proof.
  intros Hrd HB0 Hall Hd Hw Hn Hm. apply Forall_cons in Hall as [Hf Hall]. pose proof (costs_nonneg fs).
  assert (HB : 0 <= B + costs fs) by lia. simpl in Hrd. rewrite Z.add_assoc in Hrd.
  destruct (next_expected f f0 (B + costs fs) qs k Hrd HB Hf) as (c' & Hx & Hset & Hrd').
  destruct (wait_until_frame garbage uninit fuel Hgarbage L (2 * n + pending k)%nat n k e cs f0 _ (wires fs) _ c'
              ltac:(lia) Hn Hd (rd_recv _ _ _ Hrd) Hx Hw)
    as (j & b & o & l & e1 & cs1 & n1 & Hj & Hd1 & Hk1 & Hw1 & E1).
  specialize (Hrd' b o l Hk1). set (k1 := resume c' b o l k) in *.
  assert (Hp1 : forall k, (pending k <= 1)%nat) by (intros k'; unfold pending; case_decide; lia).
  pose proof (Hp1 k1). pose proof (Hp1 k). replace m with (j + (m - j))%nat by lia. rewrite E1. unfold on_frame, is_heartbeat.
  change (frame_type (received uninit f)) with (frame_type f).
  destruct (frame_type f =? AMQP_FRAME_HEARTBEAT) eqn:Eh.
  - destruct (release_ready _ _ _ Hrd' HB) as (k2 & E2 & Hrd2 & Hw2 & Hset2).
    exists k2, e1, cs1, n1, (m - j)%nat. split; [lia|]. pose proof (Hp1 k2). split; [lia|]. split; [done|]. split.
    { exact (same_setup_trans _ _ _ Hset Hset2). }
    split; [done|]. split; [by rewrite Hw2|].
    assert (E3 : on_k (amqp_maybe_release_buffers_on_channel 0) (mk_world k1 e1) = (Ret tt, mk_world k2 e1)).
    { unfold on_k. cbn [w_k w_e]. by rewrite E2. }
    by rewrite (bind_step _ _ _ _ _ E3).
  - exists k1, e1, cs1, n1, (m - j)%nat. split; [lia|]. split; [lia|]. split; [done|]. split; [done|]. split; [done|].
    split; [done|]. destruct (frame_type f =? 0) eqn:Et; [|done].
    destruct Hf as [[_ Hok] _]. apply Z.eqb_eq in Et. by destruct (payload f); destruct_and?; simplify_eq; rewrite Et in *.
Qed.

(** Heartbeats are skipped up to the next frame. *)
Lemma wait_next B hbs : forall n k e cs f0 f fs m qs,
  Forall (fun h => is_heartbeat h = true) hbs -> is_heartbeat f = false -> 0 <= B ->
  ready (B + costs (hbs ++ f :: fs)) qs k -> Forall (acceptable (k_in k)) (hbs ++ f :: fs) -> delivers L e cs n ->
  window k ++ concat cs = wires (hbs ++ f :: fs) -> (n < fuel)%nat ->
  (2 * n + pending k + length (hbs ++ f :: fs) <= m)%nat ->
  exists k1 e1 cs1 n1, (n1 <= n)%nat /\ ready (B + costs fs) qs k1 /\ same_setup (k_in k) (k_in k1) /\
    delivers L e1 cs1 n1 /\ window k1 ++ concat cs1 = wires fs /\
    wait_loop garbage uninit fuel m false f0 amqp_time_infinite (mk_world k e) = (Ret (received uninit f), mk_world k1 e1).
Proof.
  induction hbs as [|h hbs IH]; intros n k e cs f0 f fs m qs Hh Hf HB Hrd Hall Hd Hw Hn Hm.
  - destruct (wait_one B n k e cs f0 f fs m qs Hrd HB Hall Hd Hw Hn Hm)
      as (k1 & e1 & cs1 & n1 & m1 & Hn1 & _ & Hrd1 & Hset & Hd1 & Hw1 & E1). rewrite Hf in E1.
    exists k1, e1, cs1, n1. done.
  - apply Forall_cons in Hh as [Hh Hhs]. rewrite <- !app_comm_cons in *.
    destruct (wait_one B n k e cs f0 h _ m qs Hrd HB Hall Hd Hw Hn Hm)
      as (k1 & e1 & cs1 & n1 & m1 & Hn1 & Hm1 & Hrd1 & Hset & Hd1 & Hw1 & E1). rewrite Hh in E1.
    apply Forall_cons in Hall as [_ Hall].
    destruct (IH n1 k1 e1 cs1 (received uninit h) f fs m1 qs Hhs Hf HB Hrd1) as (k2 & e2 & cs2 & n2 & Hn2 & Hrd2 & Hset2 & Hd2 & Hw2 & E2);
      [|done|done|lia|done|].
    { eapply Forall_impl; [exact Hall|]. intros g. by apply acceptable_same. }
    exists k2, e2, cs2, n2. split; [lia|]. split; [done|]. split; [by eapply same_setup_trans|]. split; [done|].
    split; [done|]. by rewrite E1.
Qed.

(** An application that reads [n] frames. *)
Fixpoint read_frames (n : nat) (f0 : amqp_frame_t) : eff (world E) (list amqp_frame_t) :=
  match n with
  | O => ret []
  | Datatypes.S n' =>
      let! f := amqp_simple_wait_frame garbage uninit fuel f0 in
      let! fs := read_frames n' f in
      ret (f :: fs)
  end.

Definition for_application (fs : list amqp_frame_t) : list amqp_frame_t :=
  filter (fun f => is_heartbeat f = false) fs.

(** The first frame that is not a heartbeat. *)
Lemma application_split fs f gs :
  for_application fs = f :: gs -> exists hbs fs', fs = hbs ++ f :: fs' /\ Forall (fun h => is_heartbeat h = true) hbs /\
    is_heartbeat f = false /\ for_application fs' = gs.
Proof.
  unfold for_application. induction fs as [|h fs IH]; [done|]. rewrite filter_cons. case_decide as Hh.
  - intros [= -> Hgs]. by exists [], fs.
  - intros Hgs. destruct (IH Hgs) as (hbs & fs' & -> & H1 & H2 & H3). exists (h :: hbs), fs'. split; [done|].
    split; [|done]. constructor; [by destruct (is_heartbeat h)|done].
Qed.

(** C3: Everything the peer sends arrives: if the bytes of the frames [fs] reach the
    socket, cut into any pieces and with any number of waits in between, then as many
    calls of [amqp_simple_wait_frame] as there are frames other than heartbeats return
    exactly these frames, in order, on a connection without heartbeat timers whose
    channels have pools, memory permitting. *)
Theorem frames_delivered fs n k (e : E) cs f0 :
  ready (costs fs) [] k -> Forall (acceptable (k_in k)) fs -> delivers L e cs n ->
  window k ++ concat cs = wires fs -> (2 * n + length fs + 1 <= fuel)%nat ->
  exists w, read_frames (length (for_application fs)) f0 (mk_world k e) = (Ret (map (received uninit) (for_application fs)), w).
Proof.
  remember (for_application fs) as gs eqn:Egs. symmetry in Egs. revert fs n k e cs f0 Egs.
  induction gs as [|g gs IH]; intros fs n k e cs f0 Egs Hrd Hall Hd Hw Hfu; [by eexists|].
  destruct (application_split fs g gs Egs) as (hbs & fs' & -> & Hhb & Hg & Egs').
  assert (Hp : (pending k <= 1)%nat) by (unfold pending; case_decide; lia).
  destruct (wait_next 0 hbs n k e cs f0 g fs' fuel [] Hhb Hg ltac:(lia) Hrd Hall Hd Hw ltac:(lia) ltac:(lia))
    as (k1 & e1 & cs1 & n1 & Hn1 & Hrd1 & Hset & Hd1 & Hw1 & E1).
  pose proof (simple_wait_queue garbage uninit fuel k e f0 [] (rd_queue _ _ _ Hrd)) as Eq. simpl in Eq.
  unfold wait_frame_inner in Eq. rewrite E1 in Eq.
  assert (Hall' : Forall (acceptable (k_in k1)) fs').
  { apply Forall_app in Hall as [_ Hall]. apply Forall_cons in Hall as [_ Hall]. eapply Forall_impl; [exact Hall|].
    intros h. by apply acceptable_same. }
  rewrite length_app in Hfu. simpl in Hfu.
  destruct (IH fs' n1 k1 e1 cs1 (received uninit g) Egs' Hrd1 Hall' Hd1 Hw1 ltac:(lia)) as (w & E2).
  exists w. simpl. rewrite (bind_step _ _ _ _ _ Eq). by rewrite (bind_step _ _ _ _ _ E2).
Qed.

End Stream.

(** *** Witness *)

(** The scripted socket gives its pieces one by one. *)
Lemma script_delivers_then {Th : Then script} L now rest out b cs :
  Forall (fun c => c <> [] /\ zlen c <= L) cs -> afterwards (mk_script now rest out b) ->
  delivers L (mk_script now (cs ++ rest) out b) cs (length cs).
Proof.
  intros Hcs Ha. induction Hcs as [|c cs [Hne Hl] _ IH]; simpl; [by constructor|].
  apply (delivers_piece L _ c cs (mk_script now (cs ++ rest) out b)); [done|done| |done].
  simpl. unfold script_recv. simpl. by destruct (Z.leb_spec (zlen c) L); [|lia].
Qed.

Lemma script_delivers L now out b cs :
  Forall (fun c => c <> [] /\ zlen c <= L) cs -> delivers L (mk_script now cs out b) cs (length cs).
Proof. intros Hcs. rewrite <- (app_nil_r cs) at 1. by apply script_delivers_then. Qed.

Definition empty_queue : frame_queue := mk_queue ∅ 0 None None.

(** A connection with channels 1 and 2, a socket and a buffer of 64 bytes. *)
Definition demo_reader : connection :=
  set_sock_inbound (mk_buffer 64 (Some 5) (replicate 64 x00))
    (set_socket true (set_hb no_heartbeats (demo_connection empty_queue))).

Lemma two_pools_room n : 0 <= n <= INT_MAX -> room_for {[1; 2]} n two_pools.
Proof.
  intros Hn q ql _. unfold two_pools. cbn [m_pools]. rewrite !lookup_insert_Some, lookup_empty.
  assert (Hi : num_blocks (pages (init_amqp_pool 4096)) + n <= INT_MAX /\
               num_blocks (large_blocks (init_amqp_pool 4096)) + n <= INT_MAX) by (simpl; lia).
  intros [[_ <-]|[_ [[_ <-]|[_ ?]]]]; [exact Hi|exact Hi|done].
Qed.

Lemma empty_queue_of : queue_of empty_queue [].
Proof.
  exists []. split; [constructor|]. split; [done|]. split; [apply NoDup_nil_2|]. intros a [l El]. exfalso. simpl in El. by rewrite lookup_empty in El.
Qed.

Lemma demo_reader_ready n : 0 <= n <= INT_MAX -> ready {[1; 2]} [] 64 n [] demo_reader.
Proof.
  intros Hn. split.
  - repeat split; by vm_compute.
  - repeat split; by vm_compute.
  - done.
  - exact empty_queue_of.
  - exact demo_pools_in.
  - done.
  - exact two_pools_sep.
  - by apply two_pools_room.
Qed.

Definition demo_frames : list amqp_frame_t :=
  [body_on 2; mk_frame AMQP_FRAME_HEARTBEAT 1 PL_none; body_on 1].
(** The bytes of the frames in pieces of 1, 9 and 16. *)
Definition demo_pieces : list (list byte) :=
  let w := wires demo_frames in [ztake 1 w; ztake 9 (zdrop 1 w); zdrop 10 w].

Example frames_delivered_witness :
  exists w, read_frames (H := little_endian) zeros zero_basic 20 2 uninit_frame
              (mk_world demo_reader (mk_script 1 demo_pieces [] true))
            = (Ret [body_on 2; body_on 1], w).
Proof.
  apply (frames_delivered (H := little_endian) zeros zero_basic 20 zeros_len {[1; 2]} [] 64 demo_frames 3 demo_reader
           (mk_script 1 demo_pieces [] true) demo_pieces uninit_frame).
  - apply demo_reader_ready. by vm_compute.
  - repeat (apply Forall_cons; split; [split; [split; done|split; [by vm_compute|by eexists]]|]). by apply Forall_nil.
  - apply script_delivers. repeat constructor; by vm_compute.
  - by vm_compute.
  - simpl. lia.
Defined.
