(* ===== verification/HeartbeatSpec.v ===== *)
(** * Heartbeats and deadlines: waiting for a peer that is silent

    The composition of [Time.v], [amqp_poll] and the receive loops: what a wait does while
    nothing arrives. *)

From S2P Require Import Prelude Status Memory Layout Pool PoolMem PoolSep Codec Table TableSpec MethodCodec.
From S2P Require Import MethodTypes MethodDecode MethodEncode MethodSpec Properties PropertiesSpec.
From S2P Require Import Connection ConnectionSpec FrameSpec Time Net ConnState Socket QueueSpec SocketSpec RecvSpec.

(** ** The environment of a silent peer *)

(** Nothing arrives, what is sent is taken at once, and time passes in [poll]: it
    returns when its milliseconds are over, a nanosecond later at least and [late] at
    most. *)
Class Silent (E : Type) `{NetLaws E} := {
  now : E -> Z;
  late : Z;
  silent : E -> Prop;
  late_pos : 1 <= late;
  silent_clock e : silent e -> 0 < now e < 2 ^ 64 ->
    exists c e', clock_gettime e = (c, e') /\ clock_ok c (now e) /\ silent e' /\ now e' = now e;
  silent_send e buf flags : silent e ->
    exists e', socket_send buf flags e = (Ret (zlen buf), e') /\ silent e' /\ now e' = now e;
  silent_recv e len : silent e ->
    exists e', socket_recv len e = (Ret (inl AMQP_PRIVATE_STATUS_SOCKET_NEEDREAD), e') /\ silent e' /\ now e' = now e;
  silent_fd e : silent e -> socket_get_sockfd e <> -1;
  silent_poll e fd ms : silent e -> 0 <= ms ->
    exists r e', poll fd AMQP_SF_POLLIN ms e = (r, e') /\ poll_res r = 0 /\ silent e' /\
      now e + Z.max 1 (ms * AMQP_NS_PER_MS) <= now e' <= now e + ms * AMQP_NS_PER_MS + late;
  silent_close e : silent e -> exists st e', socket_close AMQP_SC_FORCE e = (Ret st, e') /\ outbox e' = outbox e;
}.

(** The heartbeat frame. *)
Definition heartbeat_frame : amqp_frame_t := mk_frame AMQP_FRAME_HEARTBEAT 0 PL_none.
Definition beats (n : nat) : list byte := concat (replicate n (wire_frame heartbeat_frame)).

Lemma beats_one : beats 1 = wire_frame heartbeat_frame.
Proof. apply app_nil_r. Qed.

Lemma beats_plus n m : beats (n + m) = beats n ++ beats m.
Proof. unfold beats. by rewrite replicate_add, concat_app. Qed.

Section Quiet.
Context `{Host} {E : Type} `{Silent E}.
Context (garbage : addr -> Z -> list byte) (uninit : amqp_basic_properties_t) (fuel : nat).
(** The interval in seconds, the time the peer is given up and the time the caller waits until. *)
Context (h R D : Z).
Hypothesis Hh : 0 < h < 2 ^ 16.
Hypothesis HR : 0 < R < 2 ^ 62.
Hypothesis HD : 0 < D <= UINT64_MAX.
Hypothesis Hlate : late < 2 ^ 61.
Hypothesis Hfuel : (0 < fuel)%nat.

Definition interval : Z := h * AMQP_NS_PER_S.

(** A connection with nothing left to read, that sends its next heartbeat at [S]. *)
Record quiet (S : Z) (k : connection) : Prop := {
  qu_socket : k_socket k = true;
  qu_empty : amqp_data_in_buffer k = false;
  qu_hb : k_hb k = mk_heartbeats h (mk_time R) (mk_time S);
  qu_out : b_len (k_outbound k) = zlen (b_bytes (k_outbound k)) /\ 8 <= b_len (k_outbound k) < 2 ^ 31;
}.

(** A heartbeat goes out, and the next one is due an interval later. *)
Lemma beat_sent S k e :
  quiet S k -> silent e -> 0 < now e < 2 ^ 63 ->
  exists k1 e1, amqp_send_frame garbage uninit fuel heartbeat_frame (mk_world k e) = (Ret tt, mk_world k1 e1) /\
    quiet (now e + interval) k1 /\ silent e1 /\ now e1 = now e /\ outbox e1 = outbox e ++ wire_frame heartbeat_frame.
Proof.
  intros [Hs He Hhb [Ho1 Ho2]] Hq Hn.
  assert (Hz : zlen (wire_frame heartbeat_frame) = 8) by done. set (ob := with_frame heartbeat_frame (k_outbound k)).
  destruct (silent_send e (wire_frame heartbeat_frame) AMQP_SF_NONE Hq) as (e1 & Es & Hq1 & Hn1).
  pose proof (send_accepts _ _ _ _ _ Es) as [_ Hout]. rewrite ztake_all in Hout by lia.
  destruct (silent_clock e1 Hq1 ltac:(lia)) as (c & e2 & Ec & Hc & Hq2 & Hn2). rewrite Hn1 in *.
  set (k1 := set_next_send (mk_time (now e + interval)) (set_outbound ob k)).
  exists k1, e2. split; [|split; [|split; [done|split; [done|rewrite (clock_outbox _ _ _ Ec); exact Hout]]]].
  2:{ split; [done|done|unfold k1, set_next_send; cbn; by rewrite Hhb|]. cbn. rewrite zlen_splice; [|lia|lia]. done. }
  unfold amqp_send_frame, amqp_send_frame_inner.
  rewrite (bind_step _ _ _ _ _ (encode_frame_fits k e heartbeat_frame Ho1 ltac:(lia) ltac:(done) ltac:(lia))).
  fold ob. destruct fuel as [|fu] eqn:Ef; [lia|]. cbn [send_encoded]. rewrite <- Ef.
  change (bind get_k ?x (mk_world ?k e)) with (x k (mk_world k e)). cbv beta.
  assert (Et : amqp_try_send fuel (wire_frame heartbeat_frame)
                 (amqp_time_first amqp_time_infinite (next_recv_heartbeat (k_hb (set_outbound ob k)))) AMQP_SF_NONE
                 (mk_world (set_outbound ob k) e) = (Ret (zlen (wire_frame heartbeat_frame)), mk_world (set_outbound ob k) e1)).
  { unfold amqp_try_send. rewrite Ef at 2. cbn [try_send_loop]. unfold bind, amqp_socket_send, on_env. cbn [w_k w_e].
    change (k_socket (set_outbound ob k)) with (k_socket k). rewrite Hs, Es. done. }
  rewrite (bind_step _ _ _ _ _ Et), Z.eqb_refl. cbn [negb]. unfold reset_send_heartbeat.
  change (bind get_k ?x (mk_world ?k e1)) with (x k (mk_world k e1)). cbv beta. change (k_hb (set_outbound ob k)) with (k_hb k).
  unfold amqp_heartbeat_send. change (k_hb (set_outbound ob k)) with (k_hb k). rewrite Hhb. cbn [heartbeat next_send_heartbeat].
  assert (Esn : s_from_now (mk_time S) h (mk_world (set_outbound ob k) e1)
                = (Ret (Ret tt, mk_time (now e + interval)), mk_world (set_outbound ob k) e2)).
  { unfold s_from_now. rewrite (proj2 (Z.ltb_lt 0 h)) by lia.
    assert (Eck : on_env clock (mk_world (set_outbound ob k) e1) = (Ret c, mk_world (set_outbound ob k) e2))
      by (unfold on_env, clock; cbn [w_e w_k]; by rewrite Ec).
    rewrite (bind_step _ _ _ _ _ Eck). unfold amqp_time_s_from_now. rewrite (proj2 (Z.leb_gt h 0)) by lia.
    rewrite (clock_now _ _ Hc). cbv zeta. rewrite (proj2 (Z.eqb_neq (now e) 0)) by lia. unfold ret. unfold u64_mul, interval, AMQP_NS_PER_S in *.
    rewrite (wrap_small 64 h), wrap_small by (unfold in_u; lia). rewrite set_deadline_spec by lia. rewrite (proj2 (Z.ltb_lt _ _)) by lia.
    by rewrite wrap_small by (unfold in_u; lia). }
  rewrite (bind_step _ _ _ _ _ Esn). done.
Qed.

(** Waiting for bytes ends at the deadline, cut to a millisecond. *)
Lemma recv_times_out dl k e :
  k_socket k = true -> silent e -> 0 < now e < 2 ^ 63 -> 0 < dl < UINT64_MAX -> dl - now e < 2 ^ 31 * AMQP_NS_PER_MS ->
  exists e2, recv_with_timeout fuel (mk_time dl) (mk_world k e) = (Err AMQP_STATUS_TIMEOUT, mk_world k e2) /\
    silent e2 /\ outbox e2 = outbox e /\ now e < now e2 /\ dl - AMQP_NS_PER_MS < now e2 <= Z.max (now e) dl + late.
Proof.
  intros Hs Hq Hn Hdl Hms. destruct (silent_recv e (b_len (k_sock_inbound k)) Hq) as (e0 & Er & Hq0 & Hn0).
  destruct (silent_clock e0 Hq0 ltac:(lia)) as (c & e1 & Ec & Hc & Hq1 & Hn1). rewrite Hn0 in *.
  pose proof (ms_until_spec c (now e) (mk_time dl) Hc Hdl Hms) as Em. cbn [time_point_ns] in Em.
  set (ms := Z.max 0 (dl - now e) / AMQP_NS_PER_MS) in *.
  assert (Hms0 : 0 <= ms) by (apply Z.div_pos; unfold AMQP_NS_PER_MS; lia).
  destruct (silent_poll e1 (socket_get_sockfd e0) ms Hq1 Hms0) as (r & e2 & Ep & Hr & Hq2 & Hn2).
  exists e2. split; [|split; [done|split]].
  - unfold recv_with_timeout. destruct fuel as [|fu] eqn:Ef; [lia|]. cbn [recv_loop].
    change (bind get_k ?x (mk_world ?k e)) with (x k (mk_world k e)). cbv beta.
    assert (Er' : amqp_socket_recv (b_len (k_sock_inbound k)) (mk_world k e)
                  = (Ret (inl AMQP_PRIVATE_STATUS_SOCKET_NEEDREAD), mk_world k e0)).
    { unfold amqp_socket_recv, on_env. cbn [w_k w_e]. by rewrite Hs, Er. }
    rewrite (bind_step _ _ _ _ _ Er'). cbv beta iota. unfold bind at 1, sockfd, amqp_get_sockfd. cbn [w_k w_e].
    rewrite Hs, (proj2 (Z.eqb_neq _ _) (silent_fd e0 Hq0)). cbn [switch].
    change (AMQP_PRIVATE_STATUS_SOCKET_NEEDREAD =? AMQP_PRIVATE_STATUS_SOCKET_NEEDREAD) with true. cbv iota.
    assert (Epo : on_env (amqp_poll (S fu) (socket_get_sockfd e0) AMQP_SF_POLLIN (mk_time dl)) (mk_world k e0)
                  = (Ret AMQP_STATUS_TIMEOUT, mk_world k e2)).
    { unfold on_env. cbn [w_k w_e amqp_poll]. change (negb _) with false. cbv iota. cbn [time_point_ns].
      rewrite (proj2 (Z.eqb_neq dl UINT64_MAX)), (proj2 (Z.eqb_neq dl 0)) by lia. cbn [orb].
      assert (Eck : clock e0 = (Ret c, e1)) by (unfold clock; by rewrite Ec). rewrite (bind_step _ _ _ _ _ Eck).
      cbv beta zeta. rewrite Em. rewrite (proj2 (Z.ltb_ge ms (-1))) by lia. unfold bind. rewrite Ep, Hr. done. }
    by rewrite (bind_step _ _ _ _ _ Epo).
  - rewrite (poll_outbox _ _ _ _ _ _ Ep), (clock_outbox _ _ _ Ec), (recv_outbox _ _ _ _ Er). done.
  - rewrite Hn1 in Hn2. unfold ms, AMQP_NS_PER_MS in *.
    pose proof (Z.div_mod (Z.max 0 (dl - now e)) 1000000 ltac:(lia)). pose proof (Z.mod_pos_bound (Z.max 0 (dl - now e)) 1000000 ltac:(lia)).
    lia.
Qed.

(** Before it waits, the connection sends a heartbeat that is due. *)
Lemma beat_if_due S k e :
  quiet S k -> silent e -> 0 < now e < 2 ^ 62 + 2 ^ 61 -> 0 < S < 2 ^ 63 -> now e <= S + late ->
  exists res e1 n k1 e2 S1,
    has_past (mk_time S) (mk_world k e) = (Ret res, mk_world k e1) /\ (res =? AMQP_STATUS_TIMER_FAILURE) = false /\
    (if res =? AMQP_STATUS_TIMEOUT then amqp_send_frame garbage uninit fuel heartbeat_frame else ret tt) (mk_world k e1)
    = (Ret tt, mk_world k1 e2) /\
    quiet S1 k1 /\ silent e2 /\ now e2 = now e /\ outbox e2 = outbox e ++ beats n /\
    now e <= S1 < 2 ^ 63 /\ S + Z.of_nat n * interval <= S1 <= S + Z.of_nat n * (interval + late) /\ 0 < S1 /\
    S1 <= Z.max S (now e + interval).
Proof.
  intros Hk Hq Hn HS Hd. destruct (silent_clock e Hq ltac:(lia)) as (c & e1 & Ec & Hc & Hq1 & Hn1).
  assert (Hp : has_past (mk_time S) (mk_world k e)
               = (Ret (if S <? now e then AMQP_STATUS_TIMEOUT else AMQP_STATUS_OK), mk_world k e1)).
  { unfold has_past. cbn [time_point_ns]. rewrite (proj2 (Z.eqb_neq S UINT64_MAX)) by (unfold UINT64_MAX; lia).
    assert (Eck : on_env clock (mk_world k e) = (Ret c, mk_world k e1)) by (unfold on_env, clock; cbn [w_e w_k]; by rewrite Ec).
    rewrite (bind_step _ _ _ _ _ Eck). unfold amqp_time_has_past. cbn [time_point_ns].
    rewrite (proj2 (Z.eqb_neq S UINT64_MAX)), (clock_now _ _ Hc) by (unfold UINT64_MAX; lia). cbv zeta.
    rewrite (proj2 (Z.eqb_neq (now e) 0)) by lia. done. }
  destruct (Z.ltb_spec S (now e)) as [Hlt|Hge].
  - destruct (beat_sent S k e1 Hk Hq1 ltac:(lia)) as (k2 & e2 & E2 & Hk2 & Hq2 & Hn2 & Ho2).
    exists AMQP_STATUS_TIMEOUT, e1, 1%nat, k2, e2, (now e1 + interval). split; [exact Hp|]. split; [done|]. split; [exact E2|].
    split; [done|]. split; [done|]. split; [lia|]. split; [by rewrite Ho2, (clock_outbox _ _ _ Ec), beats_one|].
    unfold interval, AMQP_NS_PER_S in *. lia.
  - exists AMQP_STATUS_OK, e1, 0%nat, k, e1, S. split; [exact Hp|]. split; [done|]. split; [done|]. split; [done|]. split; [done|]. split; [done|].
    split; [by rewrite (clock_outbox _ _ _ Ec), app_nil_r|]. lia.
Qed.

(** When the wait ends: the earlier of the two times. *)
Definition ending : Z := Z.min D R.

Definition given_up : eff (world E) amqp_frame_t :=
  if R <=? D then do! amqp_socket_close AMQP_SC_FORCE in fail AMQP_STATUS_HEARTBEAT_TIMEOUT else fail AMQP_STATUS_TIMEOUT.

Lemma time_first_min a b : amqp_time_first (mk_time a) (mk_time b) = mk_time (Z.min a b).
Proof. unfold amqp_time_first. cbn [time_point_ns]. destruct (Z.ltb_spec a b); f_equal; lia. Qed.

(** One turn of the loop. *)
Lemma wait_round m at_recv f S k e :
  quiet S k -> silent e -> 0 < now e < 2 ^ 62 + 2 ^ 61 -> 0 < S < 2 ^ 63 -> now e <= S + late ->
  R - now e < 2 ^ 31 * AMQP_NS_PER_MS ->
  exists n S1 k1 e1, quiet S1 k1 /\ silent e1 /\ outbox e1 = outbox e ++ beats n /\
    S + Z.of_nat n * interval <= S1 <= S + Z.of_nat n * (interval + late) /\ S1 <= Z.max S (now e + interval) /\
    0 < S1 < 2 ^ 63 /\ now e < now e1 <= S1 + late /\
    now e1 <= Z.max (now e) ending + late /\
    wait_loop garbage uninit fuel (Datatypes.S m) at_recv f (mk_time D) (mk_world k e)
    = (if ending <=? S1 then given_up else wait_loop garbage uninit fuel m true f (mk_time D)) (mk_world k1 e1) /\
    if ending <=? S1 then ending - AMQP_NS_PER_MS < now e1 else now e < ending.
Proof.
  intros Hk Hq Hn HS Hd HRn.
  destruct (beat_if_due S k e Hk Hq Hn HS Hd) as (res & e1 & n & k1 & e2 & S1 & Ep & Hres & Es & Hk1 & Hq1 & Hn1 & Ho1 & HS1 & HS2 & HS3 & Hdue).
  destruct (recv_times_out (Z.min D (Z.min R S1)) k1 e2 (qu_socket _ _ Hk1) Hq1 ltac:(lia)) as (e3 & Er & Hq3 & Ho3 & Hn3 & Hn4).
  { unfold UINT64_MAX in *. lia. } { lia. }
  exists n, S1, k1, e3. split; [done|]. split; [done|]. split; [congruence|]. split; [done|]. split; [done|]. split; [lia|]. unfold ending.
  split; [lia|]. split; [lia|]. split.
  - cbn [wait_loop]. change (bind get_k ?x (mk_world ?k e)) with (x k (mk_world k e)). cbv beta.
    rewrite (qu_empty _ _ Hk), andb_false_r. rewrite (qu_hb _ _ Hk). cbn [next_send_heartbeat].
    rewrite (bind_step _ _ _ _ _ Ep), Hres. change (mk_frame _ 0 PL_none) with heartbeat_frame.
    rewrite (bind_step _ _ _ _ _ Es). change (bind get_k ?x (mk_world ?k ?e)) with (x k (mk_world k e)). cbv beta zeta.
    rewrite (qu_hb _ _ Hk1). cbn [next_send_heartbeat next_recv_heartbeat]. rewrite !time_first_min.
    assert (Est : status (recv_with_timeout fuel (mk_time (Z.min D (Z.min R S1)))) (mk_world k1 e2) = (Ret AMQP_STATUS_TIMEOUT, mk_world k1 e3))
      by (unfold status; by rewrite Er).
    rewrite (bind_step _ _ _ _ _ Est). change (bind get_k ?x (mk_world ?k ?e)) with (x k (mk_world k e)). cbv beta zeta.
    rewrite (qu_hb _ _ Hk1). cbn [next_send_heartbeat next_recv_heartbeat]. rewrite Z.eqb_refl. unfold amqp_time_equal, given_up. cbn [time_point_ns].
    destruct (Z.leb_spec (Z.min D R) S1).
    + destruct (Z.leb_spec R D).
      * by rewrite (proj2 (Z.eqb_eq _ _)) by lia.
      * rewrite (proj2 (Z.eqb_neq _ _)) by lia. by rewrite (proj2 (Z.eqb_eq _ _)) by lia.
    + rewrite (proj2 (Z.eqb_neq _ R)), (proj2 (Z.eqb_neq _ D)) by lia. by rewrite (proj2 (Z.eqb_eq _ _)) by lia.
  - destruct (Z.leb_spec (Z.min D R) S1); lia.
Qed.

Lemma silent_wait m : forall at_recv f S k e,
  quiet S k -> silent e -> 0 < now e < 2 ^ 62 + 2 ^ 61 -> 0 < S < 2 ^ 63 -> now e <= S + late ->
  R - now e < 2 ^ 31 * AMQP_NS_PER_MS -> (Z.to_nat (ending - now e) < m)%nat ->
  exists n k1 e1, wait_loop garbage uninit fuel m at_recv f (mk_time D) (mk_world k e) = given_up (mk_world k1 e1) /\
    silent e1 /\ k_socket k1 = true /\ outbox e1 = outbox e ++ beats n /\ ending <= S + Z.of_nat n * (interval + late) /\
    S + Z.of_nat n * interval <= Z.max S (now e1 + interval) /\ now e < now e1 /\
    ending - AMQP_NS_PER_MS < now e1 <= Z.max (now e) (ending + late) + late.
Proof.
  pose proof late_pos as Hlp.
  induction m as [|m IH]; intros at_recv f S k e Hk Hq Hn HS Hd HRn Hm; [lia|].
  destruct (wait_round m at_recv f S k e Hk Hq Hn HS Hd HRn) as (n & S1 & k1 & e1 & Hk1 & Hq1 & Ho1 & HS1 & HS3 & HS2 & Hn1 & Hn2 & E1 & Hend).
  destruct (Z.leb_spec ending S1).
  - exists n, k1, e1. split; [done|]. split; [done|]. split; [apply Hk1|]. split; [done|]. lia.
  - destruct (IH true f S1 k1 e1 Hk1 Hq1) as (n2 & k2 & e2 & E2 & Hq2 & Hs2 & Ho2 & Hg2 & Hg3 & Hgt & Hn3);
      [unfold ending in *; lia|lia|lia|unfold AMQP_NS_PER_MS in *; lia|lia|].
    exists (n + n2)%nat, k2, e2. split; [congruence|]. split; [done|]. split; [done|].
    split; [by rewrite Ho2, Ho1, beats_plus, app_assoc|]. rewrite Nat2Z.inj_add. lia.
Qed.

(** C10: A silent peer is given up in time: while nothing arrives, a wait with deadline [D]
    on a connection whose peer is to be heard of until [R] ends at the earlier of the two
    times, less than a millisecond before it and at most twice the lateness of [poll]
    after it, with [AMQP_STATUS_TIMEOUT] if it is [D], and otherwise with
    [AMQP_STATUS_HEARTBEAT_TIMEOUT] and the socket closed.  Until then it sends
    heartbeat frames and nothing else, the first at [S] and then at least one per
    interval and lateness of [poll], and at most one per interval. *)
Theorem silent_peer_given_up S f k e :
  quiet S k -> silent e -> 0 < now e < 2 ^ 62 -> 0 < S < 2 ^ 63 -> now e <= S + late -> R <= now e + 2 * interval ->
  (Z.to_nat (Z.min D R - now e) < fuel)%nat ->
  exists n k1 e1 e2,
    wait_frame_inner garbage uninit fuel f (mk_time D) (mk_world k e)
    = (Err (if R <=? D then AMQP_STATUS_HEARTBEAT_TIMEOUT else AMQP_STATUS_TIMEOUT), mk_world k1 e2) /\
    (if R <=? D then exists st, socket_close AMQP_SC_FORCE e1 = (Ret st, e2) else e2 = e1) /\
    outbox e2 = outbox e ++ beats n /\
    Z.min D R - AMQP_NS_PER_MS < now e1 <= Z.max (now e) (Z.min D R + late) + late /\
    Z.min D R <= S + Z.of_nat n * (interval + late) /\
    S + Z.of_nat n * interval <= Z.max S (now e1 + interval).
Proof.
  intros Hk Hq Hn HS Hd HRn Hfu.
  destruct (silent_wait fuel false f S k e Hk Hq ltac:(lia) HS Hd) as (n & k1 & e1 & E1 & Hq1 & Hs1 & Ho1 & Hg1 & Hg2 & _ & Hn1);
    [unfold interval, AMQP_NS_PER_S, AMQP_NS_PER_MS in *; lia|exact Hfu|].
  unfold wait_frame_inner. rewrite E1. unfold given_up. destruct (R <=? D).
  - destruct (silent_close e1 Hq1) as (st & e2 & Ec & Ho2). exists n, k1, e1, e2. split.
    { unfold bind, amqp_socket_close, on_env. cbn [w_k w_e]. by rewrite Hs1, Ec. }
    split; [by exists st|]. split; [congruence|]. split; [exact Hn1|]. by split.
  - exists n, k1, e1, e1. split; [done|]. split; [done|]. split; [done|]. split; [exact Hn1|]. by split.
Qed.
End Quiet.

(** *** Witness *)

(** A peer that never says anything, and a [poll] that is a microsecond late. *)
Record mute := mk_mute { mt_now : Z; mt_out : list byte; mt_open : bool }.

#[export] Instance mute_system : System mute := {|
  clock_gettime s := (Some (mt_now s / AMQP_NS_PER_S, mt_now s mod AMQP_NS_PER_S), s);
  poll fd ev ms s := (mk_poll 0 false, mk_mute (mt_now s + ms * AMQP_NS_PER_MS + 1000) (mt_out s) (mt_open s));
|}.

#[export] Instance mute_net : Net mute := {
  socket_send buf flags s := (Ret (zlen buf), mk_mute (mt_now s) (mt_out s ++ buf) (mt_open s));
  socket_recv len s := (Ret (inl AMQP_PRIVATE_STATUS_SOCKET_NEEDREAD), s);
  socket_open host port timeout s := (Ret AMQP_STATUS_SOCKET_INUSE, s);
  socket_get_sockfd s := if mt_open s then 3 else -1;
  socket_close force s := (Ret AMQP_STATUS_OK, mk_mute (mt_now s) (mt_out s) false);
  socket_delete s := (Ret tt, s);
}.

#[export] Instance mute_laws : NetLaws mute.
Proof.
  refine {| outbox := mt_out |}.
  - intros e buf flags r e' [= <- <-]. split; [done|]. by rewrite ztake_all by lia.
  - done.
  - by intros e len r e' [= _ <-].
  - by intros e c e' [= _ <-].
  - by intros e fd ev ms r e' [= _ <-].
Defined.

#[export] Instance mute_silent : Silent mute.
Proof.
  refine {| now := mt_now; late := 1000; silent s := mt_open s = true |}.
  - done.
  - intros e Ho Hn. eexists _, e. split; [done|]. split; [|done]. exists (mt_now e / AMQP_NS_PER_S), (mt_now e mod AMQP_NS_PER_S).
    unfold AMQP_NS_PER_S. pose proof (Z.div_mod (mt_now e) 1000000000 ltac:(lia)).
    pose proof (Z.mod_pos_bound (mt_now e) 1000000000 ltac:(lia)). pose proof (Z.div_pos (mt_now e) 1000000000 ltac:(lia) ltac:(lia)).
    split; [done|]. lia.
  - intros e buf flags Ho. by eexists.
  - intros e len Ho. by exists e.
  - intros e Ho. cbn. by rewrite Ho.
  - intros e fd ms Ho Hms. eexists _, _. split; [done|]. split; [done|]. split; [done|]. cbn. unfold AMQP_NS_PER_MS. lia.
  - intros e Ho. by eexists _, _.
Defined.

(** A heartbeat every two seconds, the last word of the peer a moment ago. *)
Definition demo_listener : connection :=
  set_hb (mk_heartbeats 2 (mk_time 5000000000) (mk_time 3000000000))
    (set_outbound (mk_buffer 64 (Some 6) (replicate 64 x00)) (set_socket true (demo_connection empty_queue))).
Definition demo_silence : mute := mk_mute 1000000000 [] true.
Definition demo_patience : nat := Z.to_nat (2 ^ 33).

Example silent_peer_given_up_witness :
  exists n k1 e2,
    wait_frame_inner (H := little_endian) zeros zero_basic demo_patience uninit_frame amqp_time_infinite (mk_world demo_listener demo_silence)
    = (Err AMQP_STATUS_HEARTBEAT_TIMEOUT, mk_world k1 e2) /\ mt_out e2 = beats n /\ (1 <= n <= 2)%nat.
Proof.
  destruct (silent_peer_given_up (H := little_endian) zeros zero_basic demo_patience 2 5000000000 UINT64_MAX) with
    (S := 3000000000) (f := uninit_frame) (k := demo_listener) (e := demo_silence)
    as (n & k1 & e1 & e2 & E1 & _ & Ho & Hn & Hlo & Hhi).
  - done.
  - done.
  - done.
  - done.
  - unfold demo_patience. lia.
  - split; [done|done|done|]. split; [done|]. cbn. lia.
  - done.
  - done.
  - done.
  - cbn. lia.
  - by vm_compute.
  - unfold demo_patience, UINT64_MAX. cbn [now mute_silent demo_silence mt_now]. lia.
  - exists n, k1, e2. split; [exact E1|]. split; [exact Ho|].
    cbn [now late mute_silent demo_silence mt_now] in *. unfold UINT64_MAX, interval, AMQP_NS_PER_S, AMQP_NS_PER_MS in *. lia.
Defined.
