(* ===== verification/RpcSpec.v ===== *)
(** * Remote procedure calls: the theorems about [Rpc.v] and [Wrappers.v]

    A call sends its request, reads frames until the answer comes, and keeps what it
    read on the way for the application. *)

From S2P Require Import Prelude Status Memory Layout Pool PoolMem PoolSep Codec Table TableSpec MethodCodec.
From S2P Require Import MethodTypes MethodDecode MethodEncode MethodSpec Properties PropertiesSpec.
From S2P Require Import Connection ConnectionSpec FrameSpec Time Net ConnState Socket QueueSpec SocketSpec RecvSpec.
From S2P Require Import Rpc Wrappers.

(** ** The frames that end a call *)

(** A reply that is waited for, or the end of the channel or of the connection. *)
Definition ends_rpc (ch : Z) (ids : list Z) (f : amqp_frame_t) : Prop :=
  match payload f with
  | PL_method id _ =>
      (channel f = ch /\ (id ∈ ids \/ id = AMQP_CHANNEL_CLOSE_METHOD)) \/
      (channel f = 0 /\ id = AMQP_CONNECTION_CLOSE_METHOD)
  | _ => False
  end.

#[export] Instance ends_rpc_dec ch ids f : Decision (ends_rpc ch ids f).
Proof. unfold ends_rpc. destruct (payload f); apply _. Defined.

Lemma reply_list_spec ids id : 0 ∉ ids -> amqp_id_in_reply_list id (ids ++ [0]) = Ret (bool_decide (id ∈ ids)).
Proof.
  induction ids as [|i ids IH]; intros H0; [done|]. elems. simpl.
  destruct (Z.eqb_spec i 0); [by destruct H0; left|]. destruct (Z.eqb_spec i id) as [->|Hne].
  - by rewrite bool_decide_true by (elems; by left).
  - rewrite IH by tauto. f_equal. apply bool_decide_ext. elems. split; [tauto|]. intros [->|?]; done.
Qed.

Lemma answers_spec uninit ch ids f :
  frame_ok f -> 0 ∉ ids -> answers ch (ids ++ [0]) (received uninit f) = Ret (bool_decide (ends_rpc ch ids f)).
Proof.
  intros [_ Hok] H0.
  assert (exists b, answers ch (ids ++ [0]) (received uninit f) = Ret b /\ (b = true <-> ends_rpc ch ids f)) as (b & -> & Hb).
  { unfold answers, frame_method, ends_rpc, received. cbn [frame_type payload channel].
    destruct (payload f) as [|id d| | |];
      [by exists false; rewrite Hok| |by exists false; destruct Hok as (-> & _)|by exists false; rewrite Hok|done].
    destruct Hok as (-> & _). change (AMQP_FRAME_METHOD =? AMQP_FRAME_METHOD) with true. cbn [negb].
    rewrite (reply_list_spec ids id H0).
    destruct (Z.eqb_spec (channel f) ch) as [->|Hc]; eexists; (split; [reflexivity|]).
    - rewrite !orb_true_iff, bool_decide_eq_true, andb_true_iff, !Z.eqb_eq. tauto.
    - rewrite andb_true_iff, !Z.eqb_eq. tauto. }
  f_equal. destruct b; symmetry; [apply bool_decide_true; by apply Hb|apply bool_decide_false; intros Hf; by apply Hb in Hf].
Qed.

(** ** Keeping a frame for later *)

Section Call.
Context `{Host} {E : Type} `{Net E} {Th : Then E}.
Context (garbage : addr -> Z -> list byte) (uninit : amqp_basic_properties_t) (fuel : nat).
Hypothesis Hgarbage : forall a n, 0 <= n -> zlen (garbage a n) = n.
Context (S : gset Z) (F : list Z) (L : Z).

Lemma k_channel_pool_found ch k p :
  amqp_get_channel_pool (k_pool_table k) ch = Some p -> k_channel_pool ch k = (Ret (Some p), k).
Proof.
  intros Ep. unfold k_channel_pool, amqp_get_or_create_channel_pool. unfold amqp_get_channel_pool in Ep. rewrite Ep.
  by destruct k as [? []].
Qed.

Lemma k_pool_alloc_ready p n B k :
  sep_plenty S F p (B + 1) (k_mem k) -> 0 <= B -> 0 < n < 2 ^ 63 ->
  exists a m, k_pool_alloc p n k = (Ret (Some a), set_mem m k) /\ sep_plenty S F p B m.
Proof.
  intros Hp HB Hn. destruct (sep_plenty_alloc S F p B (k_mem k) n Hp HB Hn) as (a & m & E1 & Hm).
  exists a, m. split; [|done]. unfold k_pool_alloc. change (pool_alloc p n (k_mem k)) with (mem_pool_alloc p n (k_mem k)).
  by rewrite E1.
Qed.

Lemma append_ready B qs k f :
  ready S F L (B + 2) qs k -> 0 <= B -> is_Some (amqp_get_channel_pool (k_pool_table k) (channel f)) ->
  exists k', append_frame f k = (Ret tt, k') /\ ready S F L B (qs ++ [f]) k' /\ window k' = window k /\
    same_setup (k_in k) (k_in k').
Proof.
  intros [Hk Hc Hi Hq Hp Hr Hm Hroom] HB [p Ep]. unfold append_frame.
  rewrite (bind_step _ _ _ _ _ (k_channel_pool_found _ _ _ Ep)).
  assert (HpS : p ∈ S) by by apply (proj1 Hp) in Ep.
  assert (H2 : sep_plenty S F p (B + 1 + 1) (k_mem k)) by (rewrite <- Z.add_assoc; done).
  destruct (k_pool_alloc_ready p (sizeof layout_amqp_frame_t) (B + 1) k H2 ltac:(lia) ltac:(done)) as (a1 & m1 & E1 & H3).
  destruct (k_pool_alloc_ready p (sizeof layout_amqp_link_t) B (set_mem m1 k) H3 HB ltac:(done)) as (a2 & m2 & E2 & H4).
  rewrite (bind_step _ _ _ _ _ E1), (bind_step _ _ _ _ _ E2).
  destruct (append_link f (k_queue k) qs Hq) as (q' & E' & Hq'). destruct H4 as (_ & Hr' & Hm' & Hroom').
  eexists. split; [exact (on_queue_step _ (set_mem m2 (set_mem m1 k)) tt q' E')|]. split; [|done].
  by split.
Qed.

(** ** The loop of a call *)

Definition reply_to (ids : list Z) (d : method_t) : amqp_rpc_reply_t :=
  mk_rpc_reply (if bool_decide (method_id d ∈ ids) then AMQP_RESPONSE_NORMAL else AMQP_RESPONSE_SERVER_EXCEPTION)
    (method_id d, Some d) 0.

Definition method_frame (ch : Z) (d : method_t) : amqp_frame_t :=
  mk_frame AMQP_FRAME_METHOD ch (PL_method (method_id d) d).

(** One frame of the loop. *)
Lemma rpc_step B hbs n k e cs f0 f fs qs ch ids m :
  0 ∉ ids -> Forall (fun h => is_heartbeat h = true) hbs -> is_heartbeat f = false -> 0 <= B ->
  ready S F L (B + 2 + costs (hbs ++ f :: fs)) qs k -> Forall (acceptable (k_in k)) (hbs ++ f :: fs) ->
  delivers L e cs n -> window k ++ concat cs = wires (hbs ++ f :: fs) ->
  (2 * n + length (hbs ++ f :: fs) + 1 <= fuel)%nat ->
  exists k1 e1 cs1 n1, (n1 <= n)%nat /\ delivers L e1 cs1 n1 /\ window k1 ++ concat cs1 = wires fs /\
    Forall (acceptable (k_in k1)) fs /\
    ready S F L (B + costs fs) (if decide (ends_rpc ch ids f) then qs else qs ++ [received uninit f]) k1 /\
    rpc_loop garbage uninit fuel (Datatypes.S m) ch (ids ++ [0]) amqp_time_infinite f0 (mk_world k e)
    = (if decide (ends_rpc ch ids f) then
         match payload f with
         | PL_method id d => ret (mk_rpc_reply (if bool_decide (id ∈ ids) then AMQP_RESPONSE_NORMAL
                                                else AMQP_RESPONSE_SERVER_EXCEPTION) (id, Some d) 0)
         | _ => undef
         end
       else rpc_loop garbage uninit fuel m ch (ids ++ [0]) amqp_time_infinite (received uninit f)) (mk_world k1 e1).
Proof.
  intros Hz Hhb Hf HB Hrd Hall Hd Hw Hfu.
  assert (Hp : (pending k <= 1)%nat) by (unfold pending; case_decide; lia).
  destruct (wait_next garbage uninit fuel Hgarbage S F L (B + 2) hbs n k e cs f0 f fs fuel qs Hhb Hf ltac:(lia) Hrd Hall
              Hd Hw ltac:(lia) ltac:(lia)) as (k1 & e1 & cs1 & n1 & Hn1 & Hrd1 & Hset & Hd1 & Hw1 & E1).
  apply Forall_app in Hall as [_ Hall]. apply Forall_cons in Hall as [Hacc Hall].
  assert (Hall1 : forall c, same_setup (k_in k1) c -> Forall (acceptable c) fs).
  { intros c Hc. eapply Forall_impl; [exact Hall|]. intros h. apply acceptable_same. by eapply same_setup_trans. }
  pose proof (costs_nonneg fs). pose proof (answers_spec uninit ch ids f (proj1 Hacc) Hz) as Ha.
  cbn [rpc_loop]. unfold wait_frame_inner. rewrite E1.
  rewrite (bind_step _ _ _ (bool_decide (ends_rpc ch ids f)) (mk_world k1 e1)) by (unfold lift_res; by rewrite Ha).
  replace (B + 2 + costs fs) with (B + costs fs + 2) in Hrd1 by lia.
  destruct (decide (ends_rpc ch ids f)) as [He|He].
  - exists k1, e1, cs1, n1. split; [done|]. split; [done|]. split; [done|]. split; [by apply Hall1|]. split.
    { apply (ready_mono _ _ _ _ _ _ _ Hrd1). lia. }
    rewrite bool_decide_true by done. cbn [negb]. unfold ends_rpc in He. unfold received, frame_method.
    cbn [payload frame_type channel]. destruct (payload f) as [|id d| | |]; try done.
    unfold bind at 1, lift_res at 1. unfold bind, lift_res. cbn [fst]. by rewrite (reply_list_spec ids id Hz).
  - rewrite bool_decide_false by done. cbn [negb].
    destruct (append_ready (B + costs fs) qs k1 (received uninit f) Hrd1 ltac:(lia)) as (k2 & E2 & Hrd2 & Hw2 & Hset2).
    { destruct (acceptable_same _ _ _ Hset Hacc) as (_ & _ & Hpool). exact Hpool. }
    exists k2, e1, cs1, n1. split; [done|]. split; [done|]. split; [by rewrite Hw2|]. split; [by apply Hall1|].
    split; [done|].
    assert (Es : status (on_k (append_frame (received uninit f))) (mk_world k1 e1) = (Ret AMQP_STATUS_OK, mk_world k2 e1)).
    { unfold status, on_k. cbn [w_k w_e]. by rewrite E2. }
    by rewrite (bind_step _ _ _ _ _ Es).
Qed.

Lemma rpc_reads gch d rest ch ids gs : forall pre n k e cs f0 qs m,
  let g := method_frame gch d in
  0 ∉ ids -> ends_rpc ch ids g -> for_application pre = gs -> Forall (fun f => ~ ends_rpc ch ids f) gs ->
  ready S F L (2 * (zlen gs + 1) + costs (pre ++ g :: rest)) qs k -> Forall (acceptable (k_in k)) (pre ++ g :: rest) ->
  delivers L e cs n -> window k ++ concat cs = wires (pre ++ g :: rest) ->
  (2 * n + length (pre ++ g :: rest) + 1 <= fuel)%nat -> (length gs < m)%nat ->
  exists k1 e1 cs1 n1, delivers L e1 cs1 n1 /\ window k1 ++ concat cs1 = wires rest /\
    ready S F L (costs rest) (qs ++ map (received uninit) gs) k1 /\
    rpc_loop garbage uninit fuel m ch (ids ++ [0]) amqp_time_infinite f0 (mk_world k e)
    = (Ret (reply_to ids d), mk_world k1 e1).
Proof.
  induction gs as [|x gs IH]; intros pre n k e cs f0 qs [|m] g Hz Hg Hpre Hne Hrd Hall Hd Hw Hfu Hm; try (simpl in Hm; lia).
  - assert (Hhb : Forall (fun h => is_heartbeat h = true) pre).
    { apply Forall_forall. intros h Hh. destruct (is_heartbeat h) eqn:Eh; [done|].
      assert (Hin : h ∈ for_application pre) by by apply list_elem_of_filter. rewrite Hpre in Hin. by apply elem_of_nil in Hin. }
    destruct (rpc_step 0 pre n k e cs f0 g rest qs ch ids m Hz Hhb eq_refl ltac:(lia) Hrd Hall Hd Hw Hfu)
      as (k1 & e1 & cs1 & n1 & _ & Hd1 & Hw1 & _ & Hrd1 & E1).
    rewrite !decide_True in * by done. exists k1, e1, cs1, n1. split; [done|]. split; [done|].
    split; [by rewrite app_nil_r|exact E1].
  - destruct (application_split pre x gs Hpre) as (hbs & pre' & -> & Hhb & Hx & Hpre').
    apply Forall_cons in Hne as [Hnx Hne]. rewrite <- app_assoc, <- app_comm_cons in *.
    replace (zlen (x :: gs)) with (zlen gs + 1) in Hrd by (unfold zlen; simpl; lia).
    replace (2 * (zlen gs + 1 + 1)) with (2 * (zlen gs + 1) + 2) in Hrd by lia. pose proof (zlen_nonneg gs).
    destruct (rpc_step (2 * (zlen gs + 1)) hbs n k e cs f0 x _ qs ch ids m Hz Hhb Hx ltac:(lia) Hrd Hall Hd Hw Hfu)
      as (k1 & e1 & cs1 & n1 & Hn1 & Hd1 & Hw1 & Hall1 & Hrd1 & E1).
    rewrite !decide_False in * by done. rewrite !length_app in Hfu. simpl in Hfu, Hm. rewrite length_app in Hfu. simpl in Hfu.
    destruct (IH pre' n1 k1 e1 cs1 (received uninit x) _ m Hz Hg Hpre' Hne Hrd1 Hall1 Hd1 Hw1
                ltac:(rewrite length_app; simpl; lia) ltac:(lia)) as (k2 & e2 & cs2 & n2 & Hd2 & Hw2 & Hrd2 & E2).
    exists k2, e2, cs2, n2. split; [done|]. split; [done|]. split; [|by rewrite E1].
    by rewrite <- app_assoc in Hrd2.
Qed.

(** C4: A remote procedure call finds its answer: the request goes out as one method
    frame, and when the peer's frames hold, after other frames [pre], a method frame
    that ends the call (an expected reply, or the close of the channel or of the
    connection), [amqp_simple_rpc] returns that method, [NORMAL] exactly if it was
    expected; every frame before it, heartbeats apart, is at the end of the queue, in
    order, and what follows it is still unread.  The connection has no timeouts, its
    channels have pools, and memory suffices. *)
Theorem rpc_answered ch request ids gch d pre rest n n0 k (e e0 : E) cs qs :
  let g := method_frame gch d in
  let fs := pre ++ g :: rest in
  0 ∉ ids -> ends_rpc ch ids g -> Forall (fun f => ~ ends_rpc ch ids f) pre ->
  can_send k -> frame_ok (method_frame ch request) -> zlen (wire_frame (method_frame ch request)) <= b_len (k_outbound k) ->
  accepts AMQP_SF_NONE e (wire_frame (method_frame ch request)) e0 n0 -> (n0 <= fuel)%nat ->
  k_rpc_timeout k = None -> ready S F L (2 * (zlen pre + 1) + costs fs) qs k -> Forall (acceptable (k_in k)) fs ->
  delivers L e0 cs n -> window k ++ concat cs = wires fs -> (2 * n + length fs + 1 <= fuel)%nat ->
  exists k1 e1 cs1 n1,
    amqp_simple_rpc garbage uninit fuel ch (method_id request) (ids ++ [0]) request (mk_world k e)
    = (Ret (reply_to ids d), mk_world k1 e1) /\
    queue_of (k_queue k1) (qs ++ map (received uninit) (for_application pre)) /\
    delivers L e1 cs1 n1 /\ window k1 ++ concat cs1 = wires rest.
Proof.
  intros g fs Hz Hg Hpre Hs Hok Hfit Ha Hn0 Hto Hrd Hall Hd Hw Hfu.
  destruct (send_frame_accepted garbage uninit fuel k (method_frame ch request) AMQP_SF_NONE e e0 n0 Hs Hok Hfit Ha Hn0)
    as (ob & _ & _ & Es).
  assert (Hlen : zlen (for_application pre) <= zlen pre).
  { unfold zlen, for_application. pose proof (length_filter (fun f => is_heartbeat f = false) pre). lia. }
  assert (Hrd' : ready S F L (2 * (zlen (for_application pre) + 1) + costs fs) qs (set_outbound ob k)).
  { apply (ready_mono S F L (2 * (zlen pre + 1) + costs fs)); [by destruct Hrd|lia]. }
  destruct (rpc_reads gch d rest ch ids (for_application pre) pre n (set_outbound ob k) e0 cs uninit_frame qs fuel
              Hz Hg eq_refl) as (k1 & e1 & cs1 & n1 & Hd1 & Hw1 & Hrd1 & E1); try done.
  - apply Forall_forall. intros f Hf. apply list_elem_of_filter in Hf as [_ Hf]. rewrite Forall_forall in Hpre. auto.
  - unfold fs in Hfu. rewrite length_app in Hfu. pose proof (length_filter (fun f => is_heartbeat f = false) pre).
    unfold for_application. lia.
  - exists k1, e1, cs1, n1. split; [|split; [apply Hrd1|done]].
    unfold amqp_simple_rpc. cbn [w_k]. rewrite Hto. change (from_now None ?w) with (@Ret amqp_time_t amqp_time_infinite, w).
    cbv iota beta. unfold simple_rpc_inner.
    assert (Est : status (amqp_send_method garbage uninit fuel ch (method_id request) request) (mk_world k e)
                  = (Ret AMQP_STATUS_OK, mk_world (set_outbound ob k) e0)).
    { unfold status, amqp_send_method, amqp_send_method_inner. fold (method_frame ch request). by rewrite Es. }
    rewrite (bind_step _ _ _ _ _ Est). exact E1.
Qed.

End Call.

(** *** Witness *)

(** The application opens channel 1 while a message for channel 2 is under way. *)
Definition demo_open : method_t := M_channel_open (mk_channel_open []).
Definition demo_open_ok : method_t := M_channel_open_ok (mk_channel_open_ok []).

Definition demo_caller : connection := set_outbound (mk_buffer 64 (Some 6) (replicate 64 x00)) demo_reader.
Definition demo_answer : list amqp_frame_t := [body_on 2; method_frame 1 demo_open_ok].

Lemma demo_caller_ready n : 0 <= n <= INT_MAX -> ready {[1; 2]} [] 64 n [] demo_caller.
Proof. intros Hn. destruct (demo_reader_ready n Hn). by split. Qed.

Lemma demo_open_frames : frame_ok (method_frame 1 demo_open) /\ Forall (acceptable (k_in demo_caller)) demo_answer.
Proof.
  assert (Ho : method_ok demo_open) by (by repeat (apply Forall_cons; split)).
  assert (Hr : method_ok demo_open_ok) by (by repeat (apply Forall_cons; split)).
  split; [done|]. repeat (apply Forall_cons; split); [..|by apply Forall_nil];
    (split; [done|split; [by vm_compute|by eexists]]).
Qed.

Example rpc_answered_witness :
  exists k1 e1 cs1 n1,
    amqp_simple_rpc (H := little_endian) zeros zero_basic 20 1 AMQP_CHANNEL_OPEN_METHOD
      [AMQP_CHANNEL_OPEN_OK_METHOD; 0] demo_open (mk_world demo_caller (mk_script 1 [wires demo_answer] [] true))
    = (Ret (mk_rpc_reply AMQP_RESPONSE_NORMAL (AMQP_CHANNEL_OPEN_OK_METHOD, Some demo_open_ok) 0), mk_world k1 e1) /\
    queue_of (k_queue k1) [body_on 2] /\
    delivers 64 e1 cs1 n1 /\ window k1 ++ concat cs1 = wires [].
Proof.
  destruct demo_open_frames as [Hreq Hacc].
  apply (rpc_answered (H := little_endian) zeros zero_basic 20 zeros_len {[1; 2]} [] 64 1 demo_open
           [AMQP_CHANNEL_OPEN_OK_METHOD] 1 demo_open_ok [body_on 2] [] 1 1 demo_caller
           (mk_script 1 [wires demo_answer] [] true)
           (mk_script 1 [wires demo_answer] (wire_frame (method_frame 1 demo_open)) true) [wires demo_answer] []).
  - set_solver.
  - left. split; [done|]. left. by apply list_elem_of_singleton.
  - apply Forall_singleton. intros Hx. exact Hx.
  - repeat split; by vm_compute.
  - done.
  - by vm_compute.
  - by apply accepts_all.
  - lia.
  - done.
  - apply demo_caller_ready. by vm_compute.
  - done.
  - apply (script_delivers 64 1 _ true [wires demo_answer]). apply Forall_singleton. by split; vm_compute.
  - by vm_compute.
  - simpl. lia.
Defined.
