(* ===== verification/ReplySpec.v ===== *)
(** * The structures replies are read as

    The wrappers of [amqp_framing.c] cast the [void *] of [amqp_simple_rpc_decoded] to
    the structure of their reply.  Whatever the peer sends, what they get is [NULL] or
    a structure of that very type. *)

From S2P Require Import Prelude Status Memory Layout Pool PoolMem Codec Table MethodCodec.
From S2P Require Import MethodTypes MethodDecode MethodEncode Properties PropertiesSpec.
From S2P Require Import Connection Time Net ConnState Socket SocketSpec Rpc Wrappers.

Lemma bind_inv {S A B} (m : eff S A) (k : A -> eff S B) s b s' :
  bind m k s = (Ret b, s') -> exists a s1, m s = (Ret a, s1) /\ k a s1 = (Ret b, s').
Proof. unfold bind. destruct (m s) as [[a| | |] s1]; try done. eauto. Qed.

(** ** What holds of a function's result *)

Definition yields {S A} (P : A -> Prop) (m : eff S A) : Prop := forall s a s', m s = (Ret a, s') -> P a.

Lemma yields_bind {S A B} (Q : A -> Prop) (P : B -> Prop) (m : eff S A) (k : A -> eff S B) :
  yields Q m -> (forall a, Q a -> yields P (k a)) -> yields P (bind m k).
Proof. intros Hm Hk s b s' E. apply bind_inv in E as (a & s1 & E1 & E2). by apply (Hk a (Hm _ _ _ E1) _ _ _ E2). Qed.

Lemma yields_then {S A B} (P : B -> Prop) (m : eff S A) (k : A -> eff S B) :
  (forall a, yields P (k a)) -> yields P (bind m k).
Proof. intros Hk. apply (yields_bind (fun _ => True)); [done|auto]. Qed.

Lemma yields_ret {S A} (P : A -> Prop) (a : A) : P a -> yields P (@ret S A a).
Proof. by intros Ha s b s' [= <- _]. Qed.

Lemma yields_fail {S A} (P : A -> Prop) st : yields P (@fail S A st).
Proof. done. Qed.
Lemma yields_undef {S A} (P : A -> Prop) : yields P (@undef S A).
Proof. done. Qed.
Lemma yields_nofuel {S A} (P : A -> Prop) : yields P (@nofuel S A).
Proof. done. Qed.

Create HintDb yields.
#[export] Hint Resolve yields_then yields_ret yields_fail yields_undef yields_nofuel : yields.

(** ** Methods and frames *)

Section Typed.
Context `{Host} {E : Type} `{Net E}.
Context (garbage : addr -> Z -> list byte) (uninit : amqp_basic_properties_t) (fuel : nat).

Lemma decode_method_typed `{MemOps Mem Pool} enc pool id : yields (fun d => method_id d = id) (amqp_decode_method enc pool id).
Proof.
  unfold amqp_decode_method. apply switch_case; [|apply yields_fail].
  repeat (apply Forall_cons; split; [intros ->; apply yields_then; intros m; by apply yields_ret|]). by apply Forall_nil.
Qed.

(** The method id of a frame is the one of its structure. *)
Definition typed_payload (pl : frame_payload) : Prop :=
  match pl with PL_method id d => id = method_id d | _ => True end.
Definition typed (f : amqp_frame_t) : Prop := typed_payload (payload f).

Lemma decode_method_frame_typed p raw n : yields typed_payload (decode_method_frame p raw n).
Proof.
  unfold decode_method_frame. apply yields_then. intros id. destruct (payload_from _ _ _) as [enc|].
  - apply (yields_bind (fun d => method_id d = id)); [|intros d <-; by apply yields_ret].
    intros s d s' E1. unfold run_decoder in E1. destruct (amqp_decode_method enc p id _) as [r ds] eqn:Ed.
    injection E1 as -> _. exact (decode_method_typed _ _ _ _ _ _ Ed).
  - intros s a s' E1. destruct (run_decoder _ s) as [[|st| |] ?]; try done. by destruct (_ =? _).
Qed.

(** A function that leaves a typed frame behind when it found one. *)
Definition keeps_typed {A} (m : eff input_state A) : Prop := forall s, typed (i_frame s) -> typed (i_frame (m s).2).

Lemma keeps_bind {A B} (m : eff input_state A) (k : A -> eff input_state B) :
  keeps_typed m -> (forall a, keeps_typed (k a)) -> keeps_typed (bind m k).
Proof.
  intros Hm Hk s Hs. specialize (Hm s Hs). unfold bind. destruct (m s) as [[a| | |] s1]; try done. by apply Hk.
Qed.
Lemma keeps_yields {A B} (Q : A -> Prop) (m : eff input_state A) (k : A -> eff input_state B) :
  keeps_typed m -> yields Q m -> (forall a, Q a -> keeps_typed (k a)) -> keeps_typed (bind m k).
Proof.
  intros Hm Hq Hk s Hs. specialize (Hm s Hs). unfold bind. destruct (m s) as [[a| | |] s1] eqn:Em; try done.
  apply (Hk a); [exact (Hq _ _ _ Em)|done].
Qed.
Lemma keeps_put f : typed f -> keeps_typed (put_frame f).
Proof. by intros Hf s _. Qed.
Lemma keeps_frame {A} (m : eff input_state A) : (forall s, i_frame (m s).2 = i_frame s) -> keeps_typed m.
Proof. intros Hm s Hs. by rewrite Hm. Qed.

Lemma raw_read_frame n d raw o s : i_frame (raw_read n d raw o s).2 = i_frame s.
Proof. unfold raw_read. by destruct (load raw o n). Qed.
Lemma consume_data_frame s : i_frame (consume_data s).2 = i_frame s.
Proof. unfold consume_data. destruct (inbound_bytes _); [|done]. by destruct (store _ _ _). Qed.
Lemma raw_frame_frame s : i_frame (raw_frame s).2 = i_frame s.
Proof. unfold raw_frame, bind, get_conn. by destruct (inbound_bytes _). Qed.
Lemma channel_pool_frame ch s : i_frame (channel_pool ch s).2 = i_frame s.
Proof.
  unfold channel_pool. destruct (amqp_get_or_create_channel_pool _ _ _) as [[[p|]| | |] [t m]]; done.
Qed.
Lemma run_decoder_frame {A} (d : eff (dec_state memory) A) s : i_frame (run_decoder d s).2 = i_frame s.
Proof. unfold run_decoder. by destruct (d _). Qed.

Lemma decode_method_frame_keeps p raw n : keeps_typed (decode_method_frame p raw n).
Proof.
  unfold decode_method_frame. apply keeps_bind; [apply keeps_frame, raw_read_frame|]. intros id.
  destruct (payload_from _ _ _).
  - apply keeps_bind; [apply keeps_frame, run_decoder_frame|]. intros d. by apply keeps_frame.
  - apply keeps_frame. intros s. pose proof (run_decoder_frame (amqp_decode_method [] p id) s) as Hf.
    destruct (run_decoder _ s) as [[|st| |] ?]; try done. by destruct (_ =? _).
Qed.

Lemma decode_header_frame_keeps p raw n : keeps_typed (decode_header_frame uninit p raw n).
Proof.
  unfold decode_header_frame. do 2 (apply keeps_bind; [apply keeps_frame, raw_read_frame|]; intros ?).
  destruct (payload_from _ _ _); [|by apply keeps_frame].
  apply keeps_bind; [apply keeps_frame, run_decoder_frame|]. intros d. by apply keeps_frame.
Qed.

Lemma decode_header_frame_yields p raw n : yields typed_payload (decode_header_frame uninit p raw n).
Proof.
  unfold decode_header_frame. do 2 (apply yields_then; intros ?). destruct (payload_from _ _ _); [|done].
  apply yields_then. intros d. by apply yields_ret.
Qed.

Lemma handle_body_keeps : keeps_typed (handle_body uninit).
Proof.
  unfold handle_body. apply keeps_bind; [apply keeps_frame, raw_frame_frame|]. intros raw.
  apply keeps_bind; [by apply keeps_frame|]. intros c.
  apply keeps_bind; [apply keeps_frame, raw_read_frame|]. intros footer. destruct (negb _); [by apply keeps_frame|].
  do 2 (apply keeps_bind; [apply keeps_frame, raw_read_frame|]; intros ?).
  apply keeps_bind; [by apply keeps_put|]. intros _.
  apply keeps_bind; [apply keeps_frame, channel_pool_frame|]. intros p.
  apply keeps_bind; [|intros _; apply keeps_bind; [by apply keeps_frame|]; intros ?; by apply keeps_frame].
  apply switch_ind; [|by apply keeps_put]. repeat (apply Forall_cons; split); cbn [snd]; [..|by apply Forall_nil].
  - apply (keeps_yields typed_payload); [apply decode_method_frame_keeps|apply decode_method_frame_typed|].
    intros pl Hpl. by apply keeps_put.
  - apply (keeps_yields typed_payload); [apply decode_header_frame_keeps|apply decode_header_frame_yields|].
    intros pl Hpl. by apply keeps_put.
  - destruct (load _ _ _); [by apply keeps_put|by apply keeps_frame].
  - by apply keeps_frame.
Qed.

Lemma handle_header_keeps raw : keeps_typed (handle_header garbage raw).
Proof.
  unfold handle_header. do 2 (apply keeps_bind; [apply keeps_frame, raw_read_frame|]; intros ?).
  destruct (_ <=? _); [by apply keeps_frame|]. apply keeps_bind; [by apply keeps_frame|]. intros c.
  apply keeps_bind; [by apply keeps_frame|]. intros _. destruct (_ <? _); [by apply keeps_frame|].
  apply keeps_bind; [apply keeps_frame, channel_pool_frame|]. intros p. apply keeps_bind; [by apply keeps_frame|]. intros c2.
  destruct (pool_alloc _ _ _) as [[?|] ?]; [|by apply keeps_bind; intros; apply keeps_frame].
  destruct (load _ _ _); [|by apply keeps_frame]. by destruct (store _ _ _); apply keeps_frame.
Qed.

Lemma handle_initial_keeps raw : keeps_typed (handle_initial raw).
Proof.
  unfold handle_initial. destruct (load raw 0 4) as [magic|]; [|by apply keeps_frame].
  case_bool_decide; [|by apply keeps_frame].
  do 4 (apply keeps_bind; [apply keeps_frame, raw_read_frame|]; intros ?).
  apply keeps_bind; [by apply keeps_put|]. intros _. apply keeps_bind; [by apply keeps_frame|]. intros c.
  apply keeps_bind; [by apply keeps_frame|]. intros _. by apply keeps_frame.
Qed.

Lemma body_case_keeps n : keeps_typed (body_case uninit n).
Proof. apply keeps_bind; [apply handle_body_keeps|]. intros _. by apply keeps_frame. Qed.

Lemma when_complete_keeps n m : keeps_typed m -> keeps_typed (when_complete n m).
Proof. intros Hm. apply keeps_bind; [by apply keeps_frame|]. intros c. destruct (_ <? _); [by apply keeps_frame|done]. Qed.

Lemma header_case_keeps raw n : keeps_typed (header_case garbage uninit raw n).
Proof.
  apply keeps_bind; [apply handle_header_keeps|]. intros _.
  apply keeps_bind; [apply keeps_frame, consume_data_frame|]. intros more. apply when_complete_keeps, body_case_keeps.
Qed.

(** Whatever the bytes, the frame [amqp_handle_input] leaves behind is typed. *)
Lemma handle_input_typed s : typed (i_frame (amqp_handle_input garbage uninit s).2).
Proof.
  unfold amqp_handle_input. unfold bind at 1, get_frame at 1. unfold bind at 1, put_frame at 1.
  set (s1 := mk_input _ _ _). assert (H1 : typed (i_frame s1)) by done. destruct (_ =? 0); [done|]. revert H1.
  generalize s1. clear s1. apply keeps_bind; [by apply keeps_frame|]. intros c. apply keeps_bind; [by apply keeps_frame|]. intros _.
  apply keeps_bind; [apply keeps_frame, consume_data_frame|]. intros n. apply when_complete_keeps.
  apply keeps_bind; [apply keeps_frame, raw_frame_frame|]. intros raw. apply keeps_bind; [by apply keeps_frame|]. intros c2.
  destruct (c_state c2).
  - by apply keeps_frame.
  - apply keeps_bind; [apply handle_initial_keeps|]. intros [|]; [by apply keeps_frame|apply header_case_keeps].
  - apply header_case_keeps.
  - apply body_case_keeps.
Qed.

(** ** From the socket to the reply *)

Lemma consume_one_frame_typed f : yields typed (@consume_one_frame _ E garbage uninit f).
Proof.
  intros w g w' E1. unfold consume_one_frame in E1. destruct (load _ _ _) as [data|]; [|done].
  pose proof (handle_input_typed (mk_input (k_in (w_k w)) f data)) as Ht.
  destruct (amqp_handle_input garbage uninit _) as [[n| | |] s]; try done. destruct (_ <? _); [done|]. by injection E1 as <- _.
Qed.

Lemma wait_loop_typed m : forall at_recv f t, yields typed (wait_loop garbage uninit fuel m at_recv f t).
Proof.
  induction m as [|m IH]; intros at_recv f t; [done|]. cbn [wait_loop]. apply yields_then. intros k. destruct (_ && _).
  - apply (yields_bind typed); [apply consume_one_frame_typed|]. intros g Hg.
    destruct (_ =? AMQP_FRAME_HEARTBEAT); [apply yields_then; auto|]. destruct (negb _); [by apply yields_ret|auto].
  - apply yields_then. intros res. destruct (_ =? _); [done|]. do 4 (apply yields_then; intros ?).
    destruct (_ =? AMQP_STATUS_TIMEOUT).
    + destruct (amqp_time_equal _ _); [apply yields_then; done|]. destruct (amqp_time_equal _ _); [done|].
      destruct (amqp_time_equal _ _); [auto|done].
    + destruct (negb _); [done|auto].
Qed.

Lemma reply_list_found id ids : amqp_id_in_reply_list id ids = Ret true -> id ∈ ids /\ id <> 0.
Proof.
  induction ids as [|i ids IH]; [done|]. simpl. destruct (Z.eqb_spec i 0); [done|].
  destruct (Z.eqb_spec i id) as [->|Hne]; intros Hr; elems; [tauto|]. destruct (IH Hr). tauto.
Qed.

(** A normal reply is one of those that were expected, with its own structure. *)
Definition good_reply (ids : list Z) (r : amqp_rpc_reply_t) : Prop :=
  reply_type r = AMQP_RESPONSE_NORMAL ->
  exists d, reply r = (method_id d, Some d) /\ method_id d ∈ ids /\ method_id d <> 0.

Lemma reply_error_good ids st : good_reply ids (amqp_rpc_reply_error st).
Proof. done. Qed.

Lemma rpc_loop_good m : forall ch ids t f, yields (good_reply ids) (rpc_loop garbage uninit fuel m ch ids t f).
Proof.
  induction m as [|m IH]; intros ch ids t f; [done|]. intros w r w' E1. cbn [rpc_loop] in E1.
  pose proof (wait_loop_typed fuel false f t w) as Hw. unfold wait_frame_inner in E1.
  destruct (wait_loop _ _ _ _ _ _ _ w) as [[g|st| |] w1]; try done.
  - specialize (Hw g w1 eq_refl). apply bind_inv in E1 as (ours & w2 & _ & E1). destruct (negb ours).
    + revert E1. apply yields_then. intros st. destruct (negb _); [apply yields_ret, reply_error_good|apply IH].
    + apply bind_inv in E1 as (me & w3 & Em & E1). apply bind_inv in E1 as (expected & w4 & Ee & E1).
      injection E1 as <- _. injection Em as Em _. injection Ee as Ee _. intros Hn. cbn in Hn. destruct expected; [|done].
      apply reply_list_found in Ee as [He1 He2]. unfold frame_method in Em. unfold typed, typed_payload in Hw.
      destruct (payload g) as [|id d| | |]; try done. injection Em as <-. cbn in He1, He2. subst id. by exists d.
  - revert E1. apply yields_then. intros _. apply yields_ret, reply_error_good.
Qed.

(** [NULL], or a structure of the method [id] *)
Definition reply_is (id : Z) (r : option method_t) : Prop :=
  match r with Some d => method_id d = id | None => True end.

Lemma rpc_decoded_typed ch id reply_id d :
  yields (reply_is reply_id) (amqp_simple_rpc_decoded garbage uninit fuel ch id reply_id d).
Proof.
  intros w r w'. unfold amqp_simple_rpc_decoded. destruct (from_now _ w) as [[t|st| |] w1]; try done.
  - apply (yields_bind (good_reply [reply_id; 0]) (reply_is reply_id)).
    { apply yields_then. intros st. destruct (_ <? 0); [apply yields_ret, reply_error_good|apply rpc_loop_good]. }
    intros rep Hrep. apply yields_then. intros _. apply yields_ret. destruct (reply_type rep) eqn:Et; try done.
    destruct (Hrep Et) as (d' & -> & Hin & Hne). cbn. elems. tauto.
  - apply (yields_then (reply_is reply_id)). intros _. by apply yields_ret.
Qed.

End Typed.

(** C13: The casts of the generated wrappers are safe: whatever the peer and the
    environment do, and in whatever state the connection is, a wrapper that returns a
    structure returns one of the type it is declared with, for all twenty wrappers. *)
Theorem wrapper_replies_typed `{Host} {E : Type} `{Net E} garbage uninit fuel ch b1 b2 b3 x1 x2 x3 x4 t :
  Forall (fun '(call, id) => yields (reply_is id) (call : eff (world E) (option method_t)))
    [(amqp_connection_update_secret garbage uninit fuel ch b1 b2, AMQP_CONNECTION_UPDATE_SECRET_OK_METHOD);
     (amqp_channel_open garbage uninit fuel ch, AMQP_CHANNEL_OPEN_OK_METHOD);
     (amqp_channel_flow garbage uninit fuel ch x1, AMQP_CHANNEL_FLOW_OK_METHOD);
     (amqp_exchange_declare garbage uninit fuel ch b1 b2 x1 x2 x3 x4 t, AMQP_EXCHANGE_DECLARE_OK_METHOD);
     (amqp_exchange_delete garbage uninit fuel ch b1 x1, AMQP_EXCHANGE_DELETE_OK_METHOD);
     (amqp_exchange_bind garbage uninit fuel ch b1 b2 b3 t, AMQP_EXCHANGE_BIND_OK_METHOD);
     (amqp_exchange_unbind garbage uninit fuel ch b1 b2 b3 t, AMQP_EXCHANGE_UNBIND_OK_METHOD);
     (amqp_queue_declare garbage uninit fuel ch b1 x1 x2 x3 x4 t, AMQP_QUEUE_DECLARE_OK_METHOD);
     (amqp_queue_bind garbage uninit fuel ch b1 b2 b3 t, AMQP_QUEUE_BIND_OK_METHOD);
     (amqp_queue_purge garbage uninit fuel ch b1, AMQP_QUEUE_PURGE_OK_METHOD);
     (amqp_queue_delete garbage uninit fuel ch b1 x1 x2, AMQP_QUEUE_DELETE_OK_METHOD);
     (amqp_queue_unbind garbage uninit fuel ch b1 b2 b3 t, AMQP_QUEUE_UNBIND_OK_METHOD);
     (amqp_basic_qos garbage uninit fuel ch x1 x2 x3, AMQP_BASIC_QOS_OK_METHOD);
     (amqp_basic_consume garbage uninit fuel ch b1 b2 x1 x2 x3 t, AMQP_BASIC_CONSUME_OK_METHOD);
     (amqp_basic_cancel garbage uninit fuel ch b1, AMQP_BASIC_CANCEL_OK_METHOD);
     (amqp_basic_recover garbage uninit fuel ch x1, AMQP_BASIC_RECOVER_OK_METHOD);
     (amqp_tx_select garbage uninit fuel ch, AMQP_TX_SELECT_OK_METHOD);
     (amqp_tx_commit garbage uninit fuel ch, AMQP_TX_COMMIT_OK_METHOD);
     (amqp_tx_rollback garbage uninit fuel ch, AMQP_TX_ROLLBACK_OK_METHOD);
     (amqp_confirm_select garbage uninit fuel ch, AMQP_CONFIRM_SELECT_OK_METHOD)].
Proof.
  repeat (apply Forall_cons; split; [apply rpc_decoded_typed|]). by apply Forall_nil.
Qed.
