(* ===== verification/Api.v ===== *)
(** * The small API: [librabbitmq/amqp_api.c]

    Error strings, publishing, closing, acknowledging and the timeout settings. *)

From Stdlib Require Import String.
From S2P Require Import Prelude Status Memory Layout Pool PoolMem Codec Table MethodCodec.
From S2P Require Import MethodTypes MethodDecode MethodEncode Properties Connection Time Net ConnState Socket Rpc.

Local Open Scope string_scope.
Local Open Scope Z_scope.

(** ** Error strings *)

Definition ERROR_MASK : Z := 0x00FF.
Definition ERROR_CATEGORY_MASK : Z := 0xFF00.
Definition EC_base : Z := 0.
Definition EC_tcp : Z := 1.
Definition EC_ssl : Z := 2.

Definition base_error_strings : list string :=
  ["operation completed successfully"; "could not allocate memory"; "invalid AMQP data"; "unknown AMQP class id";
   "unknown AMQP method id"; "hostname lookup failed"; "incompatible AMQP version"; "connection closed unexpectedly";
   "could not parse AMQP URL"; "a socket error occurred"; "invalid parameter"; "table too large for buffer";
   "unexpected method received"; "request timed out"; "system timer has failed";
   "heartbeat timeout, connection closed"; "unexpected protocol state"; "socket is closed"; "socket already open";
   "unsupported sasl method requested"; "parameter value is unsupported"].
Definition tcp_error_strings : list string :=
  ["a socket error occurred"; "socket library initialization failed"].
Definition ssl_error_strings : list string :=
  ["a SSL error occurred"; "SSL hostname verification failed"; "SSL peer cert verification failed";
   "SSL handshake failed"; "SSL setting engine failed"].
Definition unknown_error_string : string := "(unknown error)".

Definition error_entry (strings : list string) (error : Z) : string :=
  match strings !! Z.to_nat error with Some s => s | None => unknown_error_string end.

(** [-code] is an [int]. *)
Definition amqp_error_string2 (code : Z) : res string :=
  if code =? - 2 ^ 31 then Undef
  else
    let category := Z.shiftr (Z.land (- code) ERROR_CATEGORY_MASK) 8 in
    let error := Z.land (- code) ERROR_MASK in
    Ret (switch category
           [(EC_base, error_entry base_error_strings error);
            (EC_tcp, error_entry tcp_error_strings error);
            (EC_ssl, error_entry ssl_error_strings error)]
           unknown_error_string).

(** The string that is copied by [strdup]. *)
Definition amqp_error_string (code : Z) : res string :=
  amqp_error_string2 (if 0 <? code then - code else code).

Section Api.
Context `{Host} {E : Type} `{Net E}.
Context (garbage : addr -> Z -> list byte) (uninit : amqp_basic_properties_t).
Context (fuel : nat).

(** ** Publishing *)

Definition AMQP_BASIC_CLASS : Z := 0x003C.

(** [if (res < 0) return res;] *)
Definition checked {S} (m : eff S unit) : eff S unit :=
  let! res := status m in
  if res <? 0 then fail res else ret tt.

(** [memset(&default_properties, 0, sizeof(default_properties))] *)
Definition default_properties : amqp_basic_properties_t :=
  mk_basic_properties 0 [] [] [] 0 0 [] [] [] [] 0 [] [] [] [].

(** [while (body_offset < body.len)] *)
Fixpoint publish_loop (fuel' : nat) (ch usable_body_payload_size : Z) (body : list byte) (body_offset : Z)
    : eff (world E) unit :=
  match fuel' with
  | O => nofuel
  | S fuel'' =>
      if body_offset <? zlen body then
        let remaining := size_sub (zlen body) body_offset in
        let '(len, flagz) := if usable_body_payload_size <=? remaining
                             then (usable_body_payload_size, AMQP_SF_MORE) else (remaining, AMQP_SF_NONE) in
        let fragment := ztake len (zdrop body_offset body) in
        do! checked (amqp_send_frame_inner garbage uninit fuel (mk_frame AMQP_FRAME_BODY ch (PL_body fragment))
                       flagz amqp_time_infinite) in
        publish_loop fuel'' ch usable_body_payload_size body (size_add body_offset len)
      else ret tt
  end.

Definition amqp_basic_publish (ch : Z) (exchange routing_key : amqp_bytes_t) (mandatory immediate : Z)
    (properties : option amqp_basic_properties_t) (body : list byte) : eff (world E) unit :=
  let! k := get_k in
  let usable := c_frame_max (k_in k) - (HEADER_SIZE + FOOTER_SIZE) in
  if negb (bool_decide (in_s 32 usable)) then undef
  else
    let usable_body_payload_size := wrap 64 usable in
    let m := M_basic_publish (mk_basic_publish 0 exchange routing_key mandatory immediate) in
    let! res := has_past (next_recv_heartbeat (k_hb k)) in
    if res =? AMQP_STATUS_TIMER_FAILURE then fail res
    else
      do! (if res =? AMQP_STATUS_TIMEOUT then
             let! res := status (amqp_try_recv garbage uninit fuel) in
             if res =? AMQP_STATUS_TIMEOUT then fail AMQP_STATUS_HEARTBEAT_TIMEOUT
             else if negb (res =? AMQP_STATUS_OK) then fail res
             else ret tt
           else ret tt) in
      do! checked (amqp_send_method_inner garbage uninit fuel ch AMQP_BASIC_PUBLISH_METHOD m
                     AMQP_SF_MORE amqp_time_infinite) in
      let decoded := match properties with Some p => p | None => default_properties end in
      let flagz := if 0 <? zlen body then AMQP_SF_MORE else AMQP_SF_NONE in
      do! checked (amqp_send_frame_inner garbage uninit fuel
                     (mk_frame AMQP_FRAME_HEADER ch (PL_properties AMQP_BASIC_CLASS (zlen body) (P_basic decoded) []))
                     flagz amqp_time_infinite) in
      publish_loop fuel ch usable_body_payload_size body 0.

(** ** Closing *)

Definition bad_code (code : Z) : bool := (code <? 0) || (UINT16_MAX <? code).

Definition amqp_channel_close (ch code : Z) : eff (world E) amqp_rpc_reply_t :=
  if bad_code code then ret (amqp_rpc_reply_error AMQP_STATUS_INVALID_PARAMETER)
  else amqp_simple_rpc garbage uninit fuel ch AMQP_CHANNEL_CLOSE_METHOD [AMQP_CHANNEL_CLOSE_OK_METHOD; 0]
         (M_channel_close (mk_channel_close code (sprintf_d code) 0 0)).

(** The code fills in an [amqp_channel_close_t] and has it encoded as the
    [amqp_connection_close_t] of the same layout. *)
Definition amqp_connection_close (code : Z) : eff (world E) amqp_rpc_reply_t :=
  if bad_code code then ret (amqp_rpc_reply_error AMQP_STATUS_INVALID_PARAMETER)
  else amqp_simple_rpc garbage uninit fuel 0 AMQP_CONNECTION_CLOSE_METHOD [AMQP_CONNECTION_CLOSE_OK_METHOD; 0]
         (M_connection_close (mk_connection_close code (sprintf_d code) 0 0)).

(** ** Acknowledging and getting *)

Definition amqp_basic_ack (ch delivery_tag multiple : Z) : eff (world E) unit :=
  amqp_send_method garbage uninit fuel ch AMQP_BASIC_ACK_METHOD (M_basic_ack (mk_basic_ack delivery_tag multiple)).

Definition amqp_basic_get (ch : Z) (queue : amqp_bytes_t) (no_ack : Z) : eff (world E) amqp_rpc_reply_t :=
  let! r := amqp_simple_rpc garbage uninit fuel ch AMQP_BASIC_GET_METHOD
              [AMQP_BASIC_GET_OK_METHOD; AMQP_BASIC_GET_EMPTY_METHOD; 0]
              (M_basic_get (mk_basic_get 0 queue no_ack)) in
  do! modify_k (set_most_recent_api_result r) in
  let! k := get_k in ret (k_most_recent_api_result k).

Definition amqp_basic_reject (ch delivery_tag requeue : Z) : eff (world E) unit :=
  amqp_send_method garbage uninit fuel ch AMQP_BASIC_REJECT_METHOD (M_basic_reject (mk_basic_reject delivery_tag requeue)).

Definition amqp_basic_nack (ch delivery_tag multiple requeue : Z) : eff (world E) unit :=
  amqp_send_method garbage uninit fuel ch AMQP_BASIC_NACK_METHOD
    (M_basic_nack (mk_basic_nack delivery_tag multiple requeue)).

End Api.

(** ** Timeouts *)

Definition amqp_get_handshake_timeout (k : connection) : option timeval := k_handshake_timeout k.
Definition amqp_get_rpc_timeout (k : connection) : option timeval := k_rpc_timeout k.

Definition bad_timeout (timeout : option timeval) : bool :=
  match timeout with Some t => (tv_sec t <? 0) || (tv_usec t <? 0) | None => false end.

Definition amqp_set_handshake_timeout (timeout : option timeval) : eff connection unit :=
  if bad_timeout timeout then fail AMQP_STATUS_INVALID_PARAMETER else modify (set_handshake_timeout timeout).

Definition amqp_set_rpc_timeout (timeout : option timeval) : eff connection unit :=
  if bad_timeout timeout then fail AMQP_STATUS_INVALID_PARAMETER else modify (set_rpc_timeout timeout).
