(* ===== verification/ApiSpec.v ===== *)
(** * Publishing: the theorems about [Api.v] *)

From Stdlib Require Import String.
From S2P Require Import Prelude Status Memory Layout Pool PoolMem PoolSep Codec Table TableSpec MethodCodec.
From S2P Require Import MethodTypes MethodDecode MethodEncode MethodSpec Properties PropertiesSpec.
From S2P Require Import Connection ConnectionSpec FrameSpec Time Net ConnState Socket QueueSpec SocketSpec RecvSpec Rpc Api.

(** ** The frames of a message *)

(** The body in fragments of [n] bytes; the flag says whether more is announced. *)
Fixpoint fragments (fuel : nat) (n : Z) (body : list byte) : list (Z * list byte) :=
  match fuel with
  | O => []
  | S fuel' =>
      if zlen body =? 0 then []
      else (if n <=? zlen body then AMQP_SF_MORE else AMQP_SF_NONE, ztake n body) :: fragments fuel' n (zdrop n body)
  end.

Definition body_frames (ch n : Z) (body : list byte) : list (Z * amqp_frame_t) :=
  map (fun '(flag, bs) => (flag, mk_frame AMQP_FRAME_BODY ch (PL_body bs))) (fragments (length body) n body).

Definition header_frame (ch : Z) (p : amqp_basic_properties_t) (body : list byte) : amqp_frame_t :=
  mk_frame AMQP_FRAME_HEADER ch (PL_properties AMQP_BASIC_CLASS (zlen body) (P_basic p) []).

Definition publish_method (exchange routing_key : amqp_bytes_t) (mandatory immediate : Z) : method_t :=
  M_basic_publish (mk_basic_publish 0 exchange routing_key mandatory immediate).

Definition message_frames (ch n : Z) (m : method_t) (p : amqp_basic_properties_t) (body : list byte) : list (Z * amqp_frame_t) :=
  (AMQP_SF_MORE, mk_frame AMQP_FRAME_METHOD ch (PL_method (method_id m) m)) ::
  (if 0 <? zlen body then AMQP_SF_MORE else AMQP_SF_NONE, header_frame ch p body) ::
  body_frames ch n body.

(** More fuel than bytes does not matter. *)
Lemma fragments_more n : 0 < n -> forall m body, (length body <= m)%nat -> fragments m n body = fragments (length body) n body.
Proof.
  intros Hn m. induction m as [m IH] using lt_wf_ind. intros body Hm. destruct body as [|x body]; [by destruct m|].
  destruct m as [|m]; [simpl in Hm; lia|]. simpl in Hm. set (bs := x :: body) in *.
  assert (Hz : (zlen bs =? 0) = false) by (apply Z.eqb_neq; unfold zlen, bs; simpl; lia).
  assert (Hd : (length (zdrop n bs) <= length body)%nat) by (unfold zdrop, bs; rewrite length_drop; simpl; lia).
  change (length bs) with (S (length body)). cbn [fragments]. rewrite Hz. f_equal.
  rewrite (IH m) by lia. by rewrite (IH (length body)) by lia.
Qed.

Lemma fragments_step n body :
  0 < n -> body <> [] ->
  fragments (length body) n body
  = (if n <=? zlen body then AMQP_SF_MORE else AMQP_SF_NONE, ztake n body) :: fragments (length (zdrop n body)) n (zdrop n body).
Proof.
  intros Hn Hne. destruct body as [|x body]; [done|]. set (bs := x :: body).
  assert (Hz : (zlen bs =? 0) = false) by (apply Z.eqb_neq; unfold zlen, bs; simpl; lia).
  change (length bs) with (S (length body)). cbn [fragments]. rewrite Hz. f_equal. apply fragments_more; [done|].
  unfold zdrop, bs. rewrite length_drop. simpl. lia.
Qed.

Lemma fragments_body n body :
  0 < n -> concat (fragments (length body) n body).*2 = body /\
  Forall (fun fb => 0 < zlen fb.2 <= n) (fragments (length body) n body).
Proof.
  intros Hn. remember (length body) as m eqn:Em. revert body Em. induction m as [m IH] using lt_wf_ind. intros body ->.
  destruct body as [|x body]; [done|]. set (bs := x :: body) in *. rewrite fragments_step by done.
  assert (Hl : (length (zdrop n bs) < length bs)%nat) by (unfold zdrop, bs; rewrite length_drop; simpl; lia).
  destruct (IH _ Hl _ eq_refl) as [H1 H2]. split.
  - rewrite fmap_cons. simpl concat. rewrite H1. apply ztake_zdrop.
  - constructor; [|done]. cbn [snd]. assert (0 < zlen bs) by (unfold zlen, bs; simpl; lia).
    destruct (Z.leb_spec n (zlen bs)); [rewrite zlen_ztake by lia; lia|]. rewrite ztake_all by lia. lia.
Qed.

(** ** Sending them *)

Section Publish.
Context `{Host} {E : Type} `{Net E}.
Context (garbage : addr -> Z -> list byte) (uninit : amqp_basic_properties_t) (fuel : nat).

(** The socket takes the frames, one after the other, each within [fuel] calls. *)
Fixpoint taken (e : E) (fs : list (Z * amqp_frame_t)) (e' : E) : Prop :=
  match fs with
  | [] => e = e'
  | (flags, f) :: fs' => exists n e1, (n <= fuel)%nat /\ accepts flags e (wire_frame f) e1 n /\ taken e1 fs' e'
  end.

Lemma checked_ok {S} (m : eff S unit) s s' : m s = (Ret tt, s') -> checked m s = (Ret tt, s').
Proof. intros E1. unfold checked, bind, status. by rewrite E1. Qed.

Lemma send_next k f flags e e1 n :
  can_send k -> frame_ok f -> zlen (wire_frame f) <= b_len (k_outbound k) -> (n <= fuel)%nat ->
  accepts flags e (wire_frame f) e1 n ->
  exists ob, can_send (set_outbound ob k) /\ b_len ob = b_len (k_outbound k) /\
    checked (amqp_send_frame_inner garbage uninit fuel f flags amqp_time_infinite) (mk_world k e)
    = (Ret tt, mk_world (set_outbound ob k) e1).
Proof.
  intros Hk Hok Hfit Hn Ha.
  destruct (send_frame_accepted garbage uninit fuel k f flags e e1 n Hk Hok Hfit Ha Hn) as (ob & H1 & H2 & E1).
  exists ob. split; [done|]. split; [done|]. by apply checked_ok.
Qed.

Lemma publish_loop_sent ch n body : 0 < n -> in_u 16 ch -> zlen body < 2 ^ 62 -> forall m off k e e',
  can_send k -> b_len (k_outbound k) = n + 8 -> 0 <= off <= zlen body -> (length (zdrop off body) < m)%nat ->
  taken e (body_frames ch n (zdrop off body)) e' ->
  exists ob, publish_loop garbage uninit fuel m ch n body off (mk_world k e) = (Ret tt, mk_world (set_outbound ob k) e').
Proof.
  intros Hn Hch Hbody m. induction m as [|m IH]; intros off k e e' Hk Hb Hoff Hm Ht; [lia|]. cbn [publish_loop].
  pose proof (zlen_zdrop off body ltac:(lia)) as Hz. destruct (Z.ltb_spec off (zlen body)) as [Hlt|Hge].
  - assert (Hne : zdrop off body <> []) by (intros E0; rewrite E0 in Hz; change (zlen []) with 0 in Hz; lia).
    unfold size_sub. rewrite wrap_small by (unfold in_u; lia). rewrite <- Hz.
    unfold body_frames in Ht. rewrite (fragments_step n _ Hn Hne) in Ht. rewrite zdrop_zdrop in Ht by lia.
    destruct Ht as (n1 & e1 & Hn1 & Ha & Ht). set (rest := zdrop off body) in *.
    assert (Hlen : exists len flag, (if n <=? zlen rest then (n, AMQP_SF_MORE) else (zlen rest, AMQP_SF_NONE)) = (len, flag) /\
              flag = (if n <=? zlen rest then AMQP_SF_MORE else AMQP_SF_NONE) /\ ztake len rest = ztake n rest /\
              zlen (ztake n rest) = len /\ 0 < len <= n /\ zdrop (off + len) body = zdrop (off + n) body /\ off + len <= zlen body).
    { destruct (Z.leb_spec n (zlen rest)) as [Hle|Hgt].
      - exists n, AMQP_SF_MORE. rewrite zlen_ztake by lia. repeat split; lia.
      - exists (zlen rest), AMQP_SF_NONE. rewrite !ztake_all by lia. repeat split; try lia.
        unfold zdrop. rewrite !drop_ge; [done|unfold zlen in *; lia..]. }
    destruct Hlen as (len & flag & -> & Hflag & Etake & Elen & Hlen & Edrop & Hle). cbv iota beta.
    rewrite <- Hflag in Ha. rewrite Etake. rewrite <- Edrop in Ht.
    destruct (send_next k (mk_frame AMQP_FRAME_BODY ch (PL_body (ztake n rest))) flag e e1 n1 Hk) as (ob & Hk1 & Hb1 & E1);
      [by split| |done|done|].
    { unfold wire_frame. rewrite zlen_frame_bytes. cbn [payload wire_payload]. unfold HEADER_SIZE, FOOTER_SIZE. lia. }
    rewrite (bind_step _ _ _ _ _ E1). rewrite size_add_small by lia.
    destruct (IH (off + len) (set_outbound ob k) e1 e' Hk1) as (ob2 & E2); [cbn; lia|lia| |done|by exists ob2; rewrite E2].
    rewrite <- zdrop_zdrop by lia. fold rest. unfold zdrop at 1. rewrite length_drop. unfold zlen in *. lia.
  - assert (Hnil : zdrop off body = []) by (unfold zdrop; apply drop_ge; unfold zlen in *; lia).
    rewrite Hnil in Ht. simpl in Ht. subst e'. exists (k_outbound k). by destruct k.
Qed.

(** The call succeeds and its frames are taken. *)
Lemma publish_runs ch exchange routing_key mandatory immediate props body k (e e' : E) :
  let n := c_frame_max (k_in k) - 8 in
  let m := publish_method exchange routing_key mandatory immediate in
  let p := default default_properties props in
  can_send k -> b_len (k_outbound k) = n + 8 -> 0 < n -> in_u 16 ch -> zlen body < 2 ^ 62 ->
  method_ok m -> zlen (wire_frame (mk_frame AMQP_FRAME_METHOD ch (PL_method (method_id m) m))) <= n + 8 ->
  properties_ok (P_basic p) -> zlen (wire_frame (header_frame ch p body)) <= n + 8 ->
  (length body < fuel)%nat -> taken e (message_frames ch n m p body) e' ->
  exists ob, amqp_basic_publish garbage uninit fuel ch exchange routing_key mandatory immediate props body (mk_world k e)
             = (Ret tt, mk_world (set_outbound ob k) e').
Proof.
  intros n m p Hk Hb Hn Hch Hbody Hm Hfit1 Hp Hfit2 Hfu (n1 & e1 & Hn1 & Ha1 & n2 & e2 & Hn2 & Ha2 & Ht).
  assert (Hr : b_len (k_outbound k) < 2 ^ 31) by apply Hk.
  unfold amqp_basic_publish. change (bind get_k ?c (mk_world k e)) with (c k (mk_world k e)). cbv beta zeta.
  change (HEADER_SIZE + FOOTER_SIZE) with 8. fold n. rewrite bool_decide_true by (unfold in_s; lia). cbn [negb].
  rewrite wrap_small by (unfold in_u; lia). pose proof (proj1 (proj2 Hk)) as Hh. rewrite Hh.
  assert (Ep : has_past (next_recv_heartbeat no_heartbeats) (mk_world k e) = (Ret AMQP_STATUS_OK, mk_world k e)) by done.
  rewrite (bind_step _ _ _ _ _ Ep). simpl (AMQP_STATUS_OK =? AMQP_STATUS_TIMER_FAILURE). cbv iota.
  simpl (AMQP_STATUS_OK =? AMQP_STATUS_TIMEOUT). cbv iota.
  change (bind (ret tt) ?x (mk_world k e)) with (x tt (mk_world k e)). cbv beta.
  destruct (send_next k (mk_frame AMQP_FRAME_METHOD ch (PL_method (method_id m) m)) AMQP_SF_MORE e e1 n1 Hk)
    as (ob1 & Hk1 & Hb1 & E1); [by split|lia|done|done|].
  rewrite (bind_step _ _ _ _ _ E1).
  destruct (send_next (set_outbound ob1 k) (header_frame ch p body) (if 0 <? zlen body then AMQP_SF_MORE else AMQP_SF_NONE)
              e1 e2 n2 Hk1) as (ob2 & Hk2 & Hb2 & E2); [|cbn; lia|done|done|].
  { split; [done|]. split; [done|]. split; [done|]. split; [|done]. pose proof (zlen_nonneg body). unfold in_u. lia. }
  rewrite (bind_step _ _ _ _ _ E2).
  destruct (publish_loop_sent ch n body Hn Hch Hbody fuel 0 (set_outbound ob2 (set_outbound ob1 k)) e2 e' Hk2)
    as (ob3 & E3); [cbn in *; lia|pose proof (zlen_nonneg body); lia|done|done|].
  eexists. exact E3.
Qed.

(** C7: Publishing sends the whole message: on a connection without heartbeats whose
    output buffer is as large as [frame_max], and when the socket takes what it is
    given, [amqp_basic_publish] succeeds and writes the [basic.publish] method, a header
    that announces the length of the body, and body frames of at most [frame_max] bytes
    that together hold the body, in this order; it ends for every body, within as many
    turns of its loop as the body has bytes. *)
Theorem publish_sends_message ch exchange routing_key mandatory immediate props body k (e e' : E) :
  let n := c_frame_max (k_in k) - 8 in
  let m := publish_method exchange routing_key mandatory immediate in
  let p := default default_properties props in
  can_send k -> b_len (k_outbound k) = n + 8 -> 0 < n -> in_u 16 ch -> zlen body < 2 ^ 62 ->
  method_ok m -> zlen (wire_frame (mk_frame AMQP_FRAME_METHOD ch (PL_method (method_id m) m))) <= n + 8 ->
  properties_ok (P_basic p) -> zlen (wire_frame (header_frame ch p body)) <= n + 8 ->
  (length body < fuel)%nat -> taken e (message_frames ch n m p body) e' ->
  (exists k', amqp_basic_publish garbage uninit fuel ch exchange routing_key mandatory immediate props body (mk_world k e)
              = (Ret tt, mk_world k' e')) /\
  exists bodies, map snd (message_frames ch n m p body)
    = mk_frame AMQP_FRAME_METHOD ch (PL_method (method_id m) m) :: header_frame ch p body ::
      map (fun bs => mk_frame AMQP_FRAME_BODY ch (PL_body bs)) bodies /\
    concat bodies = body /\ Forall (fun bs => 0 < zlen bs <= n) bodies.
Proof.
  intros n m p Hk Hb Hn Hch Hbody Hm Hfit1 Hp Hfit2 Hfu Ht. split.
  - destruct (publish_runs ch exchange routing_key mandatory immediate props body k e e') as [ob Eob]; try done.
    eexists. exact Eob.
  - exists (fragments (length body) n body).*2. destruct (fragments_body n body Hn) as [Hcat Hall].
    split; [|split; [done|by apply Forall_fmap]].
    unfold message_frames, body_frames. simpl. do 2 f_equal. rewrite !map_map. apply map_ext. by intros [? ?].
Qed.

End Publish.

(** A [frame_max] of 8, which the code lets the peer choose, leaves no room for a body:
    the loop sends empty fragments and never reaches the end. *)
Lemma publish_never_ends `{Host} {E : Type} `{Net E} garbage uninit fuel ch body : body <> [] -> forall m (w : world E),
  (publish_loop garbage uninit fuel m ch 0 body 0 w).1 <> Ret tt.
Proof.
  intros Hne m. induction m as [|m IH]; intros w; [done|]. cbn [publish_loop].
  assert (0 < zlen body) by (destruct body; [done|unfold zlen; simpl; lia]).
  rewrite (proj2 (Z.ltb_lt _ _)) by done. unfold size_sub. destruct (Z.leb_spec 0 (wrap 64 (zlen body - 0))) as [_|Hbad].
  - unfold bind. destruct (checked _ w) as [[[]| | |] w']; done.
  - pose proof (wrap_range 64 (zlen body - 0) ltac:(lia)) as [Hr _]. lia.
Qed.

(** The codes that have a description are exactly the statuses of [amqp.h]. *)
Definition described (code : Z) : bool :=
  match amqp_error_string2 code with Ret s => negb (String.eqb s unknown_error_string) | _ => false end.

Lemma error_strings_known :
  List.filter described (map (fun n => - Z.of_nat n) (seq 0 4096))
  = map (fun n => - Z.of_nat n) (seq 0 21 ++ seq 256 2 ++ seq 512 5).
Proof. by vm_compute. Qed.

(** The structure [amqp_connection_close] fills in has the layout it is encoded with. *)
Lemma close_layouts : layout_channel_close = layout_connection_close.
Proof. done. Qed.

(** *** Witness *)

Lemma wire_frame_cons f : wire_frame f <> [].
Proof. done. Qed.

Lemma script_taken fuel fs : (0 < fuel)%nat -> forall now inbox out b,
  taken fuel (mk_script now inbox out b) fs (mk_script now inbox (out ++ wires (map snd fs)) b).
Proof.
  intros Hf. induction fs as [|[flags f] fs IH]; intros now inbox out b; simpl; [by rewrite app_nil_r|].
  exists 1%nat, (mk_script now inbox (out ++ wire_frame f) b). split; [lia|]. split; [by apply accepts_all|].
  specialize (IH now inbox (out ++ wire_frame f) b). by rewrite <- app_assoc in IH.
Qed.

Definition demo_publisher : connection :=
  let k := set_outbound (mk_buffer 64 (Some 6) (replicate 64 x00)) demo_reader in
  set_in (set_frame_max (k_in k) 64) k.

(** A body of 60 bytes, in fragments of 56 and 4. *)
Example publish_sends_message_witness :
  exists k' e', amqp_basic_publish (H := little_endian) zeros zero_basic 100 1 [x65] [x72] 0 0 None (replicate 60 x61)
                  (mk_world demo_publisher (mk_script 1 [] [] true)) = (Ret tt, mk_world k' e').
Proof.
  set (m := publish_method [x65] [x72] 0 0). set (body := replicate 60 x61).
  set (e' := mk_script 1 [] ([] ++ wires (map snd (message_frames 1 56 m default_properties body))) true).
  destruct (publish_sends_message (H := little_endian) zeros zero_basic 100 1 [x65] [x72] 0 0 None body demo_publisher
              (mk_script 1 [] [] true) e') as [[k' Ek] _].
  - repeat split; by vm_compute.
  - done.
  - done.
  - done.
  - by vm_compute.
  - repeat (apply Forall_cons; split); [..|by apply Forall_nil]; try done.
    split; [|simpl; lia]. unfold bit. repeat (apply Forall_cons; split); auto.
  - by vm_compute.
  - assert (Ef : properties_fields (P_basic default_properties) = [F16 0]) by done. split; [done|]. cbn [default]. rewrite Ef.
    by apply Forall_singleton.
  - by vm_compute.
  - simpl. lia.
  - apply (script_taken 100 _ ltac:(lia) 1 [] [] true).
  - by exists k', e'.
Defined.
