(* ===== verification/Consumer.v ===== *)
(** * Reading messages: [librabbitmq/amqp_consumer.c], and the [amqp_bytes_t] helpers of
    [librabbitmq/amqp_mem.c] that it uses

    A message owns a pool, named by the address [self] of the caller's structure, for
    its properties and a heap block for its body. *)

From S2P Require Import Prelude Status Memory Layout Pool PoolMem Codec Table TableOps MethodCodec.
From S2P Require Import MethodTypes MethodDecode MethodEncode Properties Connection Time Net ConnState Socket Rpc.

(** ** Byte strings on the heap *)

(** An [amqp_bytes_t] that owns its block; [None] is [NULL]. *)
Record owned_bytes := mk_owned { o_len : Z; o_block : option Z; o_data : list byte }.

Definition amqp_empty_bytes : owned_bytes := mk_owned 0 None [].

Section Bytes.
(** What fresh heap memory holds. *)
Context (heap_garbage : Z -> Z -> list byte).

Definition amqp_bytes_malloc_dup (src : amqp_bytes_t) : eff memory owned_bytes :=
  let! b := on_m_heap (malloc (zlen src)) in
  ret (mk_owned (zlen src) b (match b with Some _ => src | None => [] end)).

Definition amqp_bytes_malloc (amount : Z) : eff memory owned_bytes :=
  let! b := on_m_heap (malloc amount) in
  ret (mk_owned amount b (match b with Some a => heap_garbage a amount | None => [] end)).

Definition amqp_bytes_free (bytes : owned_bytes) : eff memory unit := on_m_heap (free_ptr (o_block bytes)).

Definition amqp_bytes_malloc_dup_failed (bytes : owned_bytes) : bool :=
  negb (o_len bytes =? 0) && bool_decide (o_block bytes = None).
End Bytes.

(** ** Messages *)

Record amqp_message_t := mk_message {
  m_properties : amqp_basic_properties_t;
  m_body : owned_bytes;
}.

Record amqp_envelope_t := mk_envelope {
  v_channel : Z;
  v_consumer_tag : owned_bytes;
  v_delivery_tag : Z;
  v_redelivered : Z;
  v_exchange : owned_bytes;
  v_routing_key : owned_bytes;
  v_message : amqp_message_t;
}.

Definition zero_properties : amqp_basic_properties_t := mk_basic_properties 0 [] [] [] 0 0 [] [] [] [] 0 [] [] [] [].
Definition zero_message : amqp_message_t := mk_message zero_properties amqp_empty_bytes.
Definition zero_envelope : amqp_envelope_t :=
  mk_envelope 0 amqp_empty_bytes 0 0 amqp_empty_bytes amqp_empty_bytes zero_message.

(** [message->pool], overwritten *)
Definition put_pool_at (self : Z) (pl : amqp_pool_t) : eff memory unit := fun m =>
  (Ret tt, mk_memory (m_heap m) (<[self := pl]> (m_pools m)) (m_scratch m) (m_snext m)).
Definition zero_pool : amqp_pool_t := mk_pool 0 empty_list empty_list 0 None 0.

(** [if (clone->_flags & flag)] *)
Definition if_set {A} (flags flag : Z) (m : eff memory A) (zero : A) : eff memory A :=
  if flag_set flags flag then m else ret zero.

(** After an error the copy is not looked at. *)
Definition amqp_basic_properties_clone (p : amqp_basic_properties_t) (pool : Z) : eff memory amqp_basic_properties_t :=
  let flags := basic_flags p in
  let! content_type := if_set flags AMQP_BASIC_CONTENT_TYPE_FLAG (clone_bytes pool (basic_content_type p)) [] in
  let! content_encoding := if_set flags AMQP_BASIC_CONTENT_ENCODING_FLAG (clone_bytes pool (basic_content_encoding p)) [] in
  let! headers := if_set flags AMQP_BASIC_HEADERS_FLAG (amqp_table_clone pool (basic_headers p)) [] in
  let! delivery_mode := if_set flags AMQP_BASIC_DELIVERY_MODE_FLAG (ret (basic_delivery_mode p)) 0 in
  let! priority := if_set flags AMQP_BASIC_PRIORITY_FLAG (ret (basic_priority p)) 0 in
  let! correlation_id := if_set flags AMQP_BASIC_CORRELATION_ID_FLAG (clone_bytes pool (basic_correlation_id p)) [] in
  let! reply_to := if_set flags AMQP_BASIC_REPLY_TO_FLAG (clone_bytes pool (basic_reply_to p)) [] in
  let! expiration := if_set flags AMQP_BASIC_EXPIRATION_FLAG (clone_bytes pool (basic_expiration p)) [] in
  let! message_id := if_set flags AMQP_BASIC_MESSAGE_ID_FLAG (clone_bytes pool (basic_message_id p)) [] in
  let! timestamp := if_set flags AMQP_BASIC_TIMESTAMP_FLAG (ret (basic_timestamp p)) 0 in
  let! type := if_set flags AMQP_BASIC_TYPE_FLAG (clone_bytes pool (basic_type p)) [] in
  let! user_id := if_set flags AMQP_BASIC_USER_ID_FLAG (clone_bytes pool (basic_user_id p)) [] in
  let! app_id := if_set flags AMQP_BASIC_APP_ID_FLAG (clone_bytes pool (basic_app_id p)) [] in
  let! cluster_id := if_set flags AMQP_BASIC_CLUSTER_ID_FLAG (clone_bytes pool (basic_cluster_id p)) [] in
  ret (mk_basic_properties flags content_type content_encoding headers delivery_mode priority correlation_id
         reply_to expiration message_id timestamp type user_id app_id cluster_id).

Definition amqp_destroy_message (self : Z) (message : amqp_message_t) : eff memory unit :=
  do! on_pool self empty_amqp_pool in
  amqp_bytes_free (m_body message).

Definition amqp_destroy_envelope (self : Z) (envelope : amqp_envelope_t) : eff memory unit :=
  do! amqp_destroy_message self (v_message envelope) in
  do! amqp_bytes_free (v_routing_key envelope) in
  do! amqp_bytes_free (v_exchange envelope) in
  amqp_bytes_free (v_consumer_tag envelope).

(** ** Reading *)

(** A call whose [int] result is looked at. *)
Definition try {S A} (m : eff S A) : eff S (Z + A) := fun s =>
  match m s with
  | (Ret a, s') => (Ret (inr a), s')
  | (Err st, s') => (Ret (inl st), s')
  | (Undef, s') => (Undef, s')
  | (NoFuel, s') => (NoFuel, s')
  end.

Definition library_exception (st : Z) : amqp_rpc_reply_t := mk_rpc_reply AMQP_RESPONSE_LIBRARY_EXCEPTION (0, None) st.

(** The peer closes the channel or the connection. *)
Definition is_close (f : amqp_frame_t) : res bool :=
  if frame_type f =? AMQP_FRAME_METHOD then
    match frame_method f with
    | Ret (id, _) => Ret ((AMQP_CHANNEL_CLOSE_METHOD =? id) || (AMQP_CONNECTION_CLOSE_METHOD =? id))
    | _ => Undef
    end
  else Ret false.

Section Consumer.
Context `{Host} {E : Type} `{Net E}.
Context (garbage : addr -> Z -> list byte) (uninit : amqp_basic_properties_t) (heap_garbage : Z -> Z -> list byte).
Context (fuel : nat).

Definition on_memory {A} (m : eff memory A) : eff (world E) A := on_k (on_mem m).

(** [while (body_read < message->body.len)]: the body, or the reply to give up with. *)
Fixpoint read_body (fuel' : nat) (ch : Z) (frame : amqp_frame_t) (body : owned_bytes) (body_read : Z)
    : eff (world E) (amqp_rpc_reply_t + owned_bytes) :=
  match fuel' with
  | O => nofuel
  | S fuel'' =>
      if body_read <? o_len body then
        let! res := try (amqp_simple_wait_frame_on_channel garbage uninit fuel ch frame) in
        match res with
        | inl st => ret (inl (library_exception st))
        | inr frame =>
            if negb (frame_type frame =? AMQP_FRAME_BODY) then
              let! close := lift_res (is_close frame) in
              if close : bool then
                let! method := lift_res (frame_method frame) in
                ret (inl (mk_rpc_reply AMQP_RESPONSE_SERVER_EXCEPTION method 0))
              else ret (inl (library_exception AMQP_STATUS_BAD_AMQP_DATA))
            else
              match payload frame with
              | PL_body bs =>
                  if o_len body <? size_add body_read (zlen bs) then
                    ret (inl (library_exception AMQP_STATUS_BAD_AMQP_DATA))
                  else
                    match store (o_data body) body_read bs with
                    | None => undef
                    | Some data =>
                        read_body fuel'' ch frame (mk_owned (o_len body) (o_block body) data)
                          (size_add body_read (zlen bs))
                    end
              | _ => undef
              end
        end
      else ret (inr body)
  end.

(** The reply and what the message structure holds then.  The class of the header is
    not looked at: another class has another structure there. *)
Definition amqp_read_message (ch self : Z) : eff (world E) (amqp_rpc_reply_t * amqp_message_t) :=
  do! on_memory (put_pool_at self zero_pool) in
  let! res := try (amqp_simple_wait_frame_on_channel garbage uninit fuel ch uninit_frame) in
  match res with
  | inl st => ret (library_exception st, zero_message)
  | inr frame =>
      if negb (frame_type frame =? AMQP_FRAME_HEADER) then
        let! close := lift_res (is_close frame) in
        if close : bool then
          let! method := lift_res (frame_method frame) in
          ret (mk_rpc_reply AMQP_RESPONSE_SERVER_EXCEPTION method 0, zero_message)
        else
          do! status (on_k (amqp_put_back_frame frame)) in
          ret (library_exception AMQP_STATUS_UNEXPECTED_STATE, zero_message)
      else
        match payload frame with
        | PL_properties _ body_size (P_basic p) _ =>
            do! on_memory (put_pool_at self (init_amqp_pool 4096)) in
            let! res := try (on_memory (amqp_basic_properties_clone p self)) in
            match res with
            | inl st =>
                do! on_memory (on_pool self empty_amqp_pool) in
                ret (library_exception st, zero_message)
            | inr properties =>
                let! body := (if body_size =? 0 then ret (inr amqp_empty_bytes)
                              else if SIZE_MAX <? body_size then ret (inl amqp_empty_bytes)
                              else let! b := on_memory (amqp_bytes_malloc heap_garbage body_size) in
                                   ret (match o_block b with Some _ => inr b | None => inl b end)) in
                match body with
                | inl body => ret (library_exception AMQP_STATUS_NO_MEMORY, mk_message properties body)
                | inr body =>
                    let! res := read_body fuel ch frame body 0 in
                    match res with
                    | inl r =>
                        do! on_memory (amqp_bytes_free body) in
                        do! on_memory (on_pool self empty_amqp_pool) in
                        ret (r, mk_message properties body)
                    | inr body =>
                        ret (mk_rpc_reply AMQP_RESPONSE_NORMAL (0, None) 0, mk_message properties body)
                    end
                end
            end
        | _ => undef
        end
  end.

Definition is_normal (r : amqp_rpc_reply_t) : bool :=
  match reply_type r with AMQP_RESPONSE_NORMAL => true | _ => false end.

(** [AMQP_FRAME_METHOD != frame.frame_type || AMQP_BASIC_DELIVER_METHOD != id] *)
Definition not_delivery (f : amqp_frame_t) : res bool :=
  if negb (frame_type f =? AMQP_FRAME_METHOD) then Ret true
  else match frame_method f with
       | Ret (id, _) => Ret (negb (AMQP_BASIC_DELIVER_METHOD =? id))
       | _ => Undef
       end.

Definition amqp_consume_message (self : Z) (timeout : option timeval)
    : eff (world E) (amqp_rpc_reply_t * amqp_envelope_t) :=
  do! on_memory (put_pool_at self zero_pool) in
  let! res := try (amqp_simple_wait_frame_noblock garbage uninit fuel uninit_frame timeout) in
  match res with
  | inl st => ret (library_exception st, zero_envelope)
  | inr frame =>
      let! other := lift_res (not_delivery frame) in
      if other : bool then
        do! status (on_k (amqp_put_back_frame frame)) in
        ret (library_exception AMQP_STATUS_UNEXPECTED_STATE, zero_envelope)
      else
        match payload frame with
        | PL_method _ (M_basic_deliver d) =>
            let! consumer_tag := on_memory (amqp_bytes_malloc_dup (basic_deliver_consumer_tag d)) in
            let! exchange := on_memory (amqp_bytes_malloc_dup (basic_deliver_exchange d)) in
            let! routing_key := on_memory (amqp_bytes_malloc_dup (basic_deliver_routing_key d)) in
            let envelope := mk_envelope (channel frame) consumer_tag (basic_deliver_delivery_tag d)
                              (basic_deliver_redelivered d) exchange routing_key in
            let error_out2 (r : amqp_rpc_reply_t) (m : amqp_message_t) : eff (world E) (amqp_rpc_reply_t * amqp_envelope_t) :=
              do! on_memory (amqp_bytes_free routing_key) in
              do! on_memory (amqp_bytes_free exchange) in
              do! on_memory (amqp_bytes_free consumer_tag) in
              ret (r, envelope m) in
            if amqp_bytes_malloc_dup_failed consumer_tag || amqp_bytes_malloc_dup_failed exchange
               || amqp_bytes_malloc_dup_failed routing_key then
              error_out2 (library_exception AMQP_STATUS_NO_MEMORY) zero_message
            else
              let! '(r, m) := amqp_read_message (channel frame) self in
              if negb (is_normal r) then error_out2 r m
              else ret (mk_rpc_reply AMQP_RESPONSE_NORMAL (reply r) (library_error r), envelope m)
        | _ => undef
        end
  end.

End Consumer.
