(* ===== verification/ConsumerSpec.v ===== *)
(** * Messages from the wire: the theorems about [Consumer.v]

    The frames of a message, mixed with those of other channels and with heartbeats and
    cut into any pieces, are put together to the message. *)

From S2P Require Import Prelude Status Memory Layout Pool PoolMem PoolSep Codec Table TableSpec TableOps MethodCodec.
From S2P Require Import MethodTypes MethodDecode MethodEncode MethodSpec Properties PropertiesSpec.
From S2P Require Import Connection ConnectionSpec FrameSpec Time Net ConnState Socket QueueSpec SocketSpec RecvSpec.
From S2P Require Import Rpc RpcSpec Api ApiSpec Consumer.

(** ** Waiting for the frames of one channel *)

Definition for_channel (ch : Z) (f : amqp_frame_t) : Prop := is_heartbeat f = false /\ channel f = ch.
#[export] Instance for_channel_dec ch f : Decision (for_channel ch f).
Proof. apply _. Defined.

Definition none_for (ch : Z) (qs : list amqp_frame_t) : Prop := Forall (fun f => channel f <> ch) qs.

(** The first frame of the channel. *)
Lemma channel_split ch fs g gs :
  filter (for_channel ch) fs = g :: gs -> exists pre fs', fs = pre ++ g :: fs' /\ for_channel ch g /\
    Forall (fun f => ~ for_channel ch f) pre /\ filter (for_channel ch) fs' = gs.
Proof.
  induction fs as [|f fs IH]; [done|]. rewrite filter_cons. case_decide as Hf.
  - intros [= -> Hgs]. by exists [], fs.
  - intros Hgs. destruct (IH Hgs) as (pre & fs' & -> & H1 & H2 & H3). exists (f :: pre), fs'. split; [done|].
    split; [done|]. split; [by constructor|done].
Qed.

Section Wait.
Context `{Host} {E : Type} `{Net E} {Th : Then E}.
Context (garbage : addr -> Z -> list byte) (uninit : amqp_basic_properties_t) (fuel : nat).
Hypothesis Hgarbage : forall a n, 0 <= n -> zlen (garbage a n) = n.
Context (S : gset Z) (F : list Z) (L : Z).

Lemma queue_ready B qs k f :
  ready S F L (B + 2) qs k -> 0 <= B -> is_Some (amqp_get_channel_pool (k_pool_table k) (channel f)) ->
  exists k', amqp_queue_frame f k = (Ret tt, k') /\ ready S F L B (qs ++ [f]) k' /\ window k' = window k /\
    same_setup (k_in k) (k_in k').
Proof.
  intros [Hk Hc Hi Hq Hp Hr Hm Hroom] HB [p Ep]. unfold amqp_queue_frame, amqp_create_link_for_frame.
  rewrite bind_assoc, (bind_step _ _ _ _ _ (k_channel_pool_found _ _ _ Ep)).
  assert (HpS : p ∈ S) by by apply (proj1 Hp) in Ep.
  assert (H2 : sep_plenty S F p (B + 1 + 1) (k_mem k)) by (rewrite <- Z.add_assoc; done).
  destruct (k_pool_alloc_ready S F p (sizeof layout_amqp_link_t) (B + 1) k H2 ltac:(lia) ltac:(done)) as (a1 & m1 & E1 & H3).
  destruct (k_pool_alloc_ready S F p (sizeof layout_amqp_frame_t) B (set_mem m1 k) H3 HB ltac:(done)) as (a2 & m2 & E2 & H4).
  rewrite bind_assoc, (bind_step _ _ _ _ _ E1), bind_assoc, (bind_step _ _ _ _ _ E2). cbv beta.
  destruct (new_link_with (k_queue k) qs f Hq) as (q1 & Eq1 & Hq1 & _).
  destruct (enqueue_link q1 qs (q_fresh (k_queue k)) f Hq1) as (q2 & Eq2 & Hq2). destruct H4 as (_ & Hr' & Hm' & Hroom').
  rewrite bind_assoc, (bind_step _ _ _ _ _ (on_queue_step _ (set_mem m2 (set_mem m1 k)) _ _ Eq1)), bind_ret_l.
  eexists. split; [exact (on_queue_step _ (set_queue q1 (set_mem m2 (set_mem m1 k))) tt q2 Eq2)|].
  split; [|done]. by split.
Qed.

(** What reading the frames [fs] may take: each may have to be queued. *)
Definition demand (fs : list amqp_frame_t) : Z := 2 * zlen fs + costs fs.

Lemma demand_cons f fs : demand (f :: fs) = demand fs + cost f + 2.
Proof. unfold demand, zlen. simpl. lia. Qed.
Lemma demand_nonneg fs : 0 <= demand fs.
Proof. unfold demand. pose proof (costs_nonneg fs). pose proof (zlen_nonneg fs). lia. Qed.

(** The next frame that is not a heartbeat. *)
Lemma next_frame B hbs n k e cs f0 f fs qs :
  Forall (fun h => is_heartbeat h = true) hbs -> is_heartbeat f = false -> 0 <= B ->
  ready S F L (B + demand (hbs ++ f :: fs)) qs k -> Forall (acceptable (k_in k)) (hbs ++ f :: fs) ->
  delivers L e cs n -> window k ++ concat cs = wires (hbs ++ f :: fs) ->
  (2 * n + length (hbs ++ f :: fs) + 1 <= fuel)%nat ->
  exists k1 e1 cs1 n1, (n1 <= n)%nat /\ delivers L e1 cs1 n1 /\ window k1 ++ concat cs1 = wires fs /\
    Forall (acceptable (k_in k1)) fs /\ acceptable (k_in k1) f /\ same_setup (k_in k) (k_in k1) /\
    ready S F L (B + demand fs + 2) qs k1 /\
    wait_frame_inner garbage uninit fuel f0 amqp_time_infinite (mk_world k e) = (Ret (received uninit f), mk_world k1 e1).
Proof.
  intros Hh Hf HB Hrd Hall Hd Hw Hfu. assert (Hp : (pending k <= 1)%nat) by (unfold pending; case_decide; lia).
  pose proof (zlen_nonneg fs). pose proof (zlen_nonneg hbs).
  assert (Hrd' : ready S F L (B + 2 * zlen fs + 2 + costs (hbs ++ f :: fs)) qs k).
  { apply (ready_mono _ _ _ _ _ _ _ Hrd). unfold demand. rewrite zlen_app, zlen_cons. lia. }
  destruct (wait_next garbage uninit fuel Hgarbage S F L (B + 2 * zlen fs + 2) hbs n k e cs f0 f fs fuel qs Hh Hf
              ltac:(lia) Hrd' Hall Hd Hw ltac:(lia) ltac:(lia)) as (k1 & e1 & cs1 & n1 & Hn1 & Hrd1 & Hset & Hd1 & Hw1 & E1).
  apply Forall_app in Hall as [_ Hall]. apply Forall_cons in Hall as [Hacc Hall].
  exists k1, e1, cs1, n1. split; [done|]. split; [done|]. split; [done|]. split.
  { eapply Forall_impl; [exact Hall|]. intros h. by apply acceptable_same. }
  split; [by eapply acceptable_same|]. split; [done|]. split; [|done].
  apply (ready_mono _ _ _ _ _ _ _ Hrd1). unfold demand. lia.
Qed.

Lemma only_heartbeats pre : for_application pre = [] -> Forall (fun h => is_heartbeat h = true) pre.
Proof.
  intros Hpre. apply Forall_forall. intros h Hh. destruct (is_heartbeat h) eqn:Eh; [done|].
  assert (Hin : h ∈ for_application pre) by by apply list_elem_of_filter. rewrite Hpre in Hin. by apply elem_of_nil in Hin.
Qed.

(** Frames of other channels are queued on the way to the first one of [ch]. *)
Lemma wait_channel_reads ch g fs B gs : for_channel ch g -> 0 <= B -> forall pre n k e cs f0 qs m,
  for_application pre = gs -> Forall (fun f => ~ for_channel ch f) pre ->
  ready S F L (B + demand (pre ++ g :: fs)) qs k -> Forall (acceptable (k_in k)) (pre ++ g :: fs) ->
  delivers L e cs n -> window k ++ concat cs = wires (pre ++ g :: fs) ->
  (2 * n + length (pre ++ g :: fs) + 1 <= fuel)%nat -> (length gs < m)%nat ->
  exists k1 e1 cs1 n1, (n1 <= n)%nat /\ delivers L e1 cs1 n1 /\ window k1 ++ concat cs1 = wires fs /\
    Forall (acceptable (k_in k1)) fs /\ same_setup (k_in k) (k_in k1) /\
    ready S F L (B + demand fs) (qs ++ map (received uninit) gs) k1 /\
    wait_channel_loop garbage uninit fuel m ch f0 (mk_world k e) = (Ret (received uninit g), mk_world k1 e1).
Proof.
  intros [Hg Hch] HB. induction gs as [|x gs IH]; intros pre n k e cs f0 qs [|m] Hpre Hno Hrd Hall Hd Hw Hfu Hm;
    try (simpl in Hm; lia).
  - destruct (next_frame B pre n k e cs f0 g fs qs (only_heartbeats pre Hpre) Hg HB Hrd Hall Hd Hw Hfu)
      as (k1 & e1 & cs1 & n1 & Hn1 & Hd1 & Hw1 & Hall1 & _ & Hset & Hrd1 & E1).
    exists k1, e1, cs1, n1. split; [done|]. split; [done|]. split; [done|]. split; [done|]. split; [done|].
    split; [rewrite app_nil_r; apply (ready_mono _ _ _ _ _ _ _ Hrd1); lia|].
    cbn [wait_channel_loop]. rewrite (bind_step _ _ _ _ _ E1). cbn [received channel]. by rewrite Hch, Z.eqb_refl.
  - destruct (application_split pre x gs Hpre) as (hbs & pre' & -> & Hhb & Hx & Hpre').
    rewrite <- app_assoc, <- app_comm_cons in *. apply Forall_app in Hno as [_ Hno]. apply Forall_cons in Hno as [Hxc Hno].
    destruct (next_frame B hbs n k e cs f0 x _ qs Hhb Hx HB Hrd Hall Hd Hw Hfu)
      as (k1 & e1 & cs1 & n1 & Hn1 & Hd1 & Hw1 & Hall1 & (_ & _ & Hpool) & Hset & Hrd1 & E1).
    pose proof (demand_nonneg (pre' ++ g :: fs)).
    destruct (queue_ready (B + demand (pre' ++ g :: fs)) qs k1 (received uninit x) Hrd1 ltac:(lia) Hpool)
      as (k2 & E2 & Hrd2 & Hw2 & Hset2).
    rewrite length_app in Hfu. simpl in Hfu, Hm.
    destruct (IH pre' n1 k2 e1 cs1 (received uninit x) _ m Hpre' Hno Hrd2) as (k3 & e3 & cs3 & n3 & Hn3 & Hd3 & Hw3 & Hall3 & Hset3 & Hrd3 & E3);
      [eapply Forall_impl; [exact Hall1|intros h; by apply acceptable_same]|done|by rewrite Hw2|lia|lia|].
    exists k3, e3, cs3, n3. split; [lia|]. split; [done|]. split; [done|]. split; [done|].
    split; [eapply same_setup_trans; [exact Hset|by eapply same_setup_trans]|].
    split; [by rewrite <- app_assoc in Hrd3|]. cbn [wait_channel_loop]. rewrite (bind_step _ _ _ _ _ E1). cbn [channel received].
    destruct (Z.eqb_spec ch (channel x)) as [Ec|_]; [by destruct Hxc|].
    assert (Eo : on_k (amqp_queue_frame (received uninit x)) (mk_world k1 e1) = (Ret tt, mk_world k2 e1)).
    { unfold on_k. cbn [w_k w_e]. by rewrite E2. }
    by rewrite (bind_step _ _ _ _ _ Eo).
Qed.

(** The queue holds nothing for the channel, so the socket is read. *)
Lemma wait_on_channel_next ch g pre fs B n k e cs f0 qs :
  for_channel ch g -> 0 <= B -> Forall (fun f => ~ for_channel ch f) pre -> none_for ch qs ->
  ready S F L (B + demand (pre ++ g :: fs)) qs k -> Forall (acceptable (k_in k)) (pre ++ g :: fs) ->
  delivers L e cs n -> window k ++ concat cs = wires (pre ++ g :: fs) ->
  (2 * n + length (pre ++ g :: fs) + 1 <= fuel)%nat ->
  exists k1 e1 cs1 n1 qs1, (n1 <= n)%nat /\ delivers L e1 cs1 n1 /\ window k1 ++ concat cs1 = wires fs /\
    Forall (acceptable (k_in k1)) fs /\ ready S F L (B + demand fs) qs1 k1 /\ none_for ch qs1 /\
    qs1 = qs ++ map (received uninit) (for_application pre) /\
    amqp_simple_wait_frame_on_channel garbage uninit fuel ch f0 (mk_world k e) = (Ret (received uninit g), mk_world k1 e1).
Proof.
  intros Hg HB Hno Hqs Hrd Hall Hd Hw Hfu.
  destruct (wait_channel_reads ch g fs B (for_application pre) Hg HB pre n k e cs f0 qs fuel eq_refl Hno Hrd Hall Hd Hw Hfu)
    as (k1 & e1 & cs1 & n1 & Hn1 & Hd1 & Hw1 & Hall1 & _ & Hrd1 & E1).
  { rewrite length_app in Hfu. pose proof (length_filter (fun f => is_heartbeat f = false) pre). unfold for_application. lia. }
  exists k1, e1, cs1, n1, (qs ++ map (received uninit) (for_application pre)). split; [done|]. split; [done|]. split; [done|].
  split; [done|]. split; [done|]. split.
  { apply Forall_app. split; [done|]. apply Forall_forall. intros f Hf. apply list_elem_of_fmap in Hf as (h & -> & Hh).
    apply list_elem_of_filter in Hh as [Hh1 Hh2]. rewrite Forall_forall in Hno. intros Ec. by apply (Hno h Hh2). }
  split; [done|]. unfold amqp_simple_wait_frame_on_channel.
  change (bind get_k ?c (mk_world k e)) with (c k (mk_world k e)). cbv beta.
  destruct (find_queued_spec _ (fun f => ch =? channel f) _ (rd_queue _ _ _ _ _ _ Hrd))
    as [(gs1 & g' & gs2 & a & l & Eqs & _ & Hg' & _)|[_ Ef]].
  - rewrite Eqs in Hqs. apply Forall_app in Hqs as [_ Hqs]. apply Forall_cons in Hqs as [Hc _]. apply Z.eqb_eq in Hg'. congruence.
  - rewrite (bind_step _ _ _ None (mk_world k e)) by (unfold lift_res; by rewrite Ef). exact E1.
Qed.

End Wait.

(** ** The memory of a message *)

Section Clone.
Context {Laws : MemLaws memory Z}.
Context (pool : Z).

Lemma clones_opt {A B} flags flag f (m : eff memory A) (a zero : A) (k : A -> eff memory B) rest b :
  (flag_set flags flag = true -> Clones pool m (zlen (wire_field f)) a) ->
  Clones pool (k (pick flags flag a zero)) (zlen (wire_fields rest)) b ->
  Clones pool (let! x := if_set flags flag m zero in k x) (zlen (wire_fields (opt_field flags flag f ++ rest))) b.
Proof.
  intros Hm Hk. rewrite wire_fields_app, zlen_app. unfold if_set, opt_field, pick in *. destruct (flag_set flags flag).
  - eapply clones_bind; [by apply Hm|exact Hk|apply zlen_nonneg|]. unfold wire_fields. simpl. by rewrite app_nil_r.
  - eapply clones_bind; [by apply (clones_ret _ _ 0)|exact Hk|apply zlen_nonneg|done].
Qed.

Lemma clones_short (old new : list byte) flags flag :
  flag_set flags flag = true -> field_ok (FShort new) ->
  Clones pool (clone_bytes pool (pick flags flag new old)) (zlen (wire_field (FShort new))) new.
Proof.
  intros Hf Hok. unfold pick. rewrite Hf. simpl in Hok. apply (clones_mono _ _ 1); [apply clones_bytes; lia|].
  change (wire_field (FShort new)) with (be_bytes 1 (zlen new) ++ new). rewrite zlen_app, zlen_be_bytes. zlen_pos. lia.
Qed.

Lemma clones_scalar (old new : Z) flags flag f :
  flag_set flags flag = true -> Clones pool (ret (pick flags flag new old)) (zlen (wire_field f)) new.
Proof. intros Hf. unfold pick. rewrite Hf. apply clones_ret, zlen_nonneg. Qed.

Lemma opt_ok flags flag f rest : flag_set flags flag = true -> fields_ok (opt_field flags flag f ++ rest) -> field_ok f.
Proof. intros Hf Hok. unfold opt_field in Hok. rewrite Hf in Hok. by apply Forall_cons in Hok as [Hok _]. Qed.
Lemma opt_rest flags flag f rest : fields_ok (opt_field flags flag f ++ rest) -> fields_ok rest.
Proof. intros Hok. by apply fields_ok_app in Hok as [_ Hok]. Qed.

(** The properties that are flagged, and zeros. *)
Lemma clones_properties u p :
  properties_ok (P_basic p) -> named_table (basic_headers p) ->
  Clones pool (amqp_basic_properties_clone (merge_basic u p) pool) (zlen (wire_properties (P_basic p)))
    (merge_basic zero_properties p).
Proof.
  intros [_ Hok] Hn. unfold fields_ok in Hok. simpl properties_fields in Hok. apply Forall_cons in Hok as [_ Hok].
  change (Forall field_ok (basic_fields p)) with (fields_ok (basic_fields p)) in Hok. unfold basic_fields in Hok.
  apply (clones_mono _ _ (zlen (wire_fields (basic_fields p)))).
  2:{ change (wire_properties (P_basic p)) with (wire_field (F16 (basic_flags p)) ++ wire_fields (basic_fields p)).
      rewrite zlen_app. pose proof (zlen_nonneg (wire_field (F16 (basic_flags p)))).
      pose proof (zlen_nonneg (wire_fields (basic_fields p))). lia. }
  unfold amqp_basic_properties_clone, basic_fields. cbn [basic_flags merge_basic]. cbv zeta.
  repeat first
    [ eapply clones_opt;
      [ intros Hf; first [ apply clones_short; [exact Hf|exact (opt_ok _ _ _ _ Hf Hok)]
                         | apply clones_scalar; exact Hf
                         | unfold merge_basic, pick; cbn [basic_headers]; rewrite Hf; apply clones_table; [exact (opt_ok _ _ _ _ Hf Hok)|exact Hn] ]
      | apply opt_rest in Hok; cbv beta ] ].
  by apply clones_ret.
Qed.
End Clone.

Section Message.
Context `{Host} {E : Type} `{Net E} {Th : Then E}.
Context (garbage : addr -> Z -> list byte) (uninit : amqp_basic_properties_t) (heap_garbage : Z -> Z -> list byte) (fuel : nat).
Hypothesis Hgarbage : forall a n, 0 <= n -> zlen (garbage a n) = n.
Hypothesis Hheap : forall b n, 0 <= n -> zlen (heap_garbage b n) = n.
Context (L : Z).

Lemma ready_set_mem S F S' F' B B' qs k m :
  ready S F L B qs k -> S ⊆ S' -> mem_sep S' F' m -> h_refuse (m_heap m) = [] -> room_for S' B' m ->
  ready S' F' L B' qs (set_mem m k).
Proof.
  intros [Hk Hc Hi Hq [Hp1 Hp2] Hr Hm Hroom] HS Hm' Hr' Hroom'. split; try done.
  split; [|done]. intros ch p Ep. apply HS. by apply (Hp1 ch).
Qed.

Lemma on_memory_step {A} (f : eff memory A) k (e : E) a m :
  f (k_mem k) = (Ret a, m) -> on_memory f (mk_world k e) = (Ret a, mk_world (set_mem m k) e).
Proof. intros E1. unfold on_memory, on_k, on_mem. cbn [w_k w_e]. by rewrite E1. Qed.

Lemma malloc_ready S F B qs k n :
  ready S F L B qs k ->
  exists b m, on_m_heap (malloc n) (k_mem k) = (Ret (Some b), m) /\ ready S (b :: F) L B qs (set_mem m k).
Proof.
  intros Hrd. pose proof Hrd as [_ _ _ _ _ Hr Hm Hroom].
  exists (h_next (m_heap (k_mem k))), (set_heap (k_mem k) (with_block (m_heap (k_mem k)) n)). split.
  - unfold on_m_heap, malloc. rewrite Hr. by unfold with_block; rewrite Hr.
  - eapply ready_set_mem; [exact Hrd|done|by apply mem_sep_block| |exact Hroom]. simpl. by rewrite Hr.
Qed.

Definition body_frame (ch : Z) (bs : list byte) : amqp_frame_t := mk_frame AMQP_FRAME_BODY ch (PL_body bs).

Lemma try_ok {S A} (m : eff S A) s a s' : m s = (Ret a, s') -> try m s = (Ret (inr a), s').
Proof. intros E1. unfold try. by rewrite E1. Qed.

Lemma ztake_splice_end buf o bs : 0 <= o <= zlen buf -> ztake (o + zlen bs) (splice buf o bs) = ztake o buf ++ bs.
Proof. intros Ho. unfold splice. rewrite app_assoc. apply ztake_app. rewrite zlen_app, zlen_ztake by lia. done. Qed.

(** The body frames fill the body. *)
Lemma read_body_complete S F ch bodies more B T block : 0 <= B -> T < 2 ^ 62 -> forall fs n k e cs f0 qs data got m,
  filter (for_channel ch) fs = map (body_frame ch) bodies ++ more -> Forall (fun bs => bs <> []) bodies ->
  zlen got + zlen (concat bodies) = T -> zlen data = T -> ztake (zlen got) data = got -> none_for ch qs ->
  ready S F L (B + demand fs) qs k -> Forall (acceptable (k_in k)) fs ->
  delivers L e cs n -> window k ++ concat cs = wires fs -> (2 * n + length fs + 1 <= fuel)%nat -> (length bodies < m)%nat ->
  exists k1 e1 cs1 n1 qs1 fs1, delivers L e1 cs1 n1 /\ window k1 ++ concat cs1 = wires fs1 /\
    filter (for_channel ch) fs1 = more /\ ready S F L (B + demand fs1) qs1 k1 /\
    read_body garbage uninit fuel m ch f0 (mk_owned T block data) (zlen got) (mk_world k e)
    = (Ret (inr (mk_owned T block (got ++ concat bodies))), mk_world k1 e1).
Proof.
  intros HB HT. induction bodies as [|bs bodies IH]; intros fs n k e cs f0 qs data got [|m] Hfs Hne Hlen Hdata Hgot Hqs Hrd Hall Hd Hw Hfu Hm;
    try (simpl in Hm; lia); cbn [read_body o_len].
  - change (zlen (concat [])) with 0 in Hlen. rewrite (proj2 (Z.ltb_ge _ _)) by lia.
    exists k, e, cs, n, qs, fs. split; [done|]. split; [done|]. split; [done|]. split; [done|].
    rewrite app_nil_r. rewrite ztake_all in Hgot by lia. by subst data.
  - apply Forall_cons in Hne as [Hbs Hne]. cbn [concat] in Hlen. rewrite zlen_app in Hlen.
    assert (0 < zlen bs) by (destruct bs; [done|unfold zlen; simpl; lia]). pose proof (zlen_nonneg (concat bodies)).
    pose proof (zlen_nonneg got). rewrite (proj2 (Z.ltb_lt _ _)) by lia.
    destruct (channel_split ch fs _ _ Hfs) as (pre & fs' & -> & Hg & Hno & Hfs').
    destruct (wait_on_channel_next garbage uninit fuel Hgarbage S F L ch (body_frame ch bs) pre fs' B n k e cs f0 qs Hg HB Hno Hqs
                Hrd Hall Hd Hw Hfu) as (k1 & e1 & cs1 & n1 & qs1 & Hn1 & Hd1 & Hw1 & Hall1 & Hrd1 & Hqs1 & _ & E1).
    rewrite (bind_step _ _ _ _ _ (try_ok _ _ _ _ E1)). cbn [received body_frame frame_type payload channel].
    simpl (AMQP_FRAME_BODY =? AMQP_FRAME_BODY). cbn [negb o_data o_block]. rewrite size_add_small by lia.
    rewrite (proj2 (Z.ltb_ge _ _)) by lia. rewrite store_fits by lia.
    rewrite length_app in Hfu. simpl in Hfu, Hm.
    replace (zlen got + zlen bs) with (zlen (got ++ bs)) by apply zlen_app.
    destruct (IH fs' n1 k1 e1 cs1 (body_frame ch bs) qs1 (splice data (zlen got) bs) (got ++ bs) m Hfs' Hne)
      as (k2 & e2 & cs2 & n2 & qs2 & fs2 & Hd2 & Hw2 & Hf2 & Hrd2 & E2); try done; try lia.
    + rewrite zlen_app. lia.
    + rewrite zlen_splice by lia. done.
    + rewrite zlen_app, ztake_splice_end by lia. by rewrite Hgot.
    + exists k2, e2, cs2, n2, qs2, fs2. split; [done|]. split; [done|]. split; [done|]. split; [done|].
      cbn [concat]. rewrite app_assoc. exact E2.
Qed.

(** Making room for the message's pool. *)
Lemma put_zero_ready S F B qs k self (e : E) :
  self ∉ S -> ready S F L B qs k ->
  exists k', on_memory (put_pool_at self zero_pool) (mk_world k e) = (Ret tt, mk_world k' e) /\ ready S F L B qs k' /\
    window k' = window k /\ same_setup (k_in k) (k_in k').
Proof.
  intros Hs Hrd. pose proof Hrd as [_ _ _ _ _ Hr Hm Hroom]. eexists. split; [by apply on_memory_step|]. split; [|done].
  eapply ready_set_mem; [exact Hrd|done|by apply mem_sep_other|done|].
  intros q ql Hq Eq. cbn in Eq. rewrite lookup_insert_ne in Eq by (by intros ->). by apply (Hroom q).
Qed.

Lemma put_init_ready S F B qs k self (e : E) :
  self ∉ S -> 0 <= B <= INT_MAX -> ready S F L B qs k ->
  exists k', on_memory (put_pool_at self (init_amqp_pool 4096)) (mk_world k e) = (Ret tt, mk_world k' e) /\
    ready ({[self]} ∪ S) F L B qs k' /\ window k' = window k /\ same_setup (k_in k) (k_in k').
Proof.
  intros Hs HB Hrd. pose proof Hrd as [_ _ _ _ _ Hr Hm Hroom]. eexists. split; [by apply on_memory_step|]. split; [|done].
  eapply ready_set_mem; [exact Hrd|set_solver|by apply mem_sep_new; [lia|..]|done|].
  intros q ql Hq Eq. cbn in Eq. destruct (decide (q = self)) as [->|Hne].
  - rewrite lookup_insert_eq in Eq. simplify_eq. cbn. lia.
  - rewrite lookup_insert_ne in Eq by done. apply (Hroom q); [set_solver|done].
Qed.

Lemma clone_ready S F B qs k self p (e : E) :
  self ∈ S -> 0 <= B -> properties_ok (P_basic p) -> named_table (basic_headers p) ->
  ready S F L (B + zlen (wire_properties (P_basic p))) qs k ->
  exists k', try (on_memory (amqp_basic_properties_clone (merge_basic uninit p) self)) (mk_world k e)
             = (Ret (inr (merge_basic zero_properties p)), mk_world k' e) /\ ready S F L B qs k' /\
    window k' = window k /\ same_setup (k_in k) (k_in k').
Proof.
  intros Hs HB Hok Hn Hrd. pose proof Hrd as [_ _ _ _ _ Hr Hm Hroom].
  destruct (clones_properties (Laws := sep_laws S F) self uninit p Hok Hn B (k_mem k) HB) as (m' & E1 & (_ & Hr' & Hm' & Hroom')).
  { split; [done|]. done. }
  eexists. split; [apply try_ok; apply on_memory_step; exact E1|]. split; [|done].
  by eapply ready_set_mem.
Qed.

Definition normal_reply : amqp_rpc_reply_t := mk_rpc_reply AMQP_RESPONSE_NORMAL (0, None) 0.

Lemma all_acceptable c c' fs : same_setup c c' -> Forall (acceptable c) fs -> Forall (acceptable c') fs.
Proof. intros Hs Hall. eapply Forall_impl; [exact Hall|]. intros f. by apply acceptable_same. Qed.

Lemma read_message_complete S F ch self p body bodies more fs n k e cs qs :
  let T := zlen (wire_properties (P_basic p)) in
  self ∉ S -> filter (for_channel ch) fs = header_frame ch p body :: map (body_frame ch) bodies ++ more ->
  concat bodies = body -> Forall (fun bs => bs <> []) bodies -> zlen body < 2 ^ 62 ->
  properties_ok (P_basic p) -> named_table (basic_headers p) -> none_for ch qs ->
  ready S F L (T + demand fs) qs k -> T + demand fs <= INT_MAX -> Forall (acceptable (k_in k)) fs ->
  delivers L e cs n -> window k ++ concat cs = wires fs -> (2 * n + length fs + 1 <= fuel)%nat ->
  exists k1 e1 cs1 n1 fs1 block, delivers L e1 cs1 n1 /\ window k1 ++ concat cs1 = wires fs1 /\
    filter (for_channel ch) fs1 = more /\
    amqp_read_message garbage uninit heap_garbage fuel ch self (mk_world k e)
    = (Ret (normal_reply, mk_message (merge_basic zero_properties p) (mk_owned (zlen body) block body)), mk_world k1 e1).
Proof.
  intros T Hself Hfs Hcat Hne Hbody Hok Hn Hqs Hrd Hmax Hall Hd Hw Hfu. unfold amqp_read_message.
  destruct (put_zero_ready S F _ qs k self e Hself Hrd) as (k0 & E0 & Hrd0 & Hw0 & Hset0). rewrite (bind_step _ _ _ _ _ E0).
  destruct (channel_split ch fs _ _ Hfs) as (pre & fs' & -> & Hg & Hno & Hfs'). assert (0 <= T) by apply zlen_nonneg.
  destruct (wait_on_channel_next garbage uninit fuel Hgarbage S F L ch _ pre fs' T n k0 e cs uninit_frame qs Hg ltac:(lia)
              Hno Hqs Hrd0 (all_acceptable _ _ _ Hset0 Hall) Hd) as (k1 & e1 & cs1 & n1 & qs1 & Hn1 & Hd1 & Hw1 & Hall1 & Hrd1 & Hqs1 & _ & E1);
    [by rewrite Hw0|done|].
  rewrite (bind_step _ _ _ _ _ (try_ok _ _ _ _ E1)). cbn [received header_frame frame_type payload channel merge_properties].
  simpl (AMQP_FRAME_HEADER =? AMQP_FRAME_HEADER). cbn [negb]. pose proof (demand_nonneg fs').
  assert (demand fs' <= demand (pre ++ header_frame ch p body :: fs')).
  { clear. induction pre as [|f pre IH]; [simpl app|rewrite <- app_comm_cons]; rewrite demand_cons;
      unfold cost; [pose proof (zlen_nonneg (wire_frame (header_frame ch p body)))|pose proof (zlen_nonneg (wire_frame f))]; lia. }
  destruct (put_init_ready S F (T + demand fs') qs1 k1 self e1 Hself ltac:(lia) Hrd1) as (k2 & E2 & Hrd2 & Hw2 & Hset2).
  rewrite (bind_step _ _ _ _ _ E2). rewrite Z.add_comm in Hrd2.
  destruct (clone_ready ({[self]} ∪ S) F (demand fs') qs1 k2 self p e1 ltac:(set_solver) ltac:(lia) Hok Hn Hrd2)
    as (k3 & E3 & Hrd3 & Hw3 & Hset3).
  rewrite (bind_step _ _ _ _ _ E3). cbv iota beta. rewrite length_app in Hfu. simpl in Hfu.
  assert (Hall3 : Forall (acceptable (k_in k3)) fs').
  { apply (all_acceptable (k_in k1)); [by eapply same_setup_trans|done]. }
  assert (Hb : (length bodies < fuel)%nat).
  { pose proof (f_equal length Hfs') as Hlen. rewrite length_app, length_map in Hlen.
    pose proof (length_filter (for_channel ch) fs'). lia. }
  pose proof (zlen_nonneg body). set (hdr := received uninit (header_frame ch p body)).
  assert (Hwin : window k3 ++ concat cs1 = wires fs') by (by rewrite Hw3, Hw2).
  destruct (Z.eqb_spec (zlen body) 0) as [Hz|Hz].
  - rewrite bind_ret_l. cbv iota beta.
    destruct (read_body_complete ({[self]} ∪ S) F ch bodies more 0 0 None ltac:(lia) ltac:(lia) fs' n1 k3 e1 cs1 hdr qs1 [] [] fuel
                Hfs' Hne) as (k4 & e4 & cs4 & n4 & qs4 & fs4 & Hd4 & Hw4 & Hf4 & _ & E4); try done; try lia.
    { by rewrite Hcat. }
    rewrite (bind_step _ _ _ _ _ E4). cbv iota beta. exists k4, e4, cs4, n4, fs4, None. split; [done|]. split; [done|].
    split; [done|]. simpl app. by rewrite Hcat, Hz.
  - rewrite (proj2 (Z.ltb_ge _ _)) by (unfold SIZE_MAX, UINT64_MAX; lia).
    destruct (malloc_ready _ _ _ _ _ (zlen body) Hrd3) as (b & m & Em & Hrd4).
    assert (Eb : amqp_bytes_malloc heap_garbage (zlen body) (k_mem k3)
                 = (Ret (mk_owned (zlen body) (Some b) (heap_garbage b (zlen body))), m)).
    { unfold amqp_bytes_malloc. by rewrite (bind_step _ _ _ _ _ Em). }
    rewrite bind_assoc, (bind_step _ _ _ _ _ (on_memory_step _ _ e1 _ _ Eb)), bind_ret_l. cbn [o_block]. cbv iota beta.
    destruct (read_body_complete ({[self]} ∪ S) (b :: F) ch bodies more 0 (zlen body) (Some b) ltac:(lia) ltac:(lia) fs' n1
                (set_mem m k3) e1 cs1 hdr qs1 (heap_garbage b (zlen body)) [] fuel Hfs' Hne)
      as (k4 & e4 & cs4 & n4 & qs4 & fs4 & Hd4 & Hw4 & Hf4 & _ & E4); try done; try lia.
    { by rewrite Hcat. } { by apply Hheap. }
    change (zlen []) with 0 in E4. rewrite (bind_step _ _ _ _ _ E4). cbv iota beta.
    exists k4, e4, cs4, n4, fs4, (Some b). split; [done|]. split; [done|]. split; [done|]. simpl app. by rewrite Hcat.
Qed.

Lemma dup_ready S F B qs k src (e : E) :
  ready S F L B qs k ->
  exists b k', on_memory (amqp_bytes_malloc_dup src) (mk_world k e)
               = (Ret (mk_owned (zlen src) (Some b) src), mk_world k' e) /\
    ready S (b :: F) L B qs k' /\ window k' = window k /\ same_setup (k_in k) (k_in k').
Proof.
  intros Hrd. destruct (malloc_ready _ _ _ _ _ (zlen src) Hrd) as (b & m & Em & Hrd'). exists b, (set_mem m k).
  split; [|done]. apply on_memory_step. unfold amqp_bytes_malloc_dup. by rewrite (bind_step _ _ _ _ _ Em).
Qed.

(** The contents of an envelope. *)
Definition holds_message (v : amqp_envelope_t) (ch : Z) (d : amqp_basic_deliver_t) (p : amqp_basic_properties_t)
    (body : list byte) : Prop :=
  v_channel v = ch /\ o_data (v_consumer_tag v) = basic_deliver_consumer_tag d /\
  v_delivery_tag v = basic_deliver_delivery_tag d /\ v_redelivered v = basic_deliver_redelivered d /\
  o_data (v_exchange v) = basic_deliver_exchange d /\ o_data (v_routing_key v) = basic_deliver_routing_key d /\
  m_properties (v_message v) = merge_basic zero_properties p /\
  o_data (m_body (v_message v)) = body /\ o_len (m_body (v_message v)) = zlen body.

(** C6: A delivered message is put together: when the peer sends a [basic.deliver], then
    the header and the body of a message in any fragments, with heartbeats and frames of
    other channels in between and the bytes cut into any pieces, [amqp_consume_message]
    returns the envelope of the delivery with exactly the flagged properties and the
    body, and leaves later frames of the channel unread, memory permitting. *)
Theorem message_consumed S F ch self d p body bodies more hbs fs n k (e : E) cs :
  let T := zlen (wire_properties (P_basic p)) in
  let stream := hbs ++ method_frame ch (M_basic_deliver d) :: fs in
  self ∉ S -> Forall (fun h => is_heartbeat h = true) hbs ->
  filter (for_channel ch) fs = header_frame ch p body :: map (body_frame ch) bodies ++ more ->
  concat bodies = body -> Forall (fun bs => bs <> []) bodies -> zlen body < 2 ^ 62 ->
  properties_ok (P_basic p) -> named_table (basic_headers p) ->
  ready S F L (T + demand stream) [] k -> T + demand stream <= INT_MAX -> Forall (acceptable (k_in k)) stream ->
  delivers L e cs n -> window k ++ concat cs = wires stream -> (2 * n + length stream + 1 <= fuel)%nat ->
  exists v k1 e1 cs1 n1 fs1,
    amqp_consume_message garbage uninit heap_garbage fuel self None (mk_world k e) = (Ret (normal_reply, v), mk_world k1 e1) /\
    holds_message v ch d p body /\
    delivers L e1 cs1 n1 /\ window k1 ++ concat cs1 = wires fs1 /\ filter (for_channel ch) fs1 = more.
Proof.
  intros T stream Hself Hhb Hfs Hcat Hne Hbody Hok Hn Hrd Hmax Hall Hd Hw Hfu. unfold amqp_consume_message.
  destruct (put_zero_ready S F _ [] k self e Hself Hrd) as (k0 & E0 & Hrd0 & Hw0 & Hset0). rewrite (bind_step _ _ _ _ _ E0).
  assert (0 <= T) by apply zlen_nonneg. pose proof (demand_nonneg fs).
  destruct (next_frame garbage uninit fuel Hgarbage S F L T hbs n k0 e cs uninit_frame (method_frame ch (M_basic_deliver d)) fs []
              Hhb eq_refl ltac:(lia) Hrd0 (all_acceptable _ _ _ Hset0 Hall) Hd ltac:(by rewrite Hw0) Hfu)
    as (k1 & e1 & cs1 & n1 & Hn1 & Hd1 & Hw1 & Hall1 & _ & _ & Hrd1 & E1).
  pose proof (simple_wait_queue garbage uninit fuel k0 e uninit_frame [] (rd_queue _ _ _ _ _ _ Hrd0)) as Eq. simpl in Eq.
  rewrite E1 in Eq. unfold amqp_simple_wait_frame in Eq. rewrite (bind_step _ _ _ _ _ (try_ok _ _ _ _ Eq)). cbv iota beta.
  rewrite (bind_step _ _ _ false (mk_world k1 e1)) by done. cbv iota. cbn [received method_frame payload channel].
  destruct (dup_ready _ _ _ _ _ (basic_deliver_consumer_tag d) e1 Hrd1) as (b1 & k2 & E2 & Hrd2 & Hw2 & Hset2).
  rewrite (bind_step _ _ _ _ _ E2).
  destruct (dup_ready _ _ _ _ _ (basic_deliver_exchange d) e1 Hrd2) as (b2 & k3 & E3 & Hrd3 & Hw3 & Hset3).
  rewrite (bind_step _ _ _ _ _ E3).
  destruct (dup_ready _ _ _ _ _ (basic_deliver_routing_key d) e1 Hrd3) as (b3 & k4 & E4 & Hrd4 & Hw4 & Hset4).
  rewrite (bind_step _ _ _ _ _ E4). unfold amqp_bytes_malloc_dup_failed. cbn [o_len o_block].
  rewrite !(bool_decide_false (Some _ = None)) by done. rewrite !andb_false_r. cbn [orb].
  assert (demand fs + 2 <= demand stream).
  { unfold stream. clear. induction hbs as [|f hbs IH]; [simpl app|rewrite <- app_comm_cons]; rewrite demand_cons;
      unfold cost; [pose proof (zlen_nonneg (wire_frame (method_frame ch (M_basic_deliver d))))|pose proof (zlen_nonneg (wire_frame f))]; lia. }
  unfold stream in Hfu. rewrite length_app in Hfu. simpl in Hfu.
  destruct (read_message_complete S (b3 :: b2 :: b1 :: F) ch self p body bodies more fs n1 k4 e1 cs1 [] Hself Hfs Hcat Hne Hbody Hok Hn)
    as (k5 & e5 & cs5 & n5 & fs5 & block & Hd5 & Hw5 & Hf5 & E5).
  - by apply Forall_nil.
  - apply (ready_mono _ _ _ _ _ _ _ Hrd4). fold T. lia.
  - fold T. lia.
  - apply (all_acceptable (k_in k1)); [|done]. by repeat (eapply same_setup_trans; [eassumption|]).
  - done.
  - by rewrite Hw4, Hw3, Hw2.
  - lia.
  - rewrite (bind_step _ _ _ _ _ E5). cbn [is_normal normal_reply reply_type negb].
    eexists _, k5, e5, cs5, n5, fs5. split; [reflexivity|]. split; [|done]. by repeat split.
Qed.

End Message.

(** *** Exceptions *)

(** A queue with one frame. *)
Definition one_queued (f : amqp_frame_t) : frame_queue := mk_queue (<[0 := mk_link None f]> ∅) 1 (Some 0) (Some 0).

(** The class of a header is not looked at: the properties of another class, which are
    shorter, are read as if they were those of a [basic] message. *)
Lemma message_wrong_class :
  (amqp_read_message (H := little_endian) zeros zero_basic (fun _ => zeros (0, 0)) 5 1 7
     (mk_world (demo_connection (one_queued
        (mk_frame AMQP_FRAME_HEADER 1 (PL_properties 10 3 (P_connection (mk_connection_properties 0)) []))))
        (mk_script 1 [] [] true))).1 = Undef.
Proof. by vm_compute. Qed.

(** A message with a content type and a body that finds no memory. *)
Definition demo_large : amqp_frame_t :=
  mk_frame AMQP_FRAME_HEADER 1 (PL_properties AMQP_BASIC_CLASS 1000000
    (P_basic (mk_basic_properties 0x8000 [x61] [] [] 0 0 [] [] [] [] 0 [] [] [] [])) []).
Definition demo_tight : connection :=
  let k := demo_connection (one_queued demo_large) in
  set_mem (mk_memory (mk_heap ∅ 10 [false; false; true]) (m_pools (k_mem k)) ∅ 0) k.

(** When the block for the body is refused, the pool of the message is not emptied: the
    page with its properties stays allocated. *)
Lemma message_pool_leaked :
  let '(r, w) := amqp_read_message (H := little_endian) zeros zero_basic (fun _ => zeros (0, 0)) 5 1 7
                   (mk_world demo_tight (mk_script 1 [] [] true)) in
  match r with
  | Ret (reply, _) => reply = library_exception AMQP_STATUS_NO_MEMORY /\
      map_to_list (h_live (m_heap (k_mem (w_k w)))) = [(11, 8); (10, 4096)]
  | _ => False
  end.
Proof. by vm_compute. Qed.

(** *** Witness *)

Definition demo_deliver : amqp_basic_deliver_t := mk_basic_deliver [x63] 5 0 [x65] [x72].
Definition demo_props : amqp_basic_properties_t :=
  mk_basic_properties 0x9000 [x61; x2f; x62] [] [] 2 0 [] [] [] [] 0 [] [] [] [].
(** A message of five bytes in two fragments, with a frame of channel 2 in between. *)
Definition demo_stream : list amqp_frame_t :=
  [method_frame 1 (M_basic_deliver demo_deliver); header_frame 1 demo_props [x68; x65; x6c; x6c; x6f];
   body_frame 1 [x68; x65; x6c]; body_on 2; body_frame 1 [x6c; x6f]].
Definition demo_chunks : list (list byte) := let w := wires demo_stream in [ztake 50 w; zdrop 50 w].

Lemma demo_props_ok : properties_ok (P_basic demo_props).
Proof.
  assert (Ef : properties_fields (P_basic demo_props) = [F16 0x9000; FShort [x61; x2f; x62]; F8 2]) by done.
  split; [done|]. rewrite Ef. repeat (apply Forall_cons; split; [done|]). by apply Forall_nil.
Qed.

Lemma demo_stream_ok : Forall (acceptable (k_in demo_reader)) demo_stream.
Proof.
  assert (Hd : method_ok (M_basic_deliver demo_deliver)).
  { assert (Ef : method_fields (M_basic_deliver demo_deliver) = [FShort [x63]; F64 5; FBits [0]; FShort [x65]; FShort [x72]]) by done.
    unfold method_ok, fields_ok. rewrite Ef. repeat (apply Forall_cons; split); [done|done|..|by apply Forall_nil]; try done.
    split; [|simpl; lia]. apply Forall_singleton. by left. }
  pose proof demo_props_ok as Hp.
  repeat (apply Forall_cons; split); [..|by apply Forall_nil];
    (split; [|split; [by vm_compute|by eexists]]); (split; [done|]); done.
Qed.

Example message_consumed_witness :
  exists v k1 e1 cs1 n1 fs1,
    amqp_consume_message (H := little_endian) zeros zero_basic (fun _ => zeros (0, 0)) 40 7 None
      (mk_world demo_reader (mk_script 1 demo_chunks [] true)) = (Ret (normal_reply, v), mk_world k1 e1) /\
    holds_message v 1 demo_deliver demo_props [x68; x65; x6c; x6c; x6f] /\
    delivers 64 e1 cs1 n1 /\ window k1 ++ concat cs1 = wires fs1 /\ filter (for_channel 1) fs1 = [].
Proof.
  apply (message_consumed (H := little_endian) zeros zero_basic (fun _ => zeros (0, 0)) 40 zeros_len (fun b n Hn => zeros_len (0, 0) n Hn)
           64 {[1; 2]} [] 1 7 demo_deliver demo_props [x68; x65; x6c; x6c; x6f] [[x68; x65; x6c]; [x6c; x6f]] [] []
           [header_frame 1 demo_props [x68; x65; x6c; x6c; x6f]; body_frame 1 [x68; x65; x6c]; body_on 2; body_frame 1 [x6c; x6f]]
           2 demo_reader (mk_script 1 demo_chunks [] true) demo_chunks).
  - set_solver.
  - by apply Forall_nil.
  - done.
  - done.
  - by repeat (apply Forall_cons; split).
  - by vm_compute.
  - apply demo_props_ok.
  - done.
  - apply demo_reader_ready. by vm_compute.
  - by vm_compute.
  - exact demo_stream_ok.
  - apply script_delivers. repeat (apply Forall_cons; split); [by vm_compute..|by apply Forall_nil].
  - by vm_compute.
  - simpl. lia.
Defined.
