(* ===== verification/Login.v ===== *)
(** * Logging in: SASL, capabilities and the handshake of [librabbitmq/amqp_socket.c]

    The C strings of the caller are byte strings without their NUL; the variable
    arguments of [amqp_login] are the list of those strings. *)

From Stdlib Require Import String.
From S2P Require Import Prelude Status Memory Layout Pool PoolMem Codec Table TableOps MethodCodec.
From S2P Require Import MethodTypes MethodDecode MethodEncode Properties Connection Time Net Version ConnState Socket Rpc Consumer.

Local Open Scope string_scope.
Local Open Scope Z_scope.

Definition bytes_of (s : string) : list byte := String.list_byte_of_string s.
(** A string literal. *)
Definition c_str (s : string) : list byte := (bytes_of s ++ [x00])%list.

(** ** SASL *)

Inductive amqp_sasl_method_enum : Type :=
| AMQP_SASL_METHOD_UNDEFINED
| AMQP_SASL_METHOD_PLAIN
| AMQP_SASL_METHOD_EXTERNAL.

(** An invalid method is [amqp_abort]. *)
Definition sasl_method_name (method : amqp_sasl_method_enum) : res amqp_bytes_t :=
  match method with
  | AMQP_SASL_METHOD_PLAIN => Ret (bytes_of "PLAIN")
  | AMQP_SASL_METHOD_EXTERNAL => Ret (bytes_of "EXTERNAL")
  | AMQP_SASL_METHOD_UNDEFINED => Undef
  end.

Definition bytes_equal (l r : amqp_bytes_t) : res bool :=
  if zlen l =? zlen r then
    match memcmp l r (Z.to_nat (zlen l)) with
    | Some d => Ret (d =? 0)
    | None => Undef
    end
  else Ret false.

(** [memchr(start, ' ', end - start)]: what is before the first space, and after it. *)
Fixpoint to_space (l : list byte) : list byte * option (list byte) :=
  match l with
  | [] => ([], None)
  | b :: rest => if bool_decide (b = x20) then ([], Some rest)
                 else let '(word, after) := to_space rest in (b :: word, after)
  end.

Fixpoint mechanism_loop (fuel : nat) (mechanism start : list byte) : res bool :=
  match fuel with
  | O => NoFuel
  | S fuel' =>
      let '(supported_mechanism, after) := to_space start in
      match bytes_equal mechanism supported_mechanism with
      | Ret true => Ret true
      | Ret false => match after with Some rest => mechanism_loop fuel' mechanism rest | None => Ret false end
      | r => r
      end
  end.

Definition sasl_mechanism_in_list (mechanisms : amqp_bytes_t) (method : amqp_sasl_method_enum) : res bool :=
  match sasl_method_name method with
  | Ret mechanism =>
      if zlen mechanisms =? 0 then Ret false else mechanism_loop (S (length mechanisms)) mechanism mechanisms
  | _ => Undef
  end.

(** [None] when [response.bytes] is [NULL]; too few arguments are undefined. *)
Definition sasl_response (pool : Z) (method : amqp_sasl_method_enum) (args : list amqp_bytes_t)
    : eff memory (option amqp_bytes_t) := fun m =>
  match method, args with
  | AMQP_SASL_METHOD_PLAIN, username :: password :: _ =>
      let '(a, m) := pool_alloc pool (size_add (size_add (zlen username) (zlen password)) 2) m in
      (Ret (match a with Some _ => Some ([x00] ++ username ++ [x00] ++ password)%list | None => None end), m)
  | AMQP_SASL_METHOD_EXTERNAL, identity :: _ =>
      let '(a, m) := pool_alloc pool (zlen identity) m in
      (Ret (match a with Some _ => Some identity | None => None end), m)
  | _, _ => (Undef, m)
  end.

(** ** Merging capabilities *)

(** [e->value = v] for the first entry with the key. *)
Fixpoint set_entry (table : amqp_table_t) (key : amqp_bytes_t) (v : amqp_field_value_t) : amqp_table_t :=
  match table with
  | [] => []
  | e :: rest => if bool_decide (e.1 = key) then (e.1, v) :: rest else e :: set_entry rest key v
  end.

Section Merge.
(** The recursive call: base, add and pool. *)
Context (merge : amqp_table_t -> amqp_field_value_t -> Z -> eff memory amqp_table_t).
Context (temp_pool : Z) (base : amqp_table_t).

(** [for (i = 0; i < add->num_entries; ++i)] *)
Fixpoint merge_loop (add temp_result : amqp_table_t) : eff memory amqp_table_t :=
  match add with
  | [] => ret temp_result
  | (key, v) :: rest =>
      let! found := lift_res (amqp_table_get_entry_by_key temp_result key) in
      let! temp_result :=
        match found with
        | Some (_, old) =>
            if (AMQP_FIELD_KIND_TABLE =? fv_kind v) && (AMQP_FIELD_KIND_TABLE =? fv_kind old) then
              let! be := lift_res (amqp_table_get_entry_by_key base key) in
              match be with
              | Some (_, FV_TABLE bt) =>
                  let! t := merge bt v temp_pool in
                  ret (set_entry temp_result key (FV_TABLE t))
              | _ => undef                                    (* be is NULL, or not a table *)
              end
            else ret (set_entry temp_result key v)
        | None => ret (temp_result ++ [(key, v)])%list
        end in
      merge_loop rest temp_result
  end.
End Merge.

(** One level.  [temp_pool] is the address of the local variable.  The sum of the
    numbers of entries is an [int]. *)
Definition merge_tables (merge : amqp_table_t -> amqp_field_value_t -> Z -> eff memory amqp_table_t) (temp_pool : Z)
    (base add : amqp_table_t) (pool : Z) : eff memory amqp_table_t :=
  do! put_pool_at temp_pool (init_amqp_pool 4096) in
  do! (if bool_decide (in_s 32 (zlen base + zlen add)) then ret tt else undef) in
  let! r := try (do! pool_bytes temp_pool (wrap 64 (sizeof layout_amqp_table_entry_t * (zlen base + zlen add))) in
                 let! temp_result := merge_loop merge temp_pool base add base in
                 amqp_table_clone pool temp_result) in
  do! on_pool temp_pool empty_amqp_pool in
  match r with inl st => fail st | inr t => ret t end.

(** The recursion is on the table that is added; the local variables of the calls are
    at different addresses. *)
Fixpoint merge_value (sp : Z) (base : amqp_table_t) (add : amqp_field_value_t) (pool : Z) {struct add}
    : eff memory amqp_table_t :=
  match add with
  | FV_TABLE t => merge_tables (merge_value (sp - 1)) sp base t pool
  | _ => undef
  end.

(** [add] is [None] for [NULL]. *)
Definition amqp_merge_capabilities (sp : Z) (base : amqp_table_t) (add : option amqp_table_t) (pool : Z)
    : eff memory amqp_table_t :=
  match add with
  | None => amqp_table_clone pool base
  | Some add => merge_tables (merge_value (sp - 1)) sp base add pool
  end.

(** ** The handshake *)

Definition AMQP_PROTOCOL_VERSION_MAJOR : Z := 0.
Definition AMQP_PROTOCOL_VERSION_MINOR : Z := 9.
Definition AMQ_COPYRIGHT : string := "Copyright (c) 2007-2014 VMWare Inc, Tony Garnock-Jones, and Alan Antonuk.".

Definition client_capabilities : res amqp_table_t :=
  match amqp_table_construct_bool_entry (c_str "authentication_failure_close") 1,
        amqp_table_construct_bool_entry (c_str "exchange_exchange_bindings") 1 with
  | Ret a, Ret b => Ret [a; b]
  | _, _ => Undef
  end.

(** The name of the platform comes from the build. *)
Definition default_table (AMQ_PLATFORM : string) : res amqp_table_t :=
  match client_capabilities with
  | Ret capabilities =>
      match amqp_table_construct_utf8_entry (c_str "product") (c_str "rabbitmq-c"),
            amqp_table_construct_utf8_entry (c_str "version") (c_str AMQP_VERSION_STRING),
            amqp_table_construct_utf8_entry (c_str "platform") (c_str AMQ_PLATFORM),
            amqp_table_construct_utf8_entry (c_str "copyright") (c_str AMQ_COPYRIGHT),
            amqp_table_construct_utf8_entry (c_str "information") (c_str "See https://github.com/alanxz/rabbitmq-c"),
            amqp_table_construct_table_entry (c_str "capabilities") capabilities with
      | Ret a, Ret b, Ret c, Ret d, Ret e, Ret f => Ret [a; b; c; d; e; f]
      | _, _, _, _, _, _ => Undef
      end
  | r => r
  end.

(** What the client asked for against what the server offers in [connection.tune]. *)
Definition negotiate (client_channel_max client_frame_max client_heartbeat
                      server_channel_max server_frame_max server_heartbeat : Z) : Z * Z * Z :=
  let channel_max :=
    if negb (server_channel_max =? 0) && ((server_channel_max <? client_channel_max) || (client_channel_max =? 0))
    then server_channel_max
    else if (server_channel_max =? 0) && (client_channel_max =? 0) then UINT16_MAX
    else client_channel_max in
  let frame_max :=
    if negb (server_frame_max =? 0) && (server_frame_max <? client_frame_max) then server_frame_max else client_frame_max in
  let heartbeat :=
    if negb (server_heartbeat =? 0) && (server_heartbeat <? client_heartbeat) then server_heartbeat else client_heartbeat in
  (channel_max, frame_max, heartbeat).

Section Login.
Context `{Host} {E : Type} `{Net E}.
Context (garbage : addr -> Z -> list byte) (uninit : amqp_basic_properties_t) (heap_garbage : Z -> Z -> list byte).
Context (fuel : nat).
Context (AMQ_PLATFORM : string) (sp : Z).

(** [if (AMQP_STATUS_OK != res) goto error_res;], and [if (res < 0)] *)
Definition ok_or_error (m : eff (world E) Z) : eff (world E) unit :=
  let! res := m in if negb (res =? AMQP_STATUS_OK) then fail res else ret tt.
Definition sent_or_error (m : eff (world E) unit) : eff (world E) unit :=
  let! res := status m in if res <? 0 then fail res else ret tt.

(** [connection.start] and [connection.start-ok] *)
Definition login_start (client_properties : option amqp_table_t) (sasl_method : amqp_sasl_method_enum)
    (vl : list amqp_bytes_t) (deadline : amqp_time_t) : eff (world E) unit :=
  let! method := simple_wait_method_inner garbage uninit fuel 0 AMQP_CONNECTION_START_METHOD deadline in
  match method.2 with
  | Some (M_connection_start s) =>
      if negb (connection_start_version_major s =? AMQP_PROTOCOL_VERSION_MAJOR)
         || negb (connection_start_version_minor s =? AMQP_PROTOCOL_VERSION_MINOR)
      then fail AMQP_STATUS_INCOMPATIBLE_AMQP_VERSION
      else
        let! k := get_k in
        let! server_properties := on_memory (amqp_table_clone (k_self k) (connection_start_server_properties s)) in
        do! modify_k (set_server_properties server_properties) in
        let! supported := lift_res (sasl_mechanism_in_list (connection_start_mechanisms s) sasl_method) in
        if negb supported then fail AMQP_STATUS_BROKER_UNSUPPORTED_SASL_METHOD
        else
          let! channel_pool := on_k (k_channel_pool 0) in
          match channel_pool with
          | None => fail AMQP_STATUS_NO_MEMORY
          | Some p =>
              let! response_bytes := on_memory (sasl_response p sasl_method vl) in
              match response_bytes with
              | None => fail AMQP_STATUS_NO_MEMORY
              | Some response =>
                  let! defaults := lift_res (default_table AMQ_PLATFORM) in
                  let! properties := on_memory (amqp_merge_capabilities sp defaults client_properties p) in
                  do! modify_k (set_client_properties (Some properties)) in
                  let! mechanism := lift_res (sasl_method_name sasl_method) in
                  sent_or_error (amqp_send_method_inner garbage uninit fuel 0 AMQP_CONNECTION_START_OK_METHOD
                    (M_connection_start_ok (mk_connection_start_ok properties mechanism response (bytes_of "en_US")))
                    AMQP_SF_NONE deadline)
              end
          end
  | _ => undef
  end.

(** After [connection.tune]: tune, [connection.tune-ok], [connection.open] *)
Definition login_tune (vhost : amqp_bytes_t) (client_channel_max client_frame_max client_heartbeat : Z)
    (s : amqp_connection_tune_t) (deadline : amqp_time_t) : eff (world E) amqp_rpc_reply_t :=
  let '(channel_max, frame_max, heartbeat) :=
    negotiate client_channel_max client_frame_max client_heartbeat
      (connection_tune_channel_max s) (connection_tune_frame_max s) (connection_tune_heartbeat s) in
  do! sent_or_error (amqp_tune_connection heap_garbage channel_max (swrap 32 frame_max) heartbeat) in
  do! sent_or_error (amqp_send_method_inner garbage uninit fuel 0 AMQP_CONNECTION_TUNE_OK_METHOD
        (M_connection_tune_ok (mk_connection_tune_ok channel_max frame_max heartbeat)) AMQP_SF_NONE deadline) in
  do! on_k amqp_release_buffers in
  let! result := simple_rpc_inner garbage uninit fuel 0 AMQP_CONNECTION_OPEN_METHOD [AMQP_CONNECTION_OPEN_OK_METHOD; 0]
                   (M_connection_open (mk_connection_open vhost [] 1)) deadline in
  if negb (is_normal result) then ret result
  else
    do! on_k amqp_maybe_release_buffers in
    ret (mk_rpc_reply AMQP_RESPONSE_NORMAL (0, None) 0).

(** Up to [error_res]. *)
Definition login_steps (vhost : amqp_bytes_t) (client_channel_max client_frame_max client_heartbeat : Z)
    (client_properties : option amqp_table_t) (timeout : option timeval) (sasl_method : amqp_sasl_method_enum)
    (vl : list amqp_bytes_t) : eff (world E) amqp_rpc_reply_t :=
  let! deadline := from_now timeout in
  do! ok_or_error (send_header_inner fuel deadline) in
  do! login_start client_properties sasl_method vl deadline in
  do! on_k amqp_release_buffers in
  let! method := amqp_simple_wait_method_list garbage uninit fuel 0
                   [AMQP_CONNECTION_TUNE_METHOD; AMQP_CONNECTION_CLOSE_METHOD; 0] deadline in
  if AMQP_CONNECTION_CLOSE_METHOD =? method.1 then ret (mk_rpc_reply AMQP_RESPONSE_SERVER_EXCEPTION method 0)
  else
    match method.2 with
    | Some (M_connection_tune s) => login_tune vhost client_channel_max client_frame_max client_heartbeat s deadline
    | _ => undef
    end.

Definition amqp_login_inner (vhost : amqp_bytes_t) (channel_max frame_max heartbeat : Z)
    (client_properties : option amqp_table_t) (timeout : option timeval) (sasl_method : amqp_sasl_method_enum)
    (vl : list amqp_bytes_t) : eff (world E) amqp_rpc_reply_t :=
  if (channel_max <? 0) || (UINT16_MAX <? channel_max) || (frame_max <? 0) || (heartbeat <? 0) || (UINT16_MAX <? heartbeat)
  then ret (amqp_rpc_reply_error AMQP_STATUS_INVALID_PARAMETER)
  else
    let! r := try (login_steps vhost channel_max frame_max heartbeat client_properties timeout sasl_method vl) in
    match r with
    | inl res =>
        do! amqp_socket_close AMQP_SC_FORCE in
        ret (amqp_rpc_reply_error res)
    | inr result => ret result
    end.

Definition amqp_login (vhost : amqp_bytes_t) (channel_max frame_max heartbeat : Z)
    (sasl_method : amqp_sasl_method_enum) (vl : list amqp_bytes_t) : eff (world E) amqp_rpc_reply_t :=
  let! k := get_k in
  amqp_login_inner vhost channel_max frame_max heartbeat (Some []) (k_handshake_timeout k) sasl_method vl.

Definition amqp_login_with_properties (vhost : amqp_bytes_t) (channel_max frame_max heartbeat : Z)
    (client_properties : option amqp_table_t) (sasl_method : amqp_sasl_method_enum) (vl : list amqp_bytes_t)
    : eff (world E) amqp_rpc_reply_t :=
  let! k := get_k in
  amqp_login_inner vhost channel_max frame_max heartbeat client_properties (k_handshake_timeout k) sasl_method vl.

End Login.
