(* ===== verification/LoginSpec.v ===== *)
(** * Logging in: the theorems about [Login.v] *)

From Stdlib Require Import String.
From S2P Require Import Prelude Status Memory Layout Pool PoolMem PoolSep Codec Table TableSpec TableOps MethodCodec.
From S2P Require Import MethodTypes MethodDecode MethodEncode MethodSpec Properties PropertiesSpec.
From S2P Require Import Connection ConnectionSpec FrameSpec Time Net ConnState Socket QueueSpec SocketSpec RecvSpec.
From S2P Require Import Rpc RpcSpec Consumer Login.

(** ** The list of mechanisms *)

(** The words of a string, separated by single spaces. *)
Fixpoint words (word : list byte) (l : list byte) : list (list byte) :=
  match l with
  | [] => [rev word]
  | b :: rest => if bool_decide (b = x20) then rev word :: words [] rest else words (b :: word) rest
  end.

Lemma to_space_words l word :
  let '(w, after) := to_space l in
  words word l = (rev word ++ w) :: match after with Some rest => words [] rest | None => [] end /\
  match after with Some rest => (length rest < length l)%nat | None => True end.
Proof.
  revert word. induction l as [|b l IH]; intros word; simpl; [by rewrite app_nil_r|].
  case_bool_decide as Hb; [split; [by rewrite app_nil_r|simpl; lia]|].
  specialize (IH (b :: word)). destruct (to_space l) as [w after]. destruct IH as [-> Hl]. split.
  - simpl. by rewrite <- app_assoc.
  - destruct after; [simpl; lia|done].
Qed.

Lemma bytes_equal_eq l r : bytes_equal l r = Ret (bool_decide (l = r)).
Proof. exact (bytes_equal_spec l r). Qed.

Lemma mechanism_loop_words mechanism fuel : forall l, (length l < fuel)%nat ->
  mechanism_loop fuel mechanism l = Ret (bool_decide (mechanism ∈ words [] l)).
Proof.
  induction fuel as [|fuel IH]; intros l Hf; [lia|]. simpl. pose proof (to_space_words l []) as Hs.
  destruct (to_space l) as [w after]. destruct Hs as [Ew Hl]. simpl in Ew. rewrite Ew, bytes_equal_eq.
  case_bool_decide as Hm.
  - by rewrite bool_decide_true by (elems; by left).
  - destruct after as [rest|].
    + rewrite IH by lia. f_equal. apply bool_decide_ext. elems. split; [tauto|]. by intros [?|?].
    + f_equal. rewrite bool_decide_false; [done|]. elems. intros [?|[]]. done.
Qed.

(** The client goes on with a login exactly if the server lists its mechanism: for
    any list of mechanisms, [sasl_mechanism_in_list] ends and tells whether the name of
    the method is one of the space-separated words, not merely part of one. *)
Theorem sasl_mechanism_listed mechanisms method name :
  sasl_method_name method = Ret name ->
  sasl_mechanism_in_list mechanisms method = Ret (bool_decide (name ∈ words [] mechanisms)).
Proof.
  intros Hn. unfold sasl_mechanism_in_list. rewrite Hn. destruct (Z.eqb_spec (zlen mechanisms) 0) as [Hz|Hz].
  - destruct mechanisms; [|unfold zlen in Hz; simpl in Hz; lia]. rewrite bool_decide_false; [done|]. simpl. elems.
    intros [->|[]]. destruct method; vm_compute in Hn; discriminate.
  - apply mechanism_loop_words. lia.
Qed.

Example sasl_mechanism_listed_witness :
  sasl_mechanism_in_list (bytes_of "AMQPLAIN PLAIN"%string) AMQP_SASL_METHOD_PLAIN
  = Ret (bool_decide (bytes_of "PLAIN"%string ∈ words [] (bytes_of "AMQPLAIN PLAIN"%string))).
Proof. exact (sasl_mechanism_listed (bytes_of "AMQPLAIN PLAIN"%string) AMQP_SASL_METHOD_PLAIN (bytes_of "PLAIN"%string) eq_refl). Defined.

(** An empty identity is taken for a lack of memory. *)
Lemma external_without_identity p rest m :
  exists m', sasl_response p AMQP_SASL_METHOD_EXTERNAL ([] :: rest) m = (Ret None, m').
Proof.
  unfold sasl_response. destruct (pool_alloc p (zlen []) m) as [a m'] eqn:E. exists m'.
  change (mem_pool_alloc p 0 m = (a, m')) in E. revert E. unfold mem_pool_alloc. destruct (m_pools m !! p); simpl; by intros [= <- <-].
Qed.

Lemma mechanism_not_part : sasl_mechanism_in_list (bytes_of "AMQPLAIN"%string) AMQP_SASL_METHOD_PLAIN = Ret false.
Proof. by vm_compute. Qed.

(** ** Negotiation *)

(** The lower of two limits, where 0 is no limit. *)
Definition lower (a b : Z) : Z := if a =? 0 then b else if b =? 0 then a else Z.min a b.

Lemma lowered c s : 0 <= c -> 0 <= s ->
  (if negb (s =? 0) && (s <? c) then s else c) = if c =? 0 then 0 else lower c s.
Proof. intros Hc Hs. unfold lower. destruct (Z.eqb_spec s 0), (Z.eqb_spec c 0), (Z.ltb_spec s c); cbn [negb andb]; lia. Qed.

Lemma lowered_range c s hi : 0 <= c < hi -> 0 <= s -> 0 <= (if c =? 0 then 0 else lower c s) < hi.
Proof. intros Hc Hs. unfold lower. destruct (Z.eqb_spec s 0), (Z.eqb_spec c 0); lia. Qed.

Lemma lowered_channels c s : 0 <= c -> 0 <= s ->
  (if negb (s =? 0) && ((s <? c) || (c =? 0)) then s else if (s =? 0) && (c =? 0) then UINT16_MAX else c)
  = if lower c s =? 0 then UINT16_MAX else lower c s.
Proof.
  intros Hc Hs. unfold lower.
  destruct (Z.eqb_spec s 0), (Z.eqb_spec c 0), (Z.ltb_spec s c); cbn [negb andb orb]; subst; try lia;
    (destruct (Z.eqb_spec (Z.min c s) 0) || destruct (Z.eqb_spec s 0) || destruct (Z.eqb_spec c 0) || idtac); try lia; done.
Qed.

Lemma lower_range c s hi : 0 <= c < hi -> 0 <= s < hi -> 0 <= lower c s < hi.
Proof. intros Hc Hs. unfold lower. destruct (Z.eqb_spec s 0), (Z.eqb_spec c 0); lia. Qed.



(** ** A login from end to end

    A new connection and a server that sends [connection.start], [connection.tune] and
    [connection.open-ok]. *)

Definition fill (_ n : Z) : list byte := replicate (Z.to_nat n) x00.

Definition server_frames : list amqp_frame_t :=
  [method_frame 0 (M_connection_start (mk_connection_start 0 9 [([x61], FV_BOOLEAN 1)]
     (bytes_of "AMQPLAIN PLAIN"%string) (bytes_of "en_US"%string)));
   method_frame 0 (M_connection_tune (mk_connection_tune 2047 4096 60));
   method_frame 0 (M_connection_open_ok (mk_connection_open_ok []))].

Definition login_run : res amqp_rpc_reply_t * option (world script) :=
  match amqp_new_connection fill (mk_memory heap0 ∅ ∅ 0, mk_script 1 (map wire_frame server_frames) [] true) with
  | (Ret (Some k), (m, e)) =>
      let '(r, w) := amqp_login (H := little_endian) zeros zero_basic fill 40 "Linux"%string (-1) (bytes_of "/"%string)
                       0 131072 0 AMQP_SASL_METHOD_PLAIN [bytes_of "guest"%string; bytes_of "guest"%string]
                       (mk_world (set_mem m (set_socket true k)) e) in
      (r, Some w)
  | _ => (Undef, None)
  end.

(** The answers of the client after the protocol header. *)
Definition client_frames (properties : amqp_table_t) : list amqp_frame_t :=
  [method_frame 0 (M_connection_start_ok (mk_connection_start_ok properties (bytes_of "PLAIN"%string)
     ([x00] ++ bytes_of "guest"%string ++ [x00] ++ bytes_of "guest"%string)%list (bytes_of "en_US"%string)));
   method_frame 0 (M_connection_tune_ok (mk_connection_tune_ok 2047 4096 0));
   method_frame 0 (M_connection_open (mk_connection_open (bytes_of "/"%string) [] 1))].

Lemma login_runs :
  match login_run with
  | (Ret r, Some w) =>
      r = mk_rpc_reply AMQP_RESPONSE_NORMAL (0, None) 0 /\
      (amqp_get_channel_max (w_k w), amqp_get_frame_max (w_k w), amqp_get_heartbeat (w_k w)) = (2047, 4096, 0) /\
      k_server_properties (w_k w) = [([x61], FV_BOOLEAN 1)] /\
      match default_table "Linux"%string with
      | Ret properties => s_outbox (w_e w) = (protocol_header ++ concat (map wire_frame (client_frames properties)))%list
      | _ => False
      end
  | _ => False
  end.
Proof. vm_compute. repeat split; reflexivity. Qed.

(** [amqp_get_client_properties] then gives a table in the pool of channel 0, which the
    login itself has recycled: the next frame on channel 0 is decoded over it. *)
Lemma client_properties_dangling :
  match login_run with
  | (Ret _, Some w) =>
      amqp_get_client_properties (w_k w) = None /\
      (amqp_get_channel_pool (c_pool_table (k_in (w_k w))) 0 ≫= fun p =>
       m_pools (k_mem (w_k w)) !! p ≫= fun q => Some (alloc_block q, alloc_used q, next_page q)) = Some (None, 0, 0)
  | _ => False
  end.
Proof. vm_compute. split; reflexivity. Qed.
