(* ===== verification/MergeSpec.v ===== *)
(** * Merging capabilities: the theorems about [amqp_merge_capabilities] of [Login.v]

    What a merge computes, as a function of the two tables, and that the code computes
    it: the temporary tables live in pools of their own, which the code empties. *)

From Stdlib Require Import String.
From S2P Require Import Prelude Status Memory Layout Pool PoolMem PoolSep Codec Table TableSpec TableOps MethodCodec.
From S2P Require Import MethodTypes MethodDecode MethodEncode Properties Connection Time Net ConnState LifeSpec Socket Rpc Consumer Login.

Local Open Scope string_scope.
Local Open Scope Z_scope.
Local Open Scope list_scope.

(** ** Tables as maps *)

(** The first entry with a key. *)
Fixpoint find_key (t : amqp_table_t) (key : amqp_bytes_t) : option amqp_table_entry_t :=
  match t with
  | [] => None
  | e :: rest => if bool_decide (e.1 = key) then Some e else find_key rest key
  end.

Lemma get_entry_find t key : amqp_table_get_entry_by_key t key = Ret (find_key t key).
Proof.
  induction t as [|e t IH]; [done|]. cbn [amqp_table_get_entry_by_key find_key]. rewrite bytes_equal_spec.
  by destruct (bool_decide _).
Qed.

Lemma find_key_in t key e : find_key t key = Some e -> e.1 = key /\ e ∈ t.
Proof.
  induction t as [|x t IH]; simpl; [done|]. case_bool_decide as Hx; [intros [= <-]; split; [done|by left]|].
  intros [? ?]%IH. split; [done|by right].
Qed.

Lemma find_key_none t key : find_key t key = None <-> key ∉ t.*1.
Proof.
  induction t as [|x t IH]; simpl; [split; [intros _ Hk; by apply elem_of_nil in Hk|done]|]. rewrite elem_of_cons.
  case_bool_decide as Hx; [split; [done|intros Hk; destruct Hk; by left]|]. rewrite IH.
  split; [intros Hk [->|?]; done|]. tauto.
Qed.

Lemma find_key_set t key v k :
  find_key (set_entry t key v) k = if decide (k = key) then (fun e => (e.1, v)) <$> find_key t key else find_key t k.
Proof.
  induction t as [|[k0 v0] t IH]; simpl; [by destruct (decide _)|].
  case_bool_decide as H0; simpl.
  - subst. destruct (decide (k = key)) as [->|Hne]; [by rewrite bool_decide_true|by rewrite bool_decide_false by congruence].
  - rewrite IH. destruct (decide (k = key)) as [->|Hne]; [by rewrite bool_decide_false by done|]. done.
Qed.

Lemma find_key_snoc t key v k :
  find_key (t ++ [(key, v)]) k =
  match find_key t k with Some e => Some e | None => if decide (k = key) then Some (key, v) else None end.
Proof.
  induction t as [|[k0 v0] t IH]; simpl.
  - destruct (decide (k = key)) as [->|Hne]; [by rewrite bool_decide_true|by rewrite bool_decide_false by congruence].
  - by case_bool_decide.
Qed.

Lemma set_entry_keys t key v : (set_entry t key v).*1 = t.*1.
Proof. induction t as [|e t IH]; cbn; [done|]. case_bool_decide; cbn; [done|by f_equal]. Qed.

(** ** What merging computes *)

(** The table under [key] in [base], when [v] is a table too. *)
Definition both_tables (base : amqp_table_t) (key : amqp_bytes_t) (v : amqp_field_value_t) : option amqp_table_t :=
  match find_key base key, v with
  | Some (_, FV_TABLE bt), FV_TABLE _ => Some bt
  | _, _ => None
  end.

Section Into.
Context (rec : amqp_table_t -> amqp_field_value_t -> amqp_table_t) (base : amqp_table_t).

(** The value an added entry ends up with. *)
Definition merged_value (key : amqp_bytes_t) (v : amqp_field_value_t) : amqp_field_value_t :=
  match both_tables base key v with Some bt => FV_TABLE (rec bt v) | None => v end.

Definition merged_entry (acc : amqp_table_t) (key : amqp_bytes_t) (v : amqp_field_value_t) : amqp_table_t :=
  match find_key acc key with
  | Some _ => set_entry acc key (match both_tables base key v with Some bt => FV_TABLE (rec bt v) | None => v end)
  | None => acc ++ [(key, v)]
  end.

Fixpoint merged_into (add acc : amqp_table_t) : amqp_table_t :=
  match add with
  | [] => acc
  | (key, v) :: rest => merged_into rest (merged_entry acc key v)
  end.

(** [acc] agrees with [base] on the keys still to come. *)
Definition agrees (acc rest : amqp_table_t) : Prop := forall k, k ∈ rest.*1 -> find_key acc k = find_key base k.

Lemma find_merged_entry acc key v k : find_key acc key = find_key base key ->
  find_key (merged_entry acc key v) k = if decide (k = key) then Some (key, merged_value key v) else find_key acc k.
Proof.
  intros Hk. unfold merged_entry, merged_value, both_tables. destruct (find_key acc key) as [[k0 old]|] eqn:E.
  - rewrite find_key_set, E. apply find_key_in in E as [<- _]. by destruct (decide _).
  - rewrite find_key_snoc, <- Hk. destruct (decide (k = key)) as [->|Hne]; [by rewrite E|]. by destruct (find_key acc k).
Qed.

Lemma agrees_step acc key v rest : NoDup (key :: rest.*1) -> agrees acc ((key, v) :: rest) ->
  agrees (merged_entry acc key v) rest.
Proof.
  intros [Hn _]%NoDup_cons Ha k Hk. rewrite find_merged_entry by (apply Ha; by left).
  rewrite decide_False by (by intros ->). apply Ha. by right.
Qed.

(** An added key has its merged value, any other the value it had. *)
Lemma find_merged_into add : forall acc key, NoDup add.*1 -> agrees acc add ->
  find_key (merged_into add acc) key =
  match find_key add key with Some (_, v) => Some (key, merged_value key v) | None => find_key acc key end.
Proof.
  induction add as [|[k0 v0] rest IH]; intros acc key Hnd Ha; [done|]. cbn [merged_into find_key fst].
  cbn in Hnd. rewrite IH; [|by apply NoDup_cons in Hnd as [_ ?]|by apply agrees_step].
  rewrite find_merged_entry by (apply Ha; by left). apply NoDup_cons in Hnd as [Hk0 _].
  case_bool_decide as Hk; [subst|].
  - rewrite decide_True by done. by rewrite (proj2 (find_key_none rest key) Hk0).
  - by rewrite decide_False by congruence.
Qed.

Lemma filter_fresh {A} `{EqDecision A} (l m : list A) x :
  x ∉ l -> filter (fun k => k ∉ m ++ [x]) l = filter (fun k => k ∉ m) l.
Proof.
  induction l as [|y l IH]; intros Hx; [done|]. rewrite not_elem_of_cons in Hx. destruct Hx as [Hy Hx]. rewrite !filter_cons, IH by done.
  apply decide_ext. rewrite elem_of_app, list_elem_of_singleton. split; [tauto|]. intros Hn [?| ->]; done.
Qed.

(** The entries keep their order: those there were, then the new ones. *)
Lemma merged_into_keys add : forall acc, NoDup add.*1 ->
  (merged_into add acc).*1 = acc.*1 ++ filter (fun k => k ∉ acc.*1) add.*1.
Proof.
  induction add as [|[k0 v0] rest IH]; intros acc Hnd; [by rewrite app_nil_r|]. cbn in Hnd |- *.
  apply NoDup_cons in Hnd as [Hk0 Hnd]. rewrite IH by done. unfold merged_entry.
  destruct (find_key acc k0) as [e|] eqn:E.
  - rewrite set_entry_keys, decide_False; [done|]. intros Hk. apply find_key_none in Hk. congruence.
  - apply find_key_none in E. rewrite decide_True by done. rewrite fmap_app, <- (assoc_L app). cbn. f_equal. f_equal.
    by apply filter_fresh.
Qed.
End Into.

(** The entries of [base] in their places, then the new ones; a table under a key of
    both is merged. *)
Fixpoint merged (base : amqp_table_t) (add : amqp_field_value_t) {struct add} : amqp_table_t :=
  match add with
  | FV_TABLE t => merged_into merged base t base
  | _ => base
  end.

(** Keys are distinct in each added table, and no two empty tables meet. *)
Fixpoint mergeable (base : amqp_table_t) (add : amqp_field_value_t) {struct add} : Prop :=
  match add with
  | FV_TABLE t =>
      0 < zlen base + zlen t /\ NoDup t.*1 /\
      allP (fun e => match e with
                     | (key, v) => match both_tables base key v with Some bt => mergeable bt v | None => True end
                     end) t
  | _ => False
  end.

(** The allocations a merge makes, of temporary pools and for the clone of the result. *)
Fixpoint merge_cost (base : amqp_table_t) (add : amqp_field_value_t) {struct add} : Z :=
  match add with
  | FV_TABLE t =>
      1 + foldr (fun e n => match e with
                            | (key, v) => match both_tables base key v with Some bt => merge_cost bt v | None => 0 end
                            end + n) 0 t + zlen (wire_table (merged base add))
  | _ => 0
  end.

(** ** Merging keeps tables in range *)

(** The bytes of the entries of a table on the wire. *)
Definition entries_size (t : amqp_table_t) : Z := zlen (concat (map wire_entry t)).
Definition good_entry (e : amqp_table_entry_t) : Prop := entry_ok e /\ e.1 <> [] /\ named e.2.
Definition good_table (t : amqp_table_t) : Prop := Forall good_entry t.

Lemma good_table_ok t : (table_ok t /\ named_table t) <-> (good_table t /\ entries_size t < 2 ^ 32).
Proof.
  unfold table_ok, named_table, good_table, entries_size. cbn [named]. rewrite !allP_Forall.
  assert (He : Forall good_entry t <-> Forall entry_ok t /\ Forall (fun e => match e with (k, v) => k <> [] /\ named v end) t).
  { rewrite <- Forall_and. apply Forall_iff. by intros [k v]. }
  rewrite He. tauto.
Qed.

Lemma good_fv_table k t : good_entry (k, FV_TABLE t) <-> (zlen k < 256 /\ k <> [] /\ good_table t /\ entries_size t < 2 ^ 32).
Proof.
  rewrite <- good_table_ok. unfold good_entry, entry_ok, table_ok, named_table. cbn [fst snd fv_ok].
  change (map (wire_entry_with wire_fv) t) with (map wire_entry t). fold entry_ok. tauto.
Qed.

Lemma entries_size_nonneg t : 0 <= entries_size t.
Proof. apply zlen_nonneg. Qed.

Lemma entries_size_cons e t : entries_size (e :: t) = zlen (wire_entry e) + entries_size t.
Proof. unfold entries_size. cbn [map concat]. by rewrite zlen_app. Qed.

Lemma entries_size_snoc t e : entries_size (t ++ [e]) = entries_size t + zlen (wire_entry e).
Proof. unfold entries_size. rewrite map_app, concat_app, zlen_app. cbn. by rewrite app_nil_r. Qed.

Lemma wire_entry_value k v v' : zlen (wire_entry (k, v')) = zlen (wire_entry (k, v)) - zlen (wire_fv v) + zlen (wire_fv v').
Proof. unfold wire_entry, wire_entry_with. zlia. Qed.

Lemma wire_fv_table t : zlen (wire_fv (FV_TABLE t)) = 5 + entries_size t.
Proof.
  change (wire_fv (FV_TABLE t)) with (be_bytes 1 (fv_kind (FV_TABLE t)) ++ wire_table t). unfold wire_table, entries_size. zlia.
Qed.

Lemma good_entry_size e : good_entry e -> 3 <= zlen (wire_entry e).
Proof.
  destruct e as [[|b k] v]; intros (_ & Hk & _); [done|]. unfold wire_entry, wire_entry_with. pose proof (wire_fv_pos v). zlia.
Qed.

Lemma good_table_len t : good_table t -> 3 * zlen t <= entries_size t.
Proof.
  induction 1 as [|e t He _ IH]; [done|]. rewrite zlen_cons, entries_size_cons. apply good_entry_size in He. lia.
Qed.

Lemma set_entry_size t key k0 old v : find_key t key = Some (k0, old) ->
  entries_size (set_entry t key v) = entries_size t - zlen (wire_fv old) + zlen (wire_fv v).
Proof.
  induction t as [|[k u] t IH]; cbn [find_key set_entry fst]; [done|]. case_bool_decide.
  - intros [= -> ->]. rewrite !entries_size_cons, (wire_entry_value _ old v). lia.
  - intros E. rewrite !entries_size_cons, IH by done. lia.
Qed.

Lemma set_entry_good t key v : good_table t -> good_entry (key, v) -> good_table (set_entry t key v).
Proof.
  intros Ht Hv. induction Ht as [|[k u] t He Ht IH]; [constructor|]. cbn [set_entry fst].
  case_bool_decide as Hk; constructor; [by subst|done|done|done].
Qed.

Lemma entry_in_size t key k0 v : find_key t key = Some (k0, v) -> zlen (wire_fv v) <= entries_size t.
Proof.
  intros [_ Hin]%find_key_in. pose proof (zlen_concat_le wire_entry _ _ Hin) as Hle.
  unfold entries_size. unfold wire_entry at 1, wire_entry_with in Hle. revert Hle. zlen_pos. autorewrite with zlen. lia.
Qed.

Section Good.
Context (rec : amqp_table_t -> amqp_field_value_t -> amqp_table_t) (base : amqp_table_t).

(** The recursive calls for the tables in [add] do not make them grow. *)
Definition rec_good (add : amqp_table_t) : Prop :=
  Forall (fun e => match e with
                   | (key, FV_TABLE t) =>
                       match find_key base key with
                       | Some (_, FV_TABLE bt) =>
                           good_table (rec bt (FV_TABLE t)) /\
      entries_size (rec bt (FV_TABLE t)) <= entries_size bt + entries_size t
                       | _ => True
                       end
                   | _ => True
                   end) add.

(** One entry: in range, and what it adds is at most its own size. *)
Lemma merged_entry_good acc key v :
  good_table acc -> good_entry (key, v) -> find_key acc key = find_key base key -> rec_good [(key, v)] ->
  entries_size acc + zlen (wire_entry (key, v)) < 2 ^ 32 ->
  good_table (merged_entry rec base acc key v) /\
      entries_size (merged_entry rec base acc key v) <= entries_size acc + zlen (wire_entry (key, v)).
Proof.
  intros Ha He Hk [Hr _]%Forall_cons Hs. unfold merged_entry, both_tables. rewrite <- Hk in *.
  destruct (find_key acc key) as [[k0 old]|] eqn:E.
  2:{ split; [apply Forall_app; split; [done|by constructor]|]. rewrite entries_size_snoc. reflexivity. }
  pose proof (entry_in_size _ _ _ _ E) as Hold. pose proof (wire_fv_pos old).
  assert (Hplain : good_table (set_entry acc key v) /\
      entries_size (set_entry acc key v) <= entries_size acc + zlen (wire_entry (key, v))).
  { split; [by apply set_entry_good|]. rewrite (set_entry_size _ _ _ _ _ E). unfold wire_entry, wire_entry_with. zlia. }
  destruct old; try exact Hplain. destruct v; try exact Hplain. clear Hplain. destruct Hr as [Hg Hle].
  rewrite (set_entry_size _ _ _ _ _ E), !wire_fv_table in *. apply good_fv_table in He as (Hkl & Hkn & _ & _).
  assert (Hw : zlen (wire_entry (key, FV_TABLE entries0)) = 1 + zlen key + (5 + entries_size entries0)).
  { rewrite <- wire_fv_table. unfold wire_entry, wire_entry_with. zlia. }
  pose proof (zlen_nonneg key). split; [|lia]. apply set_entry_good; [done|]. apply good_fv_table. repeat split; [done..|lia].
Qed.

Lemma merged_into_good add : forall acc,
  good_table acc -> good_table add -> NoDup add.*1 -> agrees base acc add -> rec_good add ->
  entries_size acc + entries_size add < 2 ^ 32 ->
  good_table (merged_into rec base add acc) /\
      entries_size (merged_into rec base add acc) <= entries_size acc + entries_size add.
Proof.
  induction add as [|[key v] rest IH]; intros acc Ha Hg Hnd Hag Hr Hs; [split; [done|apply Z.eq_le_incl; symmetry; apply Z.add_0_r]|].
  cbn [merged_into]. rewrite entries_size_cons in *. pose proof (entries_size_nonneg rest).
  apply Forall_cons in Hg as [He Hg]. apply Forall_cons in Hr as [Hr1 Hr].
  destruct (merged_entry_good acc key v) as [H1 H2]; [done|done|apply Hag; by left|by constructor|lia|].
  destruct (IH (merged_entry rec base acc key v)) as [H3 H4]; [done|done|by apply NoDup_cons in Hnd as [_ ?]|by apply agrees_step|done|lia|].
  split; [done|lia].
Qed.
End Good.

(** The tables of a recursive call are parts of its caller's. *)
Lemma nested_tables base add key t bt :
  good_table base -> good_table add -> entries_size base + entries_size add < 2 ^ 32 ->
  (key, FV_TABLE t) ∈ add -> both_tables base key (FV_TABLE t) = Some bt ->
  good_table bt /\ good_table t /\ entries_size bt + entries_size t < 2 ^ 32.
Proof.
  intros Hb Hg Hs Hin Eb. unfold both_tables in Eb. destruct (find_key base key) as [[k0 old]|] eqn:E; [|done].
  destruct old; try done. injection Eb as ->. pose proof (entry_in_size _ _ _ _ E) as Hsz. rewrite wire_fv_table in Hsz.
  pose proof (zlen_concat_le wire_entry _ _ Hin) as Hle. fold (entries_size add) in Hle.
  assert (5 + entries_size t <= zlen (wire_entry (key, FV_TABLE t))).
  { rewrite <- wire_fv_table. unfold wire_entry, wire_entry_with. zlia. }
  pose proof (proj1 (Forall_forall _ _) Hg _ Hin) as Ht. apply good_fv_table in Ht as (_ & _ & Ht & _).
  destruct (find_key_in _ _ _ E) as [<- Hbin]. pose proof (proj1 (Forall_forall _ _) Hb _ Hbin) as Hbt.
  apply good_fv_table in Hbt as (_ & _ & Hbt & _). split; [done|]. split; [done|]. lia.
Qed.

Lemma merged_good add : forall base t,
  add = FV_TABLE t -> mergeable base add -> good_table base -> good_table t -> entries_size base + entries_size t < 2 ^ 32 ->
  good_table (merged base add) /\ entries_size (merged base add) <= entries_size base + entries_size t.
Proof.
  revert add. apply (fv_ind (fun add => forall base t, add = FV_TABLE t -> mergeable base add -> good_table base ->
    good_table t -> entries_size base + entries_size t < 2 ^ 32 ->
    good_table (merged base add) /\ entries_size (merged base add) <= entries_size base + entries_size t));
    [by intros []|done|].
  intros l IH base t [= <-] (_ & Hnd & Hm) Hb Hl Hs. rewrite allP_Forall in Hm. cbn [merged].
  apply merged_into_good; [done|done|done|by intros k _| |done].
  unfold rec_good. rewrite Forall_forall in *. intros [key v] Hin. specialize (IH _ Hin). specialize (Hm _ Hin). cbn in IH.
  destruct v; try done. destruct (find_key base key) as [[k0 []]|] eqn:E; try done.
  assert (Eb : both_tables base key (FV_TABLE entries) = Some entries0) by (unfold both_tables; by rewrite E).
  rewrite Eb in Hm. destruct (nested_tables base l key entries entries0) as (H1 & H2 & H3); [done..|].
  by apply (IH entries0 entries).
Qed.

(** ** Accounts of the memory *)

(** Every live block is in [X] or owned by a pool of [S]; the pools [kept] are as they
    were. *)
Definition accounted (S : gset Z) (X : Z -> Prop) (kept : gmap Z amqp_pool_t) (m : memory) : Prop :=
  (forall b, is_Some (h_live (m_heap m) !! b) -> X b \/ exists q ql, q ∈ S /\ m_pools m !! q = Some ql /\ b ∈ owned ql) /\
  kept ⊆ m_pools m.

Definition acct_plenty (S : gset Z) (F : list Z) (X : Z -> Prop) (kept : gmap Z amqp_pool_t) (p k : Z) (m : memory) : Prop :=
  sep_plenty S F p k m /\ accounted S X kept m /\ kept !! p = None.

Lemma accounted_heap S X kept m m' : h_live (m_heap m') = h_live (m_heap m) -> m_pools m' = m_pools m ->
  accounted S X kept m -> accounted S X kept m'.
Proof. unfold accounted. by intros -> ->. Qed.

Lemma accounted_malloc S X kept m n b m' : scratch_malloc n m = (b, m') -> accounted S X kept m -> accounted S X kept m'.
Proof. intros E. apply accounted_heap; revert E; unfold scratch_malloc; by destruct (h_refuse _) as [|[] ?]; intros [= _ <-]. Qed.

Lemma kept_insert (kept pools : gmap Z amqp_pool_t) p pl : kept ⊆ pools -> kept !! p = None -> kept ⊆ <[p := pl]> pools.
Proof. intros Hk Hp. by apply insert_subseteq_r. Qed.

Lemma acct_plenty_alloc S F X kept p k m n :
  acct_plenty S F X kept p (k + 1) m -> 0 <= k -> 0 < n < 2 ^ 63 ->
  exists a m', mem_pool_alloc p n m = (Some a, m') /\ acct_plenty S F X kept p k m'.
Proof.
  intros (Hpl & [Hx Hkept] & Hp) H0 Hn. destruct (sep_plenty_alloc S F p k m n Hpl H0 Hn) as (a & m' & E & Hpl').
  exists a, m'. split; [done|]. split; [done|]. split; [|done]. destruct Hpl as (HpS & Hr & Hm & Hk).
  destruct (sep_pool _ _ _ Hm p HpS) as (pl & Ep & Hok). destruct (Hk p pl HpS Ep) as [Hk1 Hk2].
  revert E. unfold mem_pool_alloc. rewrite Ep.
  pose proof (amqp_pool_alloc_post pl (m_heap m) n Hok ltac:(lia) ltac:(lia) ltac:(lia)) as Hpost.
  destruct (amqp_pool_alloc n _) as [[r| | |] [pl' h']]; try done. intros [= -> <-].
  destruct Hpost as (_ & _ & _ & Hown & _). destruct (Hown Hr) as (_ & _ & Ho). split; [|by apply kept_insert].
  intros b Hb. cbn in *. destruct (Ho b Hb) as [Hb'|[Hb' Hn']].
  - right. exists p, pl'. by rewrite lookup_insert_eq.
  - destruct (Hx b Hb') as [?|(q & ql & Hq & Eq & Hin)]; [by left|right]. exists q, ql. rewrite lookup_insert_ne; [done|].
    intros <-. congruence.
Qed.

Definition acct_laws (S : gset Z) (F : list Z) (X : Z -> Prop) (kept : gmap Z amqp_pool_t) : MemLaws memory Z.
Proof.
  refine {| plenty := acct_plenty S F X kept |}.
  - intros p m k k' (Hpl & Ha) Hle. split; [|done]. exact (plenty_mono (MemLaws := sep_laws S F) p m k k' Hpl Hle).
  - apply pool_alloc_zero.
  - intros p m k n. apply acct_plenty_alloc.
  - intros p m k n (Hpl & Ha & Hp) _. destruct (sep_plenty_malloc S F p k m n Hpl) as (b & m' & E & Hpl').
    exists b, m'. split; [done|]. split; [done|]. split; [by eapply accounted_malloc|done].
  - intros p m k b n (Hpl & Ha & Hp) _. simpl. unfold scratch_realloc.
    destruct (sep_plenty_malloc S F p k m n Hpl) as (b' & m' & E & Hpl'). rewrite E. do 2 eexists. split; [done|].
    split; [by apply sep_plenty_free|]. split; [|done]. exact (accounted_malloc _ _ _ _ _ _ _ E Ha).
  - intros p m k b (Hpl & Ha & Hp). split; [by apply sep_plenty_free|by split].
Defined.

(** Without accounts. *)
Lemma clones_unaccounted S F p {A} (m : eff memory A) n a :
  (forall X, Clones (H0 := acct_laws S F X ∅) p m n a) -> Clones (H0 := sep_laws S F) p m n a.
Proof.
  intros Hm k mem Hk Hpl. destruct (Hm (fun b => is_Some (h_live (m_heap mem) !! b)) k mem Hk) as (mem' & E & Hpl' & _).
  - split; [exact Hpl|]. split; [|by apply lookup_empty]. split; [by left|apply map_empty_subseteq].
  - by exists mem'.
Qed.

(** ** The code computes the merge *)

Section Computes.
Context (F : list Z) (X : Z -> Prop) (kept : gmap Z amqp_pool_t).

(** Allocations from any pool of the memory count alike. *)
Lemma clones_pool S p q {A} (m : eff memory A) n a : p ∈ S -> q ∈ S -> kept !! p = None -> kept !! q = None ->
  Clones (H0 := acct_laws S F X kept) p m n a -> Clones (H0 := acct_laws S F X kept) q m n a.
Proof.
  intros Hp Hq Hkp Hkq Hm k mem Hk (Hpl & Ha & _).
  destruct (Hm k mem Hk) as (mem' & E & Hpl' & Ha' & _); [split; [exact (sep_plenty_other S F q p _ mem Hp Hpl)|by split]|].
  exists mem'. split; [done|]. split; [exact (sep_plenty_other S F p q k mem' Hq Hpl')|by split].
Qed.

(** The temporary pool joins the pools of the memory, *)
Lemma put_plenty S p sp k m : sp ∉ S -> kept !! sp = None -> acct_plenty S F X kept p k m ->
  exists m', put_pool_at sp (init_amqp_pool 4096) m = (Ret tt, m') /\ acct_plenty ({[sp]} ∪ S) F X kept p k m'.
Proof.
  intros Hsp Hks ((Hp & Hr & Hm & Hk) & [Hx Hkept] & Hkp). eexists. split; [done|]. split.
  - split; [set_solver|]. split; [done|]. split; [by apply mem_sep_new|]. intros q ql Hq Eq. cbn in Eq. destruct (decide (q = sp)) as [->|Hne].
    + rewrite lookup_insert_eq in Eq. injection Eq as <-. cbn. destruct (sep_pool _ _ _ Hm p Hp) as (pl & E & Hpl).
      destruct (Hk p pl Hp E). pose proof (ok_next _ _ Hpl). lia.
    + rewrite lookup_insert_ne in Eq by done. apply (Hk q); [set_solver|done].
  - split; [|done]. split; [|by apply kept_insert]. intros b Hb. destruct (Hx b Hb) as [?|(q & ql & Hq & Eq & Hin)]; [by left|right].
    exists q, ql. cbn. rewrite lookup_insert_ne by (by intros ->). split; [set_solver|done].
Qed.

(** and leaves them, and none of its blocks stays. *)
Lemma empty_plenty S p sp k m : sp ∉ S -> p ∈ S -> kept !! sp = None -> acct_plenty ({[sp]} ∪ S) F X kept p k m ->
  exists m', on_pool sp empty_amqp_pool m = (Ret tt, m') /\ acct_plenty S F X kept p k m'.
Proof.
  intros Hsp Hp Hks ((_ & Hr & Hm & Hk) & [Hx Hkept] & Hkp). destruct (empty_sep S F m sp Hm Hsp) as (m' & E & Hf & Hm' & Hq).
  exists m'. split; [done|]. split.
  - split; [done|]. split; [destruct Hf as (_ & _ & Hf); congruence|]. split; [done|].
    intros q ql Hin Eq. rewrite Hq in Eq by (by intros ->). apply (Hk q); [set_solver|done].
  - split; [|done]. split.
    + intros b Hb. destruct Hf as (Hf & _). rewrite Hf in Hb. unfold pool_owned in Hb. case_decide as Hin; [by destruct Hb|].
      destruct (Hx b Hb) as [?|(q & ql & Hq1 & Eq & Hin1)]; [by left|right]. exists q, ql.
      destruct (decide (q = sp)) as [->|Hne]; [by rewrite Eq in Hin|]. rewrite Hq by done. split; [set_solver|done].
    + apply map_subseteq_spec. intros q ql Eq. rewrite Hq by (intros ->; congruence). by eapply lookup_weaken.
Qed.

(** A block of code with a temporary pool. *)
Lemma clones_temporary S p sp {A} (m : eff memory A) n a : sp ∉ S -> p ∈ S -> kept !! sp = None ->
  Clones (H0 := acct_laws ({[sp]} ∪ S) F X kept) p m n a ->
  Clones (H0 := acct_laws S F X kept) p
    (do! put_pool_at sp (init_amqp_pool 4096) in
     let! r := try m in
     do! on_pool sp empty_amqp_pool in
     match r with inl st => fail st | inr t => ret t end) n a.
Proof.
  intros Hsp Hp Hks Hm k mem Hk Hpl. destruct (put_plenty S p sp _ mem Hsp Hks Hpl) as (m1 & E1 & Hp1).
  destruct (Hm k m1 Hk Hp1) as (m2 & E2 & Hp2). destruct (empty_plenty S p sp k m2 Hsp Hp Hks Hp2) as (m3 & E3 & Hp3).
  exists m3. split; [|done]. rewrite (bind_step _ _ _ _ _ E1).
  assert (Et : try m m1 = (Ret (inr a), m2)) by (unfold try; by rewrite E2).
  by rewrite (bind_step _ _ _ _ _ Et), (bind_step _ _ _ _ _ E3).
Qed.

Section Level.
Context (merge : amqp_table_t -> amqp_field_value_t -> Z -> eff memory amqp_table_t).
Context (rec : amqp_table_t -> amqp_field_value_t -> amqp_table_t) (cost : amqp_table_t -> amqp_field_value_t -> Z).
Context (base : amqp_table_t).

(** The cost of the recursive calls. *)
Definition loop_cost (add : amqp_table_t) : Z :=
  foldr (fun e n => match e with (key, v) => match both_tables base key v with Some bt => cost bt v | None => 0 end end + n) 0 add.

Definition calls_ok (S : gset Z) (sp : Z) (add : amqp_table_t) : Prop :=
  Forall (fun e => forall bt, both_tables base e.1 e.2 = Some bt ->
            0 <= cost bt e.2 /\ Clones (H0 := acct_laws S F X kept) sp (merge bt e.2 sp) (cost bt e.2) (rec bt e.2)) add.

Lemma loop_cost_nonneg S sp add : calls_ok S sp add -> 0 <= loop_cost add.
Proof.
  induction 1 as [|[key v] add Hc _ IH]; [done|]. cbn [loop_cost foldr]. fold (loop_cost add).
  destruct (both_tables base key v) as [bt|] eqn:E; [|lia]. destruct (Hc bt E). cbn in *. lia.
Qed.

Lemma clones_loop S sp add : forall acc, good_table base -> good_table add -> NoDup add.*1 -> agrees base acc add -> calls_ok S sp add ->
  Clones (H0 := acct_laws S F X kept) sp (merge_loop merge sp base add acc) (loop_cost add) (merged_into rec base add acc).
Proof.
  induction add as [|[key v] rest IH]; intros acc Hb Hg Hnd Ha Hc; [by apply (clones_ret (H0 := acct_laws S F X kept))|].
  cbn in Hnd. pose proof (agrees_step rec base acc key v rest Hnd Ha) as Ha'.
  assert (Hk : find_key acc key = find_key base key) by (apply Ha; by left).
  apply NoDup_cons in Hnd as [_ Hnd]. apply Forall_cons in Hc as [Hc Hcs], Hg as [[[_ Hv] _] Hg]. cbn in Hc.
  cbn [merge_loop merged_into]. rewrite get_entry_find.
  change (bind (lift_res (Ret ?a)) ?f) with (f a). cbv beta.
  pose proof (loop_cost_nonneg _ _ rest Hcs) as Hn. cbn [loop_cost foldr]. fold (loop_cost rest).
  eapply (clones_bind (H0 := acct_laws S F X kept)); [|exact (IH _ Hb Hg Hnd Ha' Hcs)|done|reflexivity].
  unfold merged_entry. rewrite Hk. unfold both_tables in *. destruct (find_key base key) as [[k0 old]|] eqn:E.
  2:{ by apply (clones_ret (H0 := acct_laws S F X kept)). }
  assert (Ho : fv_ok old) by (destruct (find_key_in _ _ _ E) as [_ Hin]; by apply (proj1 (Forall_forall _ _) Hb _ Hin)).
  destruct ((AMQP_FIELD_KIND_TABLE =? fv_kind v) && (AMQP_FIELD_KIND_TABLE =? fv_kind old)) eqn:Et.
  - destruct v; try done. destruct old; try done. destruct (Hc _ eq_refl) as [H1 H2].
    rewrite get_entry_find, E. change (bind (lift_res (Ret ?a)) ?f) with (f a). cbv beta.
    eapply (clones_bind (H0 := acct_laws S F X kept)); [exact H2|by apply (clones_ret (H0 := acct_laws S F X kept) _ _ 0)|done|lia].
  - destruct v, old; try discriminate Et; by apply (clones_ret (H0 := acct_laws S F X kept)).
Qed.

(** One level of the merge. *)
Lemma clones_merge_tables S p sp add : sp ∉ S -> p ∈ S -> kept !! sp = None -> kept !! p = None ->
  0 < zlen base + zlen add -> good_table base -> good_table add -> NoDup add.*1 ->
  entries_size base + entries_size add < 2 ^ 32 ->
  calls_ok ({[sp]} ∪ S) sp add -> rec_good rec base add ->
  Clones (H0 := acct_laws S F X kept) p (merge_tables merge sp base add p)
    (1 + loop_cost add + zlen (wire_table (merged_into rec base add base))) (merged_into rec base add base).
Proof.
  intros Hsp Hp Hks Hkp Hpos Hb Hg Hnd Hsz Hc Hr.
  pose proof (good_table_len _ Hb) as Hl1. pose proof (good_table_len _ Hg) as Hl2.
  destruct (merged_into_good rec base add base Hb Hg Hnd) as [Hg' Hs']; [by intros k _|done|done|].
  assert (Hok : table_ok (merged_into rec base add base) /\ named_table (merged_into rec base add base))
    by (apply good_table_ok; split; [done|lia]).
  unfold merge_tables. rewrite bool_decide_true by (unfold in_s; lia).
  match goal with |- Clones _ ?m _ _ => change m with
    (do! put_pool_at sp (init_amqp_pool 4096) in
     let! r := try (do! pool_bytes sp (wrap 64 (sizeof layout_amqp_table_entry_t * (zlen base + zlen add))) in
                    let! temp_result := merge_loop merge sp base add base in amqp_table_clone p temp_result) in
     do! on_pool sp empty_amqp_pool in match r with inl st => fail st | inr t => ret t end) end.
  assert (Hp' : p ∈ {[sp]} ∪ S) by set_solver. assert (Hsp' : sp ∈ {[sp]} ∪ S) by set_solver.
  apply clones_temporary; [done..|].
  pose proof (zlen_nonneg (wire_table (merged_into rec base add base))) as Hn1.
  assert (Hn2 : 0 <= loop_cost add) by (by eapply loop_cost_nonneg).
  eapply (clones_bind (H0 := acct_laws ({[sp]} ∪ S) F X kept) p _ _ 1 (loop_cost add + zlen (wire_table (merged_into rec base add base)))); [| |lia|lia].
  - apply (clones_pool ({[sp]} ∪ S) sp p); [done..|]. apply (clones_pool_bytes (H0 := acct_laws ({[sp]} ∪ S) F X kept)).
    assert (sizeof layout_amqp_table_entry_t = 40) as -> by reflexivity. rewrite wrap_small by (unfold in_u; lia). lia.
  - eapply (clones_bind (H0 := acct_laws ({[sp]} ∪ S) F X kept)); [| |exact Hn1|reflexivity].
    + apply (clones_pool ({[sp]} ∪ S) sp p); [done..|].
      apply clones_loop; [done..|by intros k _|done].
    + apply (clones_table (H0 := acct_laws ({[sp]} ∪ S) F X kept)); apply Hok.
Qed.
End Level.
End Computes.

Lemma merge_cost_nonneg add : forall base, 0 <= merge_cost base add.
Proof.
  revert add. apply (fv_ind (fun add => forall base, 0 <= merge_cost base add)); [by intros []|done|].
  intros l IH base. cbn [merge_cost].
  enough (0 <= loop_cost merge_cost base l)
    by (pose proof (zlen_nonneg (wire_table (merged base (FV_TABLE l)))); unfold loop_cost in *; lia).
  induction IH as [|[key v] l Hv _ IHl]; [done|]. unfold loop_cost in *. cbn [foldr].
  destruct (both_tables base key v) as [bt|]; [|lia]. specialize (Hv bt). cbn in Hv. lia.
Qed.

(** The addresses of the local variables are below those of every pool. *)
Definition below (sp : Z) (S : gset Z) : Prop := forall q, q ∈ S -> sp < q.

Lemma below_not sp S : below sp S -> sp ∉ S.
Proof. intros Hb Hin. specialize (Hb sp Hin). lia. Qed.

Lemma below_next sp S : below sp S -> below (sp - 1) ({[sp]} ∪ S).
Proof. intros Hb q [->%elem_of_singleton|Hq]%elem_of_union; [lia|]. specialize (Hb q Hq). lia. Qed.

Lemma clones_merge_value F X kept add : forall S p sp base t,
  add = FV_TABLE t -> below sp S -> below sp (dom kept) -> p ∈ S -> kept !! p = None -> mergeable base add -> good_table base -> good_table t ->
  entries_size base + entries_size t < 2 ^ 32 ->
  Clones (H0 := acct_laws S F X kept) p (merge_value sp base add p) (merge_cost base add) (merged base add).
Proof.
  revert add. apply (fv_ind (fun add => forall S p sp base t,
    add = FV_TABLE t -> below sp S -> below sp (dom kept) -> p ∈ S -> kept !! p = None -> mergeable base add -> good_table base -> good_table t ->
    entries_size base + entries_size t < 2 ^ 32 ->
    Clones (H0 := acct_laws S F X kept) p (merge_value sp base add p) (merge_cost base add) (merged base add)));
    [by intros []|done|].
  intros l IH S p sp base t [= <-] Hsp Hsk Hp Hkp (Hpos & Hnd & Hm) Hb Hl Hs.
  assert (Hks : kept !! sp = None) by (by apply not_elem_of_dom, below_not). rewrite allP_Forall in Hm.
  assert (Hsub : forall key v bt, (key, v) ∈ l -> both_tables base key v = Some bt ->
            exists t, v = FV_TABLE t /\ mergeable bt v /\ good_table bt /\ good_table t /\ entries_size bt + entries_size t < 2 ^ 32).
  { intros key v bt Hin Eb. assert (exists t, v = FV_TABLE t) as [t ->].
    { unfold both_tables in Eb. destruct (find_key base key) as [[? []]|]; try done. destruct v; try done. by eexists. }
    exists t. split; [done|]. split; [|by apply (nested_tables base l key t bt)].
    pose proof (proj1 (Forall_forall _ _) Hm _ Hin) as H1. cbn in H1. by rewrite Eb in H1. }
  apply (clones_merge_tables F X kept (merge_value (sp - 1)) merged merge_cost base); [by apply below_not|done..| |].
  - apply Forall_forall. intros [key v] Hin bt Eb. split; [apply merge_cost_nonneg|].
    destruct (Hsub key v bt Hin Eb) as (t & Ev & H1 & H2 & H3 & H4).
    apply (proj1 (Forall_forall _ _) IH _ Hin ({[sp]} ∪ S) sp (sp - 1) bt t); [done|by apply below_next|intros q Hq; specialize (Hsk q Hq); lia|set_solver|done..].
  - apply Forall_forall. intros [key v] Hin. destruct v; try done. destruct (find_key base key) as [[k0 []]|] eqn:E; try done.
    destruct (Hsub key (FV_TABLE entries) entries0 Hin) as (t & [= ->] & H1 & H2 & H3 & H4); [unfold both_tables; by rewrite E|].
    by apply (merged_good (FV_TABLE t) entries0 t).
Qed.

Lemma clones_merge F add S p sp base t :
  add = FV_TABLE t -> below sp S -> p ∈ S -> mergeable base add -> good_table base -> good_table t ->
  entries_size base + entries_size t < 2 ^ 32 ->
  Clones (H0 := sep_laws S F) p (merge_value sp base add p) (merge_cost base add) (merged base add).
Proof.
  intros E Hsp Hp Hm Hb Ht Hs. apply clones_unaccounted. intros X. apply (clones_merge_value F X ∅ add S p sp base t); try done.
Qed.

(** C38: [amqp_merge_capabilities] computes the merge: given room in the memory's pools,
    it returns [merged], leaves every pool in order and all but the one it was given
    unchanged, and releases its temporary pools: a block that is live afterwards was live
    before, or belongs to the pool it was given.  In the result a key of [add] has its
    value there, or the merge of the two tables when both hold tables; any other key has
    its value in [base]; the keys of [base] come first, in their order, then the new
    ones. *)
Theorem merge_capabilities_merges S F p sp base add m :
  table_ok base -> named_table base -> table_ok add -> named_table add -> mergeable base (FV_TABLE add) ->
  entries_size base + entries_size add < 2 ^ 32 ->
  below sp S -> sep_plenty S F p (merge_cost base (FV_TABLE add)) m ->
  let result := merged base (FV_TABLE add) in
  (exists m' pl, amqp_merge_capabilities sp base (Some add) p m = (Ret result, m') /\ sep_plenty S F p 0 m' /\
     m_pools m' !! p = Some pl /\
     (forall q, q ∈ S -> q <> p -> m_pools m' !! q = m_pools m !! q) /\
     (forall b, is_Some (h_live (m_heap m') !! b) -> is_Some (h_live (m_heap m) !! b) \/ b ∈ owned pl)) /\
  (forall key, find_key result key =
     match find_key add key with
     | Some (_, v) => Some (key, merged_value merged base key v)
     | None => find_key base key
     end) /\
  result.*1 = base.*1 ++ filter (fun k => k ∉ base.*1) add.*1.
Proof.
  intros Hb1 Hb2 Ha1 Ha2 Hm Hs Hsp Hp result. pose proof Hm as (_ & Hnd & _).
  destruct (proj1 (good_table_ok base) (conj Hb1 Hb2)) as [Hb _]. destruct (proj1 (good_table_ok add) (conj Ha1 Ha2)) as [Ha _].
  split; [|split].
  - set (X := fun b => is_Some (h_live (m_heap m) !! b)). set (kept := filter (fun x => x.1 ∈ S /\ x.1 <> p) (m_pools m)).
    assert (Hsub : kept ⊆ m_pools m) by apply map_filter_subseteq.
    assert (Hkp : kept !! p = None) by (apply map_lookup_filter_None; right; cbn; intros ? _ [_ Hne]; by apply Hne).
    assert (Hsk : below sp (dom kept)).
    { intros q [ql Hq%map_lookup_filter_Some]%elem_of_dom. apply Hsp, Hq. }
    destruct (clones_merge_value F X kept (FV_TABLE add) S p sp base add eq_refl Hsp Hsk ltac:(apply Hp) Hkp Hm Hb Ha Hs 0 m)
      as (m' & E & Hp' & [Hx Hk'] & _).
    { done. }
    { split; [exact Hp|]. split; [|done]. split; [by left|done]. }
    destruct (sep_pool S F m' ltac:(apply Hp') p ltac:(apply Hp')) as (pl & Epl & _). exists m', pl.
    assert (Hq : forall q, q ∈ S -> q <> p -> m_pools m' !! q = m_pools m !! q).
    { intros q Hq Hne. destruct Hp as (_ & _ & Hm0 & _). destruct (sep_pool _ _ _ Hm0 q Hq) as (ql & Eq & _). rewrite Eq.
      eapply lookup_weaken; [|exact Hk']. by apply map_lookup_filter_Some. }
    split; [exact E|]. split; [exact Hp'|]. split; [done|]. split; [done|].
    intros b Hb'. destruct (Hx b Hb') as [?|(q & ql & HqS & Eq & Hin)]; [by left|].
    destruct (decide (q = p)) as [->|Hne]; [right; congruence|left]. rewrite Hq in Eq by done.
    destruct Hp as (_ & _ & Hm0 & _). destruct (sep_pool _ _ _ Hm0 q HqS) as (ql' & Eq' & Hok). rewrite Eq in Eq'. injection Eq' as <-.
    by apply (ok_live _ _ Hok).
  - intros key. by apply find_merged_into.
  - by apply merged_into_keys.
Qed.

(** The tables of [tests/test_merge_capabilities.c]. *)
Definition entry (k : String.string) (v : amqp_field_value_t) : amqp_table_entry_t := (bytes_of k, v).
Definition utf8 (s : String.string) : amqp_field_value_t := FV_UTF8 (bytes_of s).
Definition demo_base : amqp_table_t :=
  [entry "product" (utf8 "1.0"); entry "nooverride" (utf8 "yeah"); entry "props" (FV_TABLE [entry "foo" (utf8 "bar")])].
Definition demo_add : amqp_table_t :=
  [entry "bool_entry" (FV_BOOLEAN 1); entry "product" (utf8 "2.0");
   entry "props" (FV_TABLE [entry "something" (utf8 "else"); entry "foo" (utf8 "baz")])].
Definition demo_expect : amqp_table_t :=
  [entry "product" (utf8 "2.0"); entry "nooverride" (utf8 "yeah");
   entry "props" (FV_TABLE [entry "foo" (utf8 "baz"); entry "something" (utf8 "else")]); entry "bool_entry" (FV_BOOLEAN 1)].

Example demo_merged : merged demo_base (FV_TABLE demo_add) = demo_expect.
Proof. vm_compute. reflexivity. Qed.

Example merge_capabilities_merges_witness :
  let result := merged demo_base (FV_TABLE demo_add) in
  (exists m' pl, amqp_merge_capabilities (-1) demo_base (Some demo_add) 1 two_pools = (Ret result, m') /\
     sep_plenty {[1; 2]} [] 1 0 m' /\ m_pools m' !! 1 = Some pl /\
     (forall q, q ∈ ({[1; 2]} : gset Z) -> q <> 1 -> m_pools m' !! q = m_pools two_pools !! q) /\
     (forall b, is_Some (h_live (m_heap m') !! b) -> is_Some (h_live (m_heap two_pools) !! b) \/ b ∈ owned pl)) /\
  (forall key, find_key result key =
     match find_key demo_add key with
     | Some (_, v) => Some (key, merged_value merged demo_base key v)
     | None => find_key demo_base key
     end) /\
  result.*1 = demo_base.*1 ++ filter (fun k => k ∉ demo_base.*1) demo_add.*1.
Proof.
  apply (merge_capabilities_merges {[1; 2]} [] 1 (-1) demo_base demo_add two_pools).
  - split; [|by vm_compute]. repeat split; vm_compute; auto.
  - repeat split; by vm_compute.
  - split; [|by vm_compute]. repeat split; vm_compute; auto.
  - repeat split; by vm_compute.
  - repeat split; try (apply (bool_decide_unpack _); vm_compute; exact I); by vm_compute.
  - by vm_compute.
  - intros q Hq. apply elem_of_union in Hq. rewrite !elem_of_singleton in Hq. lia.
  - split; [set_solver|]. split; [done|]. split; [apply two_pools_sep|]. intros q ql _.
    assert (Hc : merge_cost demo_base (FV_TABLE demo_add) <= INT_MAX) by (by vm_compute).
    unfold two_pools. cbn [m_pools]. rewrite !lookup_insert_Some, lookup_empty.
    intros [[_ <-]|[_ [[_ <-]|[_ ?]]]]; [exact (conj Hc Hc)|exact (conj Hc Hc)|done].
Defined.
