(* ===== verification/HandshakeSpec.v ===== *)
(** * The handshake: a whole login

    [amqp_login_with_properties] on a new connection with a peer that follows the
    protocol: what the two sides say in turn, the invariant of the connection between
    two turns, and that the call ends with the connection tuned and open. *)

From Stdlib Require Import String.
From S2P Require Import Prelude Status Memory Layout Pool PoolMem PoolSep Codec Table TableSpec TableOps MethodCodec.
From S2P Require Import MethodTypes MethodDecode MethodEncode MethodSpec Properties PropertiesSpec.
From S2P Require Import Connection ConnectionSpec FrameSpec Time Net ConnState LifeSpec Socket QueueSpec SocketSpec RecvSpec.
From S2P Require Import Rpc RpcSpec Consumer Login LoginSpec MergeSpec.

Local Open Scope list_scope.
Local Open Scope Z_scope.

(** ** The first frame

    In the state of a new connection eight bytes are collected and seven are kept; the
    eighth byte of the frame is what the new region holds there. *)

Section First.
Context `{Host}.
Context (garbage : addr -> Z -> list byte) (uninit : amqp_basic_properties_t).
Hypothesis Hgarbage : forall a n, 0 <= n -> zlen (garbage a n) = n.
Hypothesis Hzero : forall a n, 8 < n -> garbage a n !! 7%nat = Some x00.
Context `{Laws : !MemLaws memory Z}.

(** Making the pool of the channel comes before anything else. *)
Lemma header_makes_pool ch raw c f d p t m s :
  in_u 16 ch -> at_off raw 1 (be_bytes 2 ch) ->
  amqp_get_or_create_channel_pool (c_frame_max c) ch (c_pool_table c, c_mem c) = (Ret (Some p), (t, m)) ->
  amqp_get_channel_pool t ch = Some p ->
  handle_header garbage raw (mk_input (set_pools c t m) f d) = (Ret tt, s) ->
  handle_header garbage raw (mk_input c f d) = (Ret tt, s).
Proof.
  intros Hch Hat Ec Ep. unfold handle_header, raw_d16.
  rewrite !(bind_step _ _ _ _ _ (raw_read_at 2 2 _ raw 1 ch _ Hat eq_refl amqp_d16_network Hch)).
  unfold raw_d32, raw_read. destruct (load raw 3 4) as [bs|]; [|done].
  change (bind (ret ?v) ?k ?s) with (k v s). cbv beta. destruct (INT32_MAX <=? amqp_d32 bs); [done|].
  change (bind get_conn ?k ?s) with (k (i_conn s) s). cbv beta. cbn [i_conn].
  change (bind (put_conn ?c) ?k (mk_input ?c0 f d)) with (k tt (mk_input c f d)). cbv beta.
  change (c_frame_max (set_pools c t m)) with (c_frame_max c). destruct (wrap 64 (c_frame_max c) <? _); [done|].
  set (size := wrap 32 (amqp_d32 bs + HEADER_SIZE + FOOTER_SIZE)).
  assert (E1 : channel_pool ch (mk_input (set_target (set_pools c t m) size) f d) = (Ret p, mk_input (set_target (set_pools c t m) size) f d))
    by by apply channel_pool_found.
  assert (E2 : channel_pool ch (mk_input (set_target c size) f d) = (Ret p, mk_input (set_target (set_pools c t m) size) f d)).
  { unfold channel_pool. cbn [i_conn c_frame_max c_pool_table c_mem set_target i_frame i_data]. by rewrite Ec. }
  by rewrite (bind_step _ _ _ _ _ E1), (bind_step _ _ _ _ _ E2).
Qed.

(** No frame begins like a protocol header. *)
Lemma frame_no_magic f : frame_ok f -> ztake 4 (ztake 8 (wire_frame f)) <> [x41; x4d; x51; x50].
Proof.
  intros [_ Hok]. assert (Ht : frame_type f ∈ [1; 2; 3; 8]).
  { destruct (payload f); destruct_and?; rewrite ?Hok; subst; elems; tauto. }
  unfold wire_frame, frame_bytes. elems. destruct_or?; try done; match goal with E : frame_type f = _ |- _ => rewrite E end; by intros [=].
Qed.

Lemma initial_header n c f0 d f :
  header_ready c -> c_state c = CONNECTION_STATE_INITIAL -> frame_ok f -> c_header_buffer c = ztake 8 (wire_frame f) ->
  handle_frame garbage uninit n (mk_input c f0 d) = header_case garbage uninit (c_header_buffer c) n (mk_input c f0 d).
Proof.
  intros (Hb & Hh & _) Hs Hok Ehb. unfold HEADER_SIZE in Hh. pose proof (frame_no_magic f Hok) as Hm. rewrite <- Ehb in Hm.
  unfold handle_frame, raw_frame, get_conn, inbound_bytes. unfold bind at 1 2 3. cbn [i_conn].
  rewrite Hb. cbn [ret i_conn]. rewrite Hs. unfold handle_initial. rewrite load_fits by lia.
  by rewrite bool_decide_false.
Qed.

Lemma eighth_kept (g W : list byte) b :
  8 < zlen W -> zlen g = zlen W -> g !! 7%nat = Some b -> W !! 7%nat = Some b ->
  let r := splice g 0 (ztake 7 (ztake 8 W)) in zlen r = zlen W /\ ztake 8 r = ztake 8 W.
Proof.
  intros Hl Hg Hg7 HW7 r. assert (E7 : ztake 7 (ztake 8 W) = ztake 7 W) by (unfold ztake; by rewrite take_take).
  pose proof (zlen_ztake 7 W ltac:(lia)) as Hz. unfold r. rewrite E7. split; [rewrite zlen_splice; lia|].
  unfold splice. rewrite Hz. change (ztake 0 g) with (@nil byte). rewrite app_nil_l. rewrite ztake_app_ge by lia. rewrite Hz.
  unfold ztake, zdrop. change (Z.to_nat 8) with 8%nat. change (Z.to_nat 7) with 7%nat. change (Z.to_nat (8 - 7)) with 1%nat.
  change (Z.to_nat (0 + 7)) with 7%nat. rewrite (take_S_r W 7 b HW7). f_equal. by rewrite (drop_S g b 7 Hg7).
Qed.

Lemma first_received f c f0 p t m :
  let W := wire_frame f in
  conn_ok c -> c_state c = CONNECTION_STATE_INITIAL -> c_inbound_offset c = 0 -> frame_ok f ->
  8 < zlen W <= c_frame_max c -> W !! 7%nat = Some x00 ->
  amqp_get_or_create_channel_pool (c_frame_max c) (channel f) (c_pool_table c, c_mem c) = (Ret (Some p), (t, m)) ->
  amqp_get_channel_pool t (channel f) = Some p -> plenty p (zlen W + 1) m ->
  exists c', amqp_handle_input garbage uninit (mk_input c f0 W) = (Ret (zlen W), mk_input c' (received uninit f) []) /\
    c_state c' = CONNECTION_STATE_IDLE /\ c_frame_max c' = c_frame_max c /\ c_pool_table c' = t /\
    spends p (zlen W + 1) m (c_mem c').
Proof.
  intros W Hc Hs Ho Hok Hfit H7 Ec Ep Hpl. pose proof Hc as (Hh & Hf & Hini). rewrite Hs in Hini. destruct Hini as (Hb & _ & Ht).
  pose proof (zlen_frame_bytes (frame_type f) (channel f) (wire_payload (payload f))) as El.
  fold (wire_frame f) in El. fold W in El. pose proof (zlen_nonneg (wire_payload (payload f))) as Hn0.
  unfold HEADER_SIZE, FOOTER_SIZE in *.
  rewrite handle_input_gather; [|by apply conn_ok_roomy|intros E; rewrite E in El; change (zlen []) with 0 in El; lia].
  unfold awake. rewrite Hs, bool_decide_false by done.
  assert (Hr : room c = 8) by (unfold room; rewrite Ht, Ho; done).
  assert (Hw : waiting c).
  { unfold waiting, HEADER_SIZE. rewrite Hb, Ho, Ht. repeat split; try (done || lia). by right. }
  rewrite gather_full; [|by apply waiting_roomy|lia].
  rewrite Hr. pose proof (zlen_ztake 8 W ltac:(lia)) as Hz. pose proof (zlen_zdrop 8 W ltac:(lia)) as Hz'.
  pose proof (waiting_full c (ztake 8 W) Hw ltac:(lia)) as Hready.
  destruct (filled_header c (ztake 8 W) Hb) as (E1 & E2 & E3).
  destruct (filled_fields c (ztake 8 W)) as (E4 & E5 & E6 & E7 & E8). set (c2 := filled c _) in *. rewrite Ho in E2, E3.
  assert (Ehb : c_header_buffer c2 = ztake 8 W) by (rewrite E2; apply splice_whole; lia). clear E2.
  rewrite (initial_header _ c2 _ _ f Hready) by (done || congruence). unfold header_case. rewrite Ehb.
  assert (Hlead : at_off (ztake 8 W) 0 (be_bytes 1 (frame_type f) ++ be_bytes 2 (channel f) ++ be_bytes 4 (zlen (wire_payload (payload f))))).
  { split; [lia|]. exists [], (ztake 1 (wire_payload (payload f) ++ be_bytes 1 AMQP_FRAME_END)). split; [|done].
    unfold W, wire_frame, frame_bytes. rewrite app_nil_l, !app_assoc, <- (app_assoc _ (wire_payload _)). apply ztake_app_ge. done. }
  pose proof (proj2 (at_off_app _ _ _ _ Hlead)) as [H2 _]%at_off_app. rewrite zlen_be_bytes in H2.
  assert (Hch : in_u 16 (channel f)) by apply Hok.
  destruct (header_found garbage Hgarbage (frame_type f) (channel f) (zlen (wire_payload (payload f))) (set_pools c2 t m) (blank f0)
              (zdrop 8 W) (ztake 8 W) p (zlen W)) as (a & m' & Hm' & Hs1 & E).
  { done. } { unfold in_u. lia. } { done. } { cbn. rewrite Ehb. unfold HEADER_SIZE. lia. } { cbn. by rewrite E6. }
  { cbn. rewrite E6. unfold HEADER_SIZE, FOOTER_SIZE. lia. } { done. } { lia. } { done. }
  rewrite (bind_step _ _ _ _ _ (header_makes_pool _ _ c2 _ _ p t m _ Hch H2 ltac:(by rewrite E6, E7, E8) Ep E)).
  cbn [set_pools c_frame_max c_header_buffer c_inbound_offset c_pool_table c_mem].
  unfold HEADER_SIZE, FOOTER_SIZE in *. rewrite <- El, Ehb, E6, E3, Hz.
  set (b := splice (garbage a (zlen W)) 0 (ztake 7 (ztake 8 W))).
  assert (Hb8 : zlen b = zlen W /\ ztake 8 b = ztake 8 W) by (apply (eighth_kept _ _ x00); [lia|apply Hgarbage; lia|apply Hzero; lia|done]).
  assert (Ho8 : 0 <= 8 < zlen W) by lia.
  rewrite (more_gather garbage); [|eexists; simpl; split; [done|lia]|done].
  match goal with |- context [mk_input ?c3 _ _] =>
    destruct (rest_received_at garbage uninit (size_add 0 8) f c3 (blank f0) a p b 8 Hok (conj (proj2 Hfit) (proj2 Hf)) (proj1 Hb8) Ho8
                (proj2 Hb8) eq_refl eq_refl eq_refl eq_refl Ep Hm') as (c' & Er & Hc' & Hset & Hs2) end.
  exists c'. split; [|split; [done|split; [apply Hset|split; [apply Hset|]]]].
  2:{ rewrite Z.add_comm. eapply spends_trans; [apply zlen_nonneg|exact Hs1|exact Hs2]. }
  etrans; [exact Er|]. do 2 f_equal. fold W. rewrite (size_add_small 0) by lia. rewrite swrap_add; lia.
Qed.
End First.

(** ** A conversation *)

(** What the client sends, and the frame the server sends. *)
Inductive turn : Type :=
| Client (bytes : list byte)
| Server (f : amqp_frame_t).

Section Talk.
Context `{Host} {E : Type} `{Net E} {Th : Then E}.
Context (garbage : addr -> Z -> list byte) (uninit : amqp_basic_properties_t) (fuel : nat).
Hypothesis Hgarbage : forall a n, 0 <= n -> zlen (garbage a n) = n.
Context (L : Z).

(** The socket takes what the client says in its turns, and gives what the server says
    in its own, each in pieces and with waits as it likes, within [fuel] calls. *)
Fixpoint follows (conv : list turn) (e : E) : Prop :=
  match conv with
  | [] => afterwards e
  | Client bytes :: conv' => exists e' n, (n <= fuel)%nat /\ accepts AMQP_SF_NONE e bytes e' n /\ follows conv' e'
  | Server f :: conv' => exists cs n, (2 * n + 2 <= fuel)%nat /\ concat cs = wire_frame f /\ delivers (Th := follows conv') L e cs n
  end.

(** The server's turn. *)
Lemma hears f f0 c' k e conv :
  frame_ok f -> is_heartbeat f = false -> can_recv L k -> window k = [] ->
  expects garbage uninit (k_in k) f0 (wire_frame f) (received uninit f) c' -> follows (Server f :: conv) e ->
  exists b o l e1, let k1 := resume c' b o l k in can_recv L k1 /\ window k1 = [] /\ follows conv e1 /\
    wait_frame_inner garbage uninit fuel f0 amqp_time_infinite (mk_world k e) = (Ret (received uninit f), mk_world k1 e1).
Proof.
  intros [_ Hok] Hhb Hk Hw Hx (cs & n & Hn & Hcs & Hd).
  destruct (wait_until_frame (Th := follows conv) garbage uninit fuel Hgarbage L (2 * n + pending k)%nat n k e cs f0 (wire_frame f) [] _ c'
              ltac:(lia) ltac:(lia) Hd Hk Hx) as (j & b & o & l & e1 & cs1 & n1 & Hj & Hd1 & Hk1 & Hw1 & E1).
  { by rewrite Hw, app_nil_r. }
  assert (Hp : pending k = 0%nat) by (unfold pending; by rewrite decide_True).
  apply app_eq_nil in Hw1 as [Hw1 Hcs1]. destruct (delivers_over (Th := follows conv) L e1 cs1 n1 Hd1 Hcs1) as [-> Hf].
  exists b, o, l, e1. split; [done|]. split; [done|]. split; [exact Hf|]. unfold wait_frame_inner.
  replace fuel with (j + (fuel - j))%nat at 2 by lia. rewrite E1. unfold on_frame.
  change (frame_type (received uninit f)) with (frame_type f). unfold is_heartbeat in Hhb. rewrite Hhb.
  assert (frame_type f <> 0) by (intros Et; by destruct (payload f); destruct_and?; simplify_eq; rewrite Et in *).
  by rewrite (proj2 (Z.eqb_neq _ _)).
Qed.

(** The client's turn. *)
Lemma says f k e conv : can_send k -> frame_ok f -> zlen (wire_frame f) <= b_len (k_outbound k) ->
  follows (Client (wire_frame f) :: conv) e ->
  let k1 := set_outbound (with_frame f (k_outbound k)) k in
  can_send k1 /\ exists e1, follows conv e1 /\
    amqp_send_frame_inner garbage uninit fuel f AMQP_SF_NONE amqp_time_infinite (mk_world k e) = (Ret tt, mk_world k1 e1).
Proof.
  intros Hk Hok Hfit (e1 & n & Hn & Ha & Hf) k1.
  destruct (send_frame_exact garbage uninit fuel k f AMQP_SF_NONE e e1 n Hk Hok Hfit Ha Hn) as [Hk1 E1].
  split; [done|]. by exists e1.
Qed.

Lemma says_header k e conv : k_socket k = true -> follows (Client protocol_header :: conv) e ->
  exists e1, follows conv e1 /\
    ok_or_error (send_header_inner fuel amqp_time_infinite) (mk_world k e) = (Ret tt, mk_world k e1).
Proof.
  intros Hs (e1 & n & Hn & Ha & Hf). exists e1. split; [done|].
  assert (Hn0 : (0 < n)%nat) by (destruct Ha; lia).
  pose proof (try_send_accepts fuel k AMQP_SF_NONE (zlen protocol_header) e protocol_header e1 n Hs Ha ltac:(lia) fuel Hn) as Et.
  unfold ok_or_error, send_header_inner. rewrite bind_assoc. unfold amqp_try_send.
  by rewrite (bind_step _ _ _ _ _ Et).
Qed.
End Talk.

(** ** The connection between two turns *)

Section Session.
Context `{Host} {E : Type} `{Net E} {Th : Then E}.
Context (garbage : addr -> Z -> list byte) (uninit : amqp_basic_properties_t) (heap_garbage : Z -> Z -> list byte) (fuel : nat).
Hypothesis Hgarbage : forall a n, 0 <= n -> zlen (garbage a n) = n.
Hypothesis Hheap : forall b n, 0 <= n -> zlen (heap_garbage b n) = n.
(** The pools of the connection, that of channel 0, the size of the socket buffer. *)
Context (S : gset Z) (p L : Z).

(** Idle, nothing read ahead or queued; frames of up to [N] bytes; room for [B] more
    blocks; the blocks [F] besides the pools'. *)
Record session (F : list Z) (B N : Z) (k : connection) : Prop := {
  ss_ready : ready S F L B [] k;
  ss_send : can_send k;
  ss_window : window k = [];
  ss_pool : amqp_get_channel_pool (k_pool_table k) 0 = Some p;
  ss_max : c_frame_max (k_in k) = N;
  ss_len : b_len (k_outbound k) = N;
}.

(** What the turns themselves leave as it is. *)
Definition settings (k : connection) : Z * Z * amqp_table_t * option amqp_table_t * option Z :=
  (k_self k, k_channel_max k, k_server_properties k, k_client_properties k, b_block (k_outbound k)).

Lemma settings_forgotten k k' : settings k = settings k' ->
  settings (forget_client_properties 0 k) = settings (forget_client_properties 0 k').
Proof. unfold settings. cbn. by intros [= -> -> -> -> ->]. Qed.

Lemma session_mono F B B' N k : session F B N k -> B' <= B -> session F B' N k.
Proof. intros [Hr ? ? ? ? ?] HB. split; try done. by apply (ready_mono _ _ _ _ _ _ _ Hr). Qed.

Lemma session_plenty F B N k : session F B N k -> sep_plenty S F p B (k_mem k).
Proof. intros [[_ _ _ _ Hp Hr Hm Hk] _ _ Ep _ _]. split; [by apply (proj1 Hp) in Ep|]. done. Qed.

Lemma session_mem F B B' N k m : session F B N k -> sep_plenty S F p B' m -> session F B' N (set_mem m k).
Proof. intros [[? ? ? ? ? ? ? ?] ? ? ? ? ?] (_ & ? & ? & ?). by split. Qed.

(** The server's turn. *)
Lemma session_hears F B N k f f0 e conv :
  session F (B + cost f) N k -> 0 <= B -> frame_ok f -> is_heartbeat f = false -> channel f = 0 -> zlen (wire_frame f) <= N ->
  follows fuel L (Server f :: conv) e ->
  exists k1 e1, session F B N k1 /\ settings k1 = settings k /\ follows fuel L conv e1 /\
    wait_frame_inner garbage uninit fuel f0 amqp_time_infinite (mk_world k e) = (Ret (received uninit f), mk_world k1 e1).
Proof.
  intros [Hr Hs Hw Ep HN Hl] HB Hok Hhb Hch Hfit Hf.
  destruct (next_expected garbage uninit Hgarbage S F L f f0 B [] k Hr HB) as (c' & Hx & [Hset1 Hset2] & Hr').
  { split; [done|]. split; [lia|]. rewrite Hch. by eexists. }
  destruct (hears garbage uninit fuel Hgarbage L f f0 c' k e conv Hok Hhb (rd_recv _ _ _ _ _ _ Hr) Hw Hx Hf)
    as (b & o & l & e1 & Hk1 & Hw1 & Hf1 & E1).
  exists (resume c' b o l k), e1. split; [|split; [done|split; [done|exact E1]]].
  split; [by apply Hr'|done|done| |cbn; by rewrite Hset1|done]. unfold k_pool_table in *. cbn. by rewrite Hset2.
Qed.

(** The client's turn. *)
Lemma session_says F B N k f e conv :
  session F B N k -> frame_ok f -> zlen (wire_frame f) <= N -> follows fuel L (Client (wire_frame f) :: conv) e ->
  exists k1 e1, session F B N k1 /\ settings k1 = settings k /\ follows fuel L conv e1 /\
    amqp_send_frame_inner garbage uninit fuel f AMQP_SF_NONE amqp_time_infinite (mk_world k e) = (Ret tt, mk_world k1 e1).
Proof.
  intros [Hr Hs Hw Ep HN Hl] Hok Hfit Hf.
  destruct (says garbage uninit fuel L f k e conv Hs Hok ltac:(lia) Hf) as (Hs1 & e1 & Hf1 & E1).
  eexists _, e1. split; [|split; [|split; [done|exact E1]]]; [|done].
  split; [|done|done|done|done|done]. by destruct Hr.
Qed.

Lemma awaited d ids k w (e : E) :
  queue_of (k_queue k) [] -> frame_ok (method_frame 0 d) -> 0 ∉ ids -> method_id d ∈ ids ->
  wait_frame_inner garbage uninit fuel uninit_frame amqp_time_infinite (mk_world k e) = (Ret (received uninit (method_frame 0 d)), w) ->
  amqp_simple_wait_method_list garbage uninit fuel 0 (ids ++ [0]) amqp_time_infinite (mk_world k e) = (Ret (method_id d, Some d), w).
Proof.
  intros Hq Hok Hids Hd E1. unfold amqp_simple_wait_method_list.
  assert (Et : tv_until amqp_time_infinite (mk_world k e) = (Ret None, mk_world k e)) by done.
  rewrite (bind_step _ _ _ _ _ Et). pose proof (simple_wait_queue garbage uninit fuel k e uninit_frame [] Hq) as Eq.
  cbv beta iota in Eq. unfold amqp_simple_wait_frame in Eq. rewrite E1 in Eq. rewrite (bind_step _ _ _ _ _ Eq).
  change (negb _ || negb _) with false. cbv iota. unfold bind at 1, lift_res at 1. cbn [frame_method received payload method_frame].
  unfold bind, lift_res. cbn [fst]. by rewrite (reply_list_spec ids _ Hids), bool_decide_true.
Qed.

(** The server sends a method the client waits for. *)
Lemma session_awaits F B N k d ids e conv :
  let f := method_frame 0 d in
  session F (B + cost f) N k -> 0 <= B -> frame_ok f -> zlen (wire_frame f) <= N -> 0 ∉ ids -> method_id d ∈ ids ->
  follows fuel L (Server f :: conv) e ->
  exists k1 e1, session F B N k1 /\ settings k1 = settings k /\ follows fuel L conv e1 /\
    amqp_simple_wait_method_list garbage uninit fuel 0 (ids ++ [0]) amqp_time_infinite (mk_world k e)
    = (Ret (method_id d, Some d), mk_world k1 e1).
Proof.
  intros f Hk HB Hok Hfit Hids Hd Hf.
  destruct (session_hears F B N k f uninit_frame e conv Hk HB Hok eq_refl eq_refl Hfit Hf) as (k1 & e1 & Hk1 & Hset & Hf1 & E1).
  exists k1, e1. split; [done|]. split; [done|]. split; [done|].
  apply awaited; [by apply Hk|done..].
Qed.

(** The client asks and the server answers. *)
Lemma session_calls F B N k request d ids e conv :
  let f := method_frame 0 d in
  session F (B + cost f) N k -> 0 <= B -> frame_ok (method_frame 0 request) -> zlen (wire_frame (method_frame 0 request)) <= N ->
  frame_ok f -> zlen (wire_frame f) <= N -> 0 ∉ ids -> method_id d ∈ ids ->
  follows fuel L (Client (wire_frame (method_frame 0 request)) :: Server f :: conv) e ->
  exists k1 e1, session F B N k1 /\ settings k1 = settings k /\ follows fuel L conv e1 /\
    simple_rpc_inner garbage uninit fuel 0 (method_id request) (ids ++ [0]) request amqp_time_infinite (mk_world k e)
    = (Ret (mk_rpc_reply AMQP_RESPONSE_NORMAL (method_id d, Some d) 0), mk_world k1 e1).
Proof.
  intros f Hk HB Hrok Hrfit Hok Hfit Hids Hd Hf.
  destruct (session_says F _ N k _ e _ Hk Hrok Hrfit Hf) as (k0 & e0 & Hk0 & Hset0 & Hf0 & E0).
  destruct (session_hears F B N k0 f uninit_frame e0 conv Hk0 HB Hok eq_refl eq_refl Hfit Hf0) as (k1 & e1 & Hk1 & Hset1 & Hf1 & E1).
  exists k1, e1. split; [done|]. split; [congruence|]. split; [done|]. unfold simple_rpc_inner.
  assert (Es : status (amqp_send_method garbage uninit fuel 0 (method_id request) request) (mk_world k e)
               = (Ret AMQP_STATUS_OK, mk_world k0 e0)).
  { unfold status, amqp_send_method, amqp_send_method_inner. fold (method_frame 0 request). by rewrite E0. }
  rewrite (bind_step _ _ _ _ _ Es). change (AMQP_STATUS_OK <? 0) with false. cbv iota.
  destruct Hf0 as (cs & n & Hn & _). destruct fuel as [|fu] eqn:Efu; [lia|]. cbn [rpc_loop]. rewrite <- Efu in *. rewrite E1.
  pose proof (answers_spec uninit 0 ids f Hok Hids) as Ha. rewrite bool_decide_true in Ha by (left; split; [done|by left]).
  unfold bind at 1, lift_res at 1. rewrite Ha. cbn [negb]. unfold bind at 1, lift_res at 1. cbn [frame_method received payload f method_frame].
  unfold bind, lift_res. cbn [fst]. by rewrite (reply_list_spec ids _ Hids), bool_decide_true.
Qed.

(** Releasing the buffers of channel 0 takes the client properties with them. *)
Lemma session_releases F B N k (e : E) :
  session F B N k -> 0 <= B ->
  exists k1, session F B N k1 /\ settings k1 = settings (forget_client_properties 0 k) /\
    on_k amqp_release_buffers (mk_world k e) = (Ret tt, mk_world k1 e).
Proof.
  intros [[Hk Hc Hi Hq Hp Hr Hm Hroom] Hs Hw Ep HN Hl] HB.
  destruct (amqp_release_spec S F [] k Hq Hm Hp Hi)
    as (k1 & E1 & (Hq1 & Hm1 & Ht & _ & _ & Hroom1 & Hr1 & q & m & c & -> & _) & HD).
  destruct (pool_entry _ _ _ Ep) as (i & l & El & Hin).
  destruct (HD i l (0, p) El Hin) with (p := p) as [_ Hcp]; [by intros (f & Hf%elem_of_nil & _)|done|]. specialize (Hcp eq_refl).
  eexists. split; [|split; [|unfold on_k; cbn [w_k w_e]; by rewrite E1]].
  - split; [|done|done|done|done|done]. split; try done; [by rewrite Hr1|by apply Hroom1].
  - unfold settings in *. cbn in *. by rewrite Hcp.
Qed.

Lemma realloc_moves b n m m1 : h_refuse (m_heap m) = [] ->
  on_m_heap (free b) (set_heap m (with_block (m_heap m) n)) = (Ret tt, m1) ->
  on_m_heap (realloc b n) m = (Ret (Some (h_next (m_heap m))), m1).
Proof.
  intros Hr. unfold on_m_heap, realloc, malloc, with_block, bind. cbn [set_heap m_heap]. rewrite Hr. cbn [tail].
  destruct (free b _) as [[[]| | |] h']; intros [= <-]. done.
Qed.

(** The limits change: another output buffer takes the place of the block [b]. *)
Lemma session_tunes b F B N N' ch k (e : E) :
  session (b :: F) B N k -> b_block (k_outbound k) = Some b -> b ∉ F -> 0 <= N' <= 2 ^ 30 ->
  exists k1 b1, session (b1 :: F) B N' k1 /\
    settings k1 = (k_self k, ch, k_server_properties k, k_client_properties k, Some b1) /\
    amqp_tune_connection heap_garbage ch N' 0 (mk_world k e) = (Ret tt, mk_world k1 e).
Proof.
  intros [[Hk Hc Hi Hq Hp Hr Hm Hroom] (Hs & Hh & _) Hw Ep HN _] Hb HbF HN'.
  assert (El : wrap 64 N' = N') by (apply wrap_small; unfold in_u; lia).
  set (b1 := h_next (m_heap (k_mem k))).
  destruct (free_sep S (b1 :: F) (set_heap (k_mem k) (with_block (m_heap (k_mem k)) N')) b) as (m1 & Ef & (_ & _ & Hr1) & Hm1 & Hp1).
  { eapply mem_sep_mono; [exact (mem_sep_block S (b :: F) (k_mem k) N' Hm)|done|]. intros c. elems. tauto. }
  { intros [Hbb|?]%elem_of_cons; [|done]. destruct (sep_fixed _ _ _ Hm b ltac:(elems; by left)) as [s Es].
    apply (sep_heap _ _ _ Hm) in Es. unfold b1 in Hbb. lia. }
  cbn [set_heap m_heap with_block h_refuse m_pools] in Hr1, Hp1.
  set (k0 := set_mem m1 (set_in (set_frame_max (k_in k) N') (set_channel_max ch k))).
  set (k1 := set_outbound (mk_buffer N' (Some b1) (heap_garbage b1 N')) (set_hb no_heartbeats k0)).
  exists k1, b1. split; [|split; [done|]].
  - pose proof (Hheap b1 N' ltac:(lia)) as Hlen. split; [| |done|done|done|done].
    + destruct Hk as (? & ? & ?). split; try done.
      * destruct Hc as (? & _ & Hst). split; [done|]. split; [cbn; lia|]. cbn. by rewrite Hi in *.
      * cbn. rewrite Hr1, Hr. done.
      * intros q ql Hq' Eq. cbn in Eq. rewrite Hp1 in Eq. by apply (Hroom q).
    + repeat split; [done|cbn; lia|cbn; lia].
  - unfold amqp_tune_connection. change (bind get_k ?c ?w) with (c (w_k w) w). cbv beta. cbn [w_k].
    rewrite Hi, bool_decide_true by done. cbn [negb].
    repeat (change (bind (modify_k ?f) ?c (mk_world ?k e)) with (c tt (mk_world (f k) e)); cbv beta).
    match goal with |- bind _ ?c (mk_world ?k e) = _ => rewrite (bind_step _ c _ _ _ (send_heartbeat_off k e eq_refl)) end.
    match goal with |- bind _ ?c (mk_world ?k e) = _ => rewrite (bind_step _ c _ _ _ (recv_heartbeat_off k e eq_refl)) end.
    change (bind (modify_k ?f) ?c (mk_world ?k e)) with (c tt (mk_world (f k) e)). cbv beta zeta.
    match goal with |- bind (on_k (on_mem (on_m_heap (realloc_ptr ?a ?n)))) ?c (mk_world ?C e) = _ =>
      change a with (b_block (k_outbound k)); change (k_mem C) with (k_mem k);
      assert (Eb : on_k (on_mem (on_m_heap (realloc_ptr (b_block (k_outbound k)) n))) (mk_world C e)
              = (Ret (Some b1), mk_world (set_mem m1 C) e)) end.
    { unfold on_k, on_mem. cbn [w_k w_e]. change (k_mem _) with (k_mem k). rewrite Hb, El. cbn [realloc_ptr].
      by rewrite (realloc_moves b N' (k_mem k) m1 Hr Ef). }
    rewrite (bind_step _ _ _ _ _ Eb), El. done.
Qed.

(** ** The steps of a login *)

Context (AMQ_PLATFORM : string) (sp : Z).
Hypothesis Hsp : below sp S.

Lemma session_properties F B N k t : session F B N k ->
  session F B N (set_server_properties t k) /\ session F B N (set_client_properties (Some t) k).
Proof. intros [[? ? ? ? ? ? ? ?] ? ? ? ? ?]. by split. Qed.

(** The answer of the client to the mechanism. *)
Definition sasl_answer (sasl_method : amqp_sasl_method_enum) (vl : list amqp_bytes_t) : option (list byte) :=
  match sasl_method, vl with
  | AMQP_SASL_METHOD_PLAIN, username :: password :: _ => Some ([x00] ++ username ++ [x00] ++ password)
  | AMQP_SASL_METHOD_EXTERNAL, identity :: _ => Some identity
  | _, _ => None
  end.

Lemma sasl_answered F B m sasl_method vl r :
  sasl_answer sasl_method vl = Some r -> r <> [] -> zlen r < 2 ^ 32 -> sep_plenty S F p (B + 1) m -> 0 <= B ->
  exists m1, sasl_response p sasl_method vl m = (Ret (Some r), m1) /\ sep_plenty S F p B m1.
Proof.
  intros Hr Hne Hl Hm HB. assert (Hpos : 0 < zlen r) by (destruct r; [done|rewrite zlen_cons; pose proof (zlen_nonneg r); lia]).
  destruct (sep_plenty_alloc S F p B m (zlen r) Hm HB ltac:(lia)) as (a & m1 & E1 & Hm1). exists m1. split; [|done].
  unfold sasl_response. destruct sasl_method, vl as [|u [|pw vl]]; try done; injection Hr as <-;
    change (pool_alloc ?p ?n ?m) with (mem_pool_alloc p n m); [|by rewrite E1..].
  revert Hl E1. rewrite !zlen_cons, zlen_app, zlen_cons. zlen_pos. intros Hl E1. rewrite !size_add_small; [|lia..|].
  - replace (zlen u + zlen pw + 2) with (1 + (zlen u + (1 + zlen pw))) by lia. by rewrite E1.
  - rewrite size_add_small; lia.
Qed.

Lemma default_table_named t : default_table AMQ_PLATFORM = Ret t -> named_table t.
Proof.
  unfold default_table, amqp_table_construct_utf8_entry. destruct (cstring (c_str AMQ_PLATFORM)) as [v| | |]; [|by vm_compute..].
  vm_compute. intros [= <-]. repeat split; done.
Qed.

(** An operation on the memory that spends some of the room. *)
Lemma session_clones {A} F B n N k (e : E) q (m : eff memory A) (a : A) :
  session F (B + n) N k -> 0 <= B -> q ∈ S -> Clones (H0 := sep_laws S F) q m n a ->
  exists m1, session F B N (set_mem m1 k) /\ on_memory m (mk_world k e) = (Ret a, mk_world (set_mem m1 k) e).
Proof.
  intros Hk HB Hq Hm. pose proof (session_plenty _ _ _ _ Hk) as Hpl.
  destruct (Hm B (k_mem k) HB (sep_plenty_other S F p q _ _ Hq Hpl)) as (m1 & E1 & Hm1).
  exists m1. split; [|unfold on_memory, on_k, on_mem; cbn [w_k w_e]; by rewrite E1].
  apply (session_mem F (B + n) B N k m1 Hk). by apply (sep_plenty_other S F q p); [apply Hpl|].
Qed.

Definition start_ok (properties : amqp_table_t) (mechanism response : list byte) : method_t :=
  M_connection_start_ok (mk_connection_start_ok properties mechanism response (bytes_of "en_US")).

(** After [connection.start]: the answer with the merged properties. *)
Lemma session_starts F B N k0 e0 k e s base add sasl_method vl mechanism response conv :
  let properties := merged base (FV_TABLE add) in
  let answer := method_frame 0 (start_ok properties mechanism response) in
  amqp_simple_wait_method_list garbage uninit fuel 0 ([AMQP_CONNECTION_START_METHOD] ++ [0]) amqp_time_infinite (mk_world k0 e0)
    = (Ret (AMQP_CONNECTION_START_METHOD, Some (M_connection_start s)), mk_world k e) ->
  session F (B + merge_cost base (FV_TABLE add) + 1 + zlen (wire_table (connection_start_server_properties s))) N k -> 0 <= B ->
  k_self k ∈ S -> connection_start_version_major s = 0 -> connection_start_version_minor s = 9 ->
  table_ok (connection_start_server_properties s) -> named_table (connection_start_server_properties s) ->
  sasl_method_name sasl_method = Ret mechanism -> mechanism ∈ words [] (connection_start_mechanisms s) ->
  sasl_answer sasl_method vl = Some response -> response <> [] -> zlen response < 2 ^ 32 ->
  default_table AMQ_PLATFORM = Ret base -> table_ok base -> table_ok add -> named_table add ->
  mergeable base (FV_TABLE add) -> entries_size base + entries_size add < 2 ^ 32 ->
  frame_ok answer -> zlen (wire_frame answer) <= N -> follows fuel L (Client (wire_frame answer) :: conv) e ->
  exists k1 e1, session F B N k1 /\ follows fuel L conv e1 /\
    settings k1 = (k_self k, k_channel_max k, connection_start_server_properties s, Some properties, b_block (k_outbound k)) /\
    login_start garbage uninit fuel AMQ_PLATFORM sp (Some add) sasl_method vl amqp_time_infinite (mk_world k0 e0)
    = (Ret tt, mk_world k1 e1).
Proof.
  intros properties answer Ew Hk HB Hself Hv1 Hv2 Hs1 Hs2 Hname Hmech Hresp Hne Hrl Hbase Hb1 Ha1 Ha2 Hmg Hsz Hok Hfit Hf.
  pose proof (merge_cost_nonneg (FV_TABLE add) base) as Hcost.
  unfold login_start, simple_wait_method_inner. rewrite (bind_step _ _ _ _ _ Ew). cbn [snd]. rewrite Hv1, Hv2.
  change (negb _ || negb _) with false. cbv iota. change (bind get_k ?c ?w) with (c (w_k w) w). cbv beta. cbn [w_k].
  destruct (session_clones F (B + merge_cost base (FV_TABLE add) + 1) _ N k e (k_self k) _ _ Hk ltac:(lia) Hself
              (clones_table (H0 := sep_laws S F) (k_self k) _ Hs1 Hs2)) as (m1 & Hk1 & E1).
  rewrite (bind_step _ _ _ _ _ E1). change (bind (modify_k ?f) ?c (mk_world ?k e)) with (c tt (mk_world (f k) e)). cbv beta.
  destruct (session_properties _ _ _ _ (connection_start_server_properties s) Hk1) as [Hk2 _]. set (k2 := set_server_properties _ _) in *.
  rewrite (sasl_mechanism_listed _ _ _ Hname), bool_decide_true by done. change (bind (lift_res (Ret ?a)) ?c) with (c a). cbv beta. cbn [negb].
  assert (Ep : on_k (k_channel_pool 0) (mk_world k2 e) = (Ret (Some p), mk_world k2 e)).
  { unfold on_k. cbn [w_k w_e]. by rewrite (k_channel_pool_found 0 k2 p (ss_pool _ _ _ _ Hk2)). }
  rewrite (bind_step _ _ _ _ _ Ep).
  destruct (sasl_answered F (B + merge_cost base (FV_TABLE add)) (k_mem k2) sasl_method vl response Hresp Hne Hrl) as (m3 & E3 & Hm3);
    [by apply (session_plenty _ _ N)|lia|].
  assert (E3' : on_memory (sasl_response p sasl_method vl) (mk_world k2 e) = (Ret (Some response), mk_world (set_mem m3 k2) e)).
  { unfold on_memory, on_k, on_mem. cbn [w_k w_e]. by rewrite E3. }
  rewrite (bind_step _ _ _ _ _ E3'), Hbase. change (bind (lift_res (Ret ?a)) ?c) with (c a). cbv beta.
  pose proof (session_mem _ _ _ _ _ _ Hk2 Hm3) as Hk3.
  destruct (proj1 (good_table_ok base) (conj Hb1 (default_table_named _ Hbase))) as [Hb _].
  destruct (proj1 (good_table_ok add) (conj Ha1 Ha2)) as [Ha _].
  destruct (session_clones F B _ N _ e p _ _ Hk3 HB (proj1 Hm3)
              (clones_merge F (FV_TABLE add) S p sp base add eq_refl Hsp (proj1 Hm3) Hmg Hb Ha Hsz)) as (m4 & Hk4 & E4).
  change (amqp_merge_capabilities sp base (Some add) p) with (merge_value sp base (FV_TABLE add) p).
  rewrite (bind_step _ _ _ _ _ E4). change (bind (modify_k ?f) ?c (mk_world ?k e)) with (c tt (mk_world (f k) e)). cbv beta.
  destruct (session_properties _ _ _ _ properties Hk4) as [_ Hk5]. set (k5 := set_client_properties _ _) in *.
  rewrite Hname. change (bind (lift_res (Ret ?a)) ?c) with (c a). cbv beta.
  destruct (session_says F B N k5 answer e conv Hk5 Hok Hfit Hf) as (k6 & e6 & Hk6 & Hset & Hf6 & E6).
  exists k6, e6. split; [done|]. split; [done|]. split; [by rewrite Hset|].
  unfold sent_or_error, amqp_send_method_inner. fold properties. change (mk_frame _ 0 _) with answer.
  assert (Es : status (amqp_send_frame_inner garbage uninit fuel answer AMQP_SF_NONE amqp_time_infinite) (mk_world k5 e)
               = (Ret AMQP_STATUS_OK, mk_world k6 e6)) by (unfold status; by rewrite E6).
  by rewrite (bind_step _ _ _ _ _ Es).
Qed.

(** The limits both sides agree on, without heartbeats. *)
Definition agreed_channels (client server : Z) : Z := if lower client server =? 0 then UINT16_MAX else lower client server.

Lemma negotiated cc cf sc sf sh : in_u 16 cc -> 0 < cf -> in_u 16 sc -> in_u 32 sf -> in_u 16 sh ->
  negotiate cc cf 0 sc sf sh = (agreed_channels cc sc, lower cf sf, 0).
Proof.
  unfold in_u. intros Hcc Hcf Hsc Hsf Hsh. unfold negotiate. rewrite lowered_channels, !lowered by lia.
  by rewrite (proj2 (Z.eqb_neq cf 0)) by lia.
Qed.

Definition tune_ok (channel_max frame_max : Z) : method_t := M_connection_tune_ok (mk_connection_tune_ok channel_max frame_max 0).
Definition open_vhost (vhost : list byte) : method_t := M_connection_open (mk_connection_open vhost [] 1).

(** After [connection.tune]: the limits, and the virtual host is opened. *)
Lemma session_opens b F B N k (e : E) cc cf t o vhost conv :
  let channel_max := agreed_channels cc (connection_tune_channel_max t) in
  let frame_max := lower cf (connection_tune_frame_max t) in
  let tuned := method_frame 0 (tune_ok channel_max frame_max) in
  let request := method_frame 0 (open_vhost vhost) in
  let opened := method_frame 0 (M_connection_open_ok o) in
  session (b :: F) (B + cost opened) N k -> b_block (k_outbound k) = Some b -> b ∉ F -> 0 <= B ->
  in_u 16 cc -> 0 < cf -> in_u 16 (connection_tune_channel_max t) -> in_u 32 (connection_tune_frame_max t) ->
  in_u 16 (connection_tune_heartbeat t) -> frame_max <= 2 ^ 30 ->
  Forall (fun f => frame_ok f /\ zlen (wire_frame f) <= frame_max) [tuned; request; opened] ->
  follows fuel L (Client (wire_frame tuned) :: Client (wire_frame request) :: Server opened :: conv) e ->
  exists k1 e1 b1, session (b1 :: F) B frame_max k1 /\ follows fuel L conv e1 /\
    settings k1 = (k_self k, channel_max, k_server_properties k, recycled_table (k_client_properties k), Some b1) /\
    login_tune garbage uninit heap_garbage fuel vhost cc cf 0 t amqp_time_infinite (mk_world k e)
    = (Ret (mk_rpc_reply AMQP_RESPONSE_NORMAL (0, None) 0), mk_world k1 e1).
Proof.
  intros channel_max frame_max tuned request opened Hk Hb HbF HB Hcc Hcf Hsc Hsf Hsh Hmax Hfs Hf.
  apply Forall_cons in Hfs as [[Ht1 Ht2] Hfs]. apply Forall_cons in Hfs as [[Hr1 Hr2] Hfs].
  apply Forall_cons in Hfs as [[Ho1 Ho2] _].
  assert (Hmin : 0 <= frame_max) by (pose proof (zlen_nonneg (wire_frame tuned)); lia).
  unfold login_tune. rewrite (negotiated _ _ _ _ _ Hcc Hcf Hsc Hsf Hsh). fold channel_max frame_max.
  rewrite swrap_small by (unfold in_s; lia).
  destruct (session_tunes b F _ N frame_max channel_max k e Hk Hb HbF ltac:(lia)) as (k1 & b1 & Hk1 & Hset1 & E1).
  assert (E1' : sent_or_error (amqp_tune_connection heap_garbage channel_max frame_max 0) (mk_world k e) = (Ret tt, mk_world k1 e)).
  { unfold sent_or_error, status, bind. by rewrite E1. }
  rewrite (bind_step _ _ _ _ _ E1').
  destruct (session_says _ _ _ k1 tuned e _ Hk1 Ht1 Ht2 Hf) as (k2 & e2 & Hk2 & Hset2 & Hf2 & E2).
  assert (E2' : sent_or_error (amqp_send_method_inner garbage uninit fuel 0 AMQP_CONNECTION_TUNE_OK_METHOD
        (M_connection_tune_ok (mk_connection_tune_ok channel_max frame_max 0)) AMQP_SF_NONE amqp_time_infinite) (mk_world k1 e)
        = (Ret tt, mk_world k2 e2)).
  { unfold sent_or_error, status, amqp_send_method_inner, bind. change (mk_frame _ 0 _) with tuned. by rewrite E2. }
  rewrite (bind_step _ _ _ _ _ E2'). pose proof (zlen_nonneg (wire_frame opened)) as Hn.
  destruct (session_releases _ _ _ k2 e2 Hk2) as (k3 & Hk3 & Hset3 & E3); [unfold cost; lia|]. rewrite (bind_step _ _ _ _ _ E3).
  destruct (session_calls _ B _ k3 (open_vhost vhost) (M_connection_open_ok o) [AMQP_CONNECTION_OPEN_OK_METHOD] e2 conv
              Hk3 HB Hr1 Hr2 Ho1 Ho2) as (k4 & e4 & Hk4 & Hset4 & Hf4 & E4); [by elems; intros [?|?]|by left|exact Hf2|].
  change (simple_rpc_inner garbage uninit fuel 0 AMQP_CONNECTION_OPEN_METHOD [AMQP_CONNECTION_OPEN_OK_METHOD; 0]
    (M_connection_open (mk_connection_open vhost [] 1))) with (simple_rpc_inner garbage uninit fuel 0 (method_id (open_vhost vhost))
    ([AMQP_CONNECTION_OPEN_OK_METHOD] ++ [0]) (open_vhost vhost)).
  rewrite (bind_step _ _ _ _ _ E4). cbn [is_normal reply_type negb].
  destruct (session_releases _ _ _ k4 e4 Hk4 HB) as (k5 & Hk5 & Hset5 & E5).
  assert (E5' : on_k amqp_maybe_release_buffers (mk_world k4 e4) = (Ret tt, mk_world k5 e4)).
  { revert E5. unfold on_k, amqp_maybe_release_buffers. cbn [w_k w_e]. change (bind get ?c k4) with (c k4 k4). cbv beta.
    unfold amqp_release_buffers_ok. by rewrite (rd_idle _ _ _ _ _ _ (ss_ready _ _ _ _ Hk4)), bool_decide_true. }
  exists k5, e4, b1. split; [done|]. split; [done|]. split; [|by rewrite (bind_step _ _ _ _ _ E5')].
  rewrite Hset5, (settings_forgotten _ _ Hset4), (settings_forgotten _ _ (eq_trans Hset3 (settings_forgotten _ _ Hset2))).
  revert Hset1. unfold settings. cbn. intros [= -> -> -> -> ->]. by rewrite !recycled_table_idem.
Qed.
End Session.

(** ** The whole login *)

Section Whole.
Context `{Host} {E : Type} `{Net E} {Th : Then E}.
Context (garbage : addr -> Z -> list byte) (uninit : amqp_basic_properties_t) (heap_garbage : Z -> Z -> list byte) (fuel : nat).
Hypothesis Hgarbage : forall a n, 0 <= n -> zlen (garbage a n) = n.
Hypothesis Hzero : forall a n, 8 < n -> garbage a n !! 7%nat = Some x00.
Hypothesis Hheap : forall b n, 0 <= n -> zlen (heap_garbage b n) = n.

(** A new connection with a socket and without a limit of time for the handshake. *)
Definition socket_connection (m : memory) : connection :=
  set_handshake_timeout None (set_socket true (new_connection heap_garbage m)).

(** The pools of the connection and of channel 0, and the other blocks. *)
Definition first_pool (m : memory) : Z := h_next (m_heap m) + 1 + 1 + 1.
Definition first_pools (m : memory) : gset Z := {[first_pool m; h_next (m_heap m)]}.
Definition first_blocks (m : memory) : list Z := [first_pool m; h_next (m_heap m) + 1 + 1; h_next (m_heap m)].

Lemma start_eighth s : let W := wire_frame (method_frame 0 (M_connection_start s)) in 8 < zlen W /\ W !! 7%nat = Some x00.
Proof.
  split; [|done]. pose proof (zlen_frame_bytes AMQP_FRAME_METHOD 0 (wire_payload (payload (method_frame 0 (M_connection_start s))))) as El.
  unfold wire_frame. cbn [frame_type channel method_frame] in *. rewrite El. unfold HEADER_SIZE, FOOTER_SIZE.
  change (wire_payload _) with (be_bytes 4 AMQP_CONNECTION_START_METHOD ++ wire_method (M_connection_start s)). zlia.
Qed.

(** The pool of channel 0 is made for the first frame. *)
Lemma first_memory m : heap_ok (m_heap m) -> h_refuse (m_heap m) = [] ->
  exists t m1, amqp_get_or_create_channel_pool AMQP_INITIAL_FRAME_POOL_PAGE_SIZE 0 (empty_pool_table, new_memory m)
      = (Ret (Some (first_pool m)), (t, m1)) /\
    amqp_get_channel_pool t 0 = Some (first_pool m) /\ pools_in (first_pools m) t /\
    forall B, B <= INT_MAX ->
      sep_plenty (first_pools m) (h_next (m_heap m) + 1 :: first_blocks m) (first_pool m) B m1.
Proof.
  intros Hh Hr. unfold first_pools, first_blocks. set (self := h_next (m_heap m)). set (p := first_pool m).
  set (h1 := with_block (m_heap (new_memory m)) (sizeof layout_amqp_pool_table_entry_t)).
  assert (Hr1 : h_refuse (m_heap (new_memory m)) = []) by (cbn; by rewrite Hr).
  exists (<[0%nat := [(0, p)]]> empty_pool_table),
    (mk_memory h1 (<[p := init_amqp_pool AMQP_INITIAL_FRAME_POOL_PAGE_SIZE]> (m_pools (new_memory m))) (m_scratch m) (m_snext m)).
  split; [|split; [done|split]].
  - unfold amqp_get_or_create_channel_pool. change (find_entry 0 (bucket empty_pool_table 0)) with (@None Z). cbv iota.
    unfold h1, with_block, malloc. by rewrite Hr1.
  - assert (Hall : forall ch q, amqp_get_channel_pool (<[0%nat := [(0, p)]]> empty_pool_table) ch = Some q -> ch = 0 /\ q = p).
    { intros ch q. unfold amqp_get_channel_pool, bucket, empty_pool_table, pool_table_t. pose proof (bucket_index ch) as Hi.
      change (Z.to_nat POOL_TABLE_SIZE) with 16%nat in Hi. destruct (decide (Z.to_nat (ch mod POOL_TABLE_SIZE) = 0%nat)) as [->|Hne].
      - change (default [] _) with [(0, p)]. cbn [find_entry]. destruct (Z.eqb_spec ch 0); [|done]. by intros [= <-].
      - rewrite list_lookup_insert_ne by done. rewrite lookup_replicate_2; [done|].
        by change (Z.to_nat POOL_TABLE_SIZE) with 16%nat. }
    split; [intros ch q [_ ->]%Hall; set_solver|]. intros c1 c2 q [-> _]%Hall [-> _]%Hall. done.
  - destruct (new_connection_owned heap_garbage m Hh) as [Hm _]. rewrite own_blocks_new in Hm. fold self in Hm.
    apply (mem_sep_mono _ _ {[self]} [self + 1; self + 1 + 1; self]) in Hm; [|set_solver|done].
    change (k_mem _) with (new_memory m) in Hm.
    pose proof (mem_sep_block _ _ _ (sizeof layout_amqp_pool_table_entry_t) Hm) as Hm1. fold h1 in Hm1.
    assert (Hps : p ∉ ({[self]} : gset Z)) by (rewrite elem_of_singleton; unfold p, first_pool, self; lia).
    pose proof (mem_sep_new AMQP_INITIAL_FRAME_POOL_PAGE_SIZE {[self]} _ _ p ltac:(done) Hps Hm1) as Hm2.
    intros B HB. split; [set_solver|]. split; [cbn; by rewrite Hr|]. split.
    + eapply mem_sep_mono; [exact Hm2|set_solver|]. intros c. change (h_next (m_heap (new_memory m))) with p. elems. tauto.
    + intros q ql Hq. cbn [m_pools new_memory]. rewrite lookup_insert_Some. intros [[_ <-]|[Hne Eq]]; [cbn; lia|]. revert Eq.
      rewrite lookup_insert_Some. fold self. intros [[_ <-]|[Hne' Eq]]; [cbn; lia|]. set_solver.
Qed.

Lemma socket_can_recv m : can_recv AMQP_INITIAL_INBOUND_SOCK_BUFFER_SIZE (socket_connection m) /\ window (socket_connection m) = [].
Proof.
  pose proof (Hheap (h_next (m_heap m) + 1 + 1) AMQP_INITIAL_INBOUND_SOCK_BUFFER_SIZE ltac:(done)) as Hl.
  split; [|done]. repeat split; try done; unfold AMQP_INITIAL_INBOUND_SOCK_BUFFER_SIZE; cbn; lia.
Qed.

Lemma socket_conn_ok m : conn_ok (k_in (socket_connection m)).
Proof. repeat split; done. Qed.

(** The first frame of the server. *)
Lemma first_session m s B e conv :
  let f := method_frame 0 (M_connection_start s) in
  let k := socket_connection m in
  let L := AMQP_INITIAL_INBOUND_SOCK_BUFFER_SIZE in
  let N := AMQP_INITIAL_FRAME_POOL_PAGE_SIZE in
  heap_ok (m_heap m) -> h_refuse (m_heap m) = [] -> frame_ok f -> zlen (wire_frame f) <= N -> 0 <= B -> B + cost f <= INT_MAX ->
  follows fuel L (Server f :: conv) e ->
  exists k1 e1, session (first_pools m) (first_pool m) L (h_next (m_heap m) + 1 :: first_blocks m) B N k1 /\
    settings k1 = settings k /\ follows fuel L conv e1 /\
    amqp_simple_wait_method_list garbage uninit fuel 0 ([AMQP_CONNECTION_START_METHOD] ++ [0]) amqp_time_infinite (mk_world k e)
    = (Ret (AMQP_CONNECTION_START_METHOD, Some (M_connection_start s)), mk_world k1 e1).
Proof.
  intros f k L N Hh Hr Hok Hfit HB Hcost Hf. destruct (start_eighth s) as [H8 H7]. fold f in H8, H7.
  destruct (first_memory m Hh Hr) as (t & m1 & Ec & Ep & Hin & Hpl). specialize (Hpl (B + cost f) Hcost).
  set (F := h_next (m_heap m) + 1 :: first_blocks m) in *. set (S := first_pools m) in *. set (p := first_pool m) in *.
  unfold cost in Hpl. pose proof (zlen_nonneg (wire_frame f)).
  destruct (first_received garbage uninit Hgarbage Hzero (Laws := sep_laws S F) f (k_in k) uninit_frame p t m1
              (socket_conn_ok m) eq_refl eq_refl Hok (conj H8 Hfit) H7 Ec Ep) as (c' & Ei & Hi & HN & Ht & Hsp).
  { apply (plenty_mono (MemLaws := sep_laws S F) p _ (B + (zlen (wire_frame f) + 1))); [exact Hpl|lia]. }
  destruct (socket_can_recv m) as [Hk Hw]. fold k L in Hk, Hw.
  assert (Hx : expects garbage uninit (k_in k) uninit_frame (wire_frame f) (received uninit f) c').
  { split; [intros E0; rewrite E0 in H8; done|]. split; [unfold N, AMQP_INITIAL_FRAME_POOL_PAGE_SIZE in Hfit; lia|]. split; [apply socket_conn_ok|done]. }
  destruct (hears garbage uninit fuel Hgarbage L f uninit_frame c' k e conv Hok eq_refl Hk Hw Hx Hf)
    as (b & o & l & e1 & Hk1 & Hw1 & Hf1 & E1).
  destruct (Hsp B HB Hpl) as (_ & Hr' & Hm' & Hroom').
  exists (resume c' b o l k), e1. split; [|split; [done|split; [done|]]].
  - split; [| |done|unfold k_pool_table; cbn; by rewrite Ht|exact HN|done].
    + split; try done; [by apply (expects_conn_ok garbage uninit Hgarbage _ _ _ _ _ Hx)|exact empty_queue_of|unfold k_pool_table; cbn; by rewrite Ht].
    + pose proof (Hheap (h_next (m_heap m) + 1) AMQP_INITIAL_FRAME_POOL_PAGE_SIZE ltac:(done)) as Hl.
      by repeat split.
  - apply (awaited garbage uninit fuel (M_connection_start s)); [exact empty_queue_of|done|elems; by intros [?|?]|by left|exact E1].
Qed.

Context (AMQ_PLATFORM : string) (sp : Z).

(** The client: its properties, and an answer to the mechanism. *)
Record client_ready (base add : amqp_table_t) (sasl_method : amqp_sasl_method_enum) (vl : list amqp_bytes_t)
    (mechanism response : list byte) : Prop := {
  cl_defaults : default_table AMQ_PLATFORM = Ret base;
  cl_base : table_ok base;
  cl_add : table_ok add /\ named_table add;
  cl_merge : mergeable base (FV_TABLE add) /\ entries_size base + entries_size add < 2 ^ 32;
  cl_name : sasl_method_name sasl_method = Ret mechanism;
  cl_answer : sasl_answer sasl_method vl = Some response /\ response <> [];
}.

(** A server of AMQP 0-9 with the mechanism. *)
Record server_ready (s : amqp_connection_start_t) (mechanism : list byte) : Prop := {
  sv_version : connection_start_version_major s = 0 /\ connection_start_version_minor s = 9;
  sv_named : named_table (connection_start_server_properties s);
  sv_mechanism : mechanism ∈ words [] (connection_start_mechanisms s);
}.

(** The fields of the methods are in their ranges. *)
Lemma login_fields s t properties mechanism response :
  frame_ok (method_frame 0 (M_connection_start s)) -> frame_ok (method_frame 0 (start_ok properties mechanism response)) ->
  frame_ok (method_frame 0 (M_connection_tune t)) ->
  table_ok (connection_start_server_properties s) /\ zlen response < 2 ^ 32 /\
  in_u 16 (connection_tune_channel_max t) /\ in_u 32 (connection_tune_frame_max t) /\ in_u 16 (connection_tune_heartbeat t).
Proof. intros (_ & _ & _ & H1) (_ & _ & _ & H2) (_ & _ & _ & H3). repeat apply Forall_cons in H1 as [? H1], H2 as [? H2], H3 as [? H3]. done. Qed.

(** The parameters are in their ranges and no step fails. *)
Lemma login_entered vhost cc cf add sasl_method vl k (e : E) r w :
  in_u 16 cc -> 0 <= cf -> k_handshake_timeout k = None ->
  login_steps garbage uninit heap_garbage fuel AMQ_PLATFORM sp vhost cc cf 0 add None sasl_method vl (mk_world k e) = (Ret r, w) ->
  amqp_login_with_properties garbage uninit heap_garbage fuel AMQ_PLATFORM sp vhost cc cf 0 add sasl_method vl (mk_world k e) = (Ret r, w).
Proof.
  unfold in_u. intros Hcc Hcf Hto Es. unfold amqp_login_with_properties. change (bind get_k ?c ?w) with (c (w_k w) w). cbv beta. cbn [w_k].
  rewrite Hto. unfold amqp_login_inner, UINT16_MAX.
  rewrite (proj2 (Z.ltb_ge cc 0)), (proj2 (Z.ltb_ge _ cc)), (proj2 (Z.ltb_ge cf 0)) by lia. cbn [orb]. change ((0 <? 0) || _) with false. cbv iota.
  assert (Et : try (login_steps garbage uninit heap_garbage fuel AMQ_PLATFORM sp vhost cc cf 0 add None sasl_method vl) (mk_world k e)
               = (Ret (inr r), w)) by (unfold try; by rewrite Es).
  by rewrite (bind_step _ _ _ _ _ Et).
Qed.

Lemma login_properties_kept base add : default_table AMQ_PLATFORM = Ret base -> mergeable base (FV_TABLE add) ->
  merged base (FV_TABLE add) <> [].
Proof.
  intros Hd (_ & Hnd & _) Enil. assert (Hk : (merged base (FV_TABLE add)).*1 = base.*1 ++ filter (fun k => k ∉ base.*1) add.*1)
    by (by apply merged_into_keys).
  rewrite Enil in Hk. destruct base as [|b base]; [|done]. revert Hd. unfold default_table, amqp_table_construct_utf8_entry.
  by destruct (cstring (c_str AMQ_PLATFORM)); vm_compute.
Qed.

(** The blocks a login may take. *)
Definition login_cost (start tune opened : amqp_frame_t) (server_properties base add : amqp_table_t) : Z :=
  cost opened + cost tune + merge_cost base (FV_TABLE add) + 1 + zlen (wire_table server_properties) + cost start.

Lemma cost_nonneg f : 0 <= cost f.
Proof. unfold cost. pose proof (zlen_nonneg (wire_frame f)). lia. Qed.

End Whole.

(** *** Witness *)

(** What a script holds for a conversation. *)
Fixpoint pieces (conv : list turn) : list (list byte) :=
  match conv with
  | [] => []
  | Client _ :: conv' => pieces conv'
  | Server f :: conv' => wire_frame f :: pieces conv'
  end.

Lemma script_follows fuel L now conv : (4 <= fuel)%nat ->
  Forall (fun t => match t with Client bytes => bytes <> [] | Server f => wire_frame f <> [] /\ zlen (wire_frame f) <= L end) conv ->
  forall out, follows fuel L conv (mk_script now (pieces conv) out true).
Proof.
  intros Hf Hc. induction Hc as [|[bytes|f] conv Ht _ IH]; intros out; cbn [follows pieces]; [done|..].
  - exists (mk_script now (pieces conv) (out ++ bytes) true), 1%nat. split; [lia|]. split; [by constructor|]. apply IH.
  - exists [wire_frame f], 1%nat. split; [lia|]. split; [apply app_nil_r|].
    apply (script_delivers_then (Th := follows fuel L conv) L now (pieces conv) out true [wire_frame f]); [by apply Forall_singleton|].
    apply IH.
Qed.

Definition demo_start : amqp_connection_start_t :=
  mk_connection_start 0 9 [([x61], FV_BOOLEAN 1)] (bytes_of "AMQPLAIN PLAIN"%string) (bytes_of "en_US"%string).
Definition demo_tune : amqp_connection_tune_t := mk_connection_tune 2047 4096 60.
Definition demo_defaults : amqp_table_t := match default_table "Linux"%string with Ret t => t | _ => [] end.
Definition demo_response : list byte := ([x00] ++ bytes_of "guest"%string ++ [x00] ++ bytes_of "guest"%string).
Definition demo_conversation : list turn :=
  [Client protocol_header; Server (method_frame 0 (M_connection_start demo_start));
   Client (wire_frame (method_frame 0 (start_ok demo_defaults (bytes_of "PLAIN"%string) demo_response)));
   Server (method_frame 0 (M_connection_tune demo_tune)); Client (wire_frame (method_frame 0 (tune_ok 2047 4096)));
   Client (wire_frame (method_frame 0 (open_vhost (bytes_of "/"%string))));
   Server (method_frame 0 (M_connection_open_ok (mk_connection_open_ok [])))].
Definition demo_memory : memory := mk_memory heap0 ∅ ∅ 0.

Lemma demo_client_ready :
  client_ready "Linux"%string demo_defaults [] AMQP_SASL_METHOD_PLAIN [bytes_of "guest"%string; bytes_of "guest"%string]
    (bytes_of "PLAIN"%string) demo_response.
Proof.
  split.
  - by vm_compute.
  - split; [|by vm_compute]. repeat split; vm_compute; auto.
  - repeat split; by vm_compute.
  - split; [|by vm_compute]. split; [by vm_compute|]. split; [apply NoDup_nil_2|done].
  - done.
  - done.
Qed.

Lemma demo_frames_fit :
  Forall (fun f => frame_ok f /\ zlen (wire_frame f) <= AMQP_INITIAL_FRAME_POOL_PAGE_SIZE)
    [method_frame 0 (M_connection_start demo_start);
     method_frame 0 (start_ok demo_defaults (bytes_of "PLAIN"%string) demo_response); method_frame 0 (M_connection_tune demo_tune)] /\
  Forall (fun f => frame_ok f /\ zlen (wire_frame f) <= 4096)
    [method_frame 0 (tune_ok 2047 4096); method_frame 0 (open_vhost (bytes_of "/"%string));
     method_frame 0 (M_connection_open_ok (mk_connection_open_ok []))].
Proof.
  split; repeat (apply Forall_cons; split); try (by apply Forall_nil); (split; [|by vm_compute]);
    (split; [done|]); (split; [done|]); (split; [done|]);
    repeat (apply Forall_cons; split); try (by apply Forall_nil); try (by vm_compute).
  - split; [|by vm_compute]. repeat split; vm_compute; auto.
  - split; [|by vm_compute]. repeat split; vm_compute; auto.
  - split; [|simpl; lia]. apply Forall_singleton. by right.
Qed.

