(* ===== verification/Stdio.v ===== *)
(** * Command-line tools: messages, input and output ([tools/common.c])

    The tools are processes: they read standard input, write standard output and
    files, and leave with [exit].  In these files [Err st] is [exit(st)].  The calls
    of the C library are the class [Stdio]. *)

From Stdlib Require Import String.
From S2P Require Import Prelude Status Memory Layout Pool PoolMem Codec Table TableOps MethodCodec.
From S2P Require Import MethodTypes MethodDecode MethodEncode Properties Connection Time Net ConnState Socket Rpc Api Consumer Login.

Local Open Scope list_scope.
Local Open Scope Z_scope.

(** The steps of [posix_spawn_file_actions_t]. *)
Inductive spawn_action : Type := fa_init | fa_adddup2 (fd to : Z) | fa_addclose (fd : Z) | fa_destroy.

(** A call that fails sets [errno], which is not 0 then. *)
Class Stdio (IO : Type) := {
  eintr : positive;
  strerror : Z -> list byte;
  read : Z -> Z -> IO -> (positive + list byte) * IO;           (* fd, count *)
  write : Z -> list byte -> IO -> (positive + Z) * IO;          (* fd, the bytes *)
  close : Z -> IO -> option positive * IO;
  eprint : list byte -> IO -> IO;                               (* to stderr *)
  print : list byte -> IO -> IO;                                (* to stdout *)
  fopen_r : list byte -> IO -> option (list byte) * IO;         (* what the file holds *)
  fgets_stdin : Z -> IO -> option (list byte) * IO;             (* the line read *)
  pipe : IO -> (positive + Z * Z) * IO;
  file_actions : spawn_action -> IO -> Z * IO;
  posix_spawnp : list (list byte) -> IO -> (Z * Z) * IO;        (* argv: an error, the pid *)
  waitpid : Z -> IO -> (positive + Z) * IO;                     (* the status *)
  exit_status : Z -> option Z;                                  (* WIFEXITED, WEXITSTATUS *)
}.

(** ** The process *)

(** The memory is the connection's while there is one. *)
Record process (E IO : Type) := mk_process {
  p_conn : memory + connection;
  p_env : E;
  p_io : IO;
}.
Arguments mk_process {E IO} _ _ _.
Arguments p_conn {E IO} _.
Arguments p_env {E IO} _.
Arguments p_io {E IO} _.

(** [%X], with at least [width] digits. *)
Definition hex_char (d : Z) : byte := z2b (if d <? 10 then 48 + d else 55 + d).
Fixpoint hex_digits (fuel : nat) (width n : Z) (acc : list byte) : list byte :=
  match fuel with
  | O => acc
  | S fuel' => if (width <=? 0) && (n =? 0) then acc
               else hex_digits fuel' (width - 1) (n / 16) (hex_char (n mod 16) :: acc)
  end.
Definition sprintf_X (width n : Z) : list byte := hex_digits 8 (Z.max 1 width) (wrap 32 n) [].

(** A string as [%s] prints it, up to its NUL, and as [%.*s] does. *)
Fixpoint until_nul (s : list byte) : list byte :=
  match s with
  | [] => []
  | b :: s' => if bool_decide (b = x00) then [] else b :: until_nul s'
  end.

(** [(int)bytes.len]: a negative precision would read on. *)
Definition printf_bytes (bytes : amqp_bytes_t) : res (list byte) :=
  if zlen bytes <=? INT_MAX then Ret (until_nul bytes) else Undef.

Section Process.
Context {E IO : Type} `{Stdio IO}.

Notation P := (process E IO).

Definition stdio {A} (f : IO -> A * IO) : eff P A := fun p =>
  let '(a, io) := f (p_io p) in (Ret a, mk_process (p_conn p) (p_env p) io).
Definition io_do (f : IO -> IO) : eff P unit := stdio (fun io => (tt, f io)).

(** A call of the library on the connection: its status, or its result. *)
Definition lib {A} (m : eff (world E) A) : eff P (Z + A) := fun p =>
  match p_conn p with
  | inl _ => (Undef, p)
  | inr k =>
      let '(r, w) := try m (mk_world k (p_env p)) in
      (r, mk_process (inr (w_k w)) (w_e w) (p_io p))
  end.

(** A function of the library that returns no status. *)
Definition lib_ret {A} (m : eff (world E) A) : eff P A :=
  let! r := lib m in match r with inr a => ret a | inl _ => undef end.

Definition on_p_heap {A} (m : eff heap A) : eff P A := fun p =>
  match p_conn p with
  | inl mem => let '(r, mem) := on_m_heap m mem in (r, mk_process (inl mem) (p_env p) (p_io p))
  | inr k => let '(r, k) := on_mem (on_m_heap m) k in (r, mk_process (inr k) (p_env p) (p_io p))
  end.

(** ** Dying *)

Definition exit {A} (code : Z) : eff P A := fail code.
Definition fprintf_stderr (msg : list byte) : eff P unit := io_do (eprint msg).
Definition newline : list byte := [x0a].

(** [msg] is the formatted message. *)
Definition die {A} (msg : list byte) : eff P A :=
  do! fprintf_stderr msg in do! fprintf_stderr newline in exit 1.

Definition die_errno (err : Z) (msg : list byte) : eff P unit :=
  if err =? 0 then ret tt
  else
    do! fprintf_stderr msg in
    do! fprintf_stderr (bytes_of ": " ++ strerror err ++ newline) in exit 1.

(** [die_errno(errno, ...)] after a failure. *)
Definition die_failed {A} (errno : positive) (msg : list byte) : eff P A :=
  do! die_errno (Zpos errno) msg in undef.

Definition die_amqp_error (err : Z) (msg : list byte) : eff P unit :=
  if 0 <=? err then ret tt
  else
    do! fprintf_stderr msg in
    let! text := lift_res (amqp_error_string2 err) in
    do! fprintf_stderr (bytes_of ": " ++ bytes_of text ++ newline) in exit 1.

(** [snprintf] into [s[512]] *)
Definition EXCEPTION_SIZE : Z := 512.
Definition amqp_server_exception_string (r : amqp_rpc_reply_t) : res (list byte) :=
  let close what code text :=
    match printf_bytes text with
    | Ret t => Ret (ztake (EXCEPTION_SIZE - 1) (bytes_of what ++ sprintf_d code ++ bytes_of ", message: " ++ t))
    | _ => Undef
    end in
  let '(id, decoded) := reply r in
  if id =? AMQP_CONNECTION_CLOSE_METHOD then
    match decoded with
    | Some (M_connection_close m) =>
        close "server connection error "%string (connection_close_reply_code m) (connection_close_reply_text m)
    | _ => Undef
    end
  else if id =? AMQP_CHANNEL_CLOSE_METHOD then
    match decoded with
    | Some (M_channel_close m) =>
        close "server channel error "%string (channel_close_reply_code m) (channel_close_reply_text m)
    | _ => Undef
    end
  else Ret (ztake (EXCEPTION_SIZE - 1) (bytes_of "unknown server error, method id 0x" ++ sprintf_X 8 id)).

Definition amqp_rpc_reply_string (r : amqp_rpc_reply_t) : res (list byte) :=
  match reply_type r with
  | AMQP_RESPONSE_NORMAL => Ret (bytes_of "normal response")
  | AMQP_RESPONSE_NONE => Ret (bytes_of "missing RPC reply type")
  | AMQP_RESPONSE_LIBRARY_EXCEPTION =>
      match amqp_error_string2 (library_error r) with Ret s => Ret (bytes_of s) | _ => Undef end
  | AMQP_RESPONSE_SERVER_EXCEPTION => amqp_server_exception_string r
  end.

Definition die_rpc (r : amqp_rpc_reply_t) (msg : list byte) : eff P unit :=
  match reply_type r with
  | AMQP_RESPONSE_NORMAL => ret tt
  | _ =>
      do! fprintf_stderr msg in
      let! text := lift_res (amqp_rpc_reply_string r) in
      do! fprintf_stderr (bytes_of ": " ++ text ++ newline) in exit 1
  end.

(** ** Reading and writing everything *)

Definition READ_ALL_SPACE : Z := 4096.

(** The bytes read so far into the block [b] of [space] bytes. *)
Fixpoint read_all_loop (fuel : nat) (fd b space : Z) (bytes : list byte) : eff P (Z * list byte) :=
  match fuel with
  | O => nofuel
  | S fuel' =>
      let! r := stdio (read fd (size_sub space (zlen bytes))) in
      match r with
      | inl e => if Pos.eqb e eintr then read_all_loop fuel' fd b space bytes else die_failed e (bytes_of "reading")
      | inr [] => ret (b, bytes)
      | inr bs =>
          if zlen bytes + zlen bs <=? space then
            let bytes := bytes ++ bs in
            if zlen bytes =? space then
              let space := wrap 64 (space * 2) in
              let! b := on_p_heap (realloc b space) in
              match b with
              | Some b => read_all_loop fuel' fd b space bytes
              | None => undef
              end
            else read_all_loop fuel' fd b space bytes
          else undef
      end
  end.

(** The block and its contents.  Without memory [read] is given a null pointer. *)
Definition read_all (fuel : nat) (fd : Z) : eff P (Z * list byte) :=
  let! b := on_p_heap (malloc READ_ALL_SPACE) in
  match b with
  | Some b => read_all_loop fuel fd b READ_ALL_SPACE []
  | None => undef
  end.

(** [while (data.len > 0)] *)
Fixpoint write_all (fuel : nat) (fd : Z) (data : list byte) : eff P unit :=
  match fuel with
  | O => nofuel
  | S fuel' =>
      match data with
      | [] => ret tt
      | _ =>
          let! r := stdio (write fd data) in
          match r with
          | inl e => die_failed e (bytes_of "write")
          | inr n => if (0 <=? n) && (n <=? zlen data) then write_all fuel' fd (zdrop n data) else undef
          end
      end
  end.

(** ** The consuming command ([tools/unix/process.c]) *)

Definition failed_call (a : spawn_action) (name : string) : eff P unit :=
  let! err := stdio (file_actions a) in die_errno err (bytes_of name).

(** [pl->pid] and [pl->infd]. *)
Definition pipeline (argv : list (list byte)) : eff P (Z * Z) :=
  let! r := stdio pipe in
  match r with
  | inl e => die_failed e (bytes_of "pipe")
  | inr (pipefds0, pipefds1) =>
      do! failed_call fa_init "posix_spawn_file_actions_init" in
      do! failed_call (fa_adddup2 pipefds0 0) "posix_spawn_file_actions_adddup2" in
      do! failed_call (fa_addclose pipefds0) "posix_spawn_file_actions_addclose" in
      do! failed_call (fa_addclose pipefds1) "posix_spawn_file_actions_addclose" in
      let! '(err, pid) := stdio (posix_spawnp argv) in
      do! die_errno err (bytes_of "posix_spawnp: " ++ hd [] argv) in
      do! failed_call fa_destroy "posix_spawn_file_actions_destroy" in
      let! c := stdio (close pipefds0) in
      match c with
      | Some e => die_failed e (bytes_of "close")
      | None => ret (pid, pipefds1)
      end
  end.

Definition finish_pipeline (pl : Z * Z) : eff P bool :=
  let '(pid, infd) := pl in
  let! c := stdio (close infd) in
  match c with
  | Some e => die_failed e (bytes_of "close")
  | None =>
      let! r := stdio (waitpid pid) in
      match r with
      | inl e => die_failed e (bytes_of "waitpid")
      | inr status => ret (match exit_status status with Some 0 => true | _ => false end)
      end
  end.

End Process.

(** [str] is [None] for [NULL]. *)
Definition cstring_bytes (str : option (list byte)) : amqp_bytes_t := match str with Some s => s | None => [] end.
