(* ===== verification/ToolOpts.v ===== *)
(** * Command-line tools: where to connect ([tools/common.c])

    The connection options that [popt] has stored, the file with the credentials, and
    [init_connection_info], which turns them into a connection's parameters or dies. *)

From Stdlib Require Import String.
From S2P Require Import Prelude Status Memory Layout Pool PoolMem Codec Table TableOps MethodCodec.
From S2P Require Import MethodTypes MethodDecode MethodEncode Properties Connection Time Url Net ConnState Socket Rpc Api Consumer Login Stdio.

Local Open Scope list_scope.
Local Open Scope Z_scope.

(** The variables of [connect_options]; a string is [None] for [NULL] and has no NUL. *)
Record options := mk_options {
  amqp_url : option (list byte);
  amqp_server : option (list byte);
  amqp_port : Z;
  amqp_vhost : option (list byte);
  amqp_username : option (list byte);
  amqp_password : option (list byte);
  amqp_heartbeat : Z;
  amqp_authfile : option (list byte);
  amqp_ssl : bool;
  amqp_cacert : option (list byte);
  amqp_key : option (list byte);
  amqp_cert : option (list byte);
}.

Definition default_options : options :=
  mk_options None None (-1) None None None 0 None false (Some (bytes_of "/etc/ssl/certs/cacert.pem")) None None.

(** What [struct amqp_connection_info] points to. *)
Record info := mk_ci { ci_user : list byte; ci_password : list byte; ci_host : list byte; ci_vhost : list byte; ci_port : Z; ci_ssl : bool }.

Definition ci_with_user (s : list byte) (c : info) : info := mk_ci s (ci_password c) (ci_host c) (ci_vhost c) (ci_port c) (ci_ssl c).
Definition ci_with_password (s : list byte) (c : info) : info := mk_ci (ci_user c) s (ci_host c) (ci_vhost c) (ci_port c) (ci_ssl c).
Definition ci_with_server (host : list byte) (port : Z) (c : info) : info :=
  mk_ci (ci_user c) (ci_password c) host (ci_vhost c) port (ci_ssl c).
Definition ci_with_vhost (s : list byte) (c : info) : info := mk_ci (ci_user c) (ci_password c) (ci_host c) s (ci_port c) (ci_ssl c).
Definition ci_with_port (n : Z) (c : info) : info := mk_ci (ci_user c) (ci_password c) (ci_host c) (ci_vhost c) n (ci_ssl c).
Definition ci_with_ssl (c : info) : info := mk_ci (ci_user c) (ci_password c) (ci_host c) (ci_vhost c) (ci_port c) true.

(** The structure with its pointers followed. *)
Definition read_info (buf : list byte) (i : amqp_connection_info) : res info :=
  match string_of buf (user i), string_of buf (password i), string_of buf (host i), string_of buf (vhost i) with
  | Some u, Some p, Some h, Some v => Ret (mk_ci u p h v (port i) (negb (ssl i =? 0)))
  | _, _, _, _ => Undef
  end.

Definition MAXAUTHTOKENLEN : Z := 128.
Definition USERNAMEPREFIX : list byte := bytes_of "username:".
Definition PASSWORDPREFIX : list byte := bytes_of "password:".

(** [fgets] on the rest of a file: up to [n - 1] bytes, through a newline. *)
Fixpoint take_line (n : nat) (s : list byte) : list byte * list byte :=
  match n, s with
  | S n', b :: s' => if bool_decide (b = x0a) then ([b], s')
                     else let '(l, r) := take_line n' s' in (b :: l, r)
  | _, _ => ([], s)
  end.
Definition fgets (size : Z) (file : list byte) : option (list byte * list byte) :=
  match take_line (Z.to_nat (size - 1)) file with
  | ([], _) => None
  | (l, r) => Some (l, r)
  end.

(** [strncmp(s, prefix, strlen(prefix)) == 0], and then the string after the prefix. *)
Fixpoint after_prefix (prefix s : list byte) : option (list byte) :=
  match prefix, s with
  | [], _ => Some s
  | b :: prefix', c :: s' => if bool_decide (b = c) then after_prefix prefix' s' else None
  | _, [] => None
  end.

(** [strchr(s, c)]: what is before it and after it. *)
Fixpoint strchr (c : byte) (s : list byte) : option (list byte * list byte) :=
  match s with
  | [] => None
  | b :: s' => if bool_decide (b = c) then Some ([], s')
               else match strchr c s' with Some (l, r) => Some (b :: l, r) | None => None end
  end.

Section Options.
Context {E IO : Type} `{Stdio IO}.
Context (CHAR_MAX : Z) (WITH_SSL : bool).

Notation P := (process E IO).

(** One line of the file: the value, and the rest of the file. *)
Definition read_token (prefix : list byte) (file : list byte) (missing too_long : string) : eff P (list byte * list byte) :=
  match fgets MAXAUTHTOKENLEN file with
  | None => die (bytes_of missing)
  | Some (token, rest) =>
      match after_prefix prefix (until_nul token) with
      | None => die (bytes_of missing)
      | Some value =>
          match last value with
          | None => undef                                  (* value[n - 1] of the empty string *)
          | Some b => if bool_decide (b = x0a) then ret (ztake (zlen value - 1) value, rest) else die (bytes_of too_long)
          end
      end
  end.

(** [amqp_username] and [amqp_password]. *)
Definition read_authfile (path : list byte) : eff P (list byte * list byte) :=
  let! username := on_p_heap (malloc MAXAUTHTOKENLEN) in
  let! password := match username with Some _ => on_p_heap (malloc MAXAUTHTOKENLEN) | None => ret None end in
  match password with
  | None => die (bytes_of "Out of memory")
  | Some _ =>
      let! fp := stdio (fopen_r path) in
      match fp with
      | None => die (bytes_of "Could not read auth data file " ++ path)
      | Some file =>
          let! '(username, file) := read_token USERNAMEPREFIX file "Malformed auth file (missing username)" "Username too long" in
          let! '(password, file) := read_token PASSWORDPREFIX file "Malformed auth file (missing password)" "Password too long" in
          match file with
          | [] => ret (username, password)
          | _ => die (bytes_of "Malformed auth file (trailing data)")
          end
      end
  end.

(** [die] for an option that must not come with [--url] *)
Definition not_with_url (o : options) (msg : string) : eff P unit :=
  match amqp_url o with Some _ => die (bytes_of msg) | None => ret tt end.

(** [if (amqp_url)] *)
Definition info_of_url (o : options) : eff P info :=
  match amqp_url o with
  | None => lift_res (read_info [] amqp_default_connection_info)
  | Some url =>
      let! b := on_p_heap (malloc (zlen url + 1)) in
      match b with
      | None => undef
      | Some _ =>
          match amqp_parse_url CHAR_MAX (mk_url (url ++ [x00]) amqp_default_connection_info) with
          | (Ret _, u) => lift_res (read_info (u_buf u) (u_info u))
          | (Err st, _) => do! die_amqp_error st (bytes_of "Parsing URL '" ++ url ++ bytes_of "'") in undef
          | (Undef, _) => undef
          | (NoFuel, _) => nofuel
          end
      end
  end.

(** [if (amqp_server)] *)
Definition use_server (o : options) (ci : info) : eff P info :=
  match amqp_server o with
  | None => ret ci
  | Some server =>
      do! not_with_url o "--server and --url options cannot be used at the same time" in
      match strchr x3a server with
      | Some (host, port) =>
          do! fprintf_stderr (bytes_of "Specifying the port number with --server is deprecated" ++ newline) in
          let! b := on_p_heap (malloc (zlen host + 1)) in
          match b with
          | None => undef
          | Some _ =>
              if 0 <=? amqp_port o then die (bytes_of "both --server and --port options specify server port")
              else
                let '(value, consumed) := strtol port in
                let value := swrap 32 value in
                if (value <? 0) || (65535 <? value) || (consumed =? 0) || negb (consumed =? zlen port) then
                  die (bytes_of "bad server port number in '" ++ server ++ bytes_of "'")
                else ret (ci_with_server host value ci)
          end
      | None => ret (ci_with_server server (if WITH_SSL && amqp_ssl o then 5671 else 5672) ci)
      end
  end.

Definition use_ssl (o : options) (ci : info) : eff P info :=
  if WITH_SSL && amqp_ssl o && negb (ci_ssl ci) then
    do! not_with_url o "the --ssl option specifies an SSL connection but the --url option does not" in
    ret (ci_with_ssl ci)
  else ret ci.

Definition use_port (o : options) (ci : info) : eff P info :=
  if 0 <=? amqp_port o then
    do! not_with_url o "--port and --url options cannot be used at the same time" in
    ret (ci_with_port (amqp_port o) ci)
  else ret ci.

(** [--username] or [--password], neither with a URL or an authfile *)
Definition use_credential (o : options) (value : option (list byte)) (with_url with_authfile : string)
    (set : list byte -> info -> info) (ci : info) : eff P info :=
  match value with
  | None => ret ci
  | Some v =>
      do! not_with_url o with_url in
      match amqp_authfile o with
      | Some _ => die (bytes_of with_authfile)
      | None => ret (set v ci)
      end
  end.

Definition use_authfile (o : options) (ci : info) : eff P info :=
  match amqp_authfile o with
  | None => ret ci
  | Some path =>
      do! not_with_url o "--authfile and --url options cannot be used at the same time" in
      let! '(u, p) := read_authfile path in
      ret (ci_with_password p (ci_with_user u ci))
  end.

Definition use_vhost (o : options) (ci : info) : eff P info :=
  match amqp_vhost o with
  | None => ret ci
  | Some v =>
      do! not_with_url o "--vhost and --url options cannot be used at the same time" in
      ret (ci_with_vhost v ci)
  end.

Definition init_connection_info (o : options) : eff P info :=
  let! ci := info_of_url o in
  let! ci := use_server o ci in
  let! ci := use_ssl o ci in
  let! ci := use_port o ci in
  let! ci := use_credential o (amqp_username o) "--username and --url options cannot be used at the same time"
               "--username and --authfile options cannot be used at the same time" ci_with_user ci in
  let! ci := use_credential o (amqp_password o) "--password and --url options cannot be used at the same time"
               "--password and --authfile options cannot be used at the same time" ci_with_password ci in
  let! ci := use_authfile o ci in
  let! ci := use_vhost o ci in
  if amqp_heartbeat o <? 0 then die (bytes_of "--heartbeat must be a positive value") else ret ci.

(** ** The command line *)

(** [popt]: its context, and the variables it has stored so far. *)
Class Popt (PC V : Type) := {
  poptGetContext : list (list byte) -> PC;
  poptGetNextOpt : PC -> Z * PC;
  poptBadOption : PC -> list byte;
  poptStrerror : Z -> list byte;
  poptUsage : PC -> list byte;                  (* poptPrintUsage(opts, stderr, 0) *)
  poptPeekArg : PC -> option (list byte);
  poptGetArgs : PC -> option (list (list byte));
  popt_vars : PC -> V;
}.

Context {PC V : Type} `{Popt PC V}.

(** [while ((c = poptGetNextOpt(opts)) >= 0)] *)
Fixpoint next_options (fuel : nat) (opts : PC) : eff P (Z * PC) :=
  match fuel with
  | O => nofuel
  | S fuel' =>
      let '(c, opts) := poptGetNextOpt opts in
      if 0 <=? c then next_options fuel' opts else ret (c, opts)
  end.

Definition process_options (fuel : nat) (argv : list (list byte)) : eff P PC :=
  let! '(c, opts) := next_options fuel (poptGetContext argv) in
  if c <? -1 then
    do! fprintf_stderr (poptBadOption opts ++ bytes_of ": " ++ poptStrerror c ++ newline) in
    do! fprintf_stderr (poptUsage opts) in exit 1
  else ret opts.

(** The variables of the program. *)
Definition process_all_options (fuel : nat) (argv : list (list byte)) : eff P V :=
  let! opts := process_options fuel argv in
  match poptPeekArg opts with
  | Some opt =>
      do! fprintf_stderr (bytes_of "unexpected operand: " ++ opt ++ newline) in
      do! fprintf_stderr (poptUsage opts) in exit 1
  | None => ret (popt_vars opts)
  end.

End Options.
