(* ===== verification/Sockets.v ===== *)
(** * Connections over sockets of either class

    [librabbitmq/amqp_socket.c] calls a socket through the class pointer at its start;
    a program that may make a TCP or a TLS socket has an environment of either kind. *)

From S2P Require Import Prelude Status Time Net.

Section Either.
Context {E1 E2 : Type} `{N1 : Net E1} `{N2 : Net E2}.

(** [self->klass->f(self, ...)] *)
Definition dispatch {A} (f1 : eff E1 A) (f2 : eff E2 A) : eff (E1 + E2) A := fun e =>
  match e with
  | inl e => let '(r, e) := f1 e in (r, inl e)
  | inr e => let '(r, e) := f2 e in (r, inr e)
  end.

Definition dispatch_answer {A} (f1 : E1 -> A * E1) (f2 : E2 -> A * E2) (e : E1 + E2) : A * (E1 + E2) :=
  match e with
  | inl e => let '(r, e) := f1 e in (r, inl e)
  | inr e => let '(r, e) := f2 e in (r, inr e)
  end.

Definition either_system : System (E1 + E2) := {|
  clock_gettime := dispatch_answer clock_gettime clock_gettime;
  poll fd ev ms := dispatch_answer (poll fd ev ms) (poll fd ev ms);
|}.

Definition either_class : Net (E1 + E2) := {|
  net_system := either_system;
  socket_send buf flags := dispatch (socket_send buf flags) (socket_send buf flags);
  socket_recv len := dispatch (socket_recv len) (socket_recv len);
  socket_open host port timeout := dispatch (socket_open host port timeout) (socket_open host port timeout);
  socket_get_sockfd e := match e with inl e => socket_get_sockfd e | inr e => socket_get_sockfd e end;
  socket_close force := dispatch (socket_close force) (socket_close force);
  socket_delete := dispatch socket_delete socket_delete;
|}.

(** When both classes keep their promises, so does a socket of either. *)
Definition either_laws `{!NetLaws E1} `{!NetLaws E2} : @NetLaws (E1 + E2) either_class.
Proof.
  refine (Build_NetLaws _ either_class (fun e => match e with inl e => outbox e | inr e => outbox e end) _ _ _ _ _); cbn;
    unfold dispatch, dispatch_answer.
  - intros [e|e] buf flags r e'; destruct (socket_send _ _ _) as [r1 e1] eqn:E1'; intros [= <- <-]; by eapply send_accepts in E1'.
  - intros [e|e] len bs e' Hl; destruct (socket_recv _ _) as [r1 e1] eqn:E1'; intros [= -> <-]; by eapply recv_fits in E1'.
  - intros [e|e] len r e'; destruct (socket_recv _ _) as [r1 e1] eqn:E1'; intros [= <- <-]; by eapply recv_outbox in E1'.
  - intros [e|e] c e'; destruct (clock_gettime _) as [r1 e1] eqn:E1'; intros [= <- <-]; by eapply clock_outbox in E1'.
  - intros [e|e] fd ev ms c e'; destruct (poll _ _ _ _) as [r1 e1] eqn:E1'; intros [= <- <-]; by eapply poll_outbox in E1'.
Defined.

End Either.
