(* ===== verification/Tools.v ===== *)
(** * Command-line tools: connecting, and the programs under [tools]

    [make_connection], [close_connection] and [copy_body] of [tools/common.c], and the
    programs [get.c], [publish.c], [declare_queue.c], [delete_queue.c] and [consume.c],
    over the library as it is modelled; a program starts with the memory of the process
    and no connection. *)

From Stdlib Require Import String.
From S2P Require Import Prelude Status Memory Layout Pool PoolMem Codec Table TableOps MethodCodec.
From S2P Require Import MethodTypes MethodDecode MethodEncode Properties Names Connection Time Url Net Posix ConnState.
From S2P Require Import Tcp OpenSsl Ssl Socket Rpc Wrappers Api Consumer Login Sockets Stdio ToolOpts.

Local Open Scope list_scope.
Local Open Scope Z_scope.

(** ** The options of the programs *)

Record get_options := mk_get { g_connect : options; g_queue : option (list byte) }.
Record declare_options := mk_declare { d_connect : options; d_queue : option (list byte); d_durable : Z }.
Record delete_options := mk_delete { x_connect : options; x_queue : option (list byte); x_if_unused : Z; x_if_empty : Z }.
Record publish_options := mk_publish {
  u_connect : options;
  u_exchange : option (list byte);
  u_routing_key : option (list byte);
  u_content_type : option (list byte);
  u_content_encoding : option (list byte);
  u_headers : option (list (list byte));
  u_reply_to : option (list byte);
  u_body : option (list byte);
  u_delivery : Z;
  u_line_buffered : bool;
}.
Record consume_options := mk_consume {
  c_connect : options;
  c_queue : option (list byte);
  c_exchange : option (list byte);
  c_routing_key : option (list byte);
  c_declare : bool;
  c_exclusive : Z;
  c_no_ack : Z;
  c_count : Z;
  c_prefetch_count : Z;
}.

Definition MAX_LINE_LENGTH : Z := 1024 * 32.
Definition AMQP_CONSUME_MAX_PREFETCH_COUNT : Z := 65535.

(** [strtok_r(s, ",", &rest)], all tokens *)
Fixpoint tokens (s acc : list byte) : list (list byte) :=
  match s with
  | [] => match acc with [] => [] | _ => [acc] end
  | b :: s' => if bool_decide (b = x2c) then match acc with [] => tokens s' [] | _ => acc :: tokens s' [] end
               else tokens s' (acc ++ [b])
  end.

(** The text of [stringify_bytes]. *)
Definition stringify_byte (b : byte) : list byte :=
  let v := b2z b in
  if (32 <=? v) && negb (v =? 127) then [b]
  else [x5c; z2b (48 + Z.shiftr v 6); z2b (48 + Z.land (Z.shiftr v 3) 7); z2b (48 + Z.land v 7)].
Definition stringify (bytes : list byte) : list byte := concat (map stringify_byte bytes).

Section Tools.
Context `{Host} {E IO : Type} `{Net E} `{Stdio IO}.
Context (garbage : addr -> Z -> list byte) (uninit : amqp_basic_properties_t) (heap_garbage : Z -> Z -> list byte).
Context (fuel : nat).

Notation P := (process E IO).

(** The status of a call of the library. *)
Definition lib_status {A} (m : eff (world E) A) : eff P Z := lib_ret (status m).

(** [amqp_get_rpc_reply(conn)] *)
Definition last_reply : eff P amqp_rpc_reply_t := lib_ret (on_k (fun k => (Ret (amqp_get_rpc_reply k), k))).

(** [if (!reply) die_rpc(amqp_get_rpc_reply(conn), msg);] *)
Definition or_die_rpc (m : eff (world E) (option method_t)) (msg : string) : eff P (option method_t) :=
  let! r := lib_ret m in
  match r with
  | Some _ => ret r
  | None => let! reply := last_reply in do! die_rpc reply (bytes_of msg) in ret None
  end.

(** ** The body of a message *)

Definition wait_frame (f : amqp_frame_t) (msg : string) : eff P amqp_frame_t :=
  let! r := lib (amqp_simple_wait_frame garbage uninit fuel f) in
  match r with
  | inl res => do! die_amqp_error res (bytes_of msg) in undef
  | inr frame => ret frame
  end.

(** [while (body_remaining)] *)
Fixpoint copy_loop (fuel' : nat) (fd : Z) (frame : amqp_frame_t) (body_remaining : Z) : eff P unit :=
  match fuel' with
  | O => nofuel
  | S fuel'' =>
      if body_remaining =? 0 then ret tt
      else
        let! frame := wait_frame frame "waiting for body frame" in
        if negb (frame_type frame =? AMQP_FRAME_BODY) then
          die (bytes_of "expected body, got frame type 0x" ++ sprintf_X 0 (frame_type frame))
        else
          match payload frame with
          | PL_body fragment =>
              do! write_all fuel fd fragment in
              copy_loop fuel'' fd frame (size_sub body_remaining (zlen fragment))
          | _ => undef
          end
  end.

Definition copy_body (fd : Z) : eff P unit :=
  let! frame := wait_frame uninit_frame "waiting for header frame" in
  if negb (frame_type frame =? AMQP_FRAME_HEADER) then
    die (bytes_of "expected header, got frame type 0x" ++ sprintf_X 0 (frame_type frame))
  else
    match payload frame with
    | PL_properties _ body_size _ _ => copy_loop fuel fd frame (wrap 64 body_size)
    | _ => undef
    end.

(** ** amqp-get *)

Definition do_get (queue : option (list byte)) : eff P bool :=
  let! r := lib_ret (amqp_basic_get garbage uninit fuel 1 (cstring_bytes queue) 1) in
  do! die_rpc r (bytes_of "basic.get") in
  if (reply r).1 =? AMQP_BASIC_GET_EMPTY_METHOD then ret false
  else do! copy_body 1 in ret true.

(** ** amqp-publish *)

Definition do_publish (exchange routing_key : option (list byte)) (props : amqp_basic_properties_t) (body : list byte)
    : eff P unit :=
  let! res := lib_status (amqp_basic_publish garbage uninit fuel 1 (cstring_bytes exchange) (cstring_bytes routing_key) 0 0
                (Some props) body) in
  die_amqp_error res (bytes_of "basic.publish").

(** The value without its leading blanks. *)
Fixpoint skip_blanks (s : list byte) : list byte :=
  match s with
  | b :: s' => if bool_decide (b = x20) then skip_blanks s' else s
  | [] => []
  end.

(** The entries that are filled; a header without a colon is reported. *)
Fixpoint header_entries (headers : list (list byte)) : eff P amqp_table_t :=
  match headers with
  | [] => ret []
  | h :: headers' =>
      match strchr x3a h with
      | Some (key, value) =>
          let! entries := header_entries headers' in ret ((key, FV_UTF8 (skip_blanks value)) :: entries)
      | None =>
          do! fprintf_stderr (bytes_of "Ignored header definition missing ':' delimiter in " ++ [x22] ++ h ++ [x22] ++ newline) in
          header_entries headers'
      end
  end.

(** An entry as [calloc] leaves it. *)
Definition empty_entry : amqp_table_entry_t := ([], FV_OTHER 0).

(** The flag and the table of the headers: all [num] entries count, filled or not. *)
Definition publish_headers (headers : option (list (list byte))) : eff P (Z * amqp_table_t * option Z) :=
  match headers with
  | None | Some [] => ret (0, [], None)
  | Some hs =>
      let! block := on_p_heap (calloc (zlen hs * sizeof layout_amqp_table_entry_t)) in
      match block with
      | None => undef
      | Some b =>
          let! entries := header_entries hs in
          ret (AMQP_BASIC_HEADERS_FLAG, entries ++ replicate (length hs - length entries) empty_entry, Some b)
      end
  end.

Definition flag_of (s : option (list byte)) (flag : Z) : Z := match s with Some _ => flag | None => 0 end.

Definition publish_properties (o : publish_options) (header_flag : Z) (headers : amqp_table_t) : amqp_basic_properties_t :=
  let flags := AMQP_BASIC_DELIVERY_MODE_FLAG in
  let flags := Z.lor flags (flag_of (u_content_type o) AMQP_BASIC_CONTENT_TYPE_FLAG) in
  let flags := Z.lor flags (flag_of (u_content_encoding o) AMQP_BASIC_CONTENT_ENCODING_FLAG) in
  let flags := Z.lor flags (flag_of (u_reply_to o) AMQP_BASIC_REPLY_TO_FLAG) in
  let flags := Z.lor flags header_flag in
  mk_basic_properties flags (cstring_bytes (u_content_type o)) (cstring_bytes (u_content_encoding o)) headers
    (wrap 8 (u_delivery o)) 0 [] (cstring_bytes (u_reply_to o)) [] [] 0 [] [] [] [].

(** [while (fgets(...))] *)
Fixpoint publish_lines (fuel' : nat) (o : publish_options) (props : amqp_basic_properties_t) : eff P unit :=
  match fuel' with
  | O => nofuel
  | S fuel'' =>
      let! line := stdio (fgets_stdin MAX_LINE_LENGTH) in
      match line with
      | None => ret tt
      | Some l =>
          do! do_publish (u_exchange o) (u_routing_key o) props (until_nul l) in
          publish_lines fuel'' o props
      end
  end.

(** From the connection to its end. *)
Definition publish_messages (o : publish_options) (props : amqp_basic_properties_t) (entries : option Z) : eff P unit :=
  let! '(body_bytes, block) :=
    match u_body o with
    | Some body => ret (body, None)
    | None =>
        if u_line_buffered o then
          let! b := on_p_heap (malloc MAX_LINE_LENGTH) in
          match b with
          | None => undef
          | Some b => do! publish_lines fuel o props in ret ([], Some b)
          end
        else let! '(b, bytes) := read_all fuel 0 in ret (bytes, Some b)
    end in
  do! (if u_line_buffered o then ret tt else do_publish (u_exchange o) (u_routing_key o) props body_bytes) in
  do! on_p_heap (free_ptr entries) in
  on_p_heap (free_ptr block).

(** ** amqp-consume *)

(** The string, in a block of its own. *)
Definition stringify_bytes (bytes : owned_bytes) : eff P (Z * list byte) :=
  let! res := on_p_heap (malloc (wrap 64 (o_len bytes * 4 + 1))) in
  match res with
  | None => undef
  | Some p => if amqp_bytes_malloc_dup_failed bytes then undef else ret (p, stringify (o_data bytes))
  end.

(** [die_rpc] for each key that is not bound; the keys are not counted. *)
Definition bind_key (queue exchange key : amqp_bytes_t) : eff P unit :=
  do! or_die_rpc (amqp_queue_bind garbage uninit fuel 1 queue exchange key []) "queue.bind" in ret tt.

Definition setup_queue (o : consume_options) : eff P amqp_bytes_t :=
  let queue_bytes := cstring_bytes (c_queue o) in
  match c_exchange o, c_routing_key o with
  | None, Some _ =>
      do! fprintf_stderr (bytes_of "--routing-key option requires an exchange name to be provided with --exchange" ++ newline) in
      exit 1
  | _, _ =>
      if bool_decide (c_queue o = None) || bool_decide (is_Some (c_exchange o)) || c_declare o || negb (c_exclusive o =? 0) then
        let! res := or_die_rpc (amqp_queue_declare garbage uninit fuel 1 queue_bytes 0 0 (c_exclusive o) 1 []) "queue.declare" in
        let! queue_bytes :=
          match c_queue o with
          | Some _ => ret queue_bytes
          | None =>
              match res with
              | Some (M_queue_declare_ok ok) =>
                  let! q := lib_ret (on_memory (amqp_bytes_malloc_dup (queue_declare_ok_queue ok))) in
                  let! '(p, sq) := stringify_bytes q in
                  do! fprintf_stderr (bytes_of "Server provided queue name: " ++ until_nul sq ++ newline) in
                  do! on_p_heap (free p) in
                  ret (o_data q)
              | _ => undef
              end
          end in
        match c_exchange o with
        | None => ret queue_bytes
        | Some exchange =>
            match c_routing_key o with
            | None => undef                                     (* strdup(NULL) *)
            | Some routing_key =>
                let! tmp := on_p_heap (malloc (zlen routing_key + 1)) in
                match tmp with
                | None =>
                    do! fprintf_stderr (bytes_of "could not allocate memory to parse routing key" ++ newline) in exit 1
                | Some t =>
                    do! for_each (bind_key queue_bytes exchange) (tokens routing_key []) in
                    do! on_p_heap (free t) in
                    ret queue_bytes
                end
            end
        end
      else ret queue_bytes
  end.

(** [count > 0 && count <= AMQP_CONSUME_MAX_PREFETCH_COUNT] *)
Definition is_limit (n : Z) : bool := (0 <? n) && (n <=? AMQP_CONSUME_MAX_PREFETCH_COUNT).

Definition set_qos (n : Z) : eff P unit :=
  do! or_die_rpc (amqp_basic_qos garbage uninit fuel 1 0 n 0) "basic.qos" in ret tt.

(** [for (i = 0; count < 0 || i < count; i++)]; every frame counts. *)
Fixpoint consume_loop (fuel' : nat) (no_ack count : Z) (argv : list (list byte)) (i : Z) : eff P unit :=
  match fuel' with
  | O => nofuel
  | S fuel'' =>
      if (count <? 0) || (i <? count) then
        let! frame := wait_frame uninit_frame "waiting for header frame" in
        let! other := lift_res (not_delivery frame) in
        do! (if other : bool then ret tt
             else
               match payload frame with
               | PL_method _ (M_basic_deliver d) =>
                   let! pl := pipeline argv in
                   do! copy_body pl.2 in
                   let! ok := finish_pipeline pl in
                   do! (if ok && (no_ack =? 0) then
                          let! res := lib_status (amqp_basic_ack garbage uninit fuel 1 (basic_deliver_delivery_tag d) 0) in
                          die_amqp_error res (bytes_of "basic.ack")
                        else ret tt) in
                   lib_ret (on_k amqp_maybe_release_buffers)
               | _ => undef
               end) in
        if bool_decide (in_s 32 (i + 1)) then consume_loop fuel'' no_ack count argv (i + 1) else undef
      else ret tt
  end.

Definition do_consume (queue : amqp_bytes_t) (no_ack count prefetch_count : Z) (argv : list (list byte)) : eff P unit :=
  do! (if is_limit count then set_qos count else ret tt) in
  do! (if is_limit prefetch_count then
         if is_limit count && (count <=? prefetch_count) then ret tt else set_qos prefetch_count
       else ret tt) in
  do! or_die_rpc (amqp_basic_consume garbage uninit fuel 1 queue [] 0 no_ack 0 []) "basic.consume" in
  consume_loop fuel no_ack count argv 0.

(** ** Closing *)

Definition close_connection : eff P unit :=
  let! r := lib_ret (amqp_channel_close garbage uninit fuel 1 AMQP_REPLY_SUCCESS) in
  do! die_rpc r (bytes_of "closing channel") in
  let! r := lib_ret (amqp_connection_close garbage uninit fuel AMQP_REPLY_SUCCESS) in
  do! die_rpc r (bytes_of "closing connection") in
  let! res := (fun p =>
    match p_conn p with
    | inl _ => (Undef, p)
    | inr k => let '(r, (m, e)) := amqp_destroy_connection (Some k) (k_mem k, p_env p) in (r, mk_process (inl m) e (p_io p))
    end) in
  die_amqp_error res (bytes_of "closing connection").

End Tools.
