(* ===== verification/Programs.v ===== *)
(** * Command-line tools: [make_connection] and the [main] functions

    A program may make a TCP or a TLS socket, so its environment is that of [Sockets.v].
    [Ret n] is a return of [n] from [main], [Err n] is [exit(n)]. *)

From Stdlib Require Import String.
From S2P Require Import Prelude Status Memory Layout Pool PoolMem Codec Table TableOps MethodCodec.
From S2P Require Import MethodTypes MethodDecode MethodEncode Properties Names Connection Time Url Net Posix ConnState.
From S2P Require Import Tcp OpenSsl Ssl Socket Rpc Wrappers Api Consumer Login Sockets Stdio ToolOpts Tools.

Local Open Scope list_scope.
Local Open Scope Z_scope.

Section Programs.
Context `{Host} `{Platform} `{OpenSSLMacros} {OS TLS IO : Type} `{Posix OS} `{!OpenSSL OS TLS} `{Stdio IO}.
Context (garbage : addr -> Z -> list byte) (uninit : amqp_basic_properties_t) (heap_garbage : Z -> Z -> list byte).
Context (fuel : nat).
Context (AMQ_PLATFORM : string) (sp : Z) (CHAR_MAX : Z) (WITH_SSL : bool).
(** OpenSSL before its first use. *)
Context (tls0 : TLS).

Notation E := (tcp_world OS + ssl_world OS TLS)%type.
Notation P := (process E IO).

#[local] Instance tool_net : Net E := @either_class _ _ (amqp_tcp_socket_class fuel) (amqp_ssl_socket_class fuel).

(** ** Connecting *)

(** A call on a connection whose socket is a TCP, or a TLS, socket. *)
Definition lib_tcp {A} (m : eff (world (tcp_world OS)) A) : eff P A := fun p =>
  match p_conn p, p_env p with
  | inr k, inl e =>
      let '(r, w) := m (mk_world k e) in
      (match r with Err _ => Undef | _ => r end, mk_process (inr (w_k w)) (inl (w_e w)) (p_io p))
  | _, _ => (Undef, p)
  end.
Definition lib_ssl {A} (m : eff (world (ssl_world OS TLS)) A) : eff P A := fun p =>
  match p_conn p, p_env p with
  | inr k, inr e =>
      let '(r, w) := m (mk_world k e) in
      (match r with Err _ => Undef | _ => r end, mk_process (inr (w_k w)) (inr (w_e w)) (p_io p))
  | _, _ => (Undef, p)
  end.

(** The static variables of [amqp_openssl.c] as a program finds them. *)
Definition static_library : ssl_library TLS := mk_library false 0 None false None tls0.

(** No socket yet: calls may go to either kind. *)
Definition choose_ssl : eff P unit := fun p =>
  match p_env p with
  | inl e => (Ret tt, mk_process (p_conn p) (inr (mk_ssl_world 0 new_ssl_socket (t_heap e) static_library (t_os e))) (p_io p))
  | inr _ => (Undef, p)
  end.

(** [None] is [NULL], which the next calls use. *)
Definition fresh_connection : eff P unit := fun p =>
  match p_conn p with
  | inr _ => (Undef, p)
  | inl m =>
      match amqp_new_connection heap_garbage (m, p_env p) with
      | (Ret (Some k), (_, e)) => (Ret tt, mk_process (inr k) e (p_io p))
      | (NoFuel, (m, e)) => (NoFuel, mk_process (inl m) e (p_io p))
      | (_, (m, e)) => (Undef, mk_process (inl m) e (p_io p))
      end
  end.

Definition make_ssl_socket (o : options) : eff P unit :=
  do! choose_ssl in
  let! socket := lib_ssl (amqp_ssl_socket_new fuel) in
  if negb socket then die (bytes_of "creating SSL/TLS socket")
  else
    do! match amqp_cacert o with
        | Some cacert => do! lib_ssl (on_env (amqp_ssl_socket_set_cacert cacert)) in ret tt
        | None => ret tt
        end in
    match amqp_key o, amqp_cert o with
    | Some key, Some cert => do! lib_ssl (on_env (amqp_ssl_socket_set_key cert key)) in ret tt
    | Some _, None => undef
    | None, _ => ret tt
    end.

Definition make_tcp_socket : eff P unit :=
  let! socket := lib_tcp (amqp_tcp_socket_new fuel) in
  if socket : bool then ret tt else die (bytes_of "creating TCP socket (out of memory)").

Definition make_connection (o : options) : eff P unit :=
  let! ci := init_connection_info CHAR_MAX WITH_SSL o in
  do! fresh_connection in
  do! (if ci_ssl ci then
         if WITH_SSL then make_ssl_socket o else die (bytes_of "librabbitmq was not built with SSL/TLS support")
       else make_tcp_socket) in
  let! status := lib_ret (amqp_socket_open (ci_host ci) (ci_port ci)) in
  do! (if negb (status =? 0) then
         die_amqp_error status (bytes_of "opening socket to " ++ ci_host ci ++ bytes_of ":" ++ sprintf_d (ci_port ci))
       else ret tt) in
  let! r := lib_ret (amqp_login garbage uninit heap_garbage fuel AMQ_PLATFORM sp (ci_vhost ci) 0 131072 (amqp_heartbeat o)
                       AMQP_SASL_METHOD_PLAIN [ci_user ci; ci_password ci]) in
  do! die_rpc r (bytes_of "logging in to AMQP server") in
  do! or_die_rpc (amqp_channel_open garbage uninit fuel 1) "opening channel" in
  ret tt.

(** ** The programs *)

Definition fail_with (msg : string) (code : Z) : eff P Z :=
  do! fprintf_stderr (bytes_of msg ++ newline) in ret code.

Definition get_main `{Popt PC get_options} (argv : list (list byte)) : eff P Z :=
  let! o := process_all_options fuel argv in
  match g_queue o with
  | None => fail_with "queue not specified" 1
  | Some queue =>
      do! make_connection (g_connect o) in
      let! got_something := do_get garbage uninit fuel (Some queue) in
      do! close_connection garbage uninit fuel in
      ret (if got_something : bool then 0 else 2)
  end.

Definition publish_main `{Popt PC publish_options} (argv : list (list byte)) : eff P Z :=
  let! o := process_all_options fuel argv in
  match u_exchange o, u_routing_key o with
  | None, None => fail_with "neither exchange nor routing key specified" 1
  | _, _ =>
      let! '(flag, headers, entries) := publish_headers (u_headers o) in
      do! make_connection (u_connect o) in
      do! publish_messages garbage uninit fuel o (publish_properties o flag headers) entries in
      do! close_connection garbage uninit fuel in
      ret 0
  end.

Definition declare_queue_main `{Popt PC declare_options} (argv : list (list byte)) : eff P Z :=
  let! o := process_all_options fuel argv in
  match d_queue o with
  | None => fail_with "queue name not specified" 1
  | Some queue =>
      do! make_connection (d_connect o) in
      let! reply := or_die_rpc (amqp_queue_declare garbage uninit fuel 1 queue 0 (d_durable o) 0 0 []) "queue.declare" in
      match reply with
      | Some (M_queue_declare_ok ok) =>
          let! text := lift_res (printf_bytes (queue_declare_ok_queue ok)) in
          do! io_do (print (text ++ newline)) in
          do! close_connection garbage uninit fuel in
          ret 0
      | _ => undef
      end
  end.

Definition delete_queue_main `{Popt PC delete_options} (argv : list (list byte)) : eff P Z :=
  let! o := process_all_options fuel argv in
  match x_queue o with
  | None | Some [] => fail_with "queue name not specified" 1
  | Some queue =>
      do! make_connection (x_connect o) in
      let! reply := or_die_rpc (amqp_queue_delete garbage uninit fuel 1 queue (x_if_unused o) (x_if_empty o)) "queue.delete" in
      match reply with
      | Some (M_queue_delete_ok ok) =>
          do! io_do (print (dec_digits 10 (queue_delete_ok_message_count ok) [] ++ newline)) in
          do! close_connection garbage uninit fuel in
          ret 0
      | _ => undef
      end
  end.

Definition consume_main `{Popt PC consume_options} (argv : list (list byte)) : eff P Z :=
  let! opts := process_options fuel argv in
  let o := popt_vars opts in
  match poptGetArgs opts with
  | None | Some [] =>
      do! fprintf_stderr (bytes_of "consuming command not specified" ++ newline) in
      do! fprintf_stderr (poptUsage opts) in
      ret 1
  | Some cmd_argv =>
      do! make_connection (c_connect o) in
      let! queue_bytes := setup_queue garbage uninit fuel o in
      do! do_consume garbage uninit fuel queue_bytes (c_no_ack o) (c_count o) (c_prefetch_count o) cmd_argv in
      do! close_connection garbage uninit fuel in
      ret 0
  end.

End Programs.
