(* ===== verification/ToolsSpec.v ===== *)
(** * Command-line tools: the theorems about [Stdio.v], [ToolOpts.v] and [Tools.v]

    What the tools read and write: standard input as a whole, the body of a message, the
    file with the credentials, and which options make which connection. *)

From Stdlib Require Import String.
From S2P Require Import Prelude Status Memory Layout Pool PoolMem PoolSep Codec Table TableSpec TableOps MethodCodec.
From S2P Require Import MethodTypes MethodDecode MethodEncode MethodSpec Properties PropertiesSpec.
From S2P Require Import Connection ConnectionSpec FrameSpec Time Url Net ConnState Socket QueueSpec SocketSpec RecvSpec.
From S2P Require Import Rpc RpcSpec Api ApiSpec Consumer ConsumerSpec Login Stdio ToolOpts Tools.

Local Open Scope list_scope.
Local Open Scope Z_scope.

(** What is still to be read from a descriptor, and what has been written to it. *)
Class StdioLaws (IO : Type) `{Stdio IO} := {
  input : Z -> IO -> list byte;
  output : Z -> IO -> list byte;
  read_takes fd n io r io' : 0 < n -> read fd n io = (r, io') ->
    match r with
    | inr bs => zlen bs <= n /\ input fd io = bs ++ input fd io' /\ (bs = [] -> input fd io = [])
    | inl _ => input fd io' = input fd io
    end;
  write_puts fd bs io r io' : bs <> [] -> write fd bs io = (r, io') ->
    match r with
    | inr n => 0 < n <= zlen bs /\ output fd io' = output fd io ++ ztake n bs
    | inl _ => output fd io' = output fd io
    end;
  eprint_apart fd m io : fd <> 2 -> output fd (eprint m io) = output fd io;
}.

Section Body.
Context `{Host} {E IO : Type} `{Net E} {Th : Then E} `{SI : Stdio IO} `{SL : !StdioLaws IO}.
Context (garbage : addr -> Z -> list byte) (uninit : amqp_basic_properties_t) (fuel : nat).
Hypothesis Hgarbage : forall a n, 0 <= n -> zlen (garbage a n) = n.

Notation P := (process E IO).

(** Dying leaves nothing but its message. *)
Lemma die_failed_exits {A} (e : positive) msg (p : P) fd : fd <> 2 ->
  exists p', die_failed (A := A) e msg p = (Err 1, p') /\ p_conn p' = p_conn p /\ p_env p' = p_env p /\
    output fd (p_io p') = output fd (p_io p).
Proof.
  intros Hfd. eexists. split; [reflexivity|]. split; [done|]. split; [done|]. cbn. by rewrite !eprint_apart.
Qed.

(** Everything is written, or a part and the program dies. *)
Lemma write_all_ends fd : fd <> 2 -> forall n data (p : P), (length data < n)%nat ->
  match write_all n fd data p with
  | (Ret _, p') => p_conn p' = p_conn p /\ p_env p' = p_env p /\ output fd (p_io p') = output fd (p_io p) ++ data
  | (Err code, p') => code = 1 /\ exists bs, bs `prefix_of` data /\ output fd (p_io p') = output fd (p_io p) ++ bs
  | _ => False
  end.
Proof.
  intros Hfd. induction n as [|n IH]; intros data p Hn; [lia|]. cbn [write_all].
  destruct data as [|b data0] eqn:Ed; [cbn; by rewrite app_nil_r|]. rewrite <- Ed in *. assert (Hne : data <> []) by by subst.
  clear Ed. unfold bind at 1, stdio. destruct (write fd data (p_io p)) as [r io] eqn:Ew. pose proof (write_puts _ _ _ _ _ Hne Ew) as Hw.
  destruct r as [e|k].
  - destruct (die_failed_exits (A := unit) e (bytes_of "write") (mk_process (p_conn p) (p_env p) io) fd Hfd) as (p' & -> & _ & _ & Ho).
    split; [done|]. exists []. split; [apply prefix_nil|]. rewrite Ho. cbn. by rewrite Hw, app_nil_r.
  - destruct Hw as [Hk Ho]. rewrite (proj2 (Z.leb_le 0 k)), (proj2 (Z.leb_le k (zlen data))) by lia. cbn [andb].
    specialize (IH (zdrop k data) (mk_process (p_conn p) (p_env p) io)).
    assert (Hl : (length (zdrop k data) < n)%nat) by (unfold zdrop, zlen in *; rewrite length_drop; lia). specialize (IH Hl).
    destruct (write_all n fd (zdrop k data) _) as [[[]|code| |] p']; try done; cbn in IH; rewrite Ho in IH.
    + destruct IH as (? & ? & ->). by rewrite <- app_assoc, ztake_zdrop.
    + destruct IH as (-> & bs & Hb & ->). split; [done|]. exists (ztake k data ++ bs). split; [|by rewrite app_assoc].
      rewrite <- (ztake_zdrop data k) at 2. by apply prefix_app.
Qed.

(** The next frame for the application, as a program gets it. *)
Lemma wait_frame_gets S F L hbs f fs n k e cs f0 msg (io : IO) :
  Forall (fun h => is_heartbeat h = true) hbs -> is_heartbeat f = false ->
  ready S F L (costs (hbs ++ f :: fs)) [] k -> Forall (acceptable (k_in k)) (hbs ++ f :: fs) -> delivers L e cs n ->
  window k ++ concat cs = wires (hbs ++ f :: fs) -> (2 * n + length (hbs ++ f :: fs) + 1 <= fuel)%nat ->
  exists k1 e1 cs1 n1, (n1 <= n)%nat /\ ready S F L (costs fs) [] k1 /\ Forall (acceptable (k_in k1)) fs /\
    delivers L e1 cs1 n1 /\ window k1 ++ concat cs1 = wires fs /\
    wait_frame garbage uninit fuel f0 msg (mk_process (inr k) e io) = (Ret (received uninit f), mk_process (inr k1) e1 io).
Proof.
  intros Hhb Hf Hrd Hall Hd Hw Hfu. assert (Hp : (pending k <= 1)%nat) by (unfold pending; case_decide; lia).
  destruct (wait_next garbage uninit fuel Hgarbage S F L 0 hbs n k e cs f0 f fs fuel [] Hhb Hf ltac:(lia) Hrd Hall Hd Hw
              ltac:(lia) ltac:(lia)) as (k1 & e1 & cs1 & n1 & Hn1 & Hrd1 & Hset & Hd1 & Hw1 & E1).
  exists k1, e1, cs1, n1. split; [done|]. split; [done|]. split.
  { apply Forall_app in Hall as [_ Hall]. apply Forall_cons in Hall as [_ Hall]. by apply (all_acceptable _ _ _ Hset). }
  split; [done|]. split; [done|].
  pose proof (simple_wait_queue garbage uninit fuel k e f0 [] (rd_queue _ _ _ _ _ _ Hrd)) as Eq. cbv iota in Eq.
  unfold wait_frame_inner in Eq. rewrite E1 in Eq. unfold wait_frame, bind at 1, lib. cbn [p_conn p_env p_io].
  by rewrite (try_ok _ _ _ _ Eq).
Qed.

(** Either [body] has been written and [more] is still to come, or the program has died
    after a part of [body]. *)
Definition copied (L fd : Z) (io : IO) (body : list byte) (more : list amqp_frame_t) (r : res unit * P) : Prop :=
  match r with
  | (Ret _, p') => output fd (p_io p') = output fd io ++ body /\
      exists k1 cs1 n1 fs1, p_conn p' = inr k1 /\ delivers L (p_env p') cs1 n1 /\ window k1 ++ concat cs1 = wires fs1 /\
        for_application fs1 = more
  | (Err code, p') => code = 1 /\ exists bs, bs `prefix_of` body /\ output fd (p_io p') = output fd io ++ bs
  | _ => False
  end.

(** After [bs] has been written. *)
Lemma copied_after L fd io io' bs body more r : output fd io' = output fd io ++ bs ->
  copied L fd io' body more r -> copied L fd io (bs ++ body) more r.
Proof.
  intros Ho. destruct r as [[[]|code| |] p']; cbn; try done; rewrite Ho.
  - intros [-> ?]. by rewrite app_assoc.
  - intros (-> & bs' & Hp & ->). split; [done|]. exists (bs ++ bs'). split; [by apply prefix_app|by rewrite app_assoc].
Qed.

(** The frames of the bodies are written out one by one. *)
Lemma copy_loop_ends S F L ch fd more : fd <> 2 -> forall bodies m fs n k e cs f0 (io : IO),
  for_application fs = map (body_frame ch) bodies ++ more -> Forall (fun bs => bs <> []) bodies ->
  zlen (concat bodies) < 2 ^ 62 ->
  ready S F L (costs fs) [] k -> Forall (acceptable (k_in k)) fs -> delivers L e cs n -> window k ++ concat cs = wires fs ->
  (2 * n + length fs + 1 <= fuel)%nat -> (length (concat bodies) < fuel)%nat -> (length bodies < m)%nat ->
  copied L fd io (concat bodies) more (copy_loop garbage uninit fuel m fd f0 (zlen (concat bodies)) (mk_process (inr k) e io)).
Proof.
  intros Hfd. induction bodies as [|bs bodies IH]; intros [|m] fs n k e cs f0 io Hfs Hne Hlen Hrd Hall Hd Hw Hfu Hb Hm;
    try (simpl in Hm; lia); cbn [copy_loop].
  - cbn. split; [by rewrite app_nil_r|]. by exists k, cs, n, fs.
  - apply Forall_cons in Hne as [Hbs Hne]. cbn [concat map app] in *. rewrite zlen_app in Hlen. rewrite length_app in Hb. rewrite zlen_app.
    assert (0 < zlen bs) by (destruct bs; [done|unfold zlen; simpl; lia]). pose proof (zlen_nonneg (concat bodies)).
    rewrite (proj2 (Z.eqb_neq _ _)) by lia.
    destruct (application_split fs _ _ Hfs) as (hbs & fs' & -> & Hhb & Hf & Hfs').
    destruct (wait_frame_gets S F L hbs (body_frame ch bs) fs' n k e cs f0 "waiting for body frame" io Hhb Hf Hrd Hall Hd Hw Hfu)
      as (k1 & e1 & cs1 & n1 & Hn1 & Hrd1 & Hall1 & Hd1 & Hw1 & E1).
    rewrite (bind_step _ _ _ _ _ E1). cbn [received body_frame frame_type payload channel]. cbn [negb Z.eqb Pos.eqb AMQP_FRAME_BODY].
    unfold bind at 1. pose proof (write_all_ends fd Hfd fuel bs (mk_process (inr k1) e1 io) ltac:(lia)) as Hwr.
    destruct (write_all fuel fd bs _) as [[[]|code| |] p']; try done; cbn [p_conn p_env p_io] in Hwr.
    + destruct Hwr as (Ec & Ee & Ho). destruct p' as [c e' io']. cbn in Ec, Ee, Ho. subst c e'.
      assert (Er : size_sub (zlen bs + zlen (concat bodies)) (zlen bs) = zlen (concat bodies)).
      { unfold size_sub. rewrite Z.add_simpl_l. apply wrap_small. unfold in_u. lia. }
      rewrite Er. rewrite length_app in Hfu. simpl in Hfu, Hm.
      specialize (IH m fs' n1 k1 e1 cs1 (body_frame ch bs) io' Hfs' Hne ltac:(lia) Hrd1 Hall1 Hd1 Hw1 ltac:(lia) ltac:(lia) ltac:(lia)).
      change (received uninit (body_frame ch bs)) with (body_frame ch bs).
      exact (copied_after L fd io io' bs _ more _ Ho IH).
    + destruct Hwr as (-> & bs' & Hp & Ho). split; [done|]. exists bs'. split; [|exact Ho]. by apply prefix_app_r.
Qed.

(** C8: A body comes out whole: when the peer sends the header and the body of a message, in
    any fragments, with heartbeats in between and the bytes cut into any pieces,
    [copy_body] writes exactly the body to its descriptor, however little each [write]
    takes, and leaves later frames unread; if a [write] fails the program exits with 1
    and has written a part from the start. *)
Theorem body_copied S F L ch fd p body bodies more stream n k (e : E) cs (io : IO) :
  fd <> 2 -> for_application stream = header_frame ch p body :: map (body_frame ch) bodies ++ more ->
  concat bodies = body -> Forall (fun bs => bs <> []) bodies -> zlen body < 2 ^ 62 ->
  ready S F L (costs stream) [] k -> Forall (acceptable (k_in k)) stream -> delivers L e cs n ->
  window k ++ concat cs = wires stream -> (2 * n + length stream + length body + 1 <= fuel)%nat ->
  copied L fd io body more (copy_body garbage uninit fuel fd (mk_process (inr k) e io)).
Proof.
  intros Hfd Hst <- Hne Hlen Hrd Hall Hd Hw Hfu. unfold copy_body.
  destruct (application_split stream _ _ Hst) as (hbs & fs & -> & Hhb & Hf & Hfs).
  destruct (wait_frame_gets S F L hbs (header_frame ch p (concat bodies)) fs n k e cs uninit_frame "waiting for header frame" io
              Hhb Hf Hrd Hall Hd Hw ltac:(lia)) as (k1 & e1 & cs1 & n1 & Hn1 & Hrd1 & Hall1 & Hd1 & Hw1 & E1).
  rewrite (bind_step _ _ _ _ _ E1). cbn [received header_frame frame_type payload channel].
  cbn [negb Z.eqb Pos.eqb AMQP_FRAME_HEADER]. pose proof (zlen_nonneg (concat bodies)). rewrite wrap_small by (unfold in_u; lia).
  rewrite length_app in Hfu. simpl in Hfu.
  assert (Hm : (length bodies < fuel)%nat).
  { pose proof (f_equal length Hfs) as Hl. rewrite length_app, length_map in Hl.
    pose proof (length_filter (fun f => is_heartbeat f = false) fs) as Hx. unfold for_application in Hl. lia. }
  apply (copy_loop_ends S F L ch fd more Hfd bodies fuel fs n1 k1 e1 cs1 _ io); try done; lia.
Qed.

End Body.

(** ** Standard input *)

Section Input.
Context {E IO : Type} `{SI : Stdio IO} `{SL : !StdioLaws IO}.

Notation P := (process E IO).

Definition p_heap (p : P) : heap := match p_conn p with inl m => m_heap m | inr k => m_heap (k_mem k) end.
Definition with_heap (h : heap) (p : P) : P :=
  mk_process (match p_conn p with
              | inl m => inl (set_heap m h)
              | inr k => inr (set_mem (set_heap (k_mem k) h) k)
              end) (p_env p) (p_io p).
Definition with_io (io : IO) (p : P) : P := mk_process (p_conn p) (p_env p) io.

Lemma p_heap_with h p : p_heap (with_heap h p) = h.
Proof. by destruct p as [[m|k] e io]. Qed.

(** Only the heap and what the system keeps have changed. *)
Definition reached (p p' : P) : Prop := exists h io, p' = with_io io (with_heap h p).

#[global] Instance reached_preorder : PreOrder reached.
Proof.
  split.
  - intros p. exists (p_heap p), (p_io p). by destruct p as [[[]|[? [? ? ? ? ? ? ? []]]] ? ?].
  - intros p ? ? (h & io & ->) (h' & io' & ->). exists h', io'. by destruct p as [[m|k] e io0].
Qed.

Lemma reached_heap h (p : P) : reached p (with_heap h p).
Proof. exists h, (p_io p). by destruct p as [[m|k] e io]. Qed.

Lemma reached_io io (p : P) : reached p (mk_process (p_conn p) (p_env p) io).
Proof. exists (p_heap p), io. by destruct p as [[[]|[? [? ? ? ? ? ? ? []]]] ? ?]. Qed.

(** A request of the heap changes nothing else. *)
Lemma on_p_heap_step {A} (m : eff heap A) (p : P) r h : m (p_heap p) = (r, h) -> on_p_heap m p = (r, with_heap h p).
Proof. destruct p as [[mem|k] e io]; cbn; intros Em; unfold on_p_heap, on_mem, on_m_heap; cbn; by rewrite Em. Qed.

Lemma on_p_heap_io {A} (m : eff heap A) (p : P) r p' : on_p_heap m p = (r, p') -> p_io p' = p_io p.
Proof. destruct p as [[mem|k] e io]; unfold on_p_heap; cbn; by destruct (on_m_heap _ _) || destruct (on_mem _ _); intros [= _ <-]. Qed.

(** Besides the blocks [L] there is the block [b] of [space] bytes, and nothing is refused. *)
Definition owns (L : gmap Z Z) (h : heap) (b space : Z) : Prop :=
  h_refuse h = [] /\ heap_ok h /\ L !! b = None /\ h_live h = <[b := space]> L.

Lemma malloc_owns n h : h_refuse h = [] -> heap_ok h ->
  exists b h', malloc n h = (Ret (Some b), h') /\ owns (h_live h) h' b n.
Proof.
  intros Hr Hok. unfold malloc. rewrite Hr. do 2 eexists. split; [done|]. split; [done|].
  split; [by apply heap_ok_insert|]. split; [|done]. apply eq_None_not_Some. intros [s Hs]. apply Hok in Hs. lia.
Qed.

Lemma realloc_owns L b s n h : owns L h b s -> exists b' h', realloc b n h = (Ret (Some b'), h') /\ owns L h' b' n.
Proof.
  intros (Hr & Hok & Hb & Hl). assert (Hlb : h_live h !! b = Some s) by (rewrite Hl; apply lookup_insert_eq).
  pose proof (heap_fresh h b s Hok Hlb) as Hne. unfold realloc, malloc, bind, free. rewrite Hr. cbn [h_live h_next].
  rewrite lookup_insert_ne, Hlb by done. do 2 eexists. split; [done|]. split; [done|]. split; [|split].
  - intros c sz Hc. cbn in Hc. apply lookup_delete_Some in Hc as [_ Hc]. by eapply (heap_ok_insert h n []).
  - apply eq_None_not_Some. intros [z Hz]. specialize (Hok (h_next h) z). rewrite Hl, lookup_insert_ne in Hok by done.
    apply Hok in Hz. lia.
  - cbn. rewrite Hl, insert_insert_ne by done. apply delete_insert_id. by rewrite lookup_insert_ne by done.
Qed.

Lemma free_owns L b s h : owns L h b s ->
  exists h', free b h = (Ret tt, h') /\ h_refuse h' = [] /\ heap_ok h' /\ h_live h' = L.
Proof.
  intros (Hr & Hok & Hb & Hl). unfold free. rewrite Hl, lookup_insert_eq. eexists. split; [done|]. split; [done|]. split.
  - intros c sz Hc. cbn in Hc. apply lookup_delete_Some in Hc as [_ Hc]. apply (Hok c sz). by rewrite Hl.
  - cbn. by apply delete_insert_id.
Qed.

(** Some read has been interrupted. *)
Definition read_interrupted (fd : Z) : Prop := exists n (io io' : IO), read fd n io = (inl eintr, io').

(** Everything is read into a block [b] besides [L], after the bytes [bytes]. *)
Definition all_read (fd : Z) (L : gmap Z Z) (bytes : list byte) (p : P) (b : Z) (bs : list byte) (p' : P) : Prop :=
  bs = bytes ++ input fd (p_io p) /\ reached p p' /\ input fd (p_io p') = [] /\
  exists s, owns L (p_heap p') b s /\ zlen bs < s.

Lemma read_all_loop_ends fd L : forall n b space bytes (p : P),
  owns L (p_heap p) b space -> zlen bytes < space < 2 ^ 63 -> zlen bytes + zlen (input fd (p_io p)) < 2 ^ 62 ->
  match read_all_loop n fd b space bytes p with
  | (Ret (b', bs), p') => all_read fd L bytes p b' bs p'
  | (Err code, p') => code = 1 /\ p_env p' = p_env p
  | (NoFuel, _) => (n <= length (input fd (p_io p)))%nat \/ read_interrupted fd
  | (Undef, _) => False
  end.
Proof.
  induction n as [|n IH]; intros b space bytes p Hh Hs Hlen; [left; lia|]. cbn [read_all_loop].
  pose proof (zlen_nonneg bytes).
  assert (Ess : size_sub space (zlen bytes) = space - zlen bytes) by (unfold size_sub; apply wrap_small; unfold in_u; lia).
  rewrite Ess. unfold bind at 1, stdio. destruct (read fd _ (p_io p)) as [r io] eqn:Er.
  pose proof (read_takes fd (space - zlen bytes) _ _ _ ltac:(lia) Er) as Hr. pose proof (reached_io io p) as Hp1.
  set (p1 := mk_process (p_conn p) (p_env p) io) in *. assert (Hh1 : owns L (p_heap p1) b space) by exact Hh.
  destruct r as [e|[|x bs]].
  - destruct (Pos.eqb_spec e eintr) as [->|_]; [|done].
    specialize (IH b space bytes p1 Hh1 Hs). cbn in IH. rewrite Hr in IH. specialize (IH Hlen).
    destruct (read_all_loop _ _ _ _ _ _) as [[[b' bs]|code| |] p']; try done; [|right; by do 3 eexists].
    destruct IH as (Eb & Hp' & Hx). split; [rewrite Eb; cbn; by rewrite Hr|]. split; [by transitivity p1|exact Hx].
  - destruct Hr as (_ & Ei & He). specialize (He eq_refl). cbn in Ei. cbn. unfold all_read. rewrite He, app_nil_r.
    split; [done|]. split; [done|]. split; [by rewrite <- He|]. exists space. split; [exact Hh|lia].
  - destruct Hr as (Hl & Ei & _). set (bs' := x :: bs) in *. rewrite (proj2 (Z.leb_le _ _)) by lia.
    assert (Hpos : 0 < zlen bs') by (unfold bs', zlen; simpl; lia). rewrite Ei, zlen_app in Hlen.
    pose proof (zlen_nonneg (input fd io)).
    assert (Hnext : forall b' space' (p2 : P), owns L (p_heap p2) b' space' -> reached p1 p2 -> p_io p2 = io -> p_env p2 = p_env p ->
      zlen (bytes ++ bs') < space' < 2 ^ 63 ->
      match read_all_loop n fd b' space' (bytes ++ bs') p2 with
      | (Ret (b', bs), p') => all_read fd L bytes p b' bs p'
      | (Err code, p') => code = 1 /\ p_env p' = p_env p
      | (NoFuel, _) => (S n <= length (input fd (p_io p)))%nat \/ read_interrupted fd
      | (Undef, _) => False
      end).
    { intros b' space' p2 Hh' Hp2 Eio Ee Hs'. specialize (IH b' space' (bytes ++ bs') p2 Hh' Hs'). rewrite Eio, Ee, zlen_app in IH.
      specialize (IH ltac:(lia)). destruct (read_all_loop _ _ _ _ _ _) as [[[b'' bs'']|code| |] p'']; try done.
      - destruct IH as (Eb & Hp' & Hx). split; [by rewrite Eb, Eio, Ei, app_assoc|].
        split; [transitivity p1; [done|by transitivity p2]|exact Hx].
      - destruct IH as [IH|IH]; [left|by right]. rewrite Ei, length_app. unfold bs'. simpl. lia. }
    destruct (Z.eqb_spec (zlen (bytes ++ bs')) space) as [E1|Hne].
    + assert (Hw : wrap 64 (space * 2) = space * 2) by (apply wrap_small; unfold in_u; rewrite zlen_app in E1; lia). rewrite Hw.
      destruct (realloc_owns L b space (space * 2) _ Hh1) as (b' & h' & E2 & Hh').
      rewrite (bind_step _ _ _ _ _ (on_p_heap_step _ _ _ _ E2)).
      apply Hnext; [by rewrite p_heap_with|apply reached_heap|done..|]. rewrite zlen_app in E1. rewrite zlen_app. lia.
    + apply Hnext; try done. rewrite zlen_app in *. lia.
Qed.

Lemma read_all_ends fuel fd (p : P) : h_refuse (p_heap p) = [] -> heap_ok (p_heap p) -> zlen (input fd (p_io p)) < 2 ^ 62 ->
  (length (input fd (p_io p)) < fuel)%nat ->
  match read_all fuel fd p with
  | (Ret (b, bytes), p') => all_read fd (h_live (p_heap p)) [] p b bytes p'
  | (Err code, p') => code = 1 /\ p_env p' = p_env p
  | (NoFuel, _) => read_interrupted fd
  | (Undef, _) => False
  end.
Proof.
  intros Hr Hok Hlen Hfu. unfold read_all.
  destruct (malloc_owns READ_ALL_SPACE _ Hr Hok) as (b & h1 & E1 & Hh). rewrite (bind_step _ _ _ _ _ (on_p_heap_step _ _ _ _ E1)).
  pose proof (read_all_loop_ends fd (h_live (p_heap p)) fuel b READ_ALL_SPACE [] (with_heap h1 p)) as Hx. rewrite p_heap_with in Hx.
  specialize (Hx Hh ltac:(unfold READ_ALL_SPACE; change (zlen []) with 0; lia) ltac:(change (zlen []) with 0; cbn; lia)).
  destruct (read_all_loop _ _ _ _ _ _) as [[[b' bs]|code| |] p']; try done.
  - destruct Hx as (-> & Hp & Hx). split; [done|]. split; [|done]. by transitivity (with_heap h1 p); [apply reached_heap|].
  - destruct Hx as [Hx|Hx]; [cbn in Hx; lia|done].
Qed.

End Input.

(** ** Publishing standard input *)

Section Publishing.
Context `{Host} {E IO : Type} `{Net E} `{SI : Stdio IO} `{SL : !StdioLaws IO}.
Context (garbage : addr -> Z -> list byte) (uninit : amqp_basic_properties_t) (fuel : nat).

Notation P := (process E IO).

(** What remains after [free(p)]. *)
Definition after_free (ptr : option Z) (L : gmap Z Z) : gmap Z Z := match ptr with Some b => delete b L | None => L end.

(** The two blocks at the end of the program. *)
Lemma frees_both L ptr b s (p : P) : owns L (p_heap p) b s -> match ptr with Some a => is_Some (L !! a) | None => True end ->
  exists h, (do! on_p_heap (free_ptr ptr) in on_p_heap (free b)) p = (Ret tt, with_heap h p) /\
            h_live h = after_free ptr L.
Proof.
  intros Ho Hptr. destruct ptr as [a|].
  - destruct Hptr as [sz Ha]. destruct Ho as (Hr & Hok & Hb & Hl). assert (Hne : a <> b) by congruence.
    eexists. split.
    + unfold free_ptr. erewrite bind_step.
      2:{ apply on_p_heap_step. unfold free. rewrite Hl, lookup_insert_ne, Ha by done. done. }
      erewrite on_p_heap_step.
      2:{ rewrite p_heap_with. unfold free. cbn [h_live]. rewrite lookup_delete_ne, lookup_insert_eq by done. done. }
      by destruct p as [[m|k] e io].
    + cbn. rewrite delete_delete. by rewrite delete_insert_id.
  - destruct (free_owns _ _ _ _ Ho) as (h & Eh & _ & _ & Hl). exists h. split; [|done].
    rewrite (bind_step _ _ p tt p); [by apply on_p_heap_step|]. destruct p as [[m|k] e io]; cbn; unfold on_p_heap, on_mem, on_m_heap; cbn.
    + by destruct m.
    + by destruct k as [? [? ? ? ? ? ? ? []]].
Qed.

(** The message goes out, and nothing else of the process changes. *)
Lemma do_publish_sends o props body (p : P) k e' :
  let n := c_frame_max (k_in k) - 8 in
  let m := publish_method (cstring_bytes (u_exchange o)) (cstring_bytes (u_routing_key o)) 0 0 in
  p_conn p = inr k -> can_send k -> b_len (k_outbound k) = n + 8 -> 0 < n -> zlen body < 2 ^ 62 ->
  method_ok m -> zlen (wire_frame (mk_frame AMQP_FRAME_METHOD 1 (PL_method (method_id m) m))) <= n + 8 ->
  properties_ok (P_basic props) -> zlen (wire_frame (header_frame 1 props body)) <= n + 8 ->
  (length body < fuel)%nat -> taken fuel (p_env p) (message_frames 1 n m props body) e' ->
  exists ob, do_publish garbage uninit fuel (u_exchange o) (u_routing_key o) props body p
             = (Ret tt, mk_process (inr (set_outbound ob k)) e' (p_io p)).
Proof.
  intros n m Hc Hk Hb Hn Hbody Hm Hfit1 Hp Hfit2 Hfu Ht. destruct p as [c e io]. cbn in *. subst c.
  destruct (publish_runs garbage uninit fuel 1 (cstring_bytes (u_exchange o)) (cstring_bytes (u_routing_key o)) 0 0 (Some props) body
              k e e') as [ob Eob]; try done.
  exists ob. unfold do_publish, lib_status, lib_ret. unfold bind at 1. unfold bind at 1. unfold lib, try, status. cbn [p_conn p_env].
  by rewrite Eob.
Qed.

(** Either everything has been sent and freed, or the program has died without sending. *)
Definition published (p : P) (entries : option Z) (e' : E) (r : res unit * P) : Prop :=
  match r with
  | (Ret _, p') => p_env p' = e' /\ input 0 (p_io p') = [] /\ h_live (p_heap p') = after_free entries (h_live (p_heap p))
  | (Err code, p') => code = 1 /\ p_env p' = p_env p
  | (NoFuel, _) => read_interrupted (IO := IO) 0
  | (Undef, _) => False
  end.

(** C9: What comes in goes out: without [--body] and [--line-buffered], on a heap that
    refuses nothing and a socket that takes what it is given, [amqp-publish] sends one
    message whose body is the whole of standard input, in whatever pieces it comes, and
    frees the block it read it into and the entries of the headers; if a read fails
    it exits with 1 and has sent nothing.  It ends unless reads are interrupted. *)
Theorem stdin_published o props entries (p : P) k e' :
  let body := input 0 (p_io p) in
  let n := c_frame_max (k_in k) - 8 in
  let m := publish_method (cstring_bytes (u_exchange o)) (cstring_bytes (u_routing_key o)) 0 0 in
  u_body o = None -> u_line_buffered o = false ->
  p_conn p = inr k -> h_refuse (p_heap p) = [] -> heap_ok (p_heap p) ->
  match entries with Some b => is_Some (h_live (p_heap p) !! b) | None => True end ->
  can_send k -> b_len (k_outbound k) = n + 8 -> 0 < n -> zlen body < 2 ^ 62 ->
  method_ok m -> zlen (wire_frame (mk_frame AMQP_FRAME_METHOD 1 (PL_method (method_id m) m))) <= n + 8 ->
  properties_ok (P_basic props) -> zlen (wire_frame (header_frame 1 props body)) <= n + 8 ->
  (length body < fuel)%nat -> taken fuel (p_env p) (message_frames 1 n m props body) e' ->
  published p entries e' (publish_messages garbage uninit fuel o props entries p).
Proof.
  intros body n m Hob Hol Hc Hr Hok Hent Hk Hb Hn Hbody Hm Hfit1 Hp Hfit2 Hfu Ht. unfold publish_messages. rewrite Hob, Hol.
  pose proof (read_all_ends fuel 0 p Hr Hok Hbody Hfu) as Hall. unfold bind at 1. unfold bind at 1.
  destruct (read_all fuel 0 p) as [[[b bytes]|code| |] p1]; try done.
  destruct Hall as (Eb & (h & io & Ep) & Hi & s & Ho & _). cbn [app] in Eb. subst bytes. fold body.
  assert (Hl : owns (h_live (p_heap p)) (p_heap p1) b s) by exact Ho. clear Ho.
  assert (Ec : exists mem, p_conn p1 = inr (set_mem mem k)) by (subst p1; unfold with_heap; rewrite Hc; by eexists).
  destruct Ec as [mem Ec]. assert (Ee : p_env p1 = p_env p) by by subst p1. rewrite <- Ee in Ht.
  destruct (do_publish_sends o props body p1 (set_mem mem k) e' Ec) as [ob Epub]; try done.
  cbn. rewrite (bind_step _ _ _ _ _ Epub).
  destruct (frees_both (h_live (p_heap p)) entries b s (mk_process (inr (set_outbound ob (set_mem mem k))) e' (p_io p1)))
    as (h2 & -> & Hl2); [|done|].
  - unfold p_heap in Hl at 2. by rewrite Ec in Hl.
  - split; [done|]. split; [exact Hi|]. by rewrite p_heap_with.
Qed.

End Publishing.

(** ** The file with the credentials *)

(** A value that a line can hold. *)
Definition clean (v : list byte) : Prop := Forall (fun b => b <> x0a /\ b <> x00) v.

Lemma take_line_spec n s l r : take_line n s = (l, r) -> s = l ++ r /\ (length l <= n)%nat /\
  (Forall (fun b => b <> x0a) l \/ exists l', l = l' ++ [x0a] /\ Forall (fun b => b <> x0a) l').
Proof.
  revert s l r. induction n as [|n IH]; intros s l r; cbn; [by intros [= <- <-]; split; [|split; [|left]]|].
  destruct s as [|b s]; [by intros [= <- <-]; split; [|split; [simpl; lia|left]]|].
  case_bool_decide as Hb.
  - intros [= <- <-]. split; [done|]. split; [simpl; lia|]. right. exists []. by subst.
  - destruct (take_line n s) as [l1 r1] eqn:E1. intros [= <- <-]. apply IH in E1 as (-> & Hl & Hn). split; [done|].
    split; [simpl; lia|]. destruct Hn as [Hn|(l' & -> & Hn)]; [left; by constructor|right].
    exists (b :: l'). split; [done|by constructor].
Qed.

Lemma take_line_clean n v rest : clean v -> (length v < n)%nat -> take_line n (v ++ x0a :: rest) = (v ++ [x0a], rest).
Proof.
  revert n. induction v as [|b v IH]; intros [|n] Hv Hn; cbn in *; try lia; [done|].
  apply Forall_cons in Hv as [[Hb _] Hv]. rewrite bool_decide_false by done. by rewrite IH by (done || lia).
Qed.

Lemma until_nul_app v w : Forall (fun b => b <> x00) v -> until_nul (v ++ w) = v ++ until_nul w.
Proof. induction 1 as [|b v Hb _ IH]; cbn; [done|]. by rewrite bool_decide_false, IH by done. Qed.

Lemma until_nul_prefix s : until_nul s `prefix_of` s /\ Forall (fun b => b <> x00) (until_nul s).
Proof.
  induction s as [|b s [Hp Hf]]; cbn; [done|]. case_bool_decide as Hb; [split; [apply prefix_nil|done]|].
  split; [by apply prefix_cons|by constructor].
Qed.

Lemma after_prefix_some p s v : after_prefix p s = Some v <-> s = p ++ v.
Proof.
  revert s. induction p as [|b p IH]; intros s; cbn; [split; [by intros [= ->]|by intros ->]|].
  destruct s as [|c s]; [done|]. case_bool_decide as Hb; [subst c; rewrite IH|].
  - split; [by intros ->|by intros [= ->]].
  - split; [done|]. by intros [= -> _].
Qed.

Section Authfile.
Context {E IO : Type} `{SI : Stdio IO}.
Notation P := (process E IO).

(** A line is accepted if and only if it is the prefix, the value and a newline, and fits. *)
Lemma read_token_iff prefix file m1 m2 (p p' : P) v rest : clean prefix -> 
  read_token prefix file m1 m2 p = (Ret (v, rest), p') <->
  file = prefix ++ v ++ x0a :: rest /\ clean v /\ zlen prefix + zlen v < MAXAUTHTOKENLEN - 1 /\ p' = p.
Proof.
  intros Hpre. split.
  - unfold read_token, fgets. destruct (take_line _ file) as [l r] eqn:El. apply take_line_spec in El as (-> & Hl & Hn).
    destruct l as [|c l0] eqn:Ec; [done|]. rewrite <- Ec in *. clear Ec c l0.
    destruct (after_prefix prefix (until_nul l)) as [value|] eqn:Ea; [|done]. apply after_prefix_some in Ea.
    destruct (last value) as [b|] eqn:Eb; [|done]. case_bool_decide as Hb; [|done]. subst b. intros [= Ev <- <-].
    apply last_Some in Eb as [v' ->]. assert (v' = v) as ->.
    { rewrite zlen_app in Ev. change (zlen [x0a]) with 1 in Ev. rewrite Z.add_simpl_r in Ev. by rewrite ztake_app in Ev. }
    clear Ev. destruct (until_nul_prefix l) as [[t Ht] Hz]. rewrite Ea in *. rewrite <- app_assoc in *.
    destruct Hn as [Hn|(l' & El & Hn)].
    { exfalso. rewrite Forall_forall in Hn. apply (Hn x0a); [|done]. rewrite Ht. set_solver. }
    assert (t = []) as ->.
    { destruct t as [|c t _] using rev_ind; [done|exfalso]. rewrite Ht, !app_assoc in El. apply app_inj_tail in El as [El _].
      rewrite Forall_forall in Hn. apply (Hn x0a); [|done]. rewrite <- El. set_solver. }
    rewrite app_nil_r in Ht. rewrite El in Ht. rewrite (app_assoc prefix v) in Ht. apply app_inj_tail in Ht as [-> _].
    rewrite El. rewrite <- !app_assoc. split; [done|]. rewrite !Forall_app in *. split.
    { apply Forall_and. split; [tauto|]. tauto. }
    split; [|done]. rewrite El in Hl. rewrite !length_app in Hl. unfold MAXAUTHTOKENLEN, zlen in *. simpl in Hl. lia.
  - intros (-> & Hv & Hl & ->). unfold read_token, fgets. rewrite app_assoc.
    rewrite take_line_clean.
    + destruct ((prefix ++ v) ++ [x0a]) as [|c l0] eqn:Ec; [by destruct (prefix ++ v)|]. rewrite <- Ec. clear Ec c l0.
      rewrite until_nul_app.
      * rewrite <- app_assoc. cbn [until_nul]. rewrite bool_decide_false by done.
        rewrite (proj2 (after_prefix_some _ _ _) eq_refl), last_snoc, bool_decide_true by done.
        unfold ret. do 3 f_equal. rewrite zlen_app. change (zlen [x0a]) with 1. rewrite Z.add_simpl_r. by apply ztake_app.
      * apply Forall_app. split; eapply Forall_impl; try eassumption; by intros ? [].
    + by apply Forall_app.
    + unfold MAXAUTHTOKENLEN, zlen in *. rewrite length_app. lia.
Qed.

End Authfile.

(** The two lines of a credentials file, each value a text without newline or NUL of at most
    117 bytes. *)
Definition credentials (file u pw : list byte) : Prop :=
  file = USERNAMEPREFIX ++ u ++ x0a :: PASSWORDPREFIX ++ pw ++ [x0a] /\
  clean u /\ clean pw /\ zlen u <= 117 /\ zlen pw <= 117.

Lemma clean_prefixes : clean USERNAMEPREFIX /\ clean PASSWORDPREFIX /\ zlen USERNAMEPREFIX = 9 /\ zlen PASSWORDPREFIX = 9.
Proof. by repeat constructor. Qed.

Lemma authfile_read {E IO} `{SI : Stdio IO} (p p' : process E IO) path u pw :
  read_authfile path p = (Ret (u, pw), p') -> exists file io, fopen_r path (p_io p) = (Some file, io) /\ credentials file u pw.
Proof.
  destruct clean_prefixes as (Hc1 & Hc2 & Hl1 & Hl2). unfold read_authfile. unfold bind at 1.
  destruct (on_p_heap _ p) as [[[b1|]| | |] p1] eqn:E1; try done. unfold bind at 1.
  destruct (on_p_heap _ p1) as [[[b2|]| | |] p2] eqn:E2; try done.
  assert (Eio : p_io p2 = p_io p) by (apply on_p_heap_io in E1, E2; congruence).
  unfold bind at 1, stdio. rewrite Eio. destruct (fopen_r path (p_io p)) as [[file|] io]; [|done]. set (p3 := mk_process _ _ io).
  unfold bind at 1. destruct (read_token USERNAMEPREFIX _ _ _ p3) as [[[u1 f1]|?| |] p4] eqn:Et1; try done.
  apply read_token_iff in Et1 as (-> & Hu & Hul & ->); [|done]. unfold bind at 1.
  destruct (read_token PASSWORDPREFIX _ _ _ p3) as [[[pw1 f2]|?| |] p5] eqn:Et2; try done.
  apply read_token_iff in Et2 as (-> & Hpw & Hpwl & ->); [|done]. destruct f2; [|done]. intros [= -> -> _].
  unfold MAXAUTHTOKENLEN in *. eexists _, io. split; [done|]. split; [done|]. split; [done|]. split; [done|]. lia.
Qed.

(** The credentials file is read exactly: with memory and a file that can be opened,
    [read_authfile] returns a user name and a password if and only if the file is the
    two lines with them and nothing else. *)
Theorem authfile_accepted {E IO} `{SI : Stdio IO} (p : process E IO) path file io u pw :
  h_refuse (p_heap p) = [] -> heap_ok (p_heap p) -> fopen_r path (p_io p) = (Some file, io) ->
  (exists p', read_authfile path p = (Ret (u, pw), p')) <-> credentials file u pw.
Proof.
  intros Hr Hok Hf. split.
  { intros (p' & Hx). apply authfile_read in Hx as (file' & io' & Hf' & Hcr). rewrite Hf in Hf'. by injection Hf' as <- _. }
  destruct (malloc_owns MAXAUTHTOKENLEN _ Hr Hok) as (b1 & h1 & E1%on_p_heap_step & Hr1 & Hok1 & _).
  rewrite <- (p_heap_with h1 p) in Hr1, Hok1.
  destruct (malloc_owns MAXAUTHTOKENLEN _ Hr1 Hok1) as (b2 & h2 & E2%on_p_heap_step & _).
  unfold read_authfile. rewrite (bind_step _ _ _ _ _ E1). cbv iota. rewrite (bind_step _ _ _ _ _ E2). cbv iota.
  unfold bind at 1, stdio. cbn [with_heap p_io]. rewrite Hf. set (p3 := mk_process _ _ io).
  destruct clean_prefixes as (Hc1 & Hc2 & Hl1 & Hl2).
  intros (-> & Hu & Hpw & Hul & Hpwl). exists p3.
  rewrite (bind_step _ _ p3 (u, PASSWORDPREFIX ++ pw ++ [x0a]) p3).
  2:{ apply read_token_iff; [done|]. split; [done|]. split; [done|]. unfold MAXAUTHTOKENLEN. split; [lia|done]. }
  cbv iota beta. rewrite (bind_step _ _ p3 (pw, []) p3); [done|].
  apply read_token_iff; [done|]. split; [done|]. split; [done|]. unfold MAXAUTHTOKENLEN. split; [lia|done].
Qed.

(** A file that ends after [username:] makes the program look at the byte before its
    buffer. *)
Lemma authfile_empty_name {E IO} `{SI : Stdio IO} (p : process E IO) path io :
  h_refuse (p_heap p) = [] -> heap_ok (p_heap p) -> fopen_r path (p_io p) = (Some USERNAMEPREFIX, io) ->
  (read_authfile path p).1 = Undef.
Proof.
  intros Hr Hok Hf. destruct (malloc_owns MAXAUTHTOKENLEN _ Hr Hok) as (b1 & h1 & E1%on_p_heap_step & Hr1 & Hok1 & _).
  rewrite <- (p_heap_with h1 p) in Hr1, Hok1.
  destruct (malloc_owns MAXAUTHTOKENLEN _ Hr1 Hok1) as (b2 & h2 & E2%on_p_heap_step & _).
  unfold read_authfile. rewrite (bind_step _ _ _ _ _ E1). cbv iota. rewrite (bind_step _ _ _ _ _ E2). cbv iota.
  unfold bind at 1, stdio. cbn [with_heap p_io]. by rewrite Hf.
Qed.

(** ** Where to connect *)

Section Info.
Context {E IO : Type} `{SI : Stdio IO}.
Context (CHAR_MAX : Z) (WITH_SSL : bool).
Notation P := (process E IO).

(** Where [I] holds the function returns only with [Q] of what it returns, and then [J]. *)
Definition returns {A} (I J : P -> Prop) (Q : A -> Prop) (m : eff P A) : Prop :=
  forall p a p', I p -> m p = (Ret a, p') -> Q a /\ J p'.

Lemma returns_bind {A B} I J K (R : A -> Prop) (Q : B -> Prop) (m : eff P A) (k : A -> eff P B) :
  returns I J R m -> (forall a, R a -> returns J K Q (k a)) -> returns I K Q (bind m k).
Proof.
  intros Hm Hk p b p' Hp. unfold bind. destruct (m p) as [[a| | |] p1] eqn:Em; try done.
  destruct (Hm _ _ _ Hp Em) as [Ha H1]. by apply (Hk a).
Qed.

Lemma returns_ret {A} I (Q : A -> Prop) a : Q a -> returns I I Q (ret a : eff P A).
Proof. by intros HQ p b p' Hp [= -> <-]. Qed.

Lemma returns_die {A} I J (Q : A -> Prop) msg : returns I J Q (die msg : eff P A).
Proof. by intros p a p'. Qed.

Lemma returns_not_url I o msg : returns I I (fun _ => amqp_url o = None) (not_with_url o msg : eff P unit).
Proof. unfold not_with_url. destruct (amqp_url o); [apply returns_die|by apply returns_ret]. Qed.

Lemma returns_lift {A} I (Q : A -> Prop) (r : res A) : (forall a, r = Ret a -> Q a) -> returns I I Q (lift_res r : eff P A).
Proof. intros HQ p a p' Hp [= -> <-]. split; [by apply HQ|done]. Qed.

(** ... that need a [--url] not to be given. *)
Lemma returns_without_url {A} I J (Q : A -> Prop) o msg (m : eff P A) :
  (amqp_url o = None -> returns I J Q m) -> returns I J Q (do! not_with_url o msg in m).
Proof. intros Hm. eapply returns_bind; [apply returns_not_url|]. by intros []. Qed.

(** Since [io] the program has only printed messages. *)
Definition printed (io : IO) (p : P) : Prop := exists messages, p_io p = foldl (fun io m => eprint m io) io messages.

Lemma returns_heap {A} io (m : eff heap A) : returns (printed io) (printed io) (fun _ => True) (on_p_heap m : eff P A).
Proof. intros p a p' [l Hl] Em%on_p_heap_io. split; [done|]. exists l. by rewrite Em. Qed.

Lemma returns_stderr io msg : returns (printed io) (printed io) (fun _ => True) (fprintf_stderr msg : eff P unit).
Proof. intros p a p' [l Hl] [= _ <-]. split; [done|]. exists (l ++ [msg]). by rewrite foldl_app, <- Hl. Qed.

(** The parameters before the other options are looked at. *)
Definition base_info (o : options) (ci : info) : Prop :=
  match amqp_url o with
  | None => ci = mk_ci lit_guest lit_guest lit_localhost lit_slash 5672 false
  | Some url => exists u, amqp_parse_url CHAR_MAX (mk_url (url ++ [x00]) amqp_default_connection_info) = (Ret tt, u) /\
                read_info (u_buf u) (u_info u) = Ret ci
  end.

(** What [--server] says: the host, and after a colon the number of a port, unless it is none
    that an [int] holds.  Without a number it is that of AMQP, with [--ssl] that of AMQPS. *)
Definition server_says (o : options) (server host : list byte) (port : Z) : Prop :=
  match strchr x3a server with
  | Some (h, text) => host = h /\ amqp_port o < 0 /\ 0 <= port <= 65535 /\
                      exists v, strtol text = (v, zlen text) /\ text <> [] /\ (in_s 32 v -> port = v)
  | None => host = server /\ port = if WITH_SSL && amqp_ssl o then 5671 else 5672
  end.

Lemma info_of_url_returns io o : returns (printed io) (printed io) (base_info o) (info_of_url CHAR_MAX o : eff P info).
Proof.
  unfold info_of_url, base_info. destruct (amqp_url o) as [url|]; [|by apply returns_lift; intros ci [= <-]].
  eapply returns_bind; [apply returns_heap|]. intros [b|] _; [|by intros p a p'].
  destruct (amqp_parse_url _ _) as [[[]|st| |] u] eqn:Eu; [|..|by intros p a p'|by intros p a p'].
  - apply returns_lift. intros ci Hci. by exists u.
  - intros p a p' _. unfold bind. by destruct (die_amqp_error _ _ p) as [[]].
Qed.

Lemma use_server_returns io o ci : returns (printed io) (printed io) (fun c => amqp_server o = None /\ c = ci \/
    amqp_url o = None /\ exists s h n, amqp_server o = Some s /\ server_says o s h n /\ c = ci_with_server h n ci)
  (use_server WITH_SSL o ci : eff P info).
Proof.
  unfold use_server. destruct (amqp_server o) as [s|] eqn:Es; [|apply returns_ret; by left].
  apply returns_without_url. intros Hu. unfold server_says. destruct (strchr x3a s) as [[h text]|] eqn:Ec.
  - eapply returns_bind; [apply returns_stderr|]. intros [] _. eapply returns_bind; [apply returns_heap|].
    intros [b|] _; [|by intros p a p']. destruct (Z.leb_spec 0 (amqp_port o)); [apply returns_die|].
    destruct (strtol text) as [v k] eqn:Ev. destruct (_ || _) eqn:Eb; [apply returns_die|].
    apply orb_false_iff in Eb as [Eb Ek%negb_false_iff%Z.eqb_eq]. apply orb_false_iff in Eb as [Eb Ek0%Z.eqb_neq].
    apply orb_false_iff in Eb as [E1%Z.ltb_ge E2%Z.ltb_ge]. subst k.
    apply returns_ret. right. split; [done|]. exists s, h, (swrap 32 v). split; [done|]. split; [|done]. rewrite Ec.
    split; [done|]. split; [done|]. split; [lia|]. exists v. split; [done|]. split; [by intros ->|by apply swrap_small].
  - apply returns_ret. right. split; [done|]. do 3 eexists. split; [done|]. split; [|done]. by rewrite Ec.
Qed.

Lemma use_ssl_returns I o ci : returns I I (fun c => ci_ssl c = WITH_SSL && amqp_ssl o || ci_ssl ci /\
    (c = ci \/ amqp_url o = None /\ c = ci_with_ssl ci)) (use_ssl WITH_SSL o ci : eff P info).
Proof.
  unfold use_ssl. destruct (WITH_SSL && amqp_ssl o) eqn:Es, (ci_ssl ci) eqn:Ec; cbn; try (apply returns_ret; by split; [|left]).
  apply returns_without_url. intros Hu. apply returns_ret. by split; [|right].
Qed.

Lemma use_port_returns I o ci : returns I I (fun c => amqp_port o < 0 /\ c = ci \/
    amqp_url o = None /\ 0 <= amqp_port o /\ c = ci_with_port (amqp_port o) ci) (use_port o ci : eff P info).
Proof.
  unfold use_port. destruct (Z.leb_spec 0 (amqp_port o)); [|apply returns_ret; by left].
  apply returns_without_url. intros Hu. apply returns_ret. by right.
Qed.

Lemma use_credential_returns I o v m1 m2 set ci : returns I I (fun c => v = None /\ c = ci \/
    amqp_url o = None /\ amqp_authfile o = None /\ exists s, v = Some s /\ c = set s ci) (use_credential o v m1 m2 set ci : eff P info).
Proof.
  unfold use_credential. destruct v as [s|]; [|apply returns_ret; by left]. apply returns_without_url. intros Hu.
  destruct (amqp_authfile o); [apply returns_die|]. apply returns_ret. right. split; [done|]. split; [done|]. by exists s.
Qed.

(** What the file was when it was opened, where since [io] there have been messages only. *)
Definition file_says (io : IO) (path u pw : list byte) : Prop :=
  exists p file io', printed io p /\ fopen_r path (p_io p) = (Some file, io') /\ credentials file u pw.

Lemma use_authfile_returns io o ci : returns (printed io) (fun _ => True) (fun c => amqp_authfile o = None /\ c = ci \/
    amqp_url o = None /\ exists path u pw, amqp_authfile o = Some path /\ file_says io path u pw /\ c = ci_with_password pw (ci_with_user u ci))
  (use_authfile o ci : eff P info).
Proof.
  unfold use_authfile. destruct (amqp_authfile o) as [path|]; [|intros p c p' _ [= <- _]; split; [by left|done]].
  apply returns_without_url. intros Hu p c p' Hp. unfold bind. destruct (read_authfile path p) as [[[u pw]| | |] p1] eqn:Ea; try done.
  intros [= <- _]. split; [|done]. right. split; [done|]. apply authfile_read in Ea as (file & io' & Hf & Hc).
  exists path, u, pw. split; [done|]. split; [|done]. by exists p, file, io'.
Qed.

Lemma use_vhost_returns I o ci : returns I I (fun c => amqp_vhost o = None /\ c = ci \/
    amqp_url o = None /\ exists v, amqp_vhost o = Some v /\ c = ci_with_vhost v ci) (use_vhost o ci : eff P info).
Proof.
  unfold use_vhost. destruct (amqp_vhost o) as [v|]; [|apply returns_ret; by left]. apply returns_without_url. intros Hu.
  apply returns_ret. right. split; [done|]. by exists v.
Qed.

(** What an option gives, or else. *)
Definition given {A} (value : option A) (default : A) : A := match value with Some v => v | None => default end.

(** The parameters that the options other than [--url] describe. *)
Definition as_described (io : IO) (o : options) (ci : info) : Prop :=
  match amqp_server o with
  | None => ci_host ci = lit_localhost /\ ci_port ci = if 0 <=? amqp_port o then amqp_port o else 5672
  | Some s => exists n, server_says o s (ci_host ci) n /\ ci_port ci = if 0 <=? amqp_port o then amqp_port o else n
  end /\
  ci_vhost ci = given (amqp_vhost o) lit_slash /\
  ci_ssl ci = WITH_SSL && amqp_ssl o /\
  match amqp_authfile o with
  | None => ci_user ci = given (amqp_username o) lit_guest /\ ci_password ci = given (amqp_password o) lit_guest
  | Some path => amqp_username o = None /\ amqp_password o = None /\ file_says io path (ci_user ci) (ci_password ci)
  end.

(** No option but [--ssl], and that only if the URL says so. *)
Definition url_alone (o : options) (ci : info) : Prop :=
  amqp_server o = None /\ amqp_port o < 0 /\ amqp_vhost o = None /\ amqp_username o = None /\ amqp_password o = None /\
  amqp_authfile o = None /\ (WITH_SSL && amqp_ssl o = true -> ci_ssl ci = true).

Definition resolved (io : IO) (o : options) (ci : info) : Prop :=
  0 <= amqp_heartbeat o /\ match amqp_url o with Some _ => base_info o ci /\ url_alone o ci | None => as_described io o ci end.
End Info.


(** ** A system for the witnesses *)

Record demo_io := mk_demo { di_in : list byte; di_out : gmap Z (list byte) }.

(** Standard input in pieces of at most three bytes, and outputs that take as few. *)
#[local] Instance demo_stdio : Stdio demo_io := {|
  eintr := 4;
  strerror _ := [];
  read fd n io := if fd =? 0 then (inr (ztake (Z.min n 3) (di_in io)), mk_demo (zdrop (Z.min n 3) (di_in io)) (di_out io))
                  else (inr [], io);
  write fd bs io := (inr (Z.min 3 (zlen bs)), mk_demo (di_in io) (<[fd := default [] (di_out io !! fd) ++ ztake 3 bs]> (di_out io)));
  close _ io := (None, io);
  eprint m io := mk_demo (di_in io) (<[2 := default [] (di_out io !! 2) ++ m]> (di_out io));
  print m io := mk_demo (di_in io) (<[1 := default [] (di_out io !! 1) ++ m]> (di_out io));
  fopen_r _ io := (None, io);
  fgets_stdin _ io := (None, io);
  pipe io := (inr (3, 4), io);
  file_actions _ io := (0, io);
  posix_spawnp _ io := ((0, 7), io);
  waitpid _ io := (inr 0, io);
  exit_status st := Some st;
|}.

#[local] Instance demo_stdio_laws : StdioLaws demo_io.
Proof.
  refine (Build_StdioLaws demo_io demo_stdio (fun fd io => if fd =? 0 then di_in io else [])
            (fun fd io => default [] (di_out io !! fd)) _ _ _); cbn.
  - intros fd n [i o] r io' Hn. cbn. destruct (fd =? 0); intros [= <- <-]; [|split; [change (zlen []) with 0; lia|done]]. cbn. rewrite ztake_zdrop. split; [|split; [done|]].
    + unfold ztake, zlen. rewrite length_take. lia.
    + unfold ztake. destruct i; [done|]. destruct (Z.to_nat (Z.min n 3)) eqn:En; [lia|done].
  - intros fd bs [i o] r io' Hne [= <- <-]. cbn. rewrite lookup_insert_eq. cbn.
    assert (0 < zlen bs) by (destruct bs; [done|unfold zlen; simpl; lia]). split; [lia|]. f_equal.
    destruct (Z.le_gt_cases 3 (zlen bs)); [by rewrite Z.min_l by lia|]. rewrite Z.min_r by lia.
    by rewrite !ztake_all by lia.
  - intros fd m [i o] Hfd. cbn. by rewrite lookup_insert_ne.
Defined.

Definition hello : list byte := [x68; x65; x6c; x6c; x6f].
(** A header and a body in two fragments. *)
Definition demo_content : list amqp_frame_t :=
  [header_frame 1 demo_props hello; body_frame 1 [x68; x65; x6c]; body_frame 1 [x6c; x6f]].
Definition demo_content_chunks : list (list byte) := let w := wires demo_content in [ztake 30 w; zdrop 30 w].

Example body_copied_witness :
  copied 64 1 (mk_demo [] ∅) hello [] (copy_body (H := little_endian) zeros zero_basic 40 1
    (mk_process (inr demo_reader) (mk_script 1 demo_content_chunks [] true) (mk_demo [] ∅))).
Proof.
  apply (body_copied (H := little_endian) zeros zero_basic 40 zeros_len {[1; 2]} [] 64 1 1 demo_props hello
           [[x68; x65; x6c]; [x6c; x6f]] [] demo_content 2 demo_reader (mk_script 1 demo_content_chunks [] true) demo_content_chunks).
  - done.
  - done.
  - done.
  - by repeat (apply Forall_cons; split).
  - by vm_compute.
  - apply demo_reader_ready. by vm_compute.
  - pose proof demo_props_ok as Hp. repeat (apply Forall_cons; split); [..|by apply Forall_nil];
      (split; [|split; [by vm_compute|by eexists]]); (split; [done|]); done.
  - apply script_delivers. repeat (apply Forall_cons; split); [by vm_compute..|by apply Forall_nil].
  - by vm_compute.
  - simpl. lia.
Defined.

Definition demo_stdin_publish : publish_options :=
  mk_publish default_options (Some [x65]) (Some [x72]) None None None None None 1 false.
Definition demo_entries : process script demo_io :=
  mk_process (inr demo_publisher) (mk_script 1 [] [] true) (mk_demo (replicate 60 x61) ∅).

Example stdin_published_witness :
  let m := publish_method [x65] [x72] 0 0 in
  let fs := message_frames 1 56 m demo_props (replicate 60 x61) in
  published demo_entries None (mk_script 1 [] ([] ++ wires (map snd fs)) true)
    (publish_messages (H := little_endian) zeros zero_basic 100 demo_stdin_publish demo_props None demo_entries).
Proof.
  intros m fs.
  apply (stdin_published (H := little_endian) zeros zero_basic 100 demo_stdin_publish demo_props None demo_entries demo_publisher).
  - done.
  - done.
  - done.
  - done.
  - intros b s Hb. cbn in Hb. by rewrite lookup_empty in Hb.
  - done.
  - repeat split; by vm_compute.
  - done.
  - done.
  - by vm_compute.
  - repeat (apply Forall_cons; split); [..|by apply Forall_nil]; try done.
    split; [|simpl; lia]. unfold bit. repeat (apply Forall_cons; split); auto.
  - by vm_compute.
  - apply demo_props_ok.
  - by vm_compute.
  - simpl. lia.
  - apply (script_taken 100 _ ltac:(lia) 1 [] [] true).
Defined.

Definition demo_start : process unit demo_io := mk_process (inl demo_memory) tt (mk_demo [] ∅).


(** ** What the programs get wrong *)

(** The port of [--server] is narrowed to an [int] before it is compared with 65535. *)
Lemma server_port_narrowed :
  let o := mk_options None (Some (bytes_of "h:4294972968")) (-1) None None None 0 None false None None None in
  match init_connection_info 127 true o demo_start with
  | (Ret ci, _) => ci_host ci = [x68] /\ ci_port ci = 5672
  | _ => False
  end.
Proof. by vm_compute. Qed.

(** A header without a colon leaves an entry that cannot be encoded. *)
Lemma publish_without_colon :
  match publish_headers (Some [bytes_of "a: 1"; bytes_of "b"]) demo_start with
  | (Ret (_, t, _), _) =>
      t = [([x61], FV_UTF8 [x31]); empty_entry] /\
      (amqp_encode_table (H := little_endian) t (mk_enc (replicate 64 x00) 0)).1 = Err AMQP_STATUS_INVALID_PARAMETER
  | _ => False
  end.
Proof. by vm_compute. Qed.
